(* ===== verification/_CoqProject ===== *)
-Q . S2P
Prelude.v
GoStrings.v
GoLines.v
GoNet.v
GoUrl.v
Tokens.v
GoDecode.v
StoreDB.v
IPAlloc.v
Store.v
ConfigData.v
Config.v
Wg.v
Sha256.v
Stealth.v
SelfSigned.v
Carriers.v
Node.v
Speedtest.v
GoDuration.v
Bridge.v
GoJson.v
Services.v
Dns.v
Auth.v
DropClient.v
DropService.v
Telemetry.v
Wallet.v
ServiceAgent.v
Readiness.v
Api.v
Transport.v
Sentinel.v
Firewall.v
GatewayClient.v
Threads.v
Provenance.v
Concurrent.v
ControlChannel.v
P2P.v
Schema.v
Boot.v
Startup.v
System.v
Channel.v
Cli.v
Lifecycle.v
