(* ===== verification/Prelude.v ===== *)
(** * Erebrus node: a verification development

    The program (src/) is a VPN node: it keeps WireGuard peers in a SQLite
    store, configures the WireGuard interface, runs two stealth carriers
    (VLESS+Reality and Hysteria2, through sing-box), serves an HTTP API to its
    gateway, talks to the gateway over a control channel, publishes private
    services with a DNS resolver, enforces a DNS policy through a Sentinel
    sidecar, and offers file storage (Drop) through a Kubo sidecar.  This
    library translates the parts of it that carry state and decisions into
    executable definitions and proves what makes them correct.

    ** Files

    Shared:
    - Prelude (this file): Go errors as values, results, the state-and-error
      monad [M], sorting as a class, generic lemmas, the [erebrus] hint
      database and the [keeps] framework for relations preserved by programs.
    - GoStrings, GoLines, GoNet, GoUrl, GoDuration, GoJson, GoDecode, Sha256:
      the functions of Go's standard library that the code uses (strings,
      strconv, line scanning, net addresses, URL escaping, host:port,
      durations, JSON values and their decoding into structs, SHA-256), as
      executable functions on bytes.  Tokens: random hex and base64 tokens
      (stealth/secrets.go, node/service.go).
    - Threads: programs that stop at each call, pools of them, schedules, and
      rely-guarantee reasoning over the interleavings.

    Components, each with its sources under src/internal/:
    - StoreDB, Store (store/store.go, carriers.go, services.go, acls.go): the
      tables, the driver whose calls may fail, transactions with rollback, and
      every query and statement.  [UpsertPeer] is the transaction behind
      provisioning.  Schema (store/store.go, store/migrations/): the database
      file, the migrations as SQL text with a lexer and parser for the
      statements they use, the data source name with its pragmas (a reference
      is enforced only on a connection with [foreign_keys]), [Open], [Close].
    - IPAlloc (store/ipalloc.go): address allocation.
    - ConfigData, Config (config/): loading from the environment, modes,
      profiles, defaults, validation.
    - Wg (wg/): server keys, the rendered interface file, device sync.
    - Stealth (stealth/): secrets over the [SettingsStore] interface, the life
      cycle of the sing-box instance, server options, client profile.
      SelfSigned (stealth/tlscert.go, registry.go): the certificate template
      and the protocol registries.
    - Carriers (carriers/rotate.go): credential rotation.
    - Node (node/service.go, api/types.go): provisioning on top of the store,
      WireGuard and the carriers.  Concurrent: the same calls as threads that
      run in parallel and interleave at every store, file and device call.
    - Bridge (node/gateway.go, gatewayclient/messages.go): what the node tells
      the gateway and the commands it executes.
    - Services (services/, templates/): the service registry, access rules,
      presets.  Dns (dns/): the private resolver and the forwarder.
    - Auth (gatewayauth/verify.go, api/middleware.go): the check in front of
      the private API, with the keys it captures when the routes are built.
      Api (api/server.go, peers.go, drop.go): the handlers, written against
      the [Provisioner] interface, which Node implements; the handler of PUT
      also in its two parts, the checks and the provisioning.  Readiness
      (readiness/): the readiness report.
    - DropClient, DropService (drop/): bounded streams, the Kubo client, the
      health state and the identity handoff.
    - Transport (transport/): scoring and choice of transports.
    - Wallet (wallet/): chain names, addresses, public keys and challenge
      signatures derived from the mnemonic.
    - GatewayClient (gatewayclient/register.go, credentials.go, the loop Run
      of client.go): registration, stored credentials over the [SettingsStore]
      interface, token refresh, reconnecting.
    - ControlChannel (gatewayclient/client.go, heartbeat.go): one session on
      the control channel as a step machine of its two goroutines, written
      against the [ControlBackend] class, which Bridge implements.  Channel:
      the reconnect loop, its sessions and the goroutines they leave behind on
      the running node of System, as one machine.
    - Sentinel (sentinel/): the policy server of the sidecar: the blocklist
      files it writes, its validation and its HTTP handlers.  Firewall
      (firewall/): the node's client of it and the synchronisation of the
      gateway's policy; its peer in the model is the Sentinel of that file.
    - Speedtest (speedtest/), ServiceAgent (serviceagent/): the throughput
      measurements and the health of the firewall sidecar, both cached for
      reports.  Telemetry (telemetry/): the logger and the collectors.
    - P2P (p2p/): the libp2p identity and the start of the host.  Boot,
      Startup (nodeapp/run.go, registrar/): the start of the node, in the
      order of Run.  System (nodeapp/run.go): the running node, on which the
      HTTP server, the control channel, the background tasks and other
      processes act in any order; a PUT may wait between its checks and its
      provisioning while anything else happens.  Lifecycle (nodeapp/run.go):
      Run as a whole, from opening the database to the deferred calls, and the
      lives of the node on one host.  Cli (nodeapp/): the entry point and its
      subcommands.
    - Provenance: relates the programs of all layers to the store operations
      they run; the theorems on the whole node rest on it.

    The components interact as in the code: Node calls Store, Wg and Stealth;
    Carriers calls Stealth and Store; Bridge calls Node, Stealth and the
    firewall (through a record of operations); Api calls Auth, Node (through
    the [Provisioner] class), Readiness and DropService; Dns calls Services, which
    calls Store; GatewayClient calls Wallet; ControlChannel calls Bridge (through
    the [ControlBackend] class); Firewall exchanges requests with Sentinel; Boot
    and Startup put the components together, System lets them run, Channel joins
    the control client to it, and Lifecycle and Cli start and end it.  Their
    states are nested records, and [zoom] runs a component's program on its
    part.  The configuration that the code shares by pointer is one value in
    the running node, the one of the firewall client ([fc_cfg]).

    ** Conventions

    A function that returns an error is a [result]; one that also changes
    state is a program of [M S], whose state changes made before an error
    remain.  Failures of the database driver, of file and device calls and of
    sing-box are schedules in the state, so a theorem without a hypothesis on
    them covers every failure; a failing write may leave a file cut short.
    Values the code draws (clock, random ids and keys, certificates) are
    arguments.  Third-party code (WireGuard key parsing, PASETO verification,
    SHA3, DNS messages and exchange, Kubo, CID decoding, key derivation) is an
    argument of the definitions that use it; what a theorem needs of it is a
    hypothesis.  Widths matter where stated: int64 and uint16 arithmetic is
    written with its wrap-around.  Strings are byte sequences and case folding
    is on ASCII letters.

    Loops are structural or run on fuel that is shown to be enough: the
    allocation loop runs at most one round more than there are reserved
    addresses, a stream copy at most one read per byte and chunk, the JSON and
    duration decoders one round per byte of their input.  The control channel
    is a partial function on states, with the schedule as the list of its
    events; a pool of threads likewise, and each of its schedules may stop
    anywhere.  In Concurrent a transaction of the store and a call of the
    operating system are single steps: the store has one connection.  The
    theorems state that the result is produced, not only what it is if it is.

    ** What the theorems show

    - Store and allocation: the lowest free address is found or the subnet is
      exhausted; provisioning refines a map from id to peer; the constraints
      hold in every reachable database, an operation is refused exactly for its
      conflicts, failed operations change nothing, and a peer's address and
      credentials never change.  The migrations bring a file from any
      interrupted state to the schema, and the constraints that SQLite then
      enforces are exactly that invariant.
    - Node, WireGuard and API: a provisioned peer is live on the device;
      resync keeps exactly the gateway's list; the interface file has the
      intended lines exactly when no written field holds a newline; outside
      debug mode peers change only by requests that the authentication lets
      through, and a draining node admits no PUT.
    - The whole node: from the database before the start to any state of a
      run, whatever the order of events and whichever calls fail, peers change
      only on the gateway's authority, a drained node provisions nothing but
      what was in flight, and a peer keeps its address and credentials until
      it is removed.  The same authority holds when commands arrive as frames
      over sessions that come and go.  Calls that run in parallel keep the
      database consistent and leave on the device a list that the store had.
      Over any number of restarts the next Open succeeds with the rows of
      before, and a life that is not killed by another goroutine's panic
      leaves nothing open.
    - Gateway: commands are answered and touch only what they name; usage
      reports add up to the traffic; registration yields credentials for the
      node's own identity only, and reconnecting backs off between bounds.
      A session says hello first, reports and answers in order and ends in
      every way the code ends it; from each live state it can make progress.
    - Start: a node runs only with its essentials, connects under its own
      identity and keeps its registration over restarts; readiness and the
      exit code of the status command are characterised.
    - Policy: the Sentinel applies exactly the policy it accepts, the files are
      exactly the policy's entries, and synchronisation enforces the gateway's
      policy; the status report is independent of the node's secrets.
    - Secrets: keys and carrier secrets are stable, a running instance serves
      the secrets handed to clients, client profiles match the server.
    - Configuration: validation is characterised exactly, byte sizes never
      wrap, defaults are stable.
    - Services and DNS: published services are read back, private services
      admit exactly whom their rules name, registered names resolve locally.
    - Drop: an accepted upload has the declared bytes and digest and fits, the
      copies terminate on every stream that does; the identity handoff never
      replaces an identity.
    - Where the code does not do what it means to, the theorem states what it
      does: a malformed key is committed and blocks provisioning, a peer name
      can add configuration lines, the public key can be lost, the bind warning
      is lost, rotation records stay active and the grace period is only a
      record, unknown private names leave the node, mixed-case services do not
      resolve, uploads reserve nothing, a rule with a full DID never matches,
      a dial refused after each token refresh is repeated without a pause,
      usage read for a frame that is not sent is lost, a configured credential
      never counts as ready, a stale identity outlives its removal from the
      configuration, the licence check fails open, a flag crashes serve, a
      deleted peer can be put back on the device by a concurrent PUT, a writer
      outlives its session and takes a usage report with it, a listener that
      cannot bind ends the process with status 0, the peer routes accept a
      token without a node id, a PUT in flight crosses a drain, and Open
      ignores permissions that it could not set.

    ** Not modelled

    Sockets and TLS (listening, dialling and shutting down are calls with an
    outcome); the pages of the SQLite file and SQL beyond the statements of the
    migrations and the queries; the sing-box protocol implementations, the
    encoding of certificates and the Prometheus exposition; memory-level data
    races (a goroutine's access to a shared object is one step); the bodies of
    proxied requests and the JSON text of responses (the values encoded are
    modelled); time-outs and deadlines, other than as failures; the main
    functions of cmd/erebrus and cmd/erebrus-node, which only call the entry
    point.  These are calls into libraries or the operating system with no
    decision of the program's own. *)
From Stdlib Require Export Ascii.
From stdpp Require Export base list gmap strings pretty sorting.
From Stdlib Require Export ZArith Lia.

#[global] Open Scope string_scope.
#[global] Open Scope list_scope.
#[global] Open Scope Z_scope.
#[global] Arguments String.append !_ _ / : simpl nomatch.

(** ** Errors

    A Go [error] is a package-level sentinel ([EVar], compared by identity by
    [errors.Is]), a message built by [errors.New] or by [fmt.Errorf] without
    [%w] ([EMsg]), or a wrapped error, [fmt.Errorf("pre%wpost", e)]
    ([EWrap]).  A run-time panic ends a call as well: it is [EPanic], which
    no caller of the code that can raise it inspects. *)
Inductive errvar :=
| ErrNotFound | ErrSubnetExhausted | ErrNoRows
| ErrByteLimit | ErrSizeMismatch | ErrHashMismatch
| ErrDisabled | ErrUnavailable | ErrStorageFull
| ErrIdentityConflict | ErrNotExist | EOF.

Inductive error :=
| EVar (v : errvar)
| EMsg (s : string)
| EWrap (pre : string) (e : error) (post : string)
| EPanic (s : string).

#[export] Instance errvar_eq_dec : EqDecision errvar.
Proof. solve_decision. Defined.

#[export] Instance error_eq_dec : EqDecision error.
Proof. solve_decision. Defined.

(** The text of each sentinel, as its [errors.New] declares it. *)
Definition errvar_text (v : errvar) : string :=
  match v with
  | ErrNotFound => "not found"
  | ErrSubnetExhausted => "wireguard subnet exhausted"
  | ErrNoRows => "sql: no rows in result set"
  | ErrByteLimit => "Drop byte limit exceeded"
  | ErrSizeMismatch => "uploaded size does not match reservation"
  | ErrHashMismatch => "uploaded SHA-256 does not match reservation"
  | ErrDisabled => "Drop is disabled"
  | ErrUnavailable => "Drop is unavailable"
  | ErrStorageFull => "Drop storage reservation exceeds capacity"
  | ErrIdentityConflict =>
      "existing Kubo identity conflicts with the mnemonic-derived Drop identity"
  | ErrNotExist => "file does not exist"
  | EOF => "EOF"
  end.

(** [err.Error()]. *)
Fixpoint error_text (e : error) : string :=
  match e with
  | EVar v => errvar_text v
  | EMsg s => s
  | EWrap pre e post => pre +:+ error_text e +:+ post
  | EPanic s => "panic: " +:+ s
  end.

(** [errors.Is(err, v)] for a sentinel [v]. *)
Fixpoint errors_Is (e : error) (v : errvar) : bool :=
  match e with
  | EVar v' => bool_decide (v' = v)
  | EMsg _ | EPanic _ => false
  | EWrap _ e _ => errors_Is e v
  end.

(** ** Results and the state-and-error monad

    A Go function returning [(T, error)] is a [result]; one that also changes
    state is an [M S T].  An [Err] leaves the state changes made before it in
    place, as in Go. *)
Inductive result (A : Type) :=
| Ok (a : A)
| Err (e : error).
Arguments Ok {A} _.
Arguments Err {A} _.

#[export] Instance result_ret : MRet result := fun A a => Ok a.
#[export] Instance result_bind : MBind result := fun A B f r =>
  match r with Ok a => f a | Err e => Err e end.
#[export] Instance result_fmap : FMap result := fun A B f r =>
  match r with Ok a => Ok (f a) | Err e => Err e end.

Definition M (S A : Type) : Type := S → result A * S.

#[export] Instance M_ret S : MRet (M S) := fun A a s => (Ok a, s).
#[export] Instance M_bind S : MBind (M S) := fun A B f m s =>
  match m s with
  | (Ok a, s') => f a s'
  | (Err e, s') => (Err e, s')
  end.

Definition fail {S A} (e : error) : M S A := fun s => (Err e, s).
Definition get {S} : M S S := fun s => (Ok s, s).
Definition put {S} (s : S) : M S unit := fun _ => (Ok tt, s).
Definition gets {S A} (f : S → A) : M S A := fun s => (Ok (f s), s).
Definition run {S A} (f : S → result A * S) : M S A := f.
Definition lift {S A} (r : result A) : M S A := fun s => (r, s).
(** Runs [m] and hands its result over as a value: the caller inspects the
    error, as [if err != nil] does. *)
Definition try {S A} (m : M S A) : M S (result A) := fun s =>
  let '(r, s') := m s in (Ok r, s').

(** Runs [m] on a component of the state. *)
Definition zoom {S T A} (get_part : S → T) (set_part : T → S → S) (m : M T A) : M S A := fun s =>
  let '(r, t) := m (get_part s) in (r, set_part t s).

(** [for _, x := range l { if err := f(x); err != nil { return err } }] *)
Fixpoint for_each {S A} (f : A → M S unit) (l : list A) : M S unit :=
  match l with
  | [] => mret tt
  | x :: l => _ ← f x; for_each f l
  end.

Definition is_ok {A} (r : result A) : bool :=
  match r with Ok _ => true | Err _ => false end.

(** Weakest precondition of a monadic program: [wp m s Q] holds when the
    outcome of [m] from [s] satisfies [Q]. *)
Definition wp {S A} (m : M S A) (s : S) (Q : result A → S → Prop) : Prop :=
  Q (m s).1 (m s).2.

(** ** Sorting

    [sort.Slice], [sort.Strings] and SQL's [ORDER BY] return a permutation
    with no inversion between neighbours; the order of equal elements is not
    specified.  The code relies on this contract only, so it is a class; the
    theorems hold of every instance, and [insertion_sorting] is an executable
    one. *)
Class Sorting := {
  sort_by : ∀ {A : Type}, (A → A → bool) → list A → list A;
  sort_by_perm : ∀ A (less : A → A → bool) l, sort_by less l ≡ₚ l;
  sort_by_sorted : ∀ A (less : A → A → bool) l,
    (∀ x y, less x y = true → less y x = false) →
    Sorted (λ x y, less y x = false) (sort_by less l);
}.

Fixpoint insert_by {A} (less : A → A → bool) (x : A) (l : list A) : list A :=
  match l with
  | [] => [x]
  | y :: l => if less y x then y :: insert_by less x l else x :: y :: l
  end.

Definition insertion_sort {A} (less : A → A → bool) (l : list A) : list A :=
  foldr (insert_by less) [] l.

(** [x < y] on strings, bytewise: Go's [<] and SQLite's BINARY collation. *)
Definition string_ltb (x y : string) : bool :=
  match String.compare x y with Lt => true | _ => false end.

(** ** Lists *)

Fixpoint find_first {A} (p : A → bool) (l : list A) : option A :=
  match l with
  | [] => None
  | x :: l => if p x then Some x else find_first p l
  end.

(** The last element the loop [for _, x := range l] stores in a variable. *)
Fixpoint last_match {A} (p : A → bool) (d : option A) (l : list A) : option A :=
  match l with
  | [] => d
  | x :: l => last_match p (if p x then Some x else d) l
  end.

(** ** Lemmas *)

Create HintDb erebrus discriminated.
#[export] Hint Constants Opaque : erebrus.

Lemma insert_by_perm {A} (less : A → A → bool) x l :
  insert_by less x l ≡ₚ x :: l.
Proof.
  induction l as [|y l IH]; simpl; [done|].
  destruct (less y x); [|done]. rewrite IH. apply Permutation_swap.
Qed.

Lemma insertion_sort_perm {A} (less : A → A → bool) l :
  insertion_sort less l ≡ₚ l.
Proof.
  induction l as [|x l IH]; simpl; [done|].
  by rewrite insert_by_perm, IH.
Qed.

Lemma insert_by_HdRel {A} (less : A → A → bool) x y l :
  less x y = false → HdRel (λ x y, less y x = false) y l →
  HdRel (λ x y, less y x = false) y (insert_by less x l).
Proof.
  intros Hxy Hl. destruct l as [|z l]; simpl; [by constructor|].
  apply HdRel_inv in Hl. destruct (less z x); by constructor.
Qed.

Lemma insertion_sort_sorted {A} (less : A → A → bool) l :
  (∀ x y, less x y = true → less y x = false) →
  Sorted (λ x y, less y x = false) (insertion_sort less l).
Proof.
  intros Hasym. induction l as [|x l IH]; simpl; [constructor|].
  induction IH as [|y l' Hs IH' Hhd]; simpl; [by repeat constructor|].
  destruct (less y x) eqn:E.
  - constructor; [done|]. apply insert_by_HdRel; auto.
  - repeat constructor; auto.
Qed.

#[export] Instance insertion_sorting : Sorting | 100 := {|
  sort_by := @insertion_sort;
  sort_by_perm := @insertion_sort_perm;
  sort_by_sorted := @insertion_sort_sorted;
|}.

Lemma find_first_Some {A} (p : A → bool) l x :
  find_first p l = Some x → x ∈ l ∧ p x = true.
Proof.
  induction l as [|y l IH]; simpl; [done|].
  destruct (p y) eqn:E; intros; simplify_eq; [split; [left|done]|].
  destruct (IH H). split; [by right|done].
Qed.

Lemma find_first_None {A} (p : A → bool) l :
  find_first p l = None ↔ ∀ x, x ∈ l → p x = false.
Proof.
  induction l as [|y l IH]; simpl; [by split; [intros _ x ?%not_elem_of_nil|]|].
  destruct (p y) eqn:E.
  - split; [done|]. intros H. specialize (H y ltac:(left)). congruence.
  - rewrite IH. split; [|intros H x Hx; apply H; by right].
    intros H x [->|Hx]%elem_of_cons; auto.
Qed.

(** With a column free of duplicates, the first match is the only one. *)
Lemma find_first_unique {A B} (f : A → B) (p : A → bool) l x :
  NoDup (f <$> l) → (∀ y, p y = true ↔ f y = f x) → x ∈ l →
  find_first p l = Some x.
Proof.
  intros Hnd Hp Hx. destruct (find_first p l) as [y|] eqn:E.
  - apply find_first_Some in E as [Hy Ey]. apply Hp in Ey. f_equal.
    apply list_elem_of_lookup in Hx as [i Hi], Hy as [j Hj].
    assert (i = j) as ->; [|congruence].
    eapply NoDup_lookup; [done| |]; rewrite list_lookup_fmap.
    + by rewrite Hi. + rewrite Hj; simpl; congruence.
  - exfalso. eapply find_first_None in E; [|exact Hx].
    rewrite (proj2 (Hp x)) in E; done.
Qed.

(** ** Inversion of monadic runs *)

Lemma bind_ok {S A B} (m : M S A) (f : A → M S B) s b s' :
  (m ≫= f) s = (Ok b, s') ↔ ∃ a s1, m s = (Ok a, s1) ∧ f a s1 = (Ok b, s').
Proof.
  unfold mbind, M_bind. destruct (m s) as [[a|e] s1]; split.
  - intros; eauto. - intros (? & ? & [= <- <-] & ?); done.
  - done. - by intros (? & ? & [=] & ?).
Qed.

Lemma bind_Ok {S A B} (m : M S A) (f : A → M S B) s a s1 :
  m s = (Ok a, s1) → (m ≫= f) s = f a s1.
Proof. unfold mbind, M_bind. by intros ->. Qed.

Lemma bind_Err {S A B} (m : M S A) (f : A → M S B) s e s1 :
  m s = (Err e, s1) → (m ≫= f) s = (Err e, s1).
Proof. unfold mbind, M_bind. by intros ->. Qed.

Lemma bind_inv {S A B} (m : M S A) (f : A → M S B) s r s' :
  (m ≫= f) s = (r, s') →
  (∃ a s1, m s = (Ok a, s1) ∧ f a s1 = (r, s')) ∨ (∃ e, m s = (Err e, s') ∧ r = Err e).
Proof.
  unfold mbind, M_bind. destruct (m s) as [[a|e] s1]; intros; simplify_eq; eauto 10.
Qed.

(** A caught error is handed to the continuation. *)
Lemma try_bind {S A B} (m : M S A) (f : result A → M S B) s r s1 :
  m s = (r, s1) → (try m ≫= f) s = f r s1.
Proof. unfold mbind, M_bind, try. by intros ->. Qed.

Lemma try_inv {S A B} (m : M S A) (f : result A → M S B) s r s' :
  (try m ≫= f) s = (r, s') → ∃ x s1, m s = (x, s1) ∧ f x s1 = (r, s').
Proof. destruct (m s) as [x s1] eqn:E. rewrite (try_bind _ _ _ _ _ E). eauto. Qed.

(** A program all of whose steps keep a relation between states keeps it:
    [keeps R m] says every run of [m] relates its start to its end. *)
Definition keeps {S A} (R : S → S → Prop) (m : M S A) : Prop :=
  ∀ s r s', m s = (r, s') → R s s'.

Section keeps.
Context {S : Type} (R : S → S → Prop) `{!PreOrder R}.

Lemma keeps_ret {A} (a : A) : keeps R (mret a).
Proof. intros s r s' [= <- <-]. reflexivity. Qed.

Lemma keeps_fail {A} e : keeps R (fail (A := A) e).
Proof. intros s r s' [= <- <-]. reflexivity. Qed.

Lemma keeps_lift {A} (x : result A) : keeps R (lift x).
Proof. intros s r s' [= <- <-]. reflexivity. Qed.

Lemma keeps_bind {A B} (m : M S A) (f : A → M S B) :
  keeps R m → (∀ a, keeps R (f a)) → keeps R (m ≫= f).
Proof.
  intros Hm Hf s r s' [(a & s1 & E1 & E2)|(e & E & ->)]%bind_inv.
  - etransitivity; [by eapply Hm|by eapply Hf].
  - by eapply Hm.
Qed.

Lemma keeps_try {A} (m : M S A) : keeps R m → keeps R (try m).
Proof.
  intros Hm s r s'. unfold try. destruct (m s) as [r1 s1] eqn:E.
  intros [= <- <-]. by eapply Hm.
Qed.
End keeps.

#[export] Hint Resolve keeps_ret keeps_fail keeps_lift keeps_bind keeps_try : erebrus.

Lemma zoom_inv {S T A} (g : S → T) (u : T → S → S) (m : M T A) s r s' :
  zoom g u m s = (r, s') → ∃ t, m (g s) = (r, t) ∧ s' = u t s.
Proof. unfold zoom. destruct (m (g s)) as [r1 t]. intros [= <- <-]. eauto. Qed.

(** What each iteration establishes and no iteration destroys holds of every
    element after the loop. *)
Lemma for_each_all {S A} (f : A → M S unit) (Q : A → S → Prop) l s s' :
  (∀ x s s', f x s = (Ok tt, s') → Q x s') →
  (∀ x y s r s', f y s = (r, s') → Q x s → Q x s') →
  for_each f l s = (Ok tt, s') → ∀ x, x ∈ l → Q x s'.
Proof.
  intros Hin Hkeep. revert s. induction l as [|y l IH]; cbn [for_each].
  - intros s _ x H. by apply not_elem_of_nil in H.
  - intros s ([] & s1 & E1 & E2)%bind_ok x [->|Hx]%elem_of_cons; [|by eapply IH].
    assert (∀ l s1 s' r, for_each f l s1 = (r, s') → Q y s1 → Q y s') as Hl.
    { clear -Hkeep. induction l as [|z l IH]; cbn [for_each]; [by intros s1 s' r [= <- <-]|].
      intros s1 s' r [(a & s2 & E1 & E2)|(e & E & _)]%bind_inv Hq; [|by eapply Hkeep].
      eapply IH; [exact E2|]. by eapply Hkeep. }
    eapply Hl; [exact E2|]. by eapply Hin.
Qed.

Lemma keeps_for_each {S A} (R : S → S → Prop) `{!PreOrder R} (f : A → M S unit) l :
  (∀ x, keeps R (f x)) → keeps R (for_each f l).
Proof.
  intros H. induction l as [|x l IH]; cbn [for_each]; [by apply keeps_ret|].
  apply keeps_bind; [done|done|]. by intros [].
Qed.
