(* ===== verification/GoStrings.v ===== *)
(** * Go's [strings], [strconv] and [encoding/hex], as the node uses them

    Go strings are byte strings.  The functions that Go defines on runes
    ([ToLower], [ToUpper], [TrimSpace], [EqualFold]) are written for ASCII
    text: bytes of 128 and above are not letters and not spaces here.  Every
    other function is exact on all bytes. *)
From S2P Require Import Prelude.

(** ** Bytes *)

Definition code (c : Ascii.ascii) : Z := Z.of_N (Ascii.N_of_ascii c).
Definition chr (z : Z) : Ascii.ascii := Ascii.ascii_of_N (Z.to_N z).

(** The two bytes the source writes in string literals that have no literal
    form here: the newline and the double quote. *)
Definition newline : string := String (chr 10) EmptyString.
Definition dquote : string := String (chr 34) EmptyString.

Definition in_range (lo hi : Z) (c : Ascii.ascii) : bool :=
  (lo <=? code c) && (code c <=? hi).

Definition is_digit : Ascii.ascii → bool := in_range 48 57.
Definition is_upper : Ascii.ascii → bool := in_range 65 90.
Definition is_lower : Ascii.ascii → bool := in_range 97 122.
(** Tab, newline, vertical tab, form feed, carriage return and space. *)
Definition is_space (c : Ascii.ascii) : bool := in_range 9 13 c || (code c =? 32).

Definition to_lower (c : Ascii.ascii) : Ascii.ascii :=
  if is_upper c then chr (code c + 32) else c.
Definition to_upper (c : Ascii.ascii) : Ascii.ascii :=
  if is_lower c then chr (code c - 32) else c.

(** ** [strings] *)

Fixpoint smap (f : Ascii.ascii → Ascii.ascii) (s : string) : string :=
  match s with
  | EmptyString => EmptyString
  | String c s => String (f c) (smap f s)
  end.

Fixpoint sfilter (p : Ascii.ascii → bool) (s : string) : string :=
  match s with
  | EmptyString => EmptyString
  | String c s => if p c then String c (sfilter p s) else sfilter p s
  end.

Fixpoint sforall (p : Ascii.ascii → bool) (s : string) : bool :=
  match s with
  | EmptyString => true
  | String c s => p c && sforall p s
  end.

Definition ToLower : string → string := smap to_lower.
Definition ToUpper : string → string := smap to_upper.
Definition EqualFold (a b : string) : bool := bool_decide (ToLower a = ToLower b).

Fixpoint trim_left (p : Ascii.ascii → bool) (s : string) : string :=
  match s with
  | EmptyString => EmptyString
  | String c s' => if p c then trim_left p s' else s
  end.

(** Drops the longest suffix of bytes satisfying [p]. *)
Fixpoint trim_right (p : Ascii.ascii → bool) (s : string) : string :=
  match s with
  | EmptyString => EmptyString
  | String c s =>
      match trim_right p s with
      | EmptyString => if p c then EmptyString else String c EmptyString
      | s' => String c s'
      end
  end.

Definition TrimSpace (s : string) : string := trim_right is_space (trim_left is_space s).
(** [strings.TrimRight(s, "/")]: the one cutset the node uses. *)
Definition TrimRight_slash : string → string := trim_right (λ c, code c =? 47).

Definition HasPrefix (s p : string) : bool := String.prefix p s.

(** The rest of [s] after the prefix [p], if it is one. *)
Fixpoint strip_prefix (p s : string) : option string :=
  match p, s with
  | EmptyString, _ => Some s
  | String a p, String b s => if Ascii.eqb a b then strip_prefix p s else None
  | _, _ => None
  end.

Definition TrimPrefix (s p : string) : string := default s (strip_prefix p s).

(** The part of [s] before the suffix [suf], if it is one. *)
Fixpoint strip_suffix (suf s : string) : option string :=
  if String.eqb s suf then Some EmptyString else
  match s with
  | EmptyString => None
  | String c s => String c <$> strip_suffix suf s
  end.

Definition HasSuffix (s suf : string) : bool :=
  match strip_suffix suf s with Some _ => true | None => false end.
Definition TrimSuffix (s suf : string) : string := default s (strip_suffix suf s).

(** [s] cut at the first occurrence of [sub]: the text before and after. *)
Fixpoint cut (sub s : string) : option (string * string) :=
  match strip_prefix sub s with
  | Some rest => Some (EmptyString, rest)
  | None =>
      match s with
      | EmptyString => None
      | String c s => '(a, b) ← cut sub s; Some (String c a, b)
      end
  end.

Definition Contains (s sub : string) : bool :=
  match cut sub s with Some _ => true | None => false end.

(** [strings.Replace(s, old, new, 1)]. *)
Definition Replace1 (s old new : string) : string :=
  match cut old s with
  | Some (a, b) => a +:+ new +:+ b
  | None => s
  end.

(** [strings.ReplaceAll] with one-byte old and new strings. *)
Definition ReplaceAll1 (s : string) (old new : Ascii.ascii) : string :=
  smap (λ c, if Ascii.eqb c old then new else c) s.

(** [strings.Split(s, sep)] for a one-byte separator. *)
Fixpoint Split (s : string) (sep : Ascii.ascii) : list string :=
  match s with
  | EmptyString => [EmptyString]
  | String c s =>
      if Ascii.eqb c sep then EmptyString :: Split s sep
      else match Split s sep with
           | [] => [String c EmptyString]
           | w :: ws => String c w :: ws
           end
  end.

Fixpoint Join (l : list string) (sep : string) : string :=
  match l with
  | [] => EmptyString
  | [x] => x
  | x :: l => x +:+ sep +:+ Join l sep
  end.

(** [s] cut at the last occurrence of the byte [c] ([strings.LastIndex]). *)
Fixpoint cut_last (c : Ascii.ascii) (s : string) : option (string * string) :=
  match s with
  | EmptyString => None
  | String x s =>
      match cut_last c s with
      | Some (a, b) => Some (String x a, b)
      | None => if Ascii.eqb x c then Some (EmptyString, s) else None
      end
  end.

Definition slen (s : string) : Z := Z.of_nat (String.length s).

(** ** [strconv] *)

Definition min_int64 : Z := - 2 ^ 63.
Definition max_int64 : Z := 2 ^ 63 - 1.
Definition wrap_int64 (z : Z) : Z := (z + 2 ^ 63) mod 2 ^ 64 - 2 ^ 63.
Definition wrap_uint16 (z : Z) : Z := z mod 2 ^ 16.

(** The value of a non-empty run of decimal digits. *)
Fixpoint digits (acc : Z) (s : string) : option Z :=
  match s with
  | EmptyString => Some acc
  | String c s => if is_digit c then digits (acc * 10 + (code c - 48)) s else None
  end.

(** [strconv.ParseInt(s, 10, 64)], and [strconv.Atoi] on a 64-bit host:
    an optional sign and at least one decimal digit, within int64. *)
Definition ParseInt (s : string) : option Z :=
  let '(neg, d) :=
    match s with
    | String c s' =>
        if code c =? 45 then (true, s')
        else if code c =? 43 then (false, s') else (false, s)
    | EmptyString => (false, s)
    end in
  match d with
  | EmptyString => None
  | _ =>
      n ← digits 0 d;
      let z := if neg then - n else n in
      if (min_int64 <=? z) && (z <=? max_int64) then Some z else None
  end.

(** [n, _ := strconv.Atoi(s)]: 0 on a syntax error; on a range error Atoi
    returns the nearest int64 bound, which the caller keeps. *)
Definition Atoi_or_0 (s : string) : Z :=
  match ParseInt s with
  | Some z => z
  | None =>
      let '(neg, d) :=
        match s with
        | String c s' =>
            if code c =? 45 then (true, s')
            else if code c =? 43 then (false, s') else (false, s)
        | EmptyString => (false, s)
        end in
      match d with
      | EmptyString => 0
      | _ => match digits 0 d with
             | Some _ => if neg then min_int64 else max_int64
             | None => 0
             end
      end
  end.

(** [strconv.Itoa] and [%d]. *)
Definition Itoa (z : Z) : string := pretty z.

(** [strconv.ParseBool]. *)
Definition ParseBool (s : string) : option bool :=
  if bool_decide (s ∈ ["1"; "t"; "T"; "TRUE"; "true"; "True"]) then Some true
  else if bool_decide (s ∈ ["0"; "f"; "F"; "FALSE"; "false"; "False"]) then Some false
  else None.

(** ** [encoding/hex] *)

Definition hex_digit (c : Ascii.ascii) : option Z :=
  if is_digit c then Some (code c - 48)
  else if in_range 97 102 c then Some (code c - 87)
  else if in_range 65 70 c then Some (code c - 55)
  else None.

(** [hex.DecodeString]: pairs of hex digits, as bytes. *)
Fixpoint hex_decode (s : string) : option (list Z) :=
  match s with
  | EmptyString => Some []
  | String a (String b s) =>
      x ← hex_digit a; y ← hex_digit b; l ← hex_decode s;
      Some (x * 16 + y :: l)
  | _ => None
  end.

Definition hex_char (n : Z) : Ascii.ascii := chr (if n <? 10 then 48 + n else 87 + n).

Fixpoint hex_encode (l : list Z) : string :=
  match l with
  | [] => EmptyString
  | b :: l => String (hex_char (b / 16)) (String (hex_char (b mod 16)) (hex_encode l))
  end.

(** ** [%q]

    Quotes and backslashes are escaped with a backslash, control characters
    by their short name or as [\x] and two hex digits; bytes of valid
    printable UTF-8 text from 128 on stand for themselves. *)
Definition short_escape (z : Z) : option Ascii.ascii :=
  if z =? 34 then Some (chr 34) else if z =? 92 then Some (chr 92)
  else if z =? 7 then Some "a"%char else if z =? 8 then Some "b"%char
  else if z =? 12 then Some "f"%char else if z =? 10 then Some "n"%char
  else if z =? 13 then Some "r"%char else if z =? 9 then Some "t"%char
  else if z =? 11 then Some "v"%char else None.

Fixpoint escape_q (s : string) : string :=
  match s with
  | EmptyString => EmptyString
  | String c s =>
      match short_escape (code c) with
      | Some e => String (chr 92) (String e (escape_q s))
      | None =>
          if (code c <? 32) || (code c =? 127)
          then String (chr 92) (String "x" (String (hex_char (code c / 16))
                 (String (hex_char (code c mod 16)) (escape_q s))))
          else String c (escape_q s)
      end
  end.
Definition quote_q (s : string) : string := dquote +:+ escape_q s +:+ dquote.

(** ** Lemmas *)

Lemma sforall_spec p s :
  sforall p s = true ↔ Forall (λ c, p c = true) (String.list_ascii_of_string s).
Proof.
  induction s as [|c s IH]; simpl; [split; auto|].
  rewrite andb_true_iff, IH, Forall_cons. done.
Qed.

Lemma length_app_str (a b : string) :
  String.length (a +:+ b) = (String.length a + String.length b)%nat.
Proof. induction a as [|c a IH]; simpl; [done|]. by f_equal. Qed.

Lemma slen_app a b : slen (a +:+ b) = slen a + slen b.
Proof. unfold slen. rewrite length_app_str. lia. Qed.

Lemma app_nil_str (s : string) : s +:+ EmptyString = s.
Proof. induction s as [|c s IH]; simpl; [done|]. f_equal. exact IH. Qed.

Lemma app_assoc_str (a b c : string) : a +:+ (b +:+ c) = (a +:+ b) +:+ c.
Proof. induction a as [|x a IH]; simpl; [done|]. f_equal. exact IH. Qed.

Lemma app_inj_str (a b c : string) : a +:+ b = a +:+ c → b = c.
Proof. induction a as [|x a IH]; simpl; [done|]. intros [=]; auto. Qed.

Lemma strip_prefix_spec p s r : strip_prefix p s = Some r ↔ s = p +:+ r.
Proof.
  revert s. induction p as [|a p IH]; intros s; simpl.
  - split; [by intros [=]|by intros ->].
  - destruct s as [|b s]; simpl; [done|].
    destruct (Ascii.eqb_spec a b) as [->|]; [rewrite IH; split; congruence|].
    split; [done|congruence].
Qed.

Lemma TrimPrefix_app p r : TrimPrefix (p +:+ r) p = r.
Proof.
  unfold TrimPrefix. by rewrite (proj2 (strip_prefix_spec p (p +:+ r) r)).
Qed.

Lemma HasPrefix_spec s p : HasPrefix s p = true ↔ ∃ r, s = p +:+ r.
Proof.
  unfold HasPrefix. revert s. induction p as [|a p IH]; intros s; simpl.
  - split; [by exists s|by destruct s].
  - destruct s as [|b s]; simpl; [split; [done|by intros [? ?]]|].
    destruct (Ascii.ascii_dec a b) as [->|Hne].
    + rewrite IH. split; intros [r Hr]; exists r; congruence.
    + split; [done|]. intros [r Hr]; congruence.
Qed.

Lemma strip_suffix_Some suf s r : strip_suffix suf s = Some r → s = r +:+ suf.
Proof.
  revert r. induction s as [|c s IH]; intros r; cbn [strip_suffix];
    match goal with |- context [String.eqb ?x suf] =>
      destruct (String.eqb_spec x suf) as [<-|_] end;
    try (intros [= <-]; done).
  intros (r' & Hr & ->)%fmap_Some. simpl. f_equal. auto.
Qed.

Lemma strip_suffix_app s suf : strip_suffix suf (s +:+ suf) = Some s.
Proof.
  induction s as [|c s IH]; cbn [strip_suffix String.append].
  - destruct suf; cbn [strip_suffix]; by rewrite String.eqb_refl.
  - destruct (String.eqb_spec (String c (s +:+ suf)) suf) as [E|_].
    + apply (f_equal String.length) in E. cbn [String.length] in E.
      rewrite length_app_str in E. lia.
    + by rewrite IH.
Qed.

Lemma HasSuffix_spec s suf : HasSuffix s suf = true ↔ ∃ r, s = r +:+ suf.
Proof.
  unfold HasSuffix. split.
  - destruct (strip_suffix suf s) eqn:E; [|done]. eauto using strip_suffix_Some.
  - intros [r ->]. by rewrite strip_suffix_app.
Qed.

Lemma TrimSuffix_app s suf : TrimSuffix (s +:+ suf) suf = s.
Proof. unfold TrimSuffix. by rewrite strip_suffix_app. Qed.

Lemma digits_bound acc s z : 0 <= acc → digits acc s = Some z → 0 <= z.
Proof.
  revert acc. induction s as [|c s IH]; simpl; intros acc Hacc; [congruence|].
  destruct (is_digit c) eqn:E; [|done]. apply IH.
  unfold is_digit, in_range in E. lia.
Qed.

Lemma ParseInt_bounds s z : ParseInt s = Some z → min_int64 <= z <= max_int64.
Proof.
  unfold ParseInt. destruct (match s with EmptyString => _ | String _ _ => _ end) as [neg d].
  destruct d as [|c d]; [done|]. destruct (digits 0 (String c d)) as [n|]; simpl; [|done].
  destruct (_ && _) eqn:E; [|done]. intros [= <-]. lia.
Qed.
#[export] Hint Resolve ParseInt_bounds digits_bound : erebrus.

(** ** Trimming, case and suffixes *)

Lemma app_inj_r_str (a b c : string) : a +:+ c = b +:+ c → a = b.
Proof.
  revert b. induction a as [|x a IH]; intros [|y b]; cbn [String.append]; [done| | |].
  - intros E. apply (f_equal String.length) in E. cbn [String.length] in E.
    rewrite length_app_str in E. lia.
  - intros E. apply (f_equal String.length) in E. cbn [String.length] in E.
    rewrite length_app_str in E. lia.
  - intros [= -> E]. f_equal. by apply IH.
Qed.

Lemma app_snoc_inj (a b : string) x y :
  a +:+ String x EmptyString = b +:+ String y EmptyString → a = b ∧ x = y.
Proof.
  revert b. induction a as [|c a IH]; intros [|d b]; cbn [String.append].
  - by intros [=].
  - intros [= _ E]. by destruct b.
  - intros [= _ E]. by destruct a.
  - intros [= -> E]. apply IH in E as [-> ->]. done.
Qed.

Lemma sforall_app p a b : sforall p (a +:+ b) = sforall p a && sforall p b.
Proof. induction a as [|c a IH]; simpl; [done|]. rewrite IH. apply andb_assoc. Qed.

Lemma smap_app f a b : smap f (a +:+ b) = smap f a +:+ smap f b.
Proof. induction a as [|c a IH]; simpl; [done|]. f_equal. exact IH. Qed.

Lemma smap_id f s : sforall (λ c, Ascii.eqb (f c) c) s = true → smap f s = s.
Proof.
  induction s as [|c s IH]; simpl; [done|]. intros [E%Ascii.eqb_eq ?]%andb_true_iff.
  rewrite E. f_equal. auto.
Qed.

Lemma sforall_impl (p q : Ascii.ascii → bool) s :
  (∀ c, p c = true → q c = true) → sforall p s = true → sforall q s = true.
Proof.
  intros H. induction s as [|c s IH]; simpl; [done|]. rewrite !andb_true_iff. naive_solver.
Qed.

Lemma trim_right_id p s c :
  p c = false → trim_right p (s +:+ String c EmptyString) = s +:+ String c EmptyString.
Proof.
  intros Hc. induction s as [|d s IH]; simpl; [by rewrite Hc|].
  rewrite IH. by destruct s.
Qed.

Lemma trim_left_id p s : match s with EmptyString => True | String c _ => p c = false end →
  trim_left p s = s.
Proof. destruct s as [|c s]; simpl; [done|]. by intros ->. Qed.

(** The last byte of a string. *)
Fixpoint last_byte (d : Ascii.ascii) (s : string) : Ascii.ascii :=
  match s with EmptyString => d | String c s => last_byte c s end.

Lemma last_byte_app d a b : last_byte d (a +:+ b) = last_byte (last_byte d a) b.
Proof. revert d. induction a as [|c a IH]; intros d; simpl; [done|]. apply IH. Qed.

Lemma snoc_view c s : ∃ s', String c s = s' +:+ String (last_byte c s) EmptyString.
Proof.
  revert c. induction s as [|d s IH]; intros c; simpl; [by exists EmptyString|].
  destruct (IH d) as [s' E]. exists (String c s'). by rewrite E at 1.
Qed.

(** Text that neither starts nor ends with a space is its own trimming. *)
Lemma TrimSpace_id c s :
  is_space c = false → is_space (last_byte c s) = false → TrimSpace (String c s) = String c s.
Proof.
  intros Hc Hl. unfold TrimSpace. rewrite trim_left_id by done.
  destruct (snoc_view c s) as [s' ->]. by apply trim_right_id.
Qed.

Lemma trim_right_spec p s :
  ∃ w, s = trim_right p s +:+ w ∧ sforall p w = true.
Proof.
  induction s as [|c s (w & E & Hw)]; simpl; [by exists EmptyString|].
  destruct (trim_right p s) as [|d t] eqn:Et.
  - cbn [String.append] in E. subst w. destruct (p c) eqn:Ec.
    + exists (String c s). simpl. by rewrite Ec, Hw.
    + exists s. by split.
  - exists w. split; [|done]. rewrite E at 1. done.
Qed.

Lemma trim_right_idem p s : trim_right p (trim_right p s) = trim_right p s.
Proof.
  induction s as [|c s IH]; simpl; [done|].
  destruct (trim_right p s) as [|d t] eqn:Et.
  - destruct (p c) eqn:Ec; simpl; [done|]. by rewrite Ec.
  - cbn [trim_right] in *. by rewrite IH.
Qed.

Lemma trim_left_head p s :
  match trim_left p s with EmptyString => True | String c _ => p c = false end.
Proof. induction s as [|c s IH]; simpl; [done|]. by destruct (p c) eqn:E. Qed.

Lemma trim_right_head p s :
  match s with EmptyString => True | String c _ => p c = false end →
  match trim_right p s with EmptyString => True | String c _ => p c = false end.
Proof.
  destruct s as [|c s]; simpl; [done|]. intros E. destruct (trim_right p s); by rewrite ?E.
Qed.

Lemma TrimSpace_idem s : TrimSpace (TrimSpace s) = TrimSpace s.
Proof.
  unfold TrimSpace. rewrite (trim_left_id _ (trim_right _ _)); [apply trim_right_idem|].
  apply trim_right_head, trim_left_head.
Qed.

(** ** Finite case analysis on bytes *)

Definition all_bytes : list Ascii.ascii := chr <$> seqZ 0 256.

Lemma all_bytes_complete c : c ∈ all_bytes.
Proof.
  unfold all_bytes. apply list_elem_of_fmap. exists (code c). split.
  - unfold chr, code. by rewrite N2Z.id, Ascii.ascii_N_embedding.
  - apply elem_of_seqZ. unfold code. pose proof (Ascii.N_ascii_bounded c). lia.
Qed.

(** A boolean fact of every byte, by evaluation. *)
Lemma byte_cases (q : Ascii.ascii → bool) :
  forallb q all_bytes = true → ∀ c, q c = true.
Proof.
  intros H c. rewrite forallb_forall in H. apply H, list_elem_of_In, all_bytes_complete.
Qed.

Lemma is_space_to_lower c : is_space (to_lower c) = is_space c.
Proof.
  apply eqb_prop. revert c. apply (byte_cases (λ c, Bool.eqb (is_space (to_lower c)) (is_space c))).
  vm_compute. reflexivity.
Qed.

Lemma to_lower_idem c : to_lower (to_lower c) = to_lower c.
Proof.
  apply Ascii.eqb_eq. revert c. apply (byte_cases (λ c, Ascii.eqb (to_lower (to_lower c)) (to_lower c))).
  vm_compute. reflexivity.
Qed.

Lemma ToLower_idem s : ToLower (ToLower s) = ToLower s.
Proof.
  unfold ToLower. induction s as [|c s IH]; simpl; [done|]. by rewrite to_lower_idem, IH.
Qed.

Lemma trim_left_smap p f s :
  (∀ c, p (f c) = p c) → trim_left p (smap f s) = smap f (trim_left p s).
Proof. intros H. induction s as [|c s IH]; simpl; [done|]. rewrite H. by destruct (p c). Qed.

Lemma trim_right_smap p f s :
  (∀ c, p (f c) = p c) → trim_right p (smap f s) = smap f (trim_right p s).
Proof.
  intros H. induction s as [|c s IH]; simpl; [done|]. rewrite IH, H.
  destruct (trim_right p s); simpl; [|done]. by destruct (p c).
Qed.

Lemma TrimSpace_ToLower s : TrimSpace (ToLower s) = ToLower (TrimSpace s).
Proof.
  unfold TrimSpace, ToLower.
  by rewrite trim_left_smap, trim_right_smap by apply is_space_to_lower.
Qed.

(** Lowering and trimming is a normal form. *)
Lemma lower_trim_idem s : ToLower (TrimSpace (ToLower (TrimSpace s))) = ToLower (TrimSpace s).
Proof. by rewrite TrimSpace_ToLower, TrimSpace_idem, ToLower_idem. Qed.
