(* ===== verification/GoLines.v ===== *)
(** * Lines of generated text files

    The configuration files the node writes are read line by line: what a
    text is when split at its newlines, and which texts cannot start a line
    of their own. *)
From S2P Require Import Prelude GoStrings.

Definition nl : Ascii.ascii := chr 10.
Definition no_nl (s : string) : Prop := sforall (λ c, negb (Ascii.eqb c nl)) s = true.

(** [cat_nl l]: each element of [l] on a line of its own. *)
Fixpoint cat_nl (l : list string) : string :=
  match l with [] => EmptyString | x :: l => newline +:+ x +:+ cat_nl l end.

Lemma app_assoc_str' (a b c : string) : (a +:+ b) +:+ c = a +:+ b +:+ c.
Proof. symmetry. apply app_assoc_str. Qed.

Lemma nil_app_str (s : string) : EmptyString +:+ s = s.
Proof. done. Qed.

Lemma cat_nl_app a b : cat_nl (a ++ b) = cat_nl a +:+ cat_nl b.
Proof. induction a as [|x a IH]; simpl; [done|]. by rewrite IH, !app_assoc_str. Qed.

Lemma Split_not_nil s c : Split s c ≠ [].
Proof. induction s as [|d s IH]; simpl; [done|]. destruct (Ascii.eqb d c); [done|]. by destruct (Split s c). Qed.

Lemma Split_app_nl a b : Split (a +:+ newline +:+ b) nl = Split a nl ++ Split b nl.
Proof.
  induction a as [|c a IH]; [done|]. cbn [String.append Split].
  destruct (Ascii.eqb c nl); rewrite IH; [done|]. pose proof (Split_not_nil a nl).
  by destruct (Split a nl) as [|w ws].
Qed.

Lemma Split_no_nl s : no_nl s → Split s nl = [s].
Proof.
  induction s as [|c s IH]; unfold no_nl; simpl; [done|].
  intros [E%negb_true_iff H]%andb_true_iff. rewrite E. by rewrite IH.
Qed.

Lemma Split_cat x l : no_nl x → Forall no_nl l → Split (x +:+ cat_nl l) nl = x :: l.
Proof.
  intros Hx Hl. revert x Hx. induction Hl as [|y l Hy Hl IH]; intros x Hx; cbn [cat_nl].
  - rewrite app_nil_str. by apply Split_no_nl.
  - rewrite Split_app_nl, (Split_no_nl x), IH by done. done.
Qed.

(** Any text of such lines splits at the newlines of the lines themselves too,
    so it has the given lines exactly when none of them holds a newline. *)
Lemma Split_cat_any x l : Split (x +:+ cat_nl l) nl = concat ((λ y, Split y nl) <$> x :: l).
Proof.
  revert x. induction l as [|y l IH]; intros x; cbn [cat_nl].
  - rewrite app_nil_str. simpl. by rewrite app_nil_r.
  - rewrite Split_app_nl, IH. done.
Qed.

Lemma Split_length s : (1 <= length (Split s nl))%nat.
Proof. pose proof (Split_not_nil s nl). destruct (Split s nl); simpl in *; [done|lia]. Qed.

Lemma Split_one s : length (Split s nl) = 1%nat → no_nl s.
Proof.
  induction s as [|c s IH]; [done|]. cbn [Split]. unfold no_nl. cbn [sforall].
  destruct (Ascii.eqb c nl); simpl.
  - pose proof (Split_length s). lia.
  - pose proof (Split_length s). destruct (Split s nl); simpl in *; [lia|]. intros E. by apply IH.
Qed.

Lemma Split_concat_length l : (length l <= length (concat ((λ y, Split y nl) <$> l)))%nat.
Proof.
  induction l as [|x l IH]; [done|]. rewrite fmap_cons. cbn [concat length]. rewrite length_app.
  pose proof (Split_length x). lia.
Qed.

Lemma Split_concat_same l :
  length (concat ((λ y, Split y nl) <$> l)) = length l → Forall no_nl l.
Proof.
  induction l as [|x l IH]; [by constructor|]. rewrite fmap_cons. cbn [concat length].
  rewrite length_app. pose proof (Split_length x). pose proof (Split_concat_length l). intros E.
  constructor; [apply Split_one|apply IH]; lia.
Qed.

Lemma Split_cat_iff x l : no_nl x → (Split (x +:+ cat_nl l) nl = x :: l ↔ Forall no_nl l).
Proof.
  intros Hx. split; [|by apply Split_cat]. rewrite Split_cat_any. intros E.
  apply (f_equal length), Split_concat_same in E. by apply Forall_cons in E as [_ ?].
Qed.

Lemma no_nl_app a b : no_nl (a +:+ b) ↔ no_nl a ∧ no_nl b.
Proof. unfold no_nl. rewrite sforall_app, andb_true_iff. done. Qed.

(** Decimal numbers have no newline. *)
Lemma pretty_N_char_no_nl n : no_nl (String (pretty_N_char n) EmptyString).
Proof. unfold no_nl, pretty_N_char. by repeat case_match. Qed.

Lemma pretty_N_go_no_nl x s : no_nl s → no_nl (pretty_N_go x s).
Proof.
  revert s. induction (N.lt_wf_0 x) as [x _ IH]; intros s Hs.
  destruct (decide (0 < x)%N) as [Hx|Hx].
  - rewrite pretty_N_go_step by done. apply IH; [apply N.div_lt; lia|].
    exact (proj2 (no_nl_app (String (pretty_N_char (x mod 10)) EmptyString) s)
      (conj (pretty_N_char_no_nl _) Hs)).
  - by replace x with 0%N by lia.
Qed.

Lemma pretty_N_no_nl (x : N) : no_nl (pretty x).
Proof. unfold pretty, pretty_N. case_decide; [done|]. by apply pretty_N_go_no_nl. Qed.

Lemma Itoa_no_nl z : no_nl (Itoa z).
Proof.
  unfold Itoa. destruct z; [done|apply pretty_N_no_nl|].
  change (no_nl ("-" +:+ pretty (N.pos p))). rewrite no_nl_app. split; [done|apply pretty_N_no_nl].
Qed.

(** Ltac: every line of a literal list is free of newlines. *)
Ltac clean_lines :=
  repeat match goal with
  | |- Forall _ [] => by apply Forall_nil
  | |- Forall _ (_ :: _) => apply Forall_cons; split
  | |- no_nl (Itoa _) => apply Itoa_no_nl
  | |- no_nl (_ +:+ _) => apply no_nl_app; split
  | H : no_nl ?s |- no_nl ?s => exact H
  | |- no_nl _ => reflexivity
  end.

