(* ===== verification/GoNet.v ===== *)
(** * Go's [net] package, as the node uses it

    IP addresses are byte slices ([list Z], 4 or 16 bytes), printed and parsed
    as [net.IP.String], [net.ParseIP] and [net.ParseCIDR] do (through
    [netip.ParseAddr]), for IPv4 and IPv6.  The lemmas are about the IPv4
    part: printing is injective and parsing inverts it, and a network's mask
    selects the interval of addresses it covers. *)
From S2P Require Import Prelude GoStrings.

(** ** Addresses *)

Abbreviation IP := (list Z).

Record IPNet := { net_IP : IP; net_Mask : list Z }.

Definition v4InV6Prefix : list Z := [0;0;0;0;0;0;0;0;0;0;255;255].

(** [ip.To4()]. *)
Definition To4 (ip : IP) : option IP :=
  if bool_decide (length ip = 4%nat) then Some ip
  else if bool_decide (length ip = 16%nat ∧ take 12 ip = v4InV6Prefix)
  then Some (drop 12 ip) else None.

(** ** Printing *)

(** The eight 16-bit groups of an IPv6 address. *)
Fixpoint groups (ip : list Z) : list Z :=
  match ip with
  | a :: b :: ip => a * 256 + b :: groups ip
  | _ => []
  end.

Fixpoint zero_run (l : list Z) : nat :=
  match l with
  | g :: l => if g =? 0 then S (zero_run l) else 0
  | [] => 0
  end.

(** The first longest run of at least two zero groups, as (start, length). *)
Fixpoint best_run (i : nat) (best : option (nat * nat)) (l : list Z) : option (nat * nat) :=
  match l with
  | [] => best
  | _ :: l' =>
      let n := zero_run l in
      let cur := match best with Some (_, m) => m | None => 0%nat end in
      best_run (S i) (if bool_decide (2 ≤ n ∧ cur < n)%nat then Some (i, n) else best) l'
  end.

(** Lower-case hexadecimal without leading zeros. *)
Definition hex16 (g : Z) : string :=
  let d3 := String (hex_char (g mod 16)) EmptyString in
  let d2 := String (hex_char (g / 16 mod 16)) d3 in
  let d1 := String (hex_char (g / 256 mod 16)) d2 in
  let d0 := String (hex_char (g / 4096 mod 16)) d1 in
  if 4096 <=? g then d0 else if 256 <=? g then d1 else if 16 <=? g then d2 else d3.

Definition ip6_text (ip : IP) : string :=
  let gs := groups ip in
  match best_run 0 None gs with
  | Some (i, n) => Join (hex16 <$> take i gs) ":" +:+ "::" +:+ Join (hex16 <$> drop (i + n) gs) ":"
  | None => Join (hex16 <$> gs) ":"
  end.

(** [ip.String()]; nil and odd lengths do not arise from the parsers below. *)
Definition ip_String (ip : IP) : string :=
  match To4 ip with
  | Some q => Join (Itoa <$> q) "."
  | None => ip6_text ip
  end.

(** ** Parsing *)

(** The loop of [netip.parseIPv4Fields]: [acc] holds the finished octets,
    [val] and [digLen] the current one. *)
Fixpoint v4_fields (acc : list Z) (val digLen : Z) (s : string) : option (list Z) :=
  match s with
  | EmptyString => if (length acc <? 3)%nat then None else Some (acc ++ [val])
  | String c s =>
      if is_digit c then
        if (digLen =? 1) && (val =? 0) then None
        else let v := val * 10 + (code c - 48) in
             if 255 <? v then None else v4_fields acc v (digLen + 1) s
      else if code c =? 46 then
        if (digLen =? 0) || String.eqb s EmptyString then None
        else if (length acc =? 3)%nat then None
        else v4_fields (acc ++ [val]) 0 0 s
      else None
  end.

Definition parseIPv4 (s : string) : option IP := v4_fields [] 0 0 s.

(** The leading hex number of an IPv6 group: value, digits read, rest.
    More than four digits fail. *)
Fixpoint hex_group (acc : Z) (off : nat) (s : string) : option (Z * nat * string) :=
  match s with
  | String c s' =>
      match hex_digit c with
      | Some d =>
          if (3 <? off)%nat then None
          else let acc' := acc * 16 + d in
               if 65535 <? acc' then None else hex_group acc' (S off) s'
      | None => Some (acc, off, s)
      end
  | EmptyString => Some (acc, off, s)
  end.

(** The loop of [netip.parseIPv6]: [ip] holds the bytes saved so far,
    [ell] the position of the ellipsis; 9 rounds exceed the 16 bytes. *)
Fixpoint v6_loop (fuel : nat) (ip : list Z) (ell : option nat) (s : string)
    : option (list Z * option nat * string) :=
  match fuel with
  | O => None
  | S fuel =>
      if (16 <=? length ip)%nat then Some (ip, ell, s) else
      '(acc, off, rest) ← hex_group 0 0 s;
      if (off =? 0)%nat then None else
      match rest with
      | EmptyString => Some (ip ++ [acc / 256; acc mod 256], ell, EmptyString)
      | String c rest' =>
          if code c =? 46 then
            if (match ell with None => negb (length ip =? 12)%nat | Some _ => false end)
               || (16 <? length ip + 4)%nat then None
            else q ← v4_fields [] 0 0 s; Some (ip ++ q, ell, EmptyString)
          else
            let ip := ip ++ [acc / 256; acc mod 256] in
            if negb (code c =? 58) then None else
            match rest' with
            | EmptyString => None
            | String d rest'' =>
                if code d =? 58 then
                  match ell with
                  | Some _ => None
                  | None =>
                      match rest'' with
                      | EmptyString => Some (ip, Some (length ip), EmptyString)
                      | _ => v6_loop fuel ip (Some (length ip)) rest''
                      end
                  end
                else v6_loop fuel ip ell rest'
            end
      end
  end.

Definition v6_finish (ip : list Z) (ell : option nat) (s : string) : option IP :=
  if negb (String.eqb s EmptyString) then None else
  if (length ip <? 16)%nat then
    e ← ell; Some (take e ip ++ replicate (16 - length ip) 0 ++ drop e ip)
  else match ell with Some _ => None | None => Some ip end.

(** [netip.parseIPv6] with its zone. *)
Definition parseIPv6 (s : string) : option (IP * string) :=
  '(s, zone) ← match cut "%" s with
               | Some (_, EmptyString) => None
               | Some (a, z) => Some (a, z)
               | None => Some (s, EmptyString)
               end;
  match strip_prefix "::" s with
  | Some EmptyString => Some (replicate 16 0, zone)
  | Some s' =>
      '(ip, ell, rest) ← v6_loop 9 [] (Some 0%nat) s';
      ip ← v6_finish ip ell rest; Some (ip, zone)
  | None =>
      '(ip, ell, rest) ← v6_loop 9 [] None s;
      ip ← v6_finish ip ell rest; Some (ip, zone)
  end.

(** [netip.ParseAddr]: the first of ['.'], [':'], ['%'] decides the family. *)
Fixpoint addr_family (s : string) : option bool :=
  match s with
  | EmptyString => None
  | String c s =>
      if code c =? 46 then Some true
      else if code c =? 58 then Some false
      else if code c =? 37 then None else addr_family s
  end.

(** The parsed address as 4 or 16 bytes, with its zone. *)
Definition ParseAddr (s : string) : option (IP * string) :=
  v4 ← addr_family s;
  if (v4 : bool) then q ← parseIPv4 s; Some (q, EmptyString) else parseIPv6 s.

Definition As16 (ip : IP) : IP :=
  if bool_decide (length ip = 4%nat) then v4InV6Prefix ++ ip else ip.

(** [net.ParseIP]. *)
Definition ParseIP (s : string) : option IP :=
  '(ip, zone) ← ParseAddr s;
  if String.eqb zone EmptyString then Some (As16 ip) else None.

(** [net.CIDRMask(ones, 8*n)]. *)
Fixpoint CIDRMask (ones : Z) (n : nat) : list Z :=
  match n with
  | O => []
  | S n =>
      (if 8 <=? ones then 255 else 255 - (2 ^ (8 - Z.max 0 ones) - 1))
      :: CIDRMask (ones - 8) n
  end.

Definition map2 (f : Z → Z → Z) (a b : list Z) : list Z := zip_with f a b.

(** [ip.Mask(mask)] for the lengths [ParseCIDR] uses. *)
Definition ip_Mask (ip : IP) (mask : list Z) : IP :=
  let ip := if bool_decide (length mask = 4%nat ∧ length ip = 16%nat
                            ∧ take 12 ip = v4InV6Prefix)
            then drop 12 ip else ip in
  map2 Z.land ip mask.

(** [dtoi] on the whole prefix-length text. *)
Definition dtoi (s : string) : option Z :=
  match s with
  | EmptyString => None
  | _ => n ← digits 0 s; if n <? 16777215 then Some n else None
  end.

(** [net.ParseCIDR]: the 16-byte address and the network. *)
Definition ParseCIDR (s : string) : option (IP * IPNet) :=
  '(addr, mask) ← cut "/" s;
  '(ip, zone) ← ParseAddr addr;
  if negb (String.eqb zone EmptyString) then None else
  n ← dtoi mask;
  if 8 * Z.of_nat (length ip) <? n then None else
  let m := CIDRMask n (length ip) in
  Some (As16 ip, {| net_IP := ip_Mask (As16 ip) m; net_Mask := m |}).

(** [n.Contains(ip)]. *)
Definition Contains_ip (n : IPNet) (ip : IP) : bool :=
  let nn := default (net_IP n) (To4 (net_IP n)) in
  let m := if bool_decide (length (net_Mask n) = 16%nat ∧ length nn = 4%nat)
           then drop 12 (net_Mask n) else net_Mask n in
  let ip := default ip (To4 ip) in
  bool_decide (length ip = length nn) &&
  bool_decide (map2 Z.land nn m = map2 Z.land ip m).

(** The number of leading one bits of a mask built by [CIDRMask]:
    [ones, _ := mask.Size()]. *)
Definition byte_ones (b : Z) : Z :=
  if b =? 255 then 8 else if b =? 254 then 7 else if b =? 252 then 6
  else if b =? 248 then 5 else if b =? 240 then 4 else if b =? 224 then 3
  else if b =? 192 then 2 else if b =? 128 then 1 else 0.
Definition Mask_ones (m : list Z) : Z := foldr (λ b a, byte_ones b + a) 0 m.

(** ** Tests of the parsers on concrete text *)

Example ParseCIDR_default :
  ParseCIDR "10.0.0.1/16" =
  Some ([0;0;0;0;0;0;0;0;0;0;255;255;10;0;0;1],
        {| net_IP := [10;0;0;0]; net_Mask := [255;255;0;0] |}).
Proof. vm_compute. reflexivity. Qed.

Example ip6_roundtrip_example :
  (ip_String <$> ParseIP "2001:db8:0:0::1:0") = Some "2001:db8::1:0".
Proof. vm_compute. reflexivity. Qed.

Example ParseIP_rejects :
  (ParseIP "10.0.0.01", ParseIP "1.2.3", ParseIP "1.2.3.256", ParseIP "::1%eth0",
   ParseIP ":1::2", ParseIP "1:2:3:4:5:6:7:8:9")
  = (None, None, None, None, None, None).
Proof. vm_compute. reflexivity. Qed.

(** ** Addresses as numbers

    [be_val] reads a byte slice as a big-endian number; masks and networks
    become intervals of numbers. *)

Definition is_byte (b : Z) : Prop := 0 <= b < 256.
Definition bytes (l : list Z) : Prop := Forall is_byte l.

Ltac solve_bytes :=
  repeat (apply Forall_cons_2; [unfold is_byte; lia|]); apply Forall_nil_2.

Fixpoint be_val (l : list Z) : Z :=
  match l with
  | [] => 0
  | b :: l => b * 2 ^ (8 * Z.of_nat (length l)) + be_val l
  end.

Lemma be_val_bound l : bytes l → 0 <= be_val l < 2 ^ (8 * Z.of_nat (length l)).
Proof.
  induction 1 as [|b l [Hb1 Hb2] Hl IH]; cbn [be_val length]; [lia|].
  replace (8 * Z.of_nat (S (length l))) with (8 + 8 * Z.of_nat (length l)) by lia.
  rewrite Z.pow_add_r by lia. change (2 ^ 8) with 256.
  set (P := 2 ^ (8 * Z.of_nat (length l))) in *. nia.
Qed.

Lemma be_val_inj l1 l2 :
  length l1 = length l2 → bytes l1 → bytes l2 → be_val l1 = be_val l2 → l1 = l2.
Proof.
  revert l2. induction l1 as [|a l1 IH]; intros [|b l2]; try done.
  intros [= Hlen] [Ha H1]%Forall_cons [Hb H2]%Forall_cons. cbn [be_val].
  rewrite Hlen. pose proof (be_val_bound l1 H1) as B1.
  pose proof (be_val_bound l2 H2) as B2. rewrite Hlen in B1.
  set (P := 2 ^ (8 * Z.of_nat (length l2))) in *. intros E.
  assert (a = b) as -> by nia. f_equal. apply IH; auto. lia.
Qed.

Lemma land_high_mask b k :
  is_byte b → 0 <= k <= 8 → Z.land b (255 - (2 ^ k - 1)) = b / 2 ^ k * 2 ^ k.
Proof.
  intros [Hb1 Hb2] Hk.
  assert (255 - (2 ^ k - 1) = Z.shiftl (Z.ones (8 - k)) k) as ->.
  { rewrite Z.ones_equiv, Z.shiftl_mul_pow2 by lia.
    replace 255 with (2 ^ (8 - k) * 2 ^ k - 1); [lia|].
    rewrite <- Z.pow_add_r by lia. by replace (8 - k + k) with 8 by lia. }
  rewrite <- Z.shiftr_div_pow2, <- Z.shiftl_mul_pow2 by lia.
  apply Z.bits_inj'. intros i Hi.
  rewrite Z.land_spec, !Z.shiftl_spec by lia.
  destruct (decide (i < k)) as [Hik|Hik].
  { rewrite !(Z.testbit_neg_r _ (i - k)) by lia. by rewrite andb_false_r. }
  rewrite Z.shiftr_spec by lia. replace (i - k + k) with i by lia.
  rewrite Z.testbit_ones by lia.
  destruct (decide (i < 8)) as [H8|H8].
  { replace ((0 <=? i - k) && (i - k <? 8 - k)) with true by lia. apply andb_true_r. }
  rewrite Z.bits_above_log2; [done|lia|].
  destruct (decide (b = 0)) as [->|]; [simpl; lia|].
  apply Z.log2_lt_pow2; [lia|]. assert (2 ^ 8 <= 2 ^ i) by (apply Z.pow_le_mono_r; lia). lia.
Qed.

Lemma land_byte a m : is_byte a → is_byte (Z.land a m).
Proof.
  intros Ha. assert (Z.land a m = (Z.land a m) mod 2 ^ 8) as ->.
  { rewrite <- Z.land_ones, <- Z.land_assoc, (Z.land_comm m), Z.land_assoc, Z.land_ones by lia.
    by rewrite (Z.mod_small a). }
  apply Z.mod_pos_bound. lia.
Qed.

Lemma CIDRMask_head n m :
  CIDRMask n (S m) =
  255 - (2 ^ (Z.max 0 (8 - Z.max 0 n)) - 1) :: CIDRMask (n - 8) m.
Proof.
  cbn [CIDRMask]. f_equal. destruct (Z.leb_spec 8 n).
  - replace (Z.max 0 (8 - Z.max 0 n)) with 0 by lia. done.
  - by replace (Z.max 0 (8 - Z.max 0 n)) with (8 - Z.max 0 n) by lia.
Qed.

Lemma CIDRMask_zero n l m :
  n <= 0 → bytes l → length l = m → map2 Z.land l (CIDRMask n m) = replicate m 0.
Proof.
  unfold map2.
  revert n m. induction l as [|b l IH]; intros n m Hn Hl <-; simpl; [done|].
  apply Forall_cons in Hl as [Hb Hl].
  destruct (Z.leb_spec 8 n); [lia|].
  rewrite land_high_mask by (auto; lia). replace (8 - Z.max 0 n) with 8 by lia.
  rewrite Z.div_small by (unfold is_byte in Hb; lia). f_equal. by apply IH; [lia| |].
Qed.

Lemma map2_land_idem l m : map2 Z.land (map2 Z.land l m) m = map2 Z.land l m.
Proof.
  unfold map2. revert m. induction l as [|a l IH]; intros [|b m]; simpl; [done..|].
  by rewrite <- Z.land_assoc, Z.land_diag, IH.
Qed.

Lemma length_CIDRMask n m : length (CIDRMask n m) = m.
Proof. revert n. induction m; intros n; simpl; auto. Qed.

(** Two addresses agree under the mask of a prefix length exactly when they
    agree as numbers above the host bits. *)
Lemma mask_eq_iff l1 l2 n m :
  length l1 = m → length l2 = m → bytes l1 → bytes l2 → n <= 8 * Z.of_nat m →
  map2 Z.land l1 (CIDRMask n m) = map2 Z.land l2 (CIDRMask n m) ↔
  be_val l1 / 2 ^ (8 * Z.of_nat m - Z.max 0 n) = be_val l2 / 2 ^ (8 * Z.of_nat m - Z.max 0 n).
Proof.
  revert l1 l2 n.
  induction m as [|m IH]; intros [|a l1] [|b l2] n H1 H2 Ha Hb Hn; try done.
  injection H1 as H1. injection H2 as H2. apply Forall_cons in Ha as [Ha Hl1], Hb as [Hb Hl2].
  pose proof (be_val_bound l1 Hl1) as B1. pose proof (be_val_bound l2 Hl2) as B2.
  rewrite H1 in B1. rewrite H2 in B2.
  rewrite CIDRMask_head. unfold map2. cbn [zip_with be_val]. rewrite H1, H2.
  rewrite !land_high_mask by (auto; lia).
  assert (∀ x y k : Z, 0 <= k → x / 2 ^ k * 2 ^ k = y / 2 ^ k * 2 ^ k ↔ x / 2 ^ k = y / 2 ^ k)
    as Hcancel.
  { intros x y k Hk. assert (0 < 2 ^ k) by (apply Z.pow_pos_nonneg; lia). nia. }
  destruct (Z.le_gt_cases n 8) as [Hle|Hgt].
  - (* the mask ends in this byte *)
    change (zip_with Z.land ?x ?y) with (map2 Z.land x y).
    rewrite !(CIDRMask_zero (n - 8)) by (auto; lia).
    set (k := Z.max 0 (8 - Z.max 0 n)).
    replace (8 * Z.of_nat (S m) - Z.max 0 n) with (8 * Z.of_nat m + k) by lia.
    rewrite Z.pow_add_r by lia. rewrite <- !Z.div_div by (try apply Z.pow_nonzero; lia).
    rewrite !Z.div_add_l, !(Z.div_small (be_val _)), !Z.add_0_r by (try apply Z.pow_nonzero; lia).
    rewrite <- (Hcancel a b k) by lia. split; [by intros [= ->]|by intros ->].
  - set (k := 8 * Z.of_nat m - (n - 8)).
    replace (Z.max 0 (8 - Z.max 0 n)) with 0 by lia.
    rewrite Z.pow_0_r, !Z.div_1_r, !Z.mul_1_r.
    replace (8 * Z.of_nat (S m) - Z.max 0 n) with k by lia.
    replace (2 ^ (8 * Z.of_nat m)) with (2 ^ (n - 8) * 2 ^ k) in *
      by (rewrite <- Z.pow_add_r by lia; f_equal; lia).
    rewrite !Z.mul_assoc, !Z.div_add_l by (apply Z.pow_nonzero; lia).
    specialize (IH l1 l2 (n - 8) H1 H2 Hl1 Hl2 ltac:(lia)).
    unfold map2 in IH. rewrite Z.max_r in IH by lia. fold k in IH.
    assert (0 < 2 ^ k) by (apply Z.pow_pos_nonneg; lia).
    assert (0 <= be_val l1 / 2 ^ k < 2 ^ (n - 8)) by
      (split; [apply Z.div_pos; lia|apply Z.div_lt_upper_bound; nia]).
    assert (0 <= be_val l2 / 2 ^ k < 2 ^ (n - 8)) by
      (split; [apply Z.div_pos; lia|apply Z.div_lt_upper_bound; nia]).
    split; [intros [= -> E]; by rewrite (proj1 IH E)|].
    intros E. assert (a = b) as -> by nia. f_equal. apply IH. nia.
Qed.

(** ** Printing and parsing IPv4 addresses *)

(** What the parser's loop does on a run of digits. *)
Fixpoint octet_scan (val digLen : Z) (s : string) : option (Z * Z) :=
  match s with
  | EmptyString => Some (val, digLen)
  | String c s =>
      if negb (is_digit c) || ((digLen =? 1) && (val =? 0)) then None
      else let v := val * 10 + (code c - 48) in
           if 255 <? v then None else octet_scan v (digLen + 1) s
  end.

Lemma v4_fields_scan s : ∀ acc val digLen rest v' d',
  octet_scan val digLen s = Some (v', d') →
  v4_fields acc val digLen (s +:+ rest) = v4_fields acc v' d' rest.
Proof.
  induction s as [|c s IH]; intros acc val digLen rest v' d'; simpl; [by intros [= -> ->]|].
  destruct (is_digit c); [simpl|done].
  destruct (_ && _); [done|]. destruct (255 <? _); [done|]. apply IH.
Qed.

Definition octet_check (b : Z) : bool :=
  match octet_scan 0 0 (Itoa b) with
  | Some (v, d) => (v =? b) && (0 <? d)
  | None => false
  end && sforall is_digit (Itoa b) && negb (String.eqb (Itoa b) EmptyString).

Lemma octet_check_all b : is_byte b → octet_check b = true.
Proof.
  intros Hb. assert (forallb octet_check (Z.of_nat <$> seq 0 256) = true) as H
    by (vm_compute; reflexivity).
  rewrite forallb_forall in H. apply H. apply list_elem_of_In, list_elem_of_fmap.
  exists (Z.to_nat b). unfold is_byte in Hb.
  split; [lia|]. apply elem_of_seq. lia.
Qed.

Lemma octet_scan_Itoa b : is_byte b → ∃ d, octet_scan 0 0 (Itoa b) = Some (b, d) ∧ 0 < d.
Proof.
  intros H%octet_check_all. unfold octet_check in H.
  destruct (octet_scan 0 0 (Itoa b)) as [[v d]|]; [|done].
  rewrite !andb_true_iff in H. destruct H as [[[?%Z.eqb_eq ?%Z.ltb_lt] _] _]. subst; eauto.
Qed.

Lemma Itoa_digits b : is_byte b → sforall is_digit (Itoa b) = true ∧ Itoa b ≠ EmptyString.
Proof.
  intros H%octet_check_all. unfold octet_check in H. rewrite !andb_true_iff in H.
  destruct H as [[_ H1] H2]. split; [done|]. intros E. by rewrite E in H2.
Qed.

Definition v4_text (a b c d : Z) : string :=
  Itoa a +:+ "." +:+ Itoa b +:+ "." +:+ Itoa c +:+ "." +:+ Itoa d.

Lemma ip_String_v4 a b c d : ip_String [a; b; c; d] = v4_text a b c d.
Proof. reflexivity. Qed.

Ltac dot_cons :=
  repeat match goal with
  | |- context ["." +:+ ?x] => change ("." +:+ x) with (String "."%char x)
  end.

Lemma v4_field_dot acc b rest :
  is_byte b → (length acc < 3)%nat → rest ≠ EmptyString →
  v4_fields acc 0 0 (Itoa b +:+ String "."%char rest) = v4_fields (acc ++ [b]) 0 0 rest.
Proof.
  intros Hb Hacc Hrest. destruct (octet_scan_Itoa b Hb) as (d & Hs & Hd).
  rewrite (v4_fields_scan _ _ _ _ _ _ _ Hs). cbn [v4_fields].
  change (is_digit "."%char) with false. change (code "."%char =? 46) with true. cbv iota.
  replace (d =? 0) with false by lia. destruct (String.eqb_spec rest EmptyString); [done|].
  destruct (Nat.eqb_spec (length acc) 3); [lia|done].
Qed.

Lemma parse_v4_text a b c d :
  is_byte a → is_byte b → is_byte c → is_byte d →
  parseIPv4 (v4_text a b c d) = Some [a; b; c; d].
Proof.
  intros Ha Hb Hc Hd. unfold parseIPv4, v4_text. dot_cons.
  pose proof (proj2 (Itoa_digits b Hb)). pose proof (proj2 (Itoa_digits c Hc)).
  pose proof (proj2 (Itoa_digits d Hd)).
  rewrite v4_field_dot; [|done|simpl; lia|destruct (Itoa b); simpl; congruence].
  rewrite v4_field_dot; [|done|simpl; lia|destruct (Itoa c); simpl; congruence].
  rewrite v4_field_dot; [|done|simpl; lia|done].
  destruct (octet_scan_Itoa d Hd) as (k & Hs & Hk).
  rewrite <- (app_nil_str (Itoa d)), (v4_fields_scan _ _ _ _ _ _ _ Hs). done.
Qed.

Lemma addr_family_v4 s rest :
  sforall is_digit s = true → addr_family (s +:+ String "."%char rest) = Some true.
Proof.
  induction s as [|x s IH]; simpl; [done|]. intros [Hx Hs]%andb_true_iff.
  unfold is_digit, in_range in Hx.
  replace (code x =? 46) with false by lia. replace (code x =? 58) with false by lia.
  replace (code x =? 37) with false by lia. auto.
Qed.

Lemma cut_char_app c s rest :
  sforall (λ x, negb (Ascii.eqb c x)) s = true →
  cut (String c EmptyString) (s +:+ String c rest) = Some (s, rest).
Proof.
  induction s as [|x s IH]; cbn [cut strip_prefix String.append sforall].
  - by rewrite Ascii.eqb_refl.
  - intros [Hx%negb_true_iff Hs]%andb_true_iff. by rewrite Hx, IH.
Qed.


Lemma v4_text_noslash a b c d :
  is_byte a → is_byte b → is_byte c → is_byte d →
  sforall (λ x, negb (Ascii.eqb "/"%char x)) (v4_text a b c d) = true.
Proof.
  intros Ha Hb Hc Hd. unfold v4_text. rewrite !sforall_app.
  assert (∀ x, is_byte x → sforall (λ x, negb (Ascii.eqb "/"%char x)) (Itoa x) = true) as H.
  { intros x Hx. eapply sforall_impl; [|apply Itoa_digits, Hx].
    intros y Hy. destruct (Ascii.eqb_spec "/"%char y) as [<-|]; [by vm_compute in Hy|done]. }
  by rewrite !H.
Qed.

(** Parsing the /32 a peer is given returns the address itself. *)
Lemma ParseCIDR_v4_32 a b c d :
  is_byte a → is_byte b → is_byte c → is_byte d →
  ∃ n, ParseCIDR (v4_text a b c d +:+ "/32") = Some (As16 [a; b; c; d], n).
Proof.
  intros Ha Hb Hc Hd. unfold ParseCIDR.
  change "/32" with (String "/"%char "32").
  rewrite (cut_char_app "/"%char) by (by apply v4_text_noslash). cbn [mbind option_bind].
  unfold ParseAddr. replace (addr_family _) with (Some true).
  2:{ symmetry. unfold v4_text. dot_cons. apply addr_family_v4, Itoa_digits, Ha. }
  cbn [mbind option_bind]. rewrite parse_v4_text by done. eexists. reflexivity.
Qed.

Lemma ip_String_As16 a b c d : ip_String (As16 [a; b; c; d]) = v4_text a b c d.
Proof. reflexivity. Qed.

Lemma v4_text_inj a b c d a' b' c' d' :
  is_byte a → is_byte b → is_byte c → is_byte d →
  is_byte a' → is_byte b' → is_byte c' → is_byte d' →
  v4_text a b c d = v4_text a' b' c' d' → [a; b; c; d] = [a'; b'; c'; d'].
Proof.
  intros. apply Some_inj. rewrite <- !parse_v4_text by done. by f_equal.
Qed.

(** ** The first and the last address of a network *)

Lemma lor_low_ones b k :
  is_byte b → 0 <= k <= 8 →
  Z.lor (b / 2 ^ k * 2 ^ k) (255 - (255 - (2 ^ k - 1))) = b / 2 ^ k * 2 ^ k + (2 ^ k - 1).
Proof.
  intros Hb Hk. replace (255 - (255 - (2 ^ k - 1))) with (Z.ones k)
    by (rewrite Z.ones_equiv; lia).
  pose proof (Z.add_lor_land (b / 2 ^ k * 2 ^ k) (Z.ones k)) as H.
  rewrite Z.land_ones, Z.mod_mul in H by (try apply Z.pow_nonzero; lia).
  rewrite Z.ones_equiv in *. lia.
Qed.

(** Clearing the host bits gives the first address of the block, setting them
    the last. *)
Lemma be_val_mask l n m :
  length l = m → bytes l → n <= 8 * Z.of_nat m →
  let lo := map2 Z.land l (CIDRMask n m) in
  let P := 2 ^ (8 * Z.of_nat m - Z.max 0 n) in
  be_val lo = be_val l / P * P ∧
  be_val (map2 (λ a m, Z.lor a (255 - m)) lo (CIDRMask n m)) = be_val l / P * P + P - 1.
Proof.
  unfold map2. cbv zeta. revert l n.
  induction m as [|m IH]; intros [|a l] n Hl Hb Hn; try discriminate Hl.
  { replace (8 * Z.of_nat 0 - Z.max 0 n) with 0 by lia. done. }
  injection Hl as Hl. apply Forall_cons in Hb as [Ha Hb].
  pose proof (be_val_bound l Hb) as B. rewrite Hl in B.
  destruct (IH l (n - 8) Hl Hb ltac:(lia)) as [IH1 IH2].
  rewrite CIDRMask_head. cbn [zip_with be_val].
  set (k := Z.max 0 (8 - Z.max 0 n)).
  rewrite !land_high_mask, lor_low_ones, !length_zip_with, !length_CIDRMask, IH1, IH2, Hl,
    !Nat.min_id by (auto; lia).
  set (Q := 2 ^ (8 * Z.of_nat m)) in *.
  destruct (Z.le_gt_cases n 8) as [Hle|Hgt].
  - replace (8 * Z.of_nat m - Z.max 0 (n - 8)) with (8 * Z.of_nat m) by lia. fold Q.
    rewrite (Z.div_small (be_val l)) by lia.
    replace (8 * Z.of_nat (S m) - Z.max 0 n) with (8 * Z.of_nat m + k) by lia.
    rewrite Z.pow_add_r by lia. fold Q.
    assert (0 < 2 ^ k) by (apply Z.pow_pos_nonneg; lia).
    rewrite <- Z.div_div, Z.div_add_l, (Z.div_small (be_val l)), (Z.add_0_r a) by lia.
    split; ring.
  - replace k with 0 by lia. rewrite Z.pow_0_r, Z.div_1_r.
    replace (8 * Z.of_nat (S m) - Z.max 0 n) with (8 * Z.of_nat m - Z.max 0 (n - 8)) by lia.
    set (K := 8 * Z.of_nat m - Z.max 0 (n - 8)).
    assert (0 < 2 ^ K) by (apply Z.pow_pos_nonneg; lia).
    assert (Q = 2 ^ (n - 8) * 2 ^ K) as -> by
      (unfold Q; rewrite <- Z.pow_add_r by lia; f_equal; lia).
    rewrite !(Z.mul_assoc a), Z.div_add_l by lia. split; ring.
Qed.

(** ** IPv6 text parses to 16 bytes *)

Lemma v6_finish_length ip ell s r :
  (length ip ≤ 16)%nat → (∀ e, ell = Some e → (e ≤ length ip)%nat) →
  v6_finish ip ell s = Some r → length r = 16%nat.
Proof.
  intros Hip Hell. unfold v6_finish. destruct (negb _); [done|].
  destruct (Nat.ltb_spec (length ip) 16).
  - destruct ell as [e|]; [|done]. intros [= <-]. specialize (Hell e eq_refl).
    rewrite !length_app, length_take, length_replicate, length_drop. lia.
  - destruct ell; [done|]. intros [= <-]. lia.
Qed.

Lemma v4_fields_bytes s : ∀ acc val digLen ip,
  bytes acc → 0 <= val <= 255 → v4_fields acc val digLen s = Some ip →
  bytes ip.
Proof.
  induction s as [|c s IH]; intros acc val digLen ip Hacc Hval; simpl.
  - destruct (_ <? _)%nat; [done|]. intros [= <-]. apply Forall_app. split; [done|].
    by apply Forall_singleton; unfold is_byte; lia.
  - destruct (is_digit c) eqn:Ed.
    + destruct (_ && _); [done|]. destruct (Z.ltb_spec 255 (val * 10 + (code c - 48))); [done|].
      apply IH; [done|]. unfold is_digit, in_range in Ed. lia.
    + destruct (code c =? 46); [|done]. destruct (_ || _); [done|].
      destruct (_ =? _)%nat; [done|]. apply IH; [|lia].
      apply Forall_app. split; [done|]. by apply Forall_singleton; unfold is_byte; lia.
Qed.

Lemma v4_fields_length s : ∀ acc val digLen ip,
  (length acc ≤ 3)%nat → v4_fields acc val digLen s = Some ip → length ip = 4%nat.
Proof.
  induction s as [|c s IH]; intros acc val digLen ip Hacc; simpl.
  - destruct (Nat.ltb_spec (length acc) 3); [done|]. intros [= <-].
    rewrite length_app; simpl. lia.
  - destruct (is_digit c).
    + destruct (_ && _); [done|]. destruct (255 <? _); [done|]. by apply IH.
    + destruct (code c =? 46); [|done]. destruct (_ || _); [done|].
      destruct (Nat.eqb_spec (length acc) 3); [done|]. apply IH. rewrite length_app; simpl. lia.
Qed.

Lemma v6_loop_inv fuel : ∀ ip ell s ip' ell' s',
  (length ip ≤ 16)%nat → Nat.Even (length ip) →
  (∀ e, ell = Some e → (e ≤ length ip)%nat) →
  v6_loop fuel ip ell s = Some (ip', ell', s') →
  (length ip' ≤ 16)%nat ∧ (∀ e, ell' = Some e → (e ≤ length ip')%nat).
Proof.
  induction fuel as [|fuel IH]; intros ip ell s ip' ell' s' Hip Hev Hell; [done|].
  cbn [v6_loop]. destruct (Nat.leb_spec 16 (length ip)); [by intros [= <- <- <-]|].
  destruct (hex_group 0 0 s) as [[[acc off] rest]|]; [|done]. cbn [mbind option_bind].
  assert (∀ a b : Z, length (ip ++ [a; b]) = (length ip + 2)%nat) as Hlen.
  { intros a b. by rewrite length_app. }
  assert (length ip + 2 ≤ 16)%nat by (destruct Hev; lia).
  assert (∀ a b : Z, Nat.Even (length (ip ++ [a; b]))) as Hev2.
  { intros a b. rewrite Hlen. destruct Hev as [k Hk]. exists (S k). lia. }
  assert (∀ e, ell = Some e → (e ≤ length ip + 2)%nat) by (intros e He; specialize (Hell e He); lia).
  destruct (off =? 0)%nat; [done|]. destruct rest as [|c rest].
  { intros [= <- <- <-]. by rewrite Hlen. }
  destruct (code c =? 46).
  - destruct (_ || _) eqn:E; [done|]. apply orb_false_iff in E as [_ E%Nat.ltb_ge].
    destruct (v4_fields [] 0 0 s) as [q|] eqn:Eq; [|done]. intros [= <- <- <-].
    apply v4_fields_length in Eq; [|simpl; lia]. rewrite length_app, Eq.
    split; [lia|]. intros e He. specialize (Hell e He). lia.
  - destruct (negb _); [done|]. destruct rest as [|d rest]; [done|].
    destruct (code d =? 58).
    + destruct ell; [done|]. destruct rest as [|x rest].
      * intros [= <- <- <-]. rewrite Hlen. split; [lia|]. by intros e [= <-].
      * apply IH; auto; [by rewrite Hlen|]. by intros e [= <-].
    + apply IH; auto; by rewrite Hlen.
Qed.

Lemma parseIPv6_length s q zone : parseIPv6 s = Some (q, zone) → length q = 16%nat.
Proof.
  assert (∀ z t ell, (∀ e, ell = Some e → (e ≤ 0)%nat) →
    ('(ip, ell, rest) ← v6_loop 9 [] ell t; ip ← v6_finish ip ell rest; Some (ip, z))
      = Some (q, zone) → length q = 16%nat) as H.
  { intros z t ell Hell. destruct (v6_loop 9 [] ell t) as [[[ip ell'] rest]|] eqn:E; [|done].
    cbn [mbind option_bind]. apply v6_loop_inv in E as [H1 H2]; [|simpl; lia|by exists 0%nat|done].
    destruct (v6_finish ip ell' rest) as [r|] eqn:E'; [|done]. intros [= <- _].
    by eapply v6_finish_length in E'. }
  assert (∀ a z, match strip_prefix "::" a with
    | Some EmptyString => Some (replicate 16 0, z)
    | Some s' => '(ip, ell, rest) ← v6_loop 9 [] (Some 0%nat) s';
                 ip ← v6_finish ip ell rest; Some (ip, z)
    | None => '(ip, ell, rest) ← v6_loop 9 [] None a;
              ip ← v6_finish ip ell rest; Some (ip, z)
    end = Some (q, zone) → length q = 16%nat) as H2.
  { intros a z. destruct (strip_prefix "::" a) as [[|c a']|]; [by intros [= <- _]| |by apply H].
    apply H. by intros e [= <-]. }
  unfold parseIPv6. destruct (cut "%" s) as [[a [|z0 z]]|]; [done|apply H2..].
Qed.
