(* ===== verification/GoUrl.v ===== *)
(** * Go's [net/url] escaping and JSON values, as the node uses them *)
From S2P Require Import Prelude GoStrings.

(** ** Escaping *)

Definition is_alnum (c : Ascii.ascii) : bool := is_digit c || is_upper c || is_lower c.
(** The bytes [-], [_], [.] and [~]. *)
Definition is_mark (c : Ascii.ascii) : bool :=
  bool_decide (code c ∈ [45; 95; 46; 126]).
(** What a path segment keeps besides: [$], [&], [+], [:], [=] and [@]. *)
Definition is_segment_extra (c : Ascii.ascii) : bool :=
  bool_decide (code c ∈ [36; 38; 43; 58; 61; 64]).

Definition upper_hex (n : Z) : Ascii.ascii := chr (if n <? 10 then 48 + n else 55 + n).
Definition percent (c : Ascii.ascii) : string :=
  String (chr 37) (String (upper_hex (code c / 16)) (String (upper_hex (code c mod 16)) EmptyString)).

Fixpoint escape (keep : Ascii.ascii → bool) (plus : bool) (s : string) : string :=
  match s with
  | EmptyString => EmptyString
  | String c s =>
      (if plus && (code c =? 32) then "+"
       else if is_alnum c || is_mark c || keep c then String c EmptyString
       else percent c) +:+ escape keep plus s
  end.

Definition QueryEscape (s : string) : string := escape (λ _, false) true s.
Definition PathEscape (s : string) : string := escape is_segment_extra false s.

(** [url.Values.Encode] for values set once per key: sorted by key. *)
Definition Encode {srt : Sorting} (q : list (string * string)) : string :=
  Join ((λ kv, QueryEscape kv.1 +:+ "=" +:+ QueryEscape kv.2) <$>
        sort_by (λ a b, string_ltb a.1 b.1) q) "&".

(** ** JSON values: [map[string]any] and what it holds *)

Inductive json :=
| JNull
| JBool (b : bool)
| JNum (z : Z)
| JStr (s : string)
| JArr (l : list json)
| JObj (l : list (string * json)).

(** The value of a key; a map literal has each key once. *)
Definition jget (k : string) (j : json) : option json :=
  match j with
  | JObj l => snd <$> find_first (λ kv, String.eqb kv.1 k) l
  | _ => None
  end.
Definition jidx (i : nat) (j : json) : option json :=
  match j with JArr l => l !! i | _ => None end.

(** ** net.SplitHostPort and net.JoinHostPort *)

(** [None] is an error; the code never looks at which one. *)
Definition SplitHostPort (s : string) : option (string * string) :=
  match cut_last ":"%char s with
  | None => None
  | Some (before, port) =>
      match s with
      | String "["%char rest =>
          match cut "]" rest with
          | None => None
          | Some (host, after) =>
              (* the closing bracket must stand right before the last colon *)
              if String.eqb before (String "["%char (host +:+ "]"))
              then if Contains host "[" || Contains port "[" || Contains port "]"
                   then None else Some (host, port)
              else None
          end
      | _ =>
          if Contains before ":" || Contains s "[" || Contains s "]"
          then None else Some (before, port)
      end
  end.

Definition JoinHostPort (host port : string) : string :=
  if Contains host ":" || Contains host "%"
  then "[" +:+ host +:+ "]:" +:+ port
  else host +:+ ":" +:+ port.

Example SplitHostPort_v4 : SplitHostPort "10.0.0.1:53" = Some ("10.0.0.1", "53").
Proof. reflexivity. Qed.
Example SplitHostPort_v6 : SplitHostPort "[fe80::1]:53" = Some ("fe80::1", "53").
Proof. reflexivity. Qed.
Example SplitHostPort_bare : SplitHostPort "10.0.0.1" = None ∧ SplitHostPort "::1" = None.
Proof. split; reflexivity. Qed.
