(* ===== verification/Tokens.v ===== *)
(** * Random tokens (internal/stealth/secrets.go, internal/node/service.go)

    The node draws its secrets as bytes and writes them as text: the REALITY
    short id in hexadecimal, the passwords in base64 with the URL alphabet and no
    padding.  [rand.Read] is an argument, the bytes it returns for a length.

    The theorem: the text determines the bytes, has the length that the bytes
    need, and is left alone by URL escaping, so the URIs and profiles that carry
    a password carry it as it is. *)
From S2P Require Import Prelude GoStrings GoUrl.

(** ** base64.RawURLEncoding *)

Definition url_alphabet : string := "ABCDEFGHIJKLMNOPQRSTUVWXYZabcdefghijklmnopqrstuvwxyz0123456789-_".

(** The 6-bit groups of a sequence of bytes, the last one filled with zeros. *)
Fixpoint sextets (l : list Z) : list Z :=
  match l with
  | a :: b :: c :: l => a / 4 :: (a mod 4 * 16 + b / 16) :: (b mod 16 * 4 + c / 64) :: c mod 64 :: sextets l
  | [a; b] => [a / 4; a mod 4 * 16 + b / 16; b mod 16 * 4]
  | [a] => [a / 4; a mod 4 * 16]
  | [] => []
  end.

Definition url_char (v : Z) : Ascii.ascii := default (chr 0) (String.get (Z.to_nat v) url_alphabet).

Definition base64_url (l : list Z) : string :=
  String.string_of_list_ascii (url_char <$> sextets l).

(** The decoder, for the round trip. *)
Fixpoint unsextets (l : list Z) : list Z :=
  match l with
  | w :: x :: y :: z :: l => w * 4 + x / 16 :: (x mod 16 * 16 + y / 4) :: (y mod 4 * 64 + z) :: unsextets l
  | [w; x; y] => [w * 4 + x / 16; x mod 16 * 16 + y / 4]
  | [w; x] => [w * 4 + x / 16]
  | _ => []
  end.
Fixpoint index_of (c : Ascii.ascii) (s : string) (i : Z) : Z :=
  match s with
  | EmptyString => -1
  | String d s => if Ascii.eqb c d then i else index_of c s (i + 1)
  end.
Definition url_value (c : Ascii.ascii) : Z := index_of c url_alphabet 0.
Definition base64_url_decode (s : string) : list Z :=
  unsextets (url_value <$> String.list_ascii_of_string s).

(** ** Drawing *)

Section draws.
Context (rand_Read : nat → list Z).

Definition randHex (n : nat) : string := hex_encode (rand_Read n).
Definition randToken (n : nat) : string := base64_url (rand_Read n).
(** node/service.go has its own copy. *)
Definition randomToken (n : nat) : string := base64_url (rand_Read n).
End draws.

(** ** Lemmas *)

#[local] Ltac Zify.zify_post_hook ::= Z.to_euclidean_division_equations.

Definition is_byte (b : Z) : Prop := 0 <= b < 256.

(** Induction by groups of three. *)
Lemma three_ind (P : list Z → Prop) :
  P [] → (∀ a, P [a]) → (∀ a b, P [a; b]) → (∀ a b c l, P l → P (a :: b :: c :: l)) → ∀ l, P l.
Proof.
  intros H0 H1 H2 H3 l. remember (length l) as n eqn:En. revert l En.
  induction (lt_wf n) as [n _ IH]. intros [|a [|b [|c l]]] ->; auto. apply H3. eapply IH; [|done]. cbn. lia.
Qed.

Lemma sextets_range l : Forall is_byte l → Forall (λ v, 0 <= v < 64) (sextets l).
Proof.
  unfold is_byte. induction l as [|a|a b|a b c l IH] using three_ind; cbn [sextets]; intros H;
    repeat match goal with H : Forall _ (_ :: _) |- _ => apply Forall_cons in H as [? H] end;
    repeat (constructor; [lia|]); auto.
Qed.

Lemma bytes_sextets l : Forall is_byte l → unsextets (sextets l) = l.
Proof.
  unfold is_byte. induction l as [|a|a b|a b c l IH] using three_ind; cbn [sextets unsextets]; intros H;
    repeat match goal with H : Forall _ (_ :: _) |- _ => apply Forall_cons in H as [? H] end;
    [done| | |rewrite IH by done]; repeat (apply (f_equal2 cons); [lia|]); done.
Qed.

Lemma sextets_length l : length (sextets l) = ((4 * length l + 2) / 3)%nat.
Proof.
  induction l as [|a|a b|a b c l IH] using three_ind; try done. cbn [sextets length]. rewrite IH.
  replace (4 * S (S (S (length l))) + 2)%nat with (4 * length l + 2 + 4 * 3)%nat by lia.
  rewrite Nat.div_add by lia. lia.
Qed.

(** Facts about the 64 characters, by computation. *)
Lemma url_char_facts v : 0 <= v < 64 →
  url_value (url_char v) = v ∧ (is_alnum (url_char v) || is_mark (url_char v)) = true.
Proof.
  intros Hv. assert (forallb (λ v, (url_value (url_char v) =? v) && (is_alnum (url_char v) || is_mark (url_char v)))
    (seqZ 0 64) = true) as H by (vm_compute; reflexivity).
  rewrite forallb_forall in H. specialize (H v). rewrite <- list_elem_of_In, elem_of_seqZ in H.
  specialize (H ltac:(lia)). apply andb_prop in H as [H1%Z.eqb_eq H2]. done.
Qed.

Lemma base64_url_roundtrip l : Forall is_byte l → base64_url_decode (base64_url l) = l.
Proof.
  intros H. unfold base64_url_decode, base64_url. rewrite String.list_ascii_of_string_of_list_ascii, <- list_fmap_compose.
  rewrite <- (bytes_sextets l H) at 2. f_equal. apply sextets_range in H.
  induction H as [|v vs Hv _ IH]; [done|]. cbn. f_equal; [by apply url_char_facts|exact IH].
Qed.

Lemma escape_unreserved keep plus s :
  Forall (λ c, is_alnum c || is_mark c = true) (String.list_ascii_of_string s) → escape keep plus s = s.
Proof.
  induction s as [|c s IH]; [done|]. cbn [String.list_ascii_of_string escape]. intros [Hc Hs]%Forall_cons.
  rewrite IH by done. rewrite Hc. cbn [orb].
  destruct (code c =? 32) eqn:E; [|by rewrite andb_false_r].
  exfalso. apply Z.eqb_eq in E. unfold is_alnum, is_digit, is_upper, is_lower, in_range, is_mark in Hc.
  rewrite E in Hc. vm_compute in Hc. discriminate.
Qed.

Lemma base64_url_unreserved l :
  Forall is_byte l → Forall (λ c, is_alnum c || is_mark c = true) (String.list_ascii_of_string (base64_url l)).
Proof.
  intros H%sextets_range. unfold base64_url. rewrite String.list_ascii_of_string_of_list_ascii, Forall_fmap.
  eapply Forall_impl; [exact H|]. intros v Hv. by apply url_char_facts.
Qed.

(** ** Property *)

(** A password says which bytes were drawn: the token decodes to exactly
    the bytes that the generator returned, so two draws give the same token only
    when they gave the same bytes; n bytes make a token of the ceiling of 4n/3
    characters, 32 for the 24 bytes of a password; and both URL escapings leave
    it as it is. *)
Lemma randToken_faithful (rand_Read : nat → list Z) n :
  Forall is_byte (rand_Read n) → length (rand_Read n) = n →
  base64_url_decode (randToken rand_Read n) = rand_Read n ∧
  String.length (randToken rand_Read n) = ((4 * n + 2) / 3)%nat ∧
  QueryEscape (randToken rand_Read n) = randToken rand_Read n ∧
  PathEscape (randToken rand_Read n) = randToken rand_Read n.
Proof.
  intros Hb Hn. unfold randToken. split; [by apply base64_url_roundtrip|].
  pose proof (base64_url_unreserved _ Hb) as Hu. split; [|by split; apply escape_unreserved].
  unfold base64_url. rewrite <- Hn at 2. rewrite <- sextets_length, <- (length_fmap url_char).
  generalize (url_char <$> sextets (rand_Read n)). intros l. induction l as [|c l IH]; [done|]. cbn. by rewrite IH.
Qed.

Lemma randToken_faithful_witness :
  let read n := Z.of_nat <$> seq 100 n in
  randToken read 4 = "ZGVmZw" ∧ base64_url_decode (randToken read 4) = read 4%nat.
Proof.
  intros read. split; [vm_compute; reflexivity|]. apply (randToken_faithful read 4); [|reflexivity].
  repeat constructor; vm_compute; discriminate.
Defined.
