(* ===== verification/GoDecode.v ===== *)
(** * Decoding JSON values into structs (encoding/json)

    A JSON text is represented by the value it parses to.  A field that is
    absent or null keeps the zero value; a field of another type is an error.
    Keys are matched exactly, each key occurs once. *)
From S2P Require Import Prelude GoStrings GoUrl.

Definition type_err (field : string) : error :=
  EMsg ("json: cannot unmarshal value into Go struct field " +:+ field).

(** A string or integer field of a decoded struct; absent and null fields keep
    the zero value. *)
Definition field_string (name : string) (j : json) : result string :=
  match j with
  | JObj _ => match jget name j with
              | None | Some JNull => Ok EmptyString
              | Some (JStr s) => Ok s
              | Some _ => Err (type_err name)
              end
  | JNull => Ok EmptyString
  | _ => Err (type_err name)
  end.
Definition field_int (name : string) (j : json) : result Z :=
  match j with
  | JObj _ => match jget name j with
              | None | Some JNull => Ok 0
              | Some (JNum z) =>
                  if (min_int64 <=? z) && (z <=? max_int64) then Ok z else Err (type_err name)
              | Some _ => Err (type_err name)
              end
  | JNull => Ok 0
  | _ => Err (type_err name)
  end.

(** [bool] and [*bool] fields. *)
Definition field_bool_ptr (name : string) (j : json) : result (option bool) :=
  match j with
  | JObj _ => match jget name j with
              | None | Some JNull => Ok None
              | Some (JBool b) => Ok (Some b)
              | Some _ => Err (type_err name)
              end
  | JNull => Ok None
  | _ => Err (type_err name)
  end.
Definition field_bool (name : string) (j : json) : result bool :=
  b ← field_bool_ptr name j; Ok (default false b).

(** Decodes every element, in order; the first error is the result. *)
Fixpoint decode_all {A} (dec : json → result A) (l : list json) : result (list A) :=
  match l with
  | [] => Ok []
  | j :: l => a ← dec j; r ← decode_all dec l; Ok (a :: r)
  end.

(** A slice field; null and the empty array both give no elements. *)
Definition field_list {A} (name : string) (dec : json → result A) (j : json) : result (list A) :=
  match j with
  | JObj _ => match jget name j with
              | None | Some JNull => Ok []
              | Some (JArr l) => decode_all dec l
              | Some _ => Err (type_err name)
              end
  | JNull => Ok []
  | _ => Err (type_err name)
  end.

Definition string_elem (j : json) : result string :=
  match j with
  | JStr s => Ok s
  | JNull => Ok EmptyString
  | _ => Err (type_err "string")
  end.

(** A slice as json.Marshal writes it; a nil slice is null, and nil and empty
    slices decode alike. *)
Definition encode_list {A} (enc : A → json) (l : list A) : json :=
  match l with [] => JNull | _ => JArr (enc <$> l) end.

Lemma decode_all_encode {A} (enc : A → json) (dec : json → result A) l :
  (∀ a, a ∈ l → dec (enc a) = Ok a) → decode_all dec (enc <$> l) = Ok l.
Proof.
  induction l as [|a l IH]; intros H; [done|]. rewrite fmap_cons. cbn [decode_all].
  rewrite (H a) by left. cbn. rewrite IH; [done|]. intros b Hb. apply H. by right.
Qed.
