(* ===== verification/StoreDB.v ===== *)
(** * The node's SQLite database

    The tables of internal/store/migrations/*.sql with their constraints, and
    the driver: every statement the store runs may fail (I/O error, busy
    timeout, cancelled context).  Which calls fail is a schedule carried by
    the state ([faults]), so that the theorems cover every error path; the
    statement itself is then not executed.

    Rows are kept in insertion order.  The connection pool has one connection
    (SetMaxOpenConns(1)), so transactions run one after the other. *)
From S2P Require Import Prelude GoStrings.

(** ** Rows *)

(** store.Peer *)
Record Peer := mkPeer {
  p_ID : string; p_Name : string; p_Wallet : string; p_WGPublicKey : string;
  p_WGAllowedIP : string; p_WGPresharedKey : string;
  p_ProxyUUID : string; p_ProxyPassword : string;
  p_Enabled : bool; p_CreatedAt : Z; p_UpdatedAt : Z; p_ExpiresAt : Z;
}.

(** A row of table peers: [enabled] is an INTEGER. *)
Record PeerRow := mkPeerRow {
  pr_id : string; pr_name : string; pr_wallet : string; pr_wg_public_key : string;
  pr_wg_allowed_ip : string; pr_wg_preshared_key : string;
  pr_proxy_uuid : string; pr_proxy_password : string;
  pr_enabled : Z; pr_created_at : Z; pr_updated_at : Z; pr_expires_at : Z;
}.

(** store.CarrierCredential *)
Record CarrierCredential := mkCarrier {
  cc_ID : string; cc_Transport : string; cc_SecretHash : string;
  cc_CreatedAt : Z; cc_ExpiresAt : Z; cc_Active : bool;
  cc_Scope : string; cc_PeerID : string;
}.

(** A row of table carrier_credentials: [active] is an INTEGER. *)
Record CarrierRow := mkCarrierRow {
  cr_id : string; cr_transport : string; cr_secret_hash : string;
  cr_created_at : Z; cr_expires_at : Z; cr_active : Z;
  cr_scope : string; cr_peer_id : string;
}.

(** store.ServiceRow, a row of table services. *)
Record ServiceRow := mkServiceRow {
  sr_ID : string; sr_Name : string; sr_Type : string; sr_Protocol : string;
  sr_InternalAddr : string; sr_Port : Z; sr_OwnerPeerID : string; sr_OwnerDID : string;
  sr_Visibility : string; sr_AuthMode : string; sr_Tags : string;
  sr_CreatedAt : Z; sr_UpdatedAt : Z;
}.

(** store.ServiceACL, a row of table service_acls. *)
Record ServiceACL := mkACL {
  acl_ID : string; acl_ServiceID : string; acl_Subject : string;
  acl_Action : string; acl_CreatedAt : Z;
}.

(** ** Tables and the driver *)

Record tables := mkTables {
  peers : list PeerRow;
  node_settings : gmap string string;
  carrier_credentials : list CarrierRow;
  services : list ServiceRow;
  service_acls : list ServiceACL;
}.

Record DB := mkDB { tbl : tables; faults : list (option error) }.

Definition empty_tables : tables := mkTables [] ∅ [] [] [].
Definition empty_db : DB := mkDB empty_tables [].

Definition set_peers (l : list PeerRow) (t : tables) : tables :=
  mkTables l (node_settings t) (carrier_credentials t) (services t) (service_acls t).
Definition set_settings (m : gmap string string) (t : tables) : tables :=
  mkTables (peers t) m (carrier_credentials t) (services t) (service_acls t).
Definition set_carriers (l : list CarrierRow) (t : tables) : tables :=
  mkTables (peers t) (node_settings t) l (services t) (service_acls t).
Definition set_services (l : list ServiceRow) (t : tables) : tables :=
  mkTables (peers t) (node_settings t) (carrier_credentials t) l (service_acls t).
Definition set_acls (l : list ServiceACL) (t : tables) : tables :=
  mkTables (peers t) (node_settings t) (carrier_credentials t) (services t) l.

(** One call of the driver: fails as the schedule says; past its end calls
    succeed. *)
Definition driver : M DB unit := fun s =>
  match faults s with
  | Some e :: fs => (Err e, mkDB (tbl s) fs)
  | None :: fs => (Ok tt, mkDB (tbl s) fs)
  | [] => (Ok tt, s)
  end.

(** A query: one driver call, then a read of the tables. *)
Definition query {A} (f : tables → A) : M DB A :=
  _ ← driver; gets (λ s, f (tbl s)).

(** A statement: one driver call, then a checked update of the tables.  A
    constraint violation leaves them as they were. *)
Definition exec {A} (f : tables → result (A * tables)) : M DB A :=
  _ ← driver; run (λ s,
    match f (tbl s) with
    | Ok (a, t) => (Ok a, mkDB t (faults s))
    | Err e => (Err e, s)
    end).

(** BeginTx, the body, Commit; [defer tx.Rollback()] restores the tables when
    the body or the commit fails. *)
Definition in_tx {A} (body : M DB A) : M DB A :=
  _ ← driver; run (λ s,
    match (a ← body; _ ← driver; mret a) s with
    | (Ok a, s') => (Ok a, s')
    | (Err e, s') => (Err e, mkDB (tbl s) (faults s'))
    end).

(** ** Constraints of the schema *)

Definition unique_violation (col : string) : error :=
  EMsg ("UNIQUE constraint failed: " +:+ col).
Definition fk_violation : error := EMsg "FOREIGN KEY constraint failed".

Definition peers_wf (l : list PeerRow) : Prop :=
  NoDup (pr_id <$> l) ∧ NoDup (pr_wg_public_key <$> l) ∧
  NoDup (pr_wg_allowed_ip <$> l) ∧ NoDup (pr_proxy_uuid <$> l).

(** The declared constraints: primary keys, UNIQUE columns and the foreign
    key of service_acls. *)
Definition db_wf (t : tables) : Prop :=
  peers_wf (peers t) ∧
  NoDup (cr_id <$> carrier_credentials t) ∧
  NoDup (sr_ID <$> services t) ∧
  NoDup (acl_ID <$> service_acls t) ∧
  Forall (λ a, acl_ServiceID a ∈ (sr_ID <$> services t)) (service_acls t).

(** [l] has a row whose column [f] is [x]. *)
Definition taken {A} (f : A → string) (x : string) (l : list A) : bool :=
  existsb (λ r, String.eqb (f r) x) l.

(** ** Lemmas *)

Lemma taken_spec {A} (f : A → string) x l : taken f x l = true ↔ x ∈ (f <$> l).
Proof.
  unfold taken. rewrite existsb_exists, list_elem_of_fmap. split.
  - intros (r & Hr%list_elem_of_In & E%String.eqb_eq). eauto.
  - intros (r & -> & Hr). exists r. split; [by apply list_elem_of_In|apply String.eqb_refl].
Qed.

Lemma taken_false {A} (f : A → string) x l : taken f x l = false ↔ x ∉ (f <$> l).
Proof. rewrite <- taken_spec. destruct (taken f x l); split; congruence. Qed.

Lemma NoDup_fmap_snoc {A} (f : A → string) l r :
  NoDup (f <$> l) → taken f (f r) l = false → NoDup (f <$> (l ++ [r])).
Proof.
  rewrite taken_false, fmap_app. intros Hl Hr.
  apply NoDup_app. split; [done|]. split; [|apply NoDup_singleton].
  intros x Hx ->%list_elem_of_singleton. done.
Qed.

Lemma NoDup_fmap_sublist {A} (f : A → string) l k :
  sublist k l → NoDup (f <$> l) → NoDup (f <$> k).
Proof.
  induction 1 as [|x k l H IH|x k l H IH]; simpl; [done| |by intros [_ ?]%NoDup_cons; auto].
  intros [Hx Hl]%NoDup_cons. apply NoDup_cons. split; [|by apply IH].
  intros (y & Hy & Hin)%list_elem_of_fmap. apply Hx, list_elem_of_fmap.
  exists y. split; [done|]. by eapply elem_of_sublist.
Qed.

(** The tables after a driver call are those before it. *)
Lemma driver_tbl s r s' : driver s = (r, s') → tbl s' = tbl s.
Proof. unfold driver. destruct (faults s) as [|[]]; intros; by simplify_eq. Qed.
#[export] Hint Resolve driver_tbl : erebrus.

Lemma query_inv {A} (f : tables → A) s r s' :
  query f s = (r, s') →
  tbl s' = tbl s ∧ (r = Ok (f (tbl s)) ∨ ∃ e, r = Err e).
Proof.
  unfold query, gets, mbind, M_bind. destruct (driver s) as [[[]|e] s1] eqn:E;
    apply driver_tbl in E; intros; simplify_eq; rewrite ?E; eauto.
Qed.

Lemma exec_inv {A} (f : tables → result (A * tables)) s r s' :
  exec f s = (r, s') →
  (∃ a t, f (tbl s) = Ok (a, t) ∧ r = Ok a ∧ tbl s' = t) ∨
  (∃ e, r = Err e ∧ tbl s' = tbl s).
Proof.
  unfold exec, run, mbind, M_bind. destruct (driver s) as [[[]|e] s1] eqn:E;
    apply driver_tbl in E; [|intros; simplify_eq; rewrite ?E; eauto].
  rewrite E. destruct (f (tbl s)) as [[a t]|e]; intros; simplify_eq/=; eauto 10.
Qed.

(** A transaction that fails leaves every table as it was. *)
Lemma in_tx_err {A} (body : M DB A) s e s' :
  in_tx body s = (Err e, s') → tbl s' = tbl s.
Proof.
  unfold in_tx, run. unfold mbind at 1, M_bind at 1.
  destruct (driver s) as [[[]|e1] s1] eqn:E; apply driver_tbl in E;
    [|intros; simplify_eq; done].
  destruct ((a ← body; _ ← driver; mret a) s1) as [[a|e2] s2]; intros; by simplify_eq.
Qed.

(** A transaction that succeeds has the effect of its body. *)
Lemma in_tx_ok {A} (body : M DB A) s a s' :
  in_tx body s = (Ok a, s') →
  ∃ s1 s2, tbl s1 = tbl s ∧ body s1 = (Ok a, s2) ∧ tbl s' = tbl s2.
Proof.
  unfold in_tx, run, mbind, M_bind, mret, M_ret.
  destruct (driver s) as [[[]|e1] s1] eqn:E; apply driver_tbl in E; [|done].
  destruct (body s1) as [[a'|e2] s2] eqn:E2; [|done].
  destruct (driver s2) as [[[]|e3] s3] eqn:E3; apply driver_tbl in E3; [|done].
  intros; simplify_eq. eauto.
Qed.
