(* ===== verification/IPAlloc.v ===== *)
(** * Address allocation (internal/store/ipalloc.go)

    [txAllocateIP] hands out the lowest host address of the WireGuard subnet
    that is neither reserved (network, broadcast, the server itself) nor
    assigned to a peer.  The theorems are for IPv4 subnets of prefix length
    1 to 32, the domain of WG_IPv4_SUBNET: the loop always ends, what it
    returns is in the subnet, unreserved, unassigned and the lowest such
    address, and it reports exhaustion exactly when there is none. *)
From S2P Require Import Prelude GoStrings GoNet StoreDB.

(** ** The code *)

(** cloneIP: a fresh slice with the same bytes. *)
Definition cloneIP (ip : IP) : IP := ip.

(** The loop of incIP runs from the last byte to the first; [inc_rev] is that
    loop on the reversed slice, with the wrap-around of uint8. *)
Fixpoint inc_rev (l : list Z) : list Z :=
  match l with
  | [] => []
  | b :: l =>
      let b' := (b + 1) mod 256 in
      if 0 <? b' then b' :: l else b' :: inc_rev l
  end.
Definition incIP (ip : IP) : IP := reverse (inc_rev (reverse ip)).

(** broadcastAddr: [n.IP[i] | ^n.Mask[i]] for each byte. *)
Definition broadcastAddr (n : IPNet) : IP :=
  map2 (λ a m, Z.lor a (255 - m)) (net_IP n) (net_Mask n).

(** The search loop.  [None] stands for running out of fuel. *)
Fixpoint alloc_loop (fuel : nat) (ipnet : IPNet) (reserved : gset string) (ip : IP)
    : option (result string) :=
  match fuel with
  | O => None
  | S fuel =>
      if Contains_ip ipnet ip then
        let addr := ip_String ip in
        if bool_decide (addr ∈ reserved)
        then alloc_loop fuel ipnet reserved (incIP ip)
        else Some (Ok (addr +:+ "/32"))
      else Some (Err (EVar ErrSubnetExhausted))
  end.

(** The addresses of the peers' CIDRs; text that does not parse is skipped. *)
Definition assigned (cidrs : list string) : gset string :=
  list_to_set (omap (λ cidr, '(ip, _) ← ParseCIDR cidr; Some (ip_String ip)) cidrs).

Definition reserved_set (serverIP : IP) (ipnet : IPNet) (cidrs : list string) : gset string :=
  {[ ip_String (net_IP ipnet) ]} ∪ {[ ip_String (broadcastAddr ipnet) ]} ∪
  {[ ip_String serverIP ]} ∪ assigned cidrs.

(** Every round but the last consumes a reserved address, so one round more
    than there are reserved addresses is enough fuel. *)
Definition find_free (serverIP : IP) (ipnet : IPNet) (cidrs : list string)
    : option (result string) :=
  let reserved := reserved_set serverIP ipnet cidrs in
  alloc_loop (S (size reserved)) ipnet reserved
    (cloneIP (ip_Mask (net_IP ipnet) (net_Mask ipnet))).

Definition txAllocateIP (subnet : string) : M DB string :=
  match ParseCIDR subnet with
  | None => fail (EMsg ("invalid CIDR address: " +:+ subnet))
  | Some (serverIP, ipnet) =>
      cidrs ← query (λ t, pr_wg_allowed_ip <$> peers t);
      lift (default (Err (EMsg "allocation loop does not end"))
                    (find_free serverIP ipnet cidrs))
  end.

(** ** IPv4 networks *)

Definition v4_addr (ip : IP) : Prop := length ip = 4%nat ∧ bytes ip.

(** The network of an IPv4 CIDR: a server address and a prefix length. *)
Definition v4_net (server : IP) (n : Z) : IPNet :=
  {| net_IP := map2 Z.land server (CIDRMask n 4); net_Mask := CIDRMask n 4 |}.

(** The first and the last address of the network, as numbers. *)
Definition net_lo (server : IP) (n : Z) : Z := be_val server / 2 ^ (32 - n) * 2 ^ (32 - n).
Definition net_hi (server : IP) (n : Z) : Z := net_lo server n + 2 ^ (32 - n) - 1.

Lemma v4_addr_inv ip : v4_addr ip →
  ∃ a b c d, ip = [a; b; c; d] ∧ is_byte a ∧ is_byte b ∧ is_byte c ∧ is_byte d.
Proof.
  intros [Hlen H]. destruct ip as [|a [|b [|c [|d [|]]]]]; try done.
  unfold bytes in H. rewrite !Forall_cons in H. destruct H as (?&?&?&?&_). eauto 10.
Qed.

Lemma v4_String_inj ip1 ip2 :
  v4_addr ip1 → v4_addr ip2 → ip_String ip1 = ip_String ip2 → ip1 = ip2.
Proof.
  intros (?&?&?&?&->&?&?&?&?)%v4_addr_inv (?&?&?&?&->&?&?&?&?)%v4_addr_inv.
  rewrite !ip_String_v4. by apply v4_text_inj.
Qed.

Lemma v4_val_bound ip : v4_addr ip → 0 <= be_val ip < 2 ^ 32.
Proof. intros [Hl Hb]. pose proof (be_val_bound ip Hb) as H. rewrite Hl in H. exact H. Qed.

Lemma To4_v4 ip : v4_addr ip → To4 ip = Some ip.
Proof. intros [Hl _]. unfold To4. by rewrite bool_decide_true. Qed.

Lemma map2_land_v4 ip n : v4_addr ip → v4_addr (map2 Z.land ip (CIDRMask n 4)).
Proof.
  intros (a & b & c & d & -> & Ha & Hb & Hc & Hd)%v4_addr_inv. split; [done|].
  cbn [CIDRMask]. unfold map2, bytes. cbn [zip_with].
  do 4 (apply Forall_cons; split; [by apply land_byte|]). by apply Forall_nil.
Qed.

(** Membership in the network is membership in an interval. *)
Lemma Contains_v4 server n ip :
  v4_addr server → v4_addr ip → 0 <= n <= 32 →
  Contains_ip (v4_net server n) ip = true ↔ net_lo server n <= be_val ip <= net_hi server n.
Proof.
  intros Hs Hip Hn. pose proof (map2_land_v4 server n Hs) as Hnet.
  unfold Contains_ip, v4_net. cbn [net_IP net_Mask].
  rewrite !To4_v4 by done. cbn [from_option]. unfold Datatypes.id.
  rewrite (bool_decide_false (_ ∧ _)) by (rewrite length_CIDRMask; lia).
  rewrite (bool_decide_true (length ip = _)) by (destruct Hnet, Hip; congruence).
  cbn [andb]. rewrite bool_decide_eq_true.
  destruct Hs as [Hs1 Hs2], Hip as [Hi1 Hi2], Hnet as [Hn1 Hn2].
  rewrite mask_eq_iff by (auto; lia).
  assert (be_val (map2 Z.land server (CIDRMask n 4)) / 2 ^ (32 - n) = be_val server / 2 ^ (32 - n)) as E.
  { pose proof (mask_eq_iff (map2 Z.land server (CIDRMask n 4)) server n 4
      Hn1 Hs1 Hn2 Hs2 ltac:(lia)) as H.
    rewrite Z.max_r in H by lia. apply H, map2_land_idem. }
  change (8 * Z.of_nat 4) with 32. rewrite Z.max_r, E by lia. unfold net_hi, net_lo.
  assert (0 < 2 ^ (32 - n)) by (apply Z.pow_pos_nonneg; lia).
  set (P := 2 ^ (32 - n)) in *. set (q := be_val server / P).
  pose proof (Z.div_mod (be_val ip) P ltac:(lia)).
  pose proof (Z.mod_pos_bound (be_val ip) P ltac:(lia)). split; [nia|].
  intros [Hlo Hhi]. assert (be_val ip / P = q); [|done].
  symmetry. apply Z.div_unique with (be_val ip - q * P); lia.
Qed.

(** incIP adds one, modulo the width of the address. *)
Fixpoint le_val (l : list Z) : Z :=
  match l with [] => 0 | b :: l => b + 256 * le_val l end.

Lemma le_val_app l b : le_val (l ++ [b]) = le_val l + 256 ^ Z.of_nat (length l) * b.
Proof.
  induction l as [|x l IH]; [simpl; lia|].
  cbn [le_val app length]. rewrite IH, Nat2Z.inj_succ, Z.pow_succ_r by lia. lia.
Qed.

Lemma be_val_reverse l : be_val l = le_val (reverse l).
Proof.
  induction l as [|b l IH]; [done|]. rewrite reverse_cons, le_val_app, length_reverse, <- IH.
  cbn [be_val]. replace (2 ^ (8 * Z.of_nat (length l))) with (256 ^ Z.of_nat (length l)).
  - lia. - change 256 with (2 ^ 8). by rewrite <- Z.pow_mul_r by lia.
Qed.

Lemma inc_rev_spec l :
  bytes l →
  bytes (inc_rev l) ∧ length (inc_rev l) = length l ∧
  le_val (inc_rev l) = (le_val l + 1) mod 256 ^ Z.of_nat (length l).
Proof.
  induction 1 as [|b l [Hb1 Hb2] Hl (IH1 & IH2 & IH3)]; [split; [constructor|done]|].
  assert (0 <= le_val l < 256 ^ Z.of_nat (length l)) as B.
  { pose proof (be_val_bound (reverse l)) as B. rewrite be_val_reverse, reverse_involutive,
      length_reverse in B. replace (256 ^ Z.of_nat (length l)) with (2 ^ (8 * Z.of_nat (length l))).
    - apply B. by apply Forall_reverse. - change 256 with (2 ^ 8). by rewrite Z.pow_mul_r by lia. }
  cbn [inc_rev length]. rewrite Nat2Z.inj_succ, Z.pow_succ_r by lia. cbn [le_val].
  set (P := 256 ^ Z.of_nat (length l)) in *.
  destruct (Z.ltb_spec 0 ((b + 1) mod 256)) as [Hpos|Hz].
  - assert ((b + 1) mod 256 = b + 1) as ->.
    { apply Z.mod_small. split; [lia|]. destruct (decide (b = 255)) as [->|]; [done|lia]. }
    assert (b <> 255) by (intros ->; done).
    split; [|split; [done|]]; [constructor; [split; lia|done]|]. cbn [le_val].
    rewrite Z.mod_small; lia.
  - assert (b = 255) as ->. { destruct (decide (b = 255)); [done|]. rewrite Z.mod_small in Hz; lia. }
    change ((255 + 1) mod 256) with 0. cbn [le_val length]. rewrite IH2, IH3.
    split; [constructor; [split; lia|done]|]. split; [done|].
    replace (255 + 256 * le_val l + 1) with (256 * (le_val l + 1)) by lia.
    rewrite Z.mul_mod_distr_l by lia. lia.
Qed.

Lemma incIP_v4 ip :
  v4_addr ip → v4_addr (incIP ip) ∧ be_val (incIP ip) = (be_val ip + 1) mod 2 ^ 32.
Proof.
  intros [Hl Hb]. unfold incIP. destruct (inc_rev_spec (reverse ip)) as (H1 & H2 & H3);
    [by apply Forall_reverse|]. rewrite length_reverse, Hl in *.
  split; [split; [by rewrite length_reverse|by apply Forall_reverse]|].
  rewrite !be_val_reverse, reverse_involutive, H3. done.
Qed.

Lemma broadcast_v4 server n :
  v4_addr server → v4_addr (broadcastAddr (v4_net server n)).
Proof.
  intros Hs%(map2_land_v4 _ n). unfold broadcastAddr, v4_net. cbn [net_IP net_Mask].
  destruct (v4_addr_inv _ Hs) as (a & b & c & d & -> & Ha & Hb & Hc & Hd).
  assert (∀ x m, is_byte x → is_byte (255 - m) → is_byte (Z.lor x (255 - m))) as Hlor.
  { intros x m Hx Hm. assert (Z.lor x (255 - m) = (Z.lor x (255 - m)) mod 2 ^ 8) as ->.
    { rewrite <- Z.land_ones, Z.land_lor_distr_l, !Z.land_ones by lia. by rewrite !Z.mod_small. }
    apply Z.mod_pos_bound. lia. }
  assert (∀ k, is_byte (255 - (if 8 <=? k then 255 else 255 - (2 ^ (8 - Z.max 0 k) - 1)))) as Hm.
  { intros k. destruct (Z.leb_spec 8 k); [done|].
    assert (0 < 2 ^ (8 - Z.max 0 k)) by (apply Z.pow_pos_nonneg; lia).
    assert (2 ^ (8 - Z.max 0 k) <= 2 ^ 8) by (apply Z.pow_le_mono_r; lia). split; lia. }
  split; [done|]. cbn [CIDRMask map2 zip_with].
  do 4 (apply Forall_cons; split; [by apply Hlor|]). by apply Forall_nil.
Qed.

Lemma net_bounds_val server n :
  v4_addr server → 0 <= n <= 32 →
  be_val (net_IP (v4_net server n)) = net_lo server n ∧
  be_val (broadcastAddr (v4_net server n)) = net_hi server n.
Proof.
  intros [Hl Hb] Hn. destruct (be_val_mask server n 4 Hl Hb ltac:(lia)) as [H1 H2].
  rewrite Z.max_r in H1, H2 by lia. split; [exact H1|exact H2].
Qed.

(** The bounds of the network lie in the 32-bit range; the network does not
    start at 0.0.0.0 when it reaches the end of the range. *)
Lemma net_range server n :
  v4_addr server → 1 <= n <= 32 →
  0 <= net_lo server n <= net_hi server n ∧ net_hi server n < 2 ^ 32 ∧
  (net_hi server n = 2 ^ 32 - 1 → 0 < net_lo server n).
Proof.
  intros Hs Hn. pose proof (v4_val_bound server Hs) as B. unfold net_hi, net_lo.
  assert (0 < 2 ^ (32 - n)) by (apply Z.pow_pos_nonneg; lia).
  assert (2 ^ (32 - n) <= 2 ^ 31) by (apply Z.pow_le_mono_r; lia).
  assert (2 ^ 32 = 2 ^ n * 2 ^ (32 - n)) as E by (rewrite <- Z.pow_add_r by lia; f_equal; lia).
  set (P := 2 ^ (32 - n)) in *.
  assert (0 <= be_val server / P) by (apply Z.div_pos; lia).
  assert (be_val server / P < 2 ^ n) by (apply Z.div_lt_upper_bound; nia).
  change (2 ^ 31) with 2147483648 in *. change (2 ^ 32) with 4294967296 in *. nia.
Qed.

(** ** The loop *)

(** What the search returns, from position [v] of the interval up to [hi]. *)
Definition search_spec (reserved : gset string) (v hi : Z) (o : option (result string)) : Prop :=
  match o with
  | Some (Ok a) => ∃ ip,
      a = ip_String ip +:+ "/32" ∧ v4_addr ip ∧ v <= be_val ip <= hi ∧
      (ip_String ip ∉ reserved) ∧
      ∀ ip', v4_addr ip' → v <= be_val ip' < be_val ip → ip_String ip' ∈ reserved
  | Some (Err e) => e = EVar ErrSubnetExhausted ∧
      ∀ ip', v4_addr ip' → v <= be_val ip' <= hi → ip_String ip' ∈ reserved
  | None => False
  end.

Lemma search_spec_step reserved v hi ip o :
  v4_addr ip → be_val ip = v → ip_String ip ∈ reserved →
  search_spec reserved (v + 1) hi o → search_spec reserved v hi o.
Proof.
  intros Hip Hv Hres.
  assert (∀ ip', v4_addr ip' → be_val ip' = v → ip_String ip' ∈ reserved) as Hhere.
  { intros ip' Hip' Hv'. destruct Hip, Hip'.
    by rewrite (be_val_inj ip' ip) by congruence. }
  destruct o as [[a|e]|]; simpl; [| |done].
  - intros (ip0 & -> & H0 & H1 & H2 & H3). exists ip0. do 4 (split; [done || lia|]).
    intros ip' Hip' Hb. destruct (decide (be_val ip' = v)); [auto|]. apply H3; [done|lia].
  - intros [-> H]. split; [done|]. intros ip' Hip' Hb.
    destruct (decide (be_val ip' = v)); [auto|]. apply H; [done|lia].
Qed.

(** Enough fuel: one more than the reserved addresses not yet passed. *)
Lemma alloc_loop_spec server n reserved :
  v4_addr server → 1 <= n <= 32 → ∀ fuel (R : gset string) ip v,
  v4_addr ip → be_val ip = v mod 2 ^ 32 →
  net_lo server n <= v <= net_hi server n + 1 →
  (size R < fuel)%nat →
  (∀ ip', v4_addr ip' → v <= be_val ip' → ip_String ip' ∈ reserved → ip_String ip' ∈ R) →
  search_spec reserved v (net_hi server n) (alloc_loop fuel (v4_net server n) reserved ip).
Proof.
  intros Hs Hn. destruct (net_range server n Hs Hn) as (Hlo & Hhi & Hwrap).
  induction fuel as [|fuel IH]; intros R ip v Hip Hval Hv Hfuel HR; [lia|].
  cbn [alloc_loop].
  destruct (Contains_ip (v4_net server n) ip) eqn:EC.
  - apply Contains_v4 in EC; [|done|done|lia].
    assert (be_val ip = v) as Hv'.
    { destruct (decide (v = 2 ^ 32)) as [->|].
      - rewrite Z.mod_same in Hval by lia. lia.
      - rewrite Z.mod_small in Hval by lia. done. }
    case_bool_decide as Hres.
    + destruct (incIP_v4 ip Hip) as [Hinc Einc].
      apply (search_spec_step _ _ _ ip); [done|done|done|].
      apply (IH (R ∖ {[ ip_String ip ]})); [done| |lia| |].
      * rewrite Einc, Hv'. done.
      * assert (ip_String ip ∈ R) by (apply HR; [done|lia|done]).
        rewrite size_difference by set_solver. rewrite size_singleton.
        assert (size R ≠ 0%nat) by (apply size_non_empty_iff; set_solver). lia.
      * intros ip' Hip' Hle Hin. apply elem_of_difference. split; [apply HR; [done|lia|done]|].
        intros E%elem_of_singleton. apply v4_String_inj in E as ->; [lia|done|done].
    + exists ip. split; [done|]. split; [done|]. split; [lia|]. split; [done|].
      intros ip' _ Hb. lia.
  - assert (v = net_hi server n + 1) as ->.
    { destruct (decide (v = net_hi server n + 1)) as [|Hne]; [done|].
      rewrite Z.mod_small in Hval by lia.
      assert (Contains_ip (v4_net server n) ip = true); [|congruence].
      apply Contains_v4; [done|done|lia|lia]. }
    split; [done|]. intros ip' _ Hb. lia.
Qed.

(** ** The allocator's contract *)

(** An address a peer may be given: strictly inside the subnet, not the
    server's, and not the address of any peer's CIDR. *)
Definition host_free (server : IP) (n : Z) (cidrs : list string) (ip : IP) : Prop :=
  v4_addr ip ∧ net_lo server n < be_val ip < net_hi server n ∧
  ip ≠ server ∧ ip_String ip ∉ assigned cidrs.

(** The abstract allocator: the least free address, or exhaustion. *)
Definition alloc_spec (server : IP) (n : Z) (cidrs : list string) (r : result string) : Prop :=
  match r with
  | Ok a => ∃ ip, a = ip_String ip +:+ "/32" ∧ host_free server n cidrs ip ∧
      (∀ ip', host_free server n cidrs ip' → be_val ip <= be_val ip') ∧ a ∉ cidrs
  | Err e => e = EVar ErrSubnetExhausted ∧ ∀ ip', ¬ host_free server n cidrs ip'
  end.

Lemma ip_String_As16_v4 server : v4_addr server → ip_String (As16 server) = ip_String server.
Proof. by intros (?&?&?&?&->&_)%v4_addr_inv. Qed.

(** Within the subnet, an address is reserved exactly when it is not free. *)
Lemma reserved_iff server n cidrs ip :
  v4_addr server → 1 <= n <= 32 → v4_addr ip →
  net_lo server n <= be_val ip <= net_hi server n →
  ip_String ip ∈ reserved_set (As16 server) (v4_net server n) cidrs ↔
  ¬ host_free server n cidrs ip.
Proof.
  intros Hs Hn Hip Hrange. unfold reserved_set, host_free.
  destruct (net_bounds_val server n Hs ltac:(lia)) as [Elo Ehi].
  pose proof (map2_land_v4 server n Hs) as Hnet. pose proof (broadcast_v4 server n Hs) as Hbc.
  rewrite !elem_of_union, !elem_of_singleton, ip_String_As16_v4 by done.
  assert (∀ ip2, v4_addr ip2 → ip_String ip = ip_String ip2 ↔ be_val ip = be_val ip2) as Heq.
  { intros ip2 H2. split; [by intros ->%v4_String_inj|]. intros E.
    destruct Hip, H2. by rewrite (be_val_inj ip ip2) by congruence. }
  rewrite (Heq (net_IP (v4_net server n))), (Heq (broadcastAddr _)), Elo, Ehi by done.
  assert (ip_String ip = ip_String server ↔ ip = server) as ->.
  { split; [by apply v4_String_inj|by intros ->]. }
  destruct (decide (be_val ip = net_lo server n)); [split; [intros; lia|tauto]|].
  destruct (decide (be_val ip = net_hi server n)); [split; [intros; lia|tauto]|].
  destruct (decide (ip = server)), (decide (ip_String ip ∈ assigned cidrs)); split;
    [tauto..|intros [[[?|?]|?]|?]; by try lia|].
  intros []. split; [done|]. split; [lia|]. by split.
Qed.

Lemma assigned_own ip cidrs :
  v4_addr ip → ip_String ip +:+ "/32" ∈ cidrs → ip_String ip ∈ assigned cidrs.
Proof.
  intros (a&b&c&d&->&Ha&Hb&Hc&Hd)%v4_addr_inv Hin. unfold assigned.
  rewrite ip_String_v4 in *. apply elem_of_list_to_set, list_elem_of_omap.
  eexists. split; [exact Hin|].
  destruct (ParseCIDR_v4_32 a b c d Ha Hb Hc Hd) as [net ->]. cbn [mbind option_bind].
  by rewrite ip_String_As16.
Qed.

Lemma ip_Mask_v4_net server n :
  v4_addr server →
  ip_Mask (net_IP (v4_net server n)) (net_Mask (v4_net server n)) = net_IP (v4_net server n).
Proof.
  intros Hs. unfold ip_Mask, v4_net. cbn [net_IP net_Mask].
  rewrite bool_decide_false; [apply map2_land_idem|].
  rewrite (proj1 (map2_land_v4 server n Hs)). lia.
Qed.

Lemma find_free_spec server n cidrs :
  v4_addr server → 1 <= n <= 32 →
  ∃ r, find_free (As16 server) (v4_net server n) cidrs = Some r ∧ alloc_spec server n cidrs r.
Proof.
  intros Hs Hn. unfold find_free, cloneIP. set (res := reserved_set _ _ _).
  destruct (net_bounds_val server n Hs ltac:(lia)) as [Elo _].
  destruct (net_range server n Hs Hn) as (Hlo & Hhi & _).
  rewrite ip_Mask_v4_net by done.
  pose proof (alloc_loop_spec server n res Hs Hn (S (size res)) res
    (net_IP (v4_net server n)) (net_lo server n) (map2_land_v4 server n Hs)
    ltac:(rewrite Elo, Z.mod_small; lia) ltac:(lia) ltac:(lia) ltac:(done)) as H.
  destruct (alloc_loop _ _ _ _) as [r|]; [|done]. exists r. split; [done|].
  destruct r as [a|e]; simpl in H.
  - destruct H as (ip & -> & Hip & Hr & Hnot & Hleast). exists ip.
    assert (host_free server n cidrs ip) as Hfree.
    { destruct (decide (be_val ip = net_lo server n ∨ be_val ip = net_hi server n
        ∨ ip = server ∨ ip_String ip ∈ assigned cidrs)) as [Hbad|Hgood].
      - exfalso. apply Hnot. apply reserved_iff; [done..|].
        unfold host_free. naive_solver lia.
      - unfold host_free. split; [done|]. split; [lia|]. tauto. }
    split; [done|]. split; [done|]. split.
    + intros ip' Hf'. destruct (Z.le_gt_cases (be_val ip) (be_val ip')) as [|Hlt]; [done|].
      exfalso. destruct Hf' as (Hip' & Hb' & Hrest).
      eapply (proj1 (reserved_iff server n cidrs ip' Hs Hn Hip' ltac:(lia))); [|exact (conj Hip' (conj Hb' Hrest))].
      apply Hleast; [done|lia].
    + intros Hin. destruct Hfree as (_ & _ & _ & Hna). by apply Hna, assigned_own.
  - destruct H as [-> H]. split; [done|]. intros ip' Hf.
    pose proof Hf as (Hip' & Hb & _).
    apply (reserved_iff server n cidrs ip') in Hf; auto; [lia|]. apply H; [done|lia].
Qed.

(** ** Subnets as the configuration writes them *)

(** Any CIDR whose network has four bytes is an IPv4 CIDR. *)
Lemma ParseCIDR_v4_net subnet srv net :
  ParseCIDR subnet = Some (srv, net) → length (net_IP net) = 4%nat →
  ∃ server n, v4_addr server ∧ 0 <= n <= 32 ∧ srv = As16 server ∧ net = v4_net server n.
Proof.
  unfold ParseCIDR. destruct (cut "/" subnet) as [[addr mask]|]; [|done].
  cbn [mbind option_bind]. unfold ParseAddr.
  destruct (addr_family addr) as [[]|]; [| |done]; cbn [mbind option_bind].
  - destruct (parseIPv4 addr) as [q|] eqn:Eq; [|done]. cbn [mbind option_bind].
    assert (v4_addr q) as Hq.
    { split; [by eapply (v4_fields_length _ [] 0 0); [simpl; lia|]|].
      eapply (v4_fields_bytes _ [] 0 0); [by apply Forall_nil|lia|done]. }
    destruct mask as [|c m]; [done|]. cbn [dtoi mbind option_bind].
    destruct (digits 0 (String c m)) as [n|] eqn:En; [|done]. cbn [mbind option_bind].
    destruct (n <? 16777215); [|done]. cbn [mbind option_bind]. rewrite (proj1 Hq).
    destruct (Z.ltb_spec (8 * Z.of_nat 4) n); [done|]. intros [= <- <-] _.
    apply digits_bound in En; [|lia]. exists q, n.
    split; [done|]. split; [lia|]. split; [done|]. unfold v4_net. f_equal.
    destruct (v4_addr_inv q Hq) as (a&b&c'&d&->&_). unfold ip_Mask.
    rewrite (bool_decide_true (length (CIDRMask n 4) = _ ∧ _)) by (by rewrite length_CIDRMask).
    done.
  - destruct (parseIPv6 addr) as [[q zone]|] eqn:Eq; [|done]. cbn [mbind option_bind].
    destruct (negb _); [done|]. destruct (dtoi mask) as [n|]; [|done]. cbn [mbind option_bind].
    destruct (_ <? _); [done|]. intros [= <- <-]. cbn [net_IP]. unfold ip_Mask.
    apply parseIPv6_length in Eq. unfold As16.
    rewrite (bool_decide_false (length q = 4%nat)) by lia.
    rewrite length_CIDRMask, bool_decide_false by lia. unfold map2.
    rewrite length_zip_with, length_CIDRMask. lia.
Qed.

(** ** Properties *)

(** C1. [txAllocateIP] on an IPv4 subnet of prefix length 1 to 32, when the
    database answers: the loop ends; the address returned is strictly inside
    the subnet (neither network nor broadcast), not the server's, not held by
    a peer, and the lowest such address; its /32 text is not in the table, so
    the insert that follows cannot hit the UNIQUE constraint on wg_allowed_ip;
    and [ErrSubnetExhausted] is returned exactly when no address is free. *)
Theorem txAllocateIP_least_free subnet server n s :
  ParseCIDR subnet = Some (As16 server, v4_net server n) →
  v4_addr server → 1 <= n <= 32 → faults s = [] →
  ∃ r, txAllocateIP subnet s = (r, s) ∧
       alloc_spec server n (pr_wg_allowed_ip <$> peers (tbl s)) r.
Proof.
  intros Hp Hs Hn Hf. unfold txAllocateIP. rewrite Hp.
  unfold query, lift, gets, driver, mbind, M_bind. rewrite Hf.
  destruct (find_free_spec server n (pr_wg_allowed_ip <$> peers (tbl s)) Hs Hn) as (r & -> & Hr).
  by exists r.
Qed.

Definition wit_row (ip key : string) : PeerRow :=
  mkPeerRow key key EmptyString key ip EmptyString key EmptyString 1 0 0 0.

Lemma txAllocateIP_least_free_witness :
  let s := mkDB (set_peers [wit_row "10.0.0.2/32" "k"] empty_tables) [] in
  txAllocateIP "10.0.0.1/29" s = (Ok "10.0.0.3/32", s) ∧
  ∃ r, txAllocateIP "10.0.0.1/29" s = (r, s) ∧
       alloc_spec [10;0;0;1] 29 ["10.0.0.2/32"] r.
Proof.
  split; [vm_compute; reflexivity|].
  apply (txAllocateIP_least_free "10.0.0.1/29" [10;0;0;1] 29
    (mkDB (set_peers [wit_row "10.0.0.2/32" "k"] empty_tables) [])).
  - vm_compute. reflexivity.
  - split; [reflexivity|]. solve_bytes.
  - lia.
  - reflexivity.
Defined.

(** [incIP] is the successor of the address read as a big-endian number,
    modulo the width of the address: 255.255.255.255 wraps to 0.0.0.0. *)
Lemma incIP_successor ip :
  bytes ip →
  length (incIP ip) = length ip ∧ bytes (incIP ip) ∧
  be_val (incIP ip) = (be_val ip + 1) mod 2 ^ (8 * Z.of_nat (length ip)).
Proof.
  intros Hb. unfold incIP. destruct (inc_rev_spec (reverse ip)) as (H1 & H2 & H3);
    [by apply Forall_reverse|]. rewrite length_reverse in *.
  split; [done|]. split; [by apply Forall_reverse|].
  rewrite !be_val_reverse, reverse_involutive, H3, Z.pow_mul_r by lia. done.
Qed.
