(* ===== verification/Store.v ===== *)
(** * The store (internal/store/store.go, services.go, acls.go, carriers.go)

    Every operation of [store.Store] as a program of the state-and-error
    monad over the database.  time.Now() and uuid.NewString() are arguments.

    The theorems: every operation preserves the schema's constraints and is
    refused exactly for its conflicts; a failed operation leaves the tables
    unchanged (the transaction of UpsertPeer included); UpsertPeer refines an
    abstract map from peer id to peer, with addresses, creation time and proxy
    credentials that never change; settings and services read back what was
    written. *)
From S2P Require Import Prelude GoStrings GoNet StoreDB IPAlloc.

Section with_sorting.
Context {srt : Sorting}.

(** ** node_settings *)

Definition GetSetting (key : string) : M DB string :=
  query (λ t, default EmptyString (node_settings t !! key)).

Definition SetSetting (key value : string) : M DB unit :=
  exec (λ t, Ok (tt, set_settings (<[key := value]> (node_settings t)) t)).

(** ** peers *)

Definition boolToInt (b : bool) : Z := if b then 1 else 0.

Definition scanPeer (r : PeerRow) : Peer :=
  mkPeer (pr_id r) (pr_name r) (pr_wallet r) (pr_wg_public_key r) (pr_wg_allowed_ip r)
    (pr_wg_preshared_key r) (pr_proxy_uuid r) (pr_proxy_password r)
    (negb (pr_enabled r =? 0)) (pr_created_at r) (pr_updated_at r) (pr_expires_at r).

(** The VALUES of the INSERT statement. *)
Definition insert_row (p : Peer) : PeerRow :=
  mkPeerRow (p_ID p) (p_Name p) (p_Wallet p) (p_WGPublicKey p) (p_WGAllowedIP p)
    (p_WGPresharedKey p) (p_ProxyUUID p) (p_ProxyPassword p)
    (boolToInt (p_Enabled p)) (p_CreatedAt p) (p_UpdatedAt p) (p_ExpiresAt p).

Definition select_peer_by_id (i : string) (t : tables) : option PeerRow :=
  find_first (λ r, String.eqb (pr_id r) i) (peers t).
Definition select_peer_by_key (k : string) (t : tables) : option PeerRow :=
  find_first (λ r, String.eqb (pr_wg_public_key r) k) (peers t).

(** Query-row followed by Scan: [sql.ErrNoRows] when nothing matches. *)
Definition row_or_ErrNoRows {A} (o : option A) : result A :=
  match o with Some a => Ok a | None => Err (EVar ErrNoRows) end.

Definition txGetPeer (i : string) : M DB Peer :=
  o ← query (select_peer_by_id i); lift (scanPeer <$> row_or_ErrNoRows o).
Definition txGetPeerByWGPublicKey (k : string) : M DB Peer :=
  o ← query (select_peer_by_key k); lift (scanPeer <$> row_or_ErrNoRows o).

Definition GetPeer (i : string) : M DB Peer :=
  r ← try (txGetPeer i);
  match r with
  | Err e => if errors_Is e ErrNoRows then fail (EVar ErrNotFound) else fail e
  | Ok p => mret p
  end.

Definition ListPeers : M DB (list Peer) :=
  query (λ t, scanPeer <$> sort_by (λ a b, pr_created_at a <? pr_created_at b) (peers t)).

Definition delete_peer_rows (i : string) (l : list PeerRow) : list PeerRow :=
  filter (λ r, pr_id r ≠ i) l.

Definition DeletePeer (i : string) : M DB unit :=
  exec (λ t, Ok (tt, set_peers (delete_peer_rows i (peers t)) t)).

Record GeneratedCreds := mkGen { g_ProxyUUID : string; g_ProxyPassword : string }.

(** UPDATE peers SET name, wallet, wg_public_key, wg_preshared_key, enabled,
    updated_at, expires_at WHERE id. *)
Definition update_row (p : Peer) (r : PeerRow) : PeerRow :=
  if String.eqb (pr_id r) (p_ID p)
  then mkPeerRow (pr_id r) (p_Name p) (p_Wallet p) (p_WGPublicKey p) (pr_wg_allowed_ip r)
         (p_WGPresharedKey p) (pr_proxy_uuid r) (pr_proxy_password r)
         (boolToInt (p_Enabled p)) (pr_created_at r) (p_UpdatedAt p) (p_ExpiresAt p)
  else r.

Definition exec_update_peer (p : Peer) : M DB unit :=
  exec (λ t,
    if taken pr_wg_public_key (p_WGPublicKey p)
         (filter (λ r, pr_id r ≠ p_ID p) (peers t)) && taken pr_id (p_ID p) (peers t)
    then Err (unique_violation "peers.wg_public_key")
    else Ok (tt, set_peers (update_row p <$> peers t) t)).

Definition exec_insert_peer (p : Peer) : M DB unit :=
  exec (λ t,
    if taken pr_id (p_ID p) (peers t) then Err (unique_violation "peers.id")
    else if taken pr_wg_public_key (p_WGPublicKey p) (peers t)
    then Err (unique_violation "peers.wg_public_key")
    else if taken pr_wg_allowed_ip (p_WGAllowedIP p) (peers t)
    then Err (unique_violation "peers.wg_allowed_ip")
    else if taken pr_proxy_uuid (p_ProxyUUID p) (peers t)
    then Err (unique_violation "peers.proxy_uuid")
    else Ok (tt, set_peers (peers t ++ [insert_row p]) t)).

(** The value of a lookup whose [sql.ErrNoRows] means absent. *)
Definition optional {A} (m : M DB A) : M DB (option A) :=
  r ← try m;
  match r with
  | Ok p => mret (Some p)
  | Err e => if errors_Is e ErrNoRows then mret None else fail e
  end.

(** The peer as the update branch rewrites it. *)
Definition refresh_peer (existing inp : Peer) (now : Z) : Peer :=
  mkPeer (p_ID existing) (p_Name inp) (p_Wallet inp) (p_WGPublicKey inp)
    (p_WGAllowedIP existing) (p_WGPresharedKey inp) (p_ProxyUUID existing)
    (p_ProxyPassword existing) (p_Enabled inp) (p_CreatedAt existing) now (p_ExpiresAt inp).

(** The peer the create branch inserts. *)
Definition new_peer (inp : Peer) (ip : string) (gen : GeneratedCreds) (now : Z) : Peer :=
  mkPeer (p_ID inp) (p_Name inp) (p_Wallet inp) (p_WGPublicKey inp) ip
    (p_WGPresharedKey inp) (g_ProxyUUID gen) (g_ProxyPassword gen)
    (p_Enabled inp) now now (p_ExpiresAt inp).

Definition UpsertPeer (inp : Peer) (subnet : string) (gen : GeneratedCreds) (now : Z)
    : M DB Peer :=
  in_tx (
    byId ← optional (txGetPeer (p_ID inp));
    existing ←
      match byId with
      | Some p => mret (Some p)
      | None =>
          if String.eqb (p_WGPublicKey inp) EmptyString then mret None
          else optional (txGetPeerByWGPublicKey (p_WGPublicKey inp))
      end;
    match existing with
    | Some p =>
        let p := refresh_peer p inp now in
        _ ← exec_update_peer p; mret p
    | None =>
        ip ← txAllocateIP subnet;
        let p := new_peer inp ip gen now in
        _ ← exec_insert_peer p; mret p
    end).

(** ** carrier_credentials *)

Definition InsertCarrierCredential (c : CarrierCredential) (uuid : string) (now : Z)
    : M DB unit :=
  let cid := if String.eqb (cc_ID c) EmptyString then uuid else cc_ID c in
  let created := if cc_CreatedAt c =? 0 then now else cc_CreatedAt c in
  exec (λ t,
    if taken cr_id cid (carrier_credentials t)
    then Err (unique_violation "carrier_credentials.id")
    else Ok (tt, set_carriers (carrier_credentials t ++
           [mkCarrierRow cid (cc_Transport c) (cc_SecretHash c) created (cc_ExpiresAt c)
              (boolToInt (cc_Active c)) (cc_Scope c) (cc_PeerID c)]) t)).

(** The WHERE clause of the expiry statement. *)
Definition expired (now : Z) (r : CarrierRow) : bool :=
  (cr_active r =? 1) && (0 <? cr_expires_at r) && (cr_expires_at r <=? now).

Definition deactivate (r : CarrierRow) : CarrierRow :=
  mkCarrierRow (cr_id r) (cr_transport r) (cr_secret_hash r) (cr_created_at r)
    (cr_expires_at r) 0 (cr_scope r) (cr_peer_id r).

Definition DeactivateExpiredCarrierCredentials (now : Z) : M DB Z :=
  exec (λ t,
    let l := carrier_credentials t in
    Ok (Z.of_nat (length (filter (λ r, expired now r = true) l)),
        set_carriers ((λ r, if expired now r then deactivate r else r) <$> l) t)).

Definition scanCarrier (r : CarrierRow) : CarrierCredential :=
  mkCarrier (cr_id r) (cr_transport r) (cr_secret_hash r) (cr_created_at r)
    (cr_expires_at r) (cr_active r =? 1) (cr_scope r) (cr_peer_id r).

Definition ListActiveCarrierCredentials : M DB (list CarrierCredential) :=
  query (λ t, scanCarrier <$>
    sort_by (λ a b, cr_created_at b <? cr_created_at a)
      (filter (λ r, cr_active r = 1) (carrier_credentials t))).

(** ** services *)

(** ON CONFLICT(id) DO UPDATE: owner and created_at keep the stored values. *)
Definition merge_service (row old : ServiceRow) : ServiceRow :=
  mkServiceRow (sr_ID old) (sr_Name row) (sr_Type row) (sr_Protocol row)
    (sr_InternalAddr row) (sr_Port row) (sr_OwnerPeerID old) (sr_OwnerDID old)
    (sr_Visibility row) (sr_AuthMode row) (sr_Tags row) (sr_CreatedAt old) (sr_UpdatedAt row).

Definition UpsertService (row : ServiceRow) : M DB unit :=
  exec (λ t,
    if taken sr_ID (sr_ID row) (services t)
    then Ok (tt, set_services
           ((λ r, if String.eqb (sr_ID r) (sr_ID row) then merge_service row r else r)
            <$> services t) t)
    else Ok (tt, set_services (services t ++ [row]) t)).

Definition ListServices : M DB (list ServiceRow) :=
  query (λ t, sort_by (λ a b, string_ltb (sr_Name a) (sr_Name b)) (services t)).

Definition service_result (o : option ServiceRow) : result ServiceRow :=
  match o with
  | Some r => Ok r
  | None => Err (EWrap EmptyString (EVar ErrNotFound) ": service")
  end.

Definition GetService (i : string) : M DB ServiceRow :=
  o ← query (λ t, find_first (λ r, String.eqb (sr_ID r) i) (services t));
  lift (service_result o).

(** LIMIT 1 without ORDER BY: the first matching row in table order. *)
Definition GetServiceByName (n : string) : M DB ServiceRow :=
  o ← query (λ t, find_first (λ r, String.eqb (sr_Name r) n) (services t));
  lift (service_result o).

(** ON DELETE CASCADE removes the service's access rules. *)
Definition DeleteService (i : string) : M DB unit :=
  n ← exec (λ t,
    Ok (length (filter (λ r, sr_ID r = i) (services t)),
        set_acls (filter (λ a, acl_ServiceID a ≠ i) (service_acls t))
          (set_services (filter (λ r, sr_ID r ≠ i) (services t)) t)));
  if (n =? 0)%nat then fail (EWrap EmptyString (EVar ErrNotFound) ": service") else mret tt.

(** ** service_acls *)

Definition InsertServiceACL (a : ServiceACL) (uuid : string) (now : Z) : M DB unit :=
  let aid := if String.eqb (acl_ID a) EmptyString then uuid else acl_ID a in
  let created := if acl_CreatedAt a =? 0 then now else acl_CreatedAt a in
  exec (λ t,
    if taken acl_ID aid (service_acls t) then Err (unique_violation "service_acls.id")
    else if negb (taken sr_ID (acl_ServiceID a) (services t)) then Err fk_violation
    else Ok (tt, set_acls (service_acls t ++
           [mkACL aid (acl_ServiceID a) (acl_Subject a) (acl_Action a) created]) t)).

Definition ListServiceACLs (serviceID : string) : M DB (list ServiceACL) :=
  query (λ t, filter (λ a, acl_ServiceID a = serviceID) (service_acls t)).


End with_sorting.

(** ** The operations that write, as one state machine *)

Inductive store_op :=
| OpSetSetting (key value : string)
| OpUpsertPeer (inp : Peer) (subnet : string) (gen : GeneratedCreds) (now : Z)
| OpDeletePeer (i : string)
| OpInsertCarrier (c : CarrierCredential) (uuid : string) (now : Z)
| OpDeactivateExpired (now : Z)
| OpUpsertService (row : ServiceRow)
| OpDeleteService (i : string)
| OpInsertACL (a : ServiceACL) (uuid : string) (now : Z).

Definition discard {A} (m : M DB A) : M DB unit := _ ← m; mret tt.

Definition exec_op (op : store_op) : M DB unit :=
  match op with
  | OpSetSetting k v => SetSetting k v
  | OpUpsertPeer i n g t => discard (UpsertPeer i n g t)
  | OpDeletePeer i => DeletePeer i
  | OpInsertCarrier c u n => InsertCarrierCredential c u n
  | OpDeactivateExpired n => discard (DeactivateExpiredCarrierCredentials n)
  | OpUpsertService r => UpsertService r
  | OpDeleteService i => DeleteService i
  | OpInsertACL a u n => InsertServiceACL a u n
  end.

(** The databases an execution can lead to: any writes, in any order, any of
    whose driver calls may fail. *)
Inductive steps : tables → list store_op → tables → Prop :=
| steps_nil t : steps t [] t
| steps_cons t op fs r s ops t' :
    exec_op op (mkDB t fs) = (r, s) → steps (tbl s) ops t' → steps t (op :: ops) t'.

(** ** The abstract store: a map from peer id to peer *)

Definition abs (t : tables) : gmap string Peer :=
  list_to_map ((λ r, (pr_id r, scanPeer r)) <$> peers t).

Definition key_unused (m : gmap string Peer) (k : string) (except : string) : Prop :=
  ∀ i p, m !! i = Some p → i ≠ except → p_WGPublicKey p ≠ k.

(** What UpsertPeer promises, [alloc] being the allocator's answer. *)
Inductive upsert_spec (m : gmap string Peer) (inp : Peer) (gen : GeneratedCreds) (now : Z)
    (alloc : result string) : Peer → gmap string Peer → Prop :=
| UpsertById p :
    m !! p_ID inp = Some p →
    key_unused m (p_WGPublicKey inp) (p_ID inp) →
    upsert_spec m inp gen now alloc (refresh_peer p inp now)
      (<[p_ID inp := refresh_peer p inp now]> m)
| UpsertByKey i p :
    m !! p_ID inp = None → p_WGPublicKey inp ≠ EmptyString →
    m !! i = Some p → p_WGPublicKey p = p_WGPublicKey inp →
    upsert_spec m inp gen now alloc (refresh_peer p inp now)
      (<[i := refresh_peer p inp now]> m)
| UpsertNew ip :
    m !! p_ID inp = None →
    key_unused m (p_WGPublicKey inp) (p_ID inp) →
    alloc = Ok ip →
    (∀ i p, m !! i = Some p → p_WGAllowedIP p ≠ ip) →
    (∀ i p, m !! i = Some p → p_ProxyUUID p ≠ g_ProxyUUID gen) →
    upsert_spec m inp gen now alloc (new_peer inp ip gen now)
      (<[p_ID inp := new_peer inp ip gen now]> m).

(** ** Preservation of the constraints *)

Definition preserves (P : tables → Prop) (s s' : DB) : Prop := P (tbl s) → P (tbl s').

#[export] Instance preserves_preorder P : PreOrder (preserves P).
Proof. unfold preserves. split; red; auto. Qed.

Lemma keeps_query {A} P (f : tables → A) : keeps (preserves P) (query f).
Proof. intros s r s' [E _]%query_inv. unfold preserves. by rewrite E. Qed.

Lemma keeps_exec {A} (P : tables → Prop) (f : tables → result (A * tables)) :
  (∀ t a t', f t = Ok (a, t') → P t → P t') → keeps (preserves P) (exec f).
Proof.
  intros H s r s' [(a & t & E & -> & E')|(e & -> & E)]%exec_inv; unfold preserves;
    rewrite ?E', ?E; eauto.
Qed.

Lemma keeps_in_tx {A} P (body : M DB A) :
  keeps (preserves P) body → keeps (preserves P) (in_tx body).
Proof.
  intros H s r s' E. destruct r as [a|e].
  - apply in_tx_ok in E as (s1 & s2 & E1 & E2 & E3). unfold preserves.
    rewrite E3, <- E1. by eapply H.
  - apply in_tx_err in E. unfold preserves. by rewrite E.
Qed.

Lemma keeps_optional {A} P (m : M DB A) :
  keeps (preserves P) m → keeps (preserves P) (optional m).
Proof.
  intros Hm. unfold optional. apply keeps_bind; [apply _|by apply keeps_try|].
  intros [p|e]; [apply keeps_ret; apply _|].
  destruct (errors_Is e ErrNoRows); [apply keeps_ret|apply keeps_fail]; apply _.
Qed.

Lemma keeps_txGetPeer P i : keeps (preserves P) (txGetPeer i).
Proof. apply keeps_bind; [apply _|apply keeps_query|]. intros. apply keeps_lift, _. Qed.

Lemma keeps_txGetPeerByKey P k : keeps (preserves P) (txGetPeerByWGPublicKey k).
Proof. apply keeps_bind; [apply _|apply keeps_query|]. intros. apply keeps_lift, _. Qed.

Lemma keeps_txAllocateIP P subnet : keeps (preserves P) (txAllocateIP subnet).
Proof.
  unfold txAllocateIP. destruct (ParseCIDR subnet) as [[]|]; [|apply keeps_fail, _].
  apply keeps_bind; [apply _|apply keeps_query|]. intros. apply keeps_lift, _.
Qed.

(** UpsertPeer keeps whatever its two statements keep. *)
Lemma keeps_UpsertPeer P inp subnet gen now :
  (∀ p, keeps (preserves P) (exec_update_peer p)) →
  (∀ p, keeps (preserves P) (exec_insert_peer p)) →
  keeps (preserves P) (UpsertPeer inp subnet gen now).
Proof.
  intros Hu Hi. apply keeps_in_tx.
  apply keeps_bind; [apply _|apply keeps_optional, keeps_txGetPeer|]. intros byId.
  apply keeps_bind; [apply _| |].
  { destruct byId; [apply keeps_ret, _|]. destruct (String.eqb _ _); [apply keeps_ret, _|].
    apply keeps_optional, keeps_txGetPeerByKey. }
  intros [p|].
  - apply keeps_bind; [apply _|apply Hu|]. intros. apply keeps_ret, _.
  - apply keeps_bind; [apply _|apply keeps_txAllocateIP|]. intros ip.
    apply keeps_bind; [apply _|apply Hi|]. intros. apply keeps_ret, _.
Qed.

(** A column the update of one row does not touch keeps its values. *)
Lemma fmap_update_same {A B} (f : A → B) (g : A → A) (l : list A) :
  (∀ r, f (g r) = f r) → f <$> (g <$> l) = f <$> l.
Proof. intros H. rewrite <- list_fmap_compose. apply list_fmap_ext. intros. apply H. Qed.

Lemma fmap_update_none {A} (g : A → A) (l : list A) : (∀ r, r ∈ l → g r = r) → g <$> l = l.
Proof.
  intros H. rewrite <- (list_fmap_id l) at 2. apply list_fmap_ext. intros i x Hx.
  apply H. by eapply list_elem_of_lookup_2.
Qed.

(** A column rewritten on the row with primary key [i] stays free of
    duplicates when no other row has the new value. *)
Lemma NoDup_update {A} (key f : A → string) (g : A → A) i v (l : list A) :
  (∀ r, key r ≠ i → g r = r) → (∀ r, key r = i → f (g r) = v) →
  NoDup (key <$> l) → NoDup (f <$> l) →
  v ∉ (f <$> filter (λ r, key r ≠ i) l) → NoDup (f <$> (g <$> l)).
Proof.
  intros Hne Heq. induction l as [|r l IH]; [done|]. rewrite !fmap_cons.
  intros [Hk Hkl]%NoDup_cons [Hf Hfl]%NoDup_cons Hv.
  destruct (decide (key r = i)) as [E|E].
  - rewrite filter_cons_False in Hv by tauto.
    assert (g <$> l = l) as ->.
    { apply fmap_update_none. intros x Hx.
      apply Hne. intros Ex. apply Hk. rewrite E, <- Ex. apply list_elem_of_fmap. eauto. }
    apply NoDup_cons. split; [|done]. rewrite (Heq r E). intros Hin. apply Hv.
    apply list_elem_of_fmap in Hin as (x & -> & Hx). apply list_elem_of_fmap.
    exists x. split; [done|]. apply list_elem_of_filter. split; [|done].
    intros Ex. apply Hk, list_elem_of_fmap. exists x. split; [congruence|done].
  - rewrite filter_cons_True, fmap_cons in Hv by done.
    apply not_elem_of_cons in Hv as [Hv1 Hv2]. rewrite (Hne r E).
    apply NoDup_cons. split; [|by apply IH].
    intros (x & Ex & (y & -> & Hy)%list_elem_of_fmap)%list_elem_of_fmap.
    destruct (decide (key y = i)) as [Ey|Ey].
    + rewrite (Heq y Ey) in Ex. congruence.
    + rewrite (Hne y Ey) in Ex. apply Hf. rewrite Ex. apply list_elem_of_fmap. eauto.
Qed.

Lemma exec_update_peer_wf p : keeps (preserves db_wf) (exec_update_peer p).
Proof.
  apply keeps_exec. intros t a t' E (Hp & Hrest).
  destruct (_ && _) eqn:Eg in E; [done|]. simplify_eq. split; [|done]. cbn [peers set_peers].
  destruct Hp as (Hi & Hk & Hip & Hu). split_and!; try
    (rewrite fmap_update_same; [done|]; intros r; unfold update_row; by destruct (String.eqb _ _)).
  apply andb_false_iff in Eg as [Eg|Eg]; apply taken_false in Eg.
  - apply (NoDup_update pr_id _ _ (p_ID p) (p_WGPublicKey p)); auto.
    + intros r Hr. unfold update_row. by rewrite (proj2 (String.eqb_neq _ _) Hr).
    + intros r Hr. unfold update_row. by rewrite Hr, String.eqb_refl.
  - rewrite fmap_update_none; [done|]. intros r Hr.
    unfold update_row. rewrite (proj2 (String.eqb_neq _ _)); [done|].
    intros E. apply Eg. rewrite <- E. apply list_elem_of_fmap. eauto.
Qed.

Lemma exec_insert_peer_wf p : keeps (preserves db_wf) (exec_insert_peer p).
Proof.
  apply keeps_exec. intros t a t' E ((Hi & Hk & Hip & Hu) & Hrest).
  repeat case_match; simplify_eq. split; [|done].
  split_and!; by apply NoDup_fmap_snoc.
Qed.

Lemma in_fmap_filter_ne {A} (f : A → string) x i (l : list A) :
  x ∈ (f <$> l) → x ≠ i → x ∈ (f <$> filter (λ r, f r ≠ i) l).
Proof.
  intros (r & -> & Hr)%list_elem_of_fmap Hne. apply list_elem_of_fmap.
  exists r. split; [done|]. by apply list_elem_of_filter.
Qed.

Lemma DeleteService_tables_wf t i :
  db_wf t →
  db_wf (set_acls (filter (λ a, acl_ServiceID a ≠ i) (service_acls t))
          (set_services (filter (λ r, sr_ID r ≠ i) (services t)) t)).
Proof.
  intros (Hp & Hc & Hs & Ha & Hfk). split_and!; try done; cbn.
  - eapply NoDup_fmap_sublist; [apply sublist_filter|done].
  - eapply NoDup_fmap_sublist; [apply sublist_filter|done].
  - apply Forall_forall. intros a [Hne Hin]%list_elem_of_filter.
    apply in_fmap_filter_ne; [|done]. by eapply Forall_forall in Hfk.
Qed.

Lemma UpsertService_wf row : keeps (preserves db_wf) (UpsertService row).
Proof.
  apply keeps_exec. intros t a t' E (Hp & Hc & Hs & Ha & Hfk).
  case_match eqn:Ht; simplify_eq; split_and!; try done; cbn.
  - rewrite fmap_update_same; [done|]. intros r. by destruct (String.eqb _ _).
  - rewrite fmap_update_same; [done|]. intros r. by destruct (String.eqb _ _).
  - by apply NoDup_fmap_snoc.
  - eapply Forall_impl; [done|]. intros x Hx. cbn. rewrite fmap_app. set_solver.
Qed.

Lemma exec_op_wf op : keeps (preserves db_wf) (exec_op op).
Proof.
  destruct op; cbn [exec_op]; unfold discard.
  - apply keeps_exec. intros t a t' [= <- <-]. done.
  - apply keeps_bind; [apply _| |intros; apply keeps_ret, _].
    apply keeps_UpsertPeer; [apply exec_update_peer_wf|apply exec_insert_peer_wf].
  - apply keeps_exec. intros t a t' [= <- <-] ((?&?&?&?) & Hrest). split; [|done].
    split_and!; (eapply NoDup_fmap_sublist; [apply sublist_filter|done]).
  - apply keeps_exec. intros t a t' E (Hp & Hc & Hrest). case_match; simplify_eq.
    split_and!; try apply Hrest; [apply Hp..|]. by apply NoDup_fmap_snoc.
  - apply keeps_bind; [apply _| |intros; apply keeps_ret, _].
    apply keeps_exec. intros t a t' [= <- <-] (Hp & Hc & Hrest). split; [done|].
    split; [|done]. cbn. rewrite fmap_update_same; [done|]. intros r. by destruct (expired _ _).
  - apply UpsertService_wf.
  - apply keeps_bind; [apply _| |intros n; destruct (n =? 0)%nat; [apply keeps_fail|apply keeps_ret]; apply _].
    apply keeps_exec. intros t a t' [= <- <-]. apply DeleteService_tables_wf.
  - apply keeps_exec. intros t x t' E (Hp & Hc & Hs & Ha & Hfk).
    destruct (taken acl_ID _ _) eqn:? in E; [done|]. destruct (negb _) eqn:? in E; [done|].
    simplify_eq. split_and!; try done; [by apply NoDup_fmap_snoc|]. apply Forall_app. split; [done|].
    apply Forall_singleton. apply taken_spec. by apply negb_false_iff.
Qed.

Lemma empty_wf : db_wf empty_tables.
Proof. repeat split; try apply Forall_nil; try apply NoDup_nil; done. Qed.

(** Every database reached from an empty one by any sequence of store
    operations, whichever of their driver calls fail, satisfies the declared
    constraints. *)
Lemma store_reachable_wf ops t : steps empty_tables ops t → db_wf t.
Proof.
  intros H. remember empty_tables as t0 eqn:E0.
  assert (db_wf t0) as H0 by (subst; apply empty_wf). clear E0. induction H as [t|t op fs r s ops t' E _ IH]; [done|].
  apply IH. by apply (exec_op_wf op _ _ _ E).
Qed.

(** ** Faults only add errors

    database/sql returns [sql.ErrNoRows] from Scan and never from the driver.
    Under this reading of a schedule, a program either behaves as it does on a
    driver that never fails or returns the driver's error. *)

Definition honest (fs : list (option error)) : Prop :=
  Forall (λ o, ∀ e, o = Some e → errors_Is e ErrNoRows = false) fs.

Definition fault_sound {A} (m : M DB A) : Prop :=
  ∀ t fs r s', honest fs → m (mkDB t fs) = (r, s') →
    honest (faults s') ∧
    ((∃ e, r = Err e ∧ errors_Is e ErrNoRows = false) ∨
     m (mkDB t []) = (r, mkDB (tbl s') [])).

Lemma fault_sound_ret {A} (a : A) : fault_sound (mret a).
Proof. intros t fs r s' H [= <- <-]. auto. Qed.
Lemma fault_sound_fail {A} e : fault_sound (fail (A := A) e).
Proof. intros t fs r s' H [= <- <-]. auto. Qed.
Lemma fault_sound_lift {A} (x : result A) : fault_sound (lift x).
Proof. intros t fs r s' H [= <- <-]. auto. Qed.

Lemma fault_sound_driver : fault_sound driver.
Proof.
  intros t fs r s' H. unfold driver. cbn [faults].
  destruct fs as [|[e|] fs]; intros [= <- <-]; [auto| |];
    apply Forall_cons in H as [H1 H2]; split; eauto.
Qed.

Lemma fault_sound_run {A} (f : tables → result A * tables) :
  fault_sound (run (λ s, let '(r, t) := f (tbl s) in (r, mkDB t (faults s)))).
Proof.
  intros t fs r s' H. unfold run. cbn [tbl faults]. destruct (f t) as [r0 t0] eqn:E.
  intros [= <- <-]. eauto.
Qed.

Lemma fault_sound_bind {A B} (m : M DB A) (f : A → M DB B) :
  fault_sound m → (∀ a, fault_sound (f a)) → fault_sound (m ≫= f).
Proof.
  intros Hm Hf t fs r s' H E. apply bind_inv in E as [(a & [t1 fs1] & E1 & E2)|(e & E & ->)].
  - destruct (Hm _ _ _ _ H E1) as [H1 [(e & [=] & _)|E3]].
    destruct (Hf _ _ _ _ _ H1 E2) as [H2 [?|E4]]; [eauto|].
    split; [done|]. right. unfold mbind, M_bind. by rewrite E3.
  - destruct (Hm _ _ _ _ H E) as [H1 [(e' & [= <-] & ?)|E3]]; [eauto|].
    split; [done|]. right. unfold mbind, M_bind. by rewrite E3.
Qed.

Lemma fault_sound_query {A} (f : tables → A) : fault_sound (query f).
Proof.
  apply fault_sound_bind; [apply fault_sound_driver|]. intros _ t fs r s' H [= <- <-]. auto.
Qed.

Lemma fault_sound_exec {A} (f : tables → result (A * tables)) : fault_sound (exec f).
Proof.
  apply fault_sound_bind; [apply fault_sound_driver|]. intros _ t fs r s' H.
  unfold run. cbn [tbl faults]. destruct (f t) as [[a t']|e]; intros [= <- <-]; auto.
Qed.

Lemma fault_sound_optional {A} (m : M DB A) : fault_sound m → fault_sound (optional m).
Proof.
  intros Hm t fs r s' H. unfold optional, try, mbind, M_bind.
  destruct (m (mkDB t fs)) as [r1 [t1 fs1]] eqn:E1.
  destruct (Hm _ _ _ _ H E1) as [H1 [(e & -> & He)|E2]].
  - rewrite He. intros [= <- <-]. eauto.
  - rewrite E2. destruct r1 as [a|e]; [|destruct (errors_Is e ErrNoRows)];
      intros [= <- <-]; auto.
Qed.

Lemma fault_sound_in_tx {A} (body : M DB A) : fault_sound body → fault_sound (in_tx body).
Proof.
  intros Hb. apply fault_sound_bind; [apply fault_sound_driver|]. intros _ t fs r s' H.
  assert (fault_sound (a ← body; _ ← driver; mret a)) as Hc.
  { apply fault_sound_bind; [done|]. intros a.
    apply fault_sound_bind; [apply fault_sound_driver|]. intros. apply fault_sound_ret. }
  unfold run. cbn [tbl].
  destruct ((a ← body; _ ← driver; mret a) (mkDB t fs)) as [r1 [t1 fs1]] eqn:E1.
  destruct (Hc _ _ _ _ H E1) as [H1 [(e & -> & He)|E2]].
  - intros [= <- <-]. eauto.
  - rewrite E2. destruct r1; intros [= <- <-]; auto.
Qed.

Lemma fault_sound_txGetPeer i : fault_sound (txGetPeer i).
Proof. apply fault_sound_bind; [apply fault_sound_query|]. intros. apply fault_sound_lift. Qed.
Lemma fault_sound_txGetPeerByKey k : fault_sound (txGetPeerByWGPublicKey k).
Proof. apply fault_sound_bind; [apply fault_sound_query|]. intros. apply fault_sound_lift. Qed.
Lemma fault_sound_txAllocateIP subnet : fault_sound (txAllocateIP subnet).
Proof.
  unfold txAllocateIP. destruct (ParseCIDR subnet) as [[]|]; [|apply fault_sound_fail].
  apply fault_sound_bind; [apply fault_sound_query|]. intros. apply fault_sound_lift.
Qed.

Create HintDb faults discriminated.
#[export] Hint Resolve fault_sound_ret fault_sound_fail fault_sound_lift fault_sound_query
  fault_sound_exec fault_sound_optional fault_sound_txGetPeer fault_sound_txGetPeerByKey
  fault_sound_txAllocateIP : faults.

Lemma fault_sound_UpsertPeer inp subnet gen now : fault_sound (UpsertPeer inp subnet gen now).
Proof.
  apply fault_sound_in_tx, fault_sound_bind; [auto with faults|]. intros byId.
  apply fault_sound_bind; [destruct byId; [|destruct (String.eqb _ _)]; auto with faults|].
  intros [p|].
  - apply fault_sound_bind; [apply fault_sound_exec|]. auto with faults.
  - apply fault_sound_bind; [auto with faults|]. intros ip.
    apply fault_sound_bind; [apply fault_sound_exec|]. auto with faults.
Qed.

(** ** The abstraction *)

Lemma abs_lookup t i :
  abs t !! i = scanPeer <$> find_first (λ r, String.eqb (pr_id r) i) (peers t).
Proof.
  unfold abs. induction (peers t) as [|r l IH]; [done|]. cbn.
  destruct (String.eqb_spec (pr_id r) i) as [->|Hne].
  - by rewrite lookup_insert_eq.
  - by rewrite lookup_insert_ne.
Qed.

Lemma abs_row t i p :
  abs t !! i = Some p → ∃ r, r ∈ peers t ∧ pr_id r = i ∧ p = scanPeer r.
Proof.
  rewrite abs_lookup. intros (r & [Hr E%String.eqb_eq]%find_first_Some & ->)%fmap_Some.
  eauto.
Qed.

Lemma row_abs t r : db_wf t → r ∈ peers t → abs t !! pr_id r = Some (scanPeer r).
Proof.
  intros ((Hi & _) & _) Hr. rewrite abs_lookup.
  by rewrite (find_first_unique pr_id _ _ r Hi (λ y, String.eqb_eq (pr_id y) _)).
Qed.

Lemma find_first_app {A} (q : A → bool) l k :
  find_first q (l ++ k) = match find_first q l with Some x => Some x | None => find_first q k end.
Proof. induction l as [|x l IH]; simpl; [done|]. by destruct (q x). Qed.

Lemma find_first_fmap {A B} (q : B → bool) (q' : A → bool) (g : A → B) (l : list A) :
  (∀ x, q (g x) = q' x) → find_first q (g <$> l) = g <$> find_first q' l.
Proof. intros H. induction l as [|x l IH]; [done|]. cbn. rewrite H. by destruct (q' x). Qed.

Lemma abs_insert t p :
  abs t !! p_ID p = None →
  abs (set_peers (peers t ++ [insert_row p]) t) = <[p_ID p := scanPeer (insert_row p)]> (abs t).
Proof.
  intros Hn. apply map_eq. intros i. rewrite abs_lookup. cbn [peers set_peers].
  rewrite find_first_app. destruct (decide (i = p_ID p)) as [->|Hne].
  - rewrite abs_lookup in Hn. apply fmap_None in Hn. rewrite Hn. cbn.
    by rewrite String.eqb_refl, lookup_insert_eq.
  - rewrite lookup_insert_ne, abs_lookup by done.
    destruct (find_first _ (peers t)); [done|]. cbn.
    by rewrite (proj2 (String.eqb_neq (p_ID p) i)) by done.
Qed.

Lemma abs_update t p r :
  find_first (λ r, String.eqb (pr_id r) (p_ID p)) (peers t) = Some r →
  abs (set_peers (update_row p <$> peers t) t) = <[p_ID p := scanPeer (update_row p r)]> (abs t).
Proof.
  intros Hr. apply map_eq. intros i. rewrite abs_lookup. cbn [peers set_peers].
  rewrite (find_first_fmap _ (λ r, String.eqb (pr_id r) i)).
  2:{ intros x. unfold update_row. by destruct (String.eqb (pr_id x) (p_ID p)). }
  destruct (decide (i = p_ID p)) as [->|Hne].
  - by rewrite lookup_insert_eq, Hr.
  - rewrite lookup_insert_ne, abs_lookup by done.
    destruct (find_first (λ r, String.eqb (pr_id r) i) (peers t)) as [x|] eqn:Ex; [|done].
    apply find_first_Some in Ex as [_ Ex%String.eqb_eq].
    cbn [fmap option_fmap option_map]. unfold update_row.
    by rewrite (proj2 (String.eqb_neq (pr_id x) (p_ID p))) by congruence.
Qed.

(** The columns written by the INSERT read back as the peer. *)
Lemma scan_insert p : scanPeer (insert_row p) = p.
Proof. destruct p as [? ? ? ? ? ? ? ? [] ? ? ?]; reflexivity. Qed.

Lemma scan_update r inp now :
  scanPeer (update_row (refresh_peer (scanPeer r) inp now) r) = refresh_peer (scanPeer r) inp now.
Proof.
  unfold update_row, refresh_peer. cbn. rewrite String.eqb_refl. unfold scanPeer. cbn.
  by destruct (p_Enabled inp).
Qed.

(** ** UpsertPeer on a driver that never fails *)

(** The peer an upsert applies to: by id, else by a non-empty key. *)
Definition upsert_target (inp : Peer) (t : tables) : option PeerRow :=
  match select_peer_by_id (p_ID inp) t with
  | Some r => Some r
  | None =>
      if String.eqb (p_WGPublicKey inp) EmptyString then None
      else select_peer_by_key (p_WGPublicKey inp) t
  end.

Definition alloc_in (subnet : string) (t : tables) : result string :=
  (txAllocateIP subnet (mkDB t [])).1.

Definition commit {A} (t : tables) (r : result A * DB) : result A * DB :=
  match r with
  | (Ok p, s) => (Ok p, s)
  | (Err e, s) => (Err e, mkDB t (faults s))
  end.

Lemma txAllocateIP_free subnet t : txAllocateIP subnet (mkDB t []) = (alloc_in subnet t, mkDB t []).
Proof. unfold alloc_in, txAllocateIP. by destruct (ParseCIDR subnet) as [[]|]. Qed.

Lemma optional_txGetPeer_free i t :
  optional (txGetPeer i) (mkDB t []) = (Ok (scanPeer <$> select_peer_by_id i t), mkDB t []).
Proof. 
  unfold optional, try, txGetPeer, query, lift, driver, mbind, M_bind. cbn.
  by destruct (select_peer_by_id i t). Qed.

Lemma optional_byKey_free k t :
  optional (txGetPeerByWGPublicKey k) (mkDB t []) =
  (Ok (scanPeer <$> select_peer_by_key k t), mkDB t []).
Proof.
  unfold optional, try, txGetPeerByWGPublicKey, query, lift, driver, mbind, M_bind. cbn.
  by destruct (select_peer_by_key k t).
Qed.

Lemma in_tx_free {A} (body : M DB A) t r t' :
  body (mkDB t []) = (r, mkDB t' []) → in_tx body (mkDB t []) = commit t (r, mkDB t' []).
Proof. intros E. unfold in_tx, run, mbind, M_bind. cbn. rewrite E. by destruct r. Qed.

Lemma exec_update_free p t :
  (_ ← exec_update_peer p; mret p) (mkDB t []) =
  if taken pr_wg_public_key (p_WGPublicKey p)
       (filter (λ r, pr_id r ≠ p_ID p) (peers t)) && taken pr_id (p_ID p) (peers t)
  then (Err (unique_violation "peers.wg_public_key"), mkDB t [])
  else (Ok p, mkDB (set_peers (update_row p <$> peers t) t) []).
Proof. unfold exec_update_peer, exec, run, mbind, M_bind. cbn. by destruct (_ && _). Qed.

(** What UpsertPeer does, with the lookups and the statements spelled out. *)
Definition upsert_outcome (inp : Peer) (subnet : string) (gen : GeneratedCreds) (now : Z)
    (t : tables) : result Peer * DB :=
  match upsert_target inp t with
  | Some r =>
      let p := refresh_peer (scanPeer r) inp now in
      (_ ← exec_update_peer p; mret p) (mkDB t [])
  | None =>
      match alloc_in subnet t with
      | Ok ip =>
          let p := new_peer inp ip gen now in
          (_ ← exec_insert_peer p; mret p) (mkDB t [])
      | Err e => (Err e, mkDB t [])
      end
  end.

Lemma upsert_outcome_shape inp subnet gen now t :
  ∃ r t', upsert_outcome inp subnet gen now t = (r, mkDB t' []) ∧
    (is_ok r = false → t' = t).
Proof.
  unfold upsert_outcome. destruct (upsert_target inp t) as [r|].
  - cbn zeta. rewrite exec_update_free. destruct (_ && _); eauto.
    eexists _, _. split; [done|]. done.
  - destruct (alloc_in subnet t) as [ip|e]; [|eauto]. cbn zeta.
    unfold exec_insert_peer, exec, run, mbind, M_bind. cbn.
    repeat case_match; simplify_eq; eexists _, _; split; try done.
Qed.

Lemma UpsertPeer_free inp subnet gen now t :
  UpsertPeer inp subnet gen now (mkDB t []) = upsert_outcome inp subnet gen now t.
Proof.
  destruct (upsert_outcome_shape inp subnet gen now t) as (r & t' & E & Ht).
  rewrite E. unfold UpsertPeer. rewrite (in_tx_free _ t r t').
  - destruct r; [done|]. cbn. by rewrite Ht.
  - rewrite <- E. unfold upsert_outcome, upsert_target.
    erewrite bind_Ok by apply optional_txGetPeer_free.
    destruct (select_peer_by_id (p_ID inp) t) as [r1|]; [by erewrite bind_Ok by done|].
    cbn [fmap option_fmap option_map].
    destruct (String.eqb (p_WGPublicKey inp) EmptyString).
    2: erewrite bind_Ok by apply optional_byKey_free.
    2: destruct (select_peer_by_key _ t); [done|]; cbn [fmap option_fmap option_map].
    1: rewrite (bind_Ok (mret None) _ _ None (mkDB t [])) by done.
    all: pose proof (txAllocateIP_free subnet t) as Ha; destruct (alloc_in subnet t);
      [by erewrite bind_Ok by exact Ha|by erewrite bind_Err by exact Ha].
Qed.

(** A column of the table, read through the abstraction. *)
Lemma taken_abs (col : PeerRow → string) (fld : Peer → string) x t :
  (∀ r, fld (scanPeer r) = col r) → db_wf t →
  taken col x (peers t) = false ↔ ∀ i p, abs t !! i = Some p → fld p ≠ x.
Proof.
  intros Hc Hwf. rewrite taken_false. split.
  - intros Hn i p (r & Hr & _ & ->)%abs_row <-. apply Hn. rewrite Hc.
    apply list_elem_of_fmap. eauto.
  - intros H (r & -> & Hr)%list_elem_of_fmap. apply (H _ _ (row_abs t r Hwf Hr)). apply Hc.
Qed.

Lemma taken_id_abs t i : taken pr_id i (peers t) = false ↔ abs t !! i = None.
Proof.
  rewrite abs_lookup, fmap_None, find_first_None, taken_false. split.
  - intros H r Hr. apply String.eqb_neq. intros <-. apply H, list_elem_of_fmap. eauto.
  - intros H (r & -> & Hr)%list_elem_of_fmap. specialize (H r Hr).
    by rewrite String.eqb_refl in H.
Qed.

Lemma taken_other_key t k i :
  db_wf t →
  taken pr_wg_public_key k (filter (λ r, pr_id r ≠ i) (peers t)) = false ↔
  key_unused (abs t) k i.
Proof.
  intros Hwf. rewrite taken_false. split.
  - intros Hn j p (r & Hr & <- & ->)%abs_row Hne <-. apply Hn, list_elem_of_fmap.
    exists r. split; [done|]. by apply list_elem_of_filter.
  - intros H (r & -> & [Hne Hr]%list_elem_of_filter)%list_elem_of_fmap.
    by apply (H _ _ (row_abs t r Hwf Hr) Hne).
Qed.

Lemma key_unused_absent m k i :
  m !! i = None → key_unused m k i ↔ ∀ j p, m !! j = Some p → p_WGPublicKey p ≠ k.
Proof. intros Hi. split; intros H j p Hp; [|by eauto]. apply (H j p Hp). congruence. Qed.

(** The row UpsertPeer updates, through the abstraction. *)
Lemma upsert_target_Some t inp r :
  db_wf t → upsert_target inp t = Some r ↔
  r ∈ peers t ∧ (pr_id r = p_ID inp ∨
    (abs t !! p_ID inp = None ∧ p_WGPublicKey inp ≠ EmptyString ∧
     pr_wg_public_key r = p_WGPublicKey inp)).
Proof.
  intros Hwf. pose proof Hwf as ((Hi & Hk & _) & _). unfold upsert_target.
  destruct (select_peer_by_id (p_ID inp) t) as [r1|] eqn:E.
  - pose proof E as [Hr1 E1%String.eqb_eq]%find_first_Some. split.
    + intros [= <-]. auto.
    + intros [Hr [H|[H _]]].
      * rewrite <- E. apply (find_first_unique pr_id); [done| |done].
        intros y. rewrite String.eqb_eq. by rewrite H.
      * rewrite abs_lookup in H. apply fmap_None in H. unfold select_peer_by_id in E. congruence.
  - assert (abs t !! p_ID inp = None) as Hn.
    { rewrite abs_lookup. unfold select_peer_by_id in E. by rewrite E. }
    assert (∀ r, r ∈ peers t → pr_id r ≠ p_ID inp) as Hne.
    { intros r' Hr' He. pose proof (row_abs t r' Hwf Hr'). congruence. }
    destruct (String.eqb_spec (p_WGPublicKey inp) EmptyString) as [Ee|Ee]; split.
    + done.
    + intros [Hr [H|(_ & H & _)]]; [by apply Hne in H|done].
    + intros [Hr E2%String.eqb_eq]%find_first_Some. auto.
    + intros [Hr [H|(_ & _ & H)]]; [by apply Hne in H|].
      apply (find_first_unique pr_wg_public_key); [done| |done].
      intros y. rewrite String.eqb_eq. by rewrite H.
Qed.

Lemma upsert_target_None t inp :
  db_wf t → upsert_target inp t = None ↔
  abs t !! p_ID inp = None ∧
  (p_WGPublicKey inp = EmptyString ∨ key_unused (abs t) (p_WGPublicKey inp) (p_ID inp)).
Proof.
  intros Hwf. split.
  - intros Hnone. assert (abs t !! p_ID inp = None) as Hn.
    { destruct (abs t !! p_ID inp) as [p|] eqn:E; [|done].
      apply abs_row in E as (r & Hr & Hi & _). exfalso.
      pose proof (proj2 (upsert_target_Some t inp r Hwf) (conj Hr (or_introl Hi))). congruence. }
    split; [done|]. destruct (decide (p_WGPublicKey inp = EmptyString)) as [|Ee]; [by left|].
    right. intros i p (r & Hr & _ & ->)%abs_row _ Hk.
    pose proof (proj2 (upsert_target_Some t inp r Hwf)
      (conj Hr (or_intror (conj Hn (conj Ee Hk))))). congruence.
  - intros [Hn Hor]. destruct (upsert_target inp t) as [r|] eqn:E; [|done].
    apply (upsert_target_Some t inp r Hwf) in E as [Hr [H|(_ & Ee & Hk)]];
      pose proof (row_abs t r Hwf Hr) as Hrow; [congruence|].
    destruct Hor as [|H]; [done|]. exfalso. apply (H _ _ Hrow); [congruence|done].
Qed.

Lemma exec_insert_free p q t t' :
  (_ ← exec_insert_peer p; mret p) (mkDB t []) = (Ok q, mkDB t' []) ↔
  q = p ∧ taken pr_id (p_ID p) (peers t) = false ∧
  taken pr_wg_public_key (p_WGPublicKey p) (peers t) = false ∧
  taken pr_wg_allowed_ip (p_WGAllowedIP p) (peers t) = false ∧
  taken pr_proxy_uuid (p_ProxyUUID p) (peers t) = false ∧
  t' = set_peers (peers t ++ [insert_row p]) t.
Proof.
  unfold exec_insert_peer, exec, run, mbind, M_bind. cbn.
  destruct (taken pr_id _ _), (taken pr_wg_public_key _ _), (taken pr_wg_allowed_ip _ _),
    (taken pr_proxy_uuid _ _); cbn; (split; [|intros (-> & ? & ? & ? & ? & ->); done]);
    try discriminate. by intros [= <- <-].
Qed.

Lemma update_case t inp now r :
  db_wf t → r ∈ peers t →
  let p := refresh_peer (scanPeer r) inp now in
  key_unused (abs t) (p_WGPublicKey inp) (pr_id r) →
  (_ ← exec_update_peer p; mret p) (mkDB t []) =
    (Ok p, mkDB (set_peers (update_row p <$> peers t) t) []) ∧
  abs (set_peers (update_row p <$> peers t) t) = <[pr_id r := p]> (abs t).
Proof.
  intros Hwf Hr p Hk. subst p. split.
  - rewrite exec_update_free. cbn [p_WGPublicKey p_ID refresh_peer scanPeer].
    by rewrite (proj2 (taken_other_key t _ _ Hwf)).
  - rewrite (abs_update t _ r); [by rewrite scan_update|].
    pose proof Hwf as ((Hi & _) & _).
    apply (find_first_unique pr_id); [done| |done]. intros y. apply String.eqb_eq.
Qed.

Lemma update_case_inv t inp now r q t' :
  db_wf t → r ∈ peers t →
  (_ ← exec_update_peer (refresh_peer (scanPeer r) inp now);
    mret (refresh_peer (scanPeer r) inp now)) (mkDB t []) = (Ok q, mkDB t' []) →
  key_unused (abs t) (p_WGPublicKey inp) (pr_id r).
Proof.
  intros Hwf Hr. rewrite exec_update_free. destruct (_ && _) eqn:E; [done|]. intros _.
  apply andb_false_iff in E as [E|E]; [by apply taken_other_key in E|].
  apply taken_id_abs in E. pose proof (row_abs t r Hwf Hr). cbn in E. congruence.
Qed.

(** The key of one row is no other row's. *)
Lemma own_key_unused t r :
  db_wf t → r ∈ peers t → key_unused (abs t) (pr_wg_public_key r) (pr_id r).
Proof.
  intros Hwf Hr i p (r' & Hr' & <- & ->)%abs_row Hne Ek. apply Hne.
  pose proof Hwf as ((_ & Hk & _) & _).
  pose proof (find_first_unique pr_wg_public_key _ _ r Hk
    (λ y, String.eqb_eq (pr_wg_public_key y) (pr_wg_public_key r)) Hr) as E1.
  pose proof (find_first_unique pr_wg_public_key
    (λ y, String.eqb (pr_wg_public_key y) (pr_wg_public_key r)) _ r' Hk) as E2.
  rewrite E2 in E1; [congruence| |done]. intros y. rewrite String.eqb_eq. cbn in Ek. by rewrite Ek.
Qed.

Lemma upsert_outcome_spec t inp subnet gen now p t' :
  db_wf t → upsert_outcome inp subnet gen now t = (Ok p, mkDB t' []) →
  upsert_spec (abs t) inp gen now (alloc_in subnet t) p (abs t').
Proof.
  intros Hwf. unfold upsert_outcome. destruct (upsert_target inp t) as [r|] eqn:Et.
  - apply (upsert_target_Some t inp r Hwf) in Et as [Hr Hor]. cbn zeta. intros E.
    pose proof (update_case_inv _ _ _ _ _ _ Hwf Hr E) as Hk.
    destruct (update_case t inp now r Hwf Hr Hk) as [E1 E2]. rewrite E1 in E.
    injection E as <- <-. rewrite E2. pose proof (row_abs t r Hwf Hr) as Hrow.
    destruct Hor as [Ei|(Hn & He & Ek)].
    + rewrite Ei in *. by apply UpsertById.
    + by apply UpsertByKey.
  - apply (upsert_target_None t inp Hwf) in Et as [Hn _].
    destruct (alloc_in subnet t) as [ip|e] eqn:Ea; [|done]. cbn zeta.
    intros (-> & _ & H2 & H3 & H4 & ->)%exec_insert_free.
    rewrite abs_insert, scan_insert by done. cbn in H2, H3, H4.
    change (p_ID (new_peer inp ip gen now)) with (p_ID inp).
    apply UpsertNew; [done| |done| |].
    + apply key_unused_absent; [done|].
      by apply (taken_abs pr_wg_public_key p_WGPublicKey).
    + by apply (taken_abs pr_wg_allowed_ip p_WGAllowedIP).
    + by apply (taken_abs pr_proxy_uuid p_ProxyUUID).
Qed.

Lemma upsert_spec_outcome t inp subnet gen now p m :
  db_wf t → upsert_spec (abs t) inp gen now (alloc_in subnet t) p m →
  ∃ t', upsert_outcome inp subnet gen now t = (Ok p, mkDB t' []) ∧ abs t' = m.
Proof.
  intros Hwf Hs. unfold upsert_outcome.
  inversion Hs as [p0 Hp Hk|i p0 Hn He Hp Hk|ip Hn Hk Ha Hip Hu]; subst.
  - apply abs_row in Hp as (r & Hr & Hi & ->).
    rewrite (proj2 (upsert_target_Some t inp r Hwf)) by auto.
    rewrite <- Hi in *. destruct (update_case t inp now r Hwf Hr Hk) as [-> ?]. eauto.
  - apply abs_row in Hp as (r & Hr & <- & ->). cbn in Hk.
    rewrite (proj2 (upsert_target_Some t inp r Hwf)) by auto.
    destruct (update_case t inp now r Hwf Hr) as [-> ?]; [|eauto].
    rewrite <- Hk. by apply own_key_unused.
  - rewrite (proj2 (upsert_target_None t inp Hwf)) by auto. rewrite Ha. cbn zeta.
    eexists. rewrite exec_insert_free. split_and!; [done|by apply taken_id_abs|..|done|].
    + apply (taken_abs _ p_WGPublicKey); [done..|]. by apply (key_unused_absent _ _ _ Hn).
    + by apply (taken_abs _ p_WGAllowedIP).
    + by apply (taken_abs _ p_ProxyUUID).
    + by rewrite abs_insert, scan_insert.
Qed.

(** What the returned peer says is what is stored. *)
Lemma UpsertPeer_stored t fs inp subnet gen now p s' :
  db_wf t → honest fs → UpsertPeer inp subnet gen now (mkDB t fs) = (Ok p, s') →
  upsert_spec (abs t) inp gen now (alloc_in subnet t) p (abs (tbl s')) ∧
  abs (tbl s') !! p_ID p = Some p ∧ p_WGPublicKey p = p_WGPublicKey inp ∧
  p_Enabled p = p_Enabled inp ∧ db_wf (tbl s').
Proof.
  intros Hwf Hfs E.
  destruct (fault_sound_UpsertPeer _ _ _ _ _ _ _ _ Hfs E) as [_ [(e & [=] & _)|E2]].
  rewrite UpsertPeer_free in E2. apply upsert_outcome_spec in E2; [|done].
  split; [done|]. assert (db_wf (tbl s')).
  { eapply keeps_UpsertPeer; [apply exec_update_peer_wf|apply exec_insert_peer_wf|exact E|done]. }
  inversion E2 as [p0 Hp Hk Ep Em|i p0 Hn He Hp Hk Ep Em|ip Hn Hk Ha Hip Hu Ep Em]; subst.
  - apply abs_row in Hp as (r & Hr & Hi & ->). cbn [p_ID refresh_peer scanPeer].
    rewrite Hi, lookup_insert_eq. done.
  - apply abs_row in Hp as (r & Hr & <- & ->). cbn [p_ID refresh_peer scanPeer].
    rewrite lookup_insert_eq. done.
  - cbn [p_ID new_peer]. rewrite lookup_insert_eq. done.
Qed.

(** A peer with another id and another key is left alone. *)
Lemma upsert_spec_other m inp gen now alloc p m' i q :
  upsert_spec m inp gen now alloc p m' → m !! i = Some q → i ≠ p_ID inp →
  p_WGPublicKey q ≠ p_WGPublicKey inp → m' !! i = Some q.
Proof.
  intros Hs Hq Hi Hk. inversion Hs as [p0 Hp|j p0 Hn He Hp Hkey|ip Hn]; subst;
    rewrite lookup_insert_ne; try done. intros ->. congruence.
Qed.

(** ** A peer's identity

    What UpsertPeer documents as preserved: address, proxy credentials and
    creation time of the peer with id [i]. *)

Definition identity (t : tables) (i : string) : option (string * string * string * Z) :=
  (λ p, (p_WGAllowedIP p, p_ProxyUUID p, p_ProxyPassword p, p_CreatedAt p)) <$> abs t !! i.

Definition has_identity (i : string) x (t : tables) : Prop := identity t i = Some x.

Lemma identity_lookup t i :
  identity t i = (λ r, (pr_wg_allowed_ip r, pr_proxy_uuid r, pr_proxy_password r, pr_created_at r))
    <$> find_first (λ r, String.eqb (pr_id r) i) (peers t).
Proof. unfold identity. rewrite abs_lookup. by destruct (find_first _ _). Qed.

Lemma find_first_filter {A} (q : A → bool) (Q : A → Prop) `{∀ x, Decision (Q x)} l :
  (∀ x, q x = true → Q x) → find_first q (filter Q l) = find_first q l.
Proof.
  intros Hq. induction l as [|x l IH]; [done|]. destruct (decide (Q x)) as [Hx|Hx].
  - rewrite filter_cons_True by done. simpl. by rewrite IH.
  - rewrite filter_cons_False by done. simpl. destruct (q x) eqn:E; [|done].
    by apply Hq in E.
Qed.

Lemma exec_op_identity op i x :
  op ≠ OpDeletePeer i → keeps (preserves (has_identity i x)) (exec_op op).
Proof.
  intros Hop. destruct op as [| |j| | | | |]; cbn [exec_op]; unfold discard.
  - apply keeps_exec. intros t a t' [= <- <-]. done.
  - apply keeps_bind; [apply _| |intros; apply keeps_ret, _]. apply keeps_UpsertPeer; intros p;
      apply keeps_exec; unfold has_identity; intros t a t' E; rewrite !identity_lookup.
    + destruct (_ && _); [done|]. injection E as <- <-. cbn [peers set_peers].
      rewrite (find_first_fmap _ (λ r, String.eqb (pr_id r) i)).
      * destruct (find_first _ _) as [r|]; [|done]. cbn. unfold update_row.
        by destruct (String.eqb _ _).
      * intros r. unfold update_row. by destruct (String.eqb (pr_id r) (p_ID p)).
    + repeat (destruct (taken _ _ _) in E; [done|]). injection E as <- <-. cbn [peers set_peers].
      rewrite find_first_app. by destruct (find_first _ _).
  - apply keeps_exec. unfold has_identity. intros t a t' [= <- <-]. rewrite !identity_lookup.
    cbn [peers set_peers]. unfold delete_peer_rows. rewrite find_first_filter; [done|].
    intros r E%String.eqb_eq Ej. apply Hop. congruence.
  - apply keeps_exec. intros t a t' E. by case_match; simplify_eq.
  - apply keeps_bind; [apply _| |intros; apply keeps_ret, _].
    apply keeps_exec. by intros t a t' [= <- <-].
  - apply keeps_exec. intros t a t' E. by case_match; simplify_eq.
  - apply keeps_bind; [apply _| |intros n; destruct (n =? 0)%nat; [apply keeps_fail|apply keeps_ret]; apply _].
    apply keeps_exec. by intros t a t' [= <- <-].
  - apply keeps_exec. intros t b t' E. destruct (taken acl_ID _ _) in E; [done|].
    by destruct (negb _) in E; simplify_eq.
Qed.

(** A statement that fails, or a transaction, leaves the tables alone. *)
Lemma exec_err {A} (f : tables → result (A * tables)) s e s' :
  exec f s = (Err e, s') → tbl s' = tbl s.
Proof. by intros [(a & t & _ & [=] & _)|(e' & _ & E)]%exec_inv. Qed.

Lemma discard_err {A} (m : M DB A) s e s' : discard m s = (Err e, s') → m s = (Err e, s').
Proof. by intros [(a & s1 & _ & [=])|(e' & E & [= <-])]%bind_inv. Qed.

Lemma filter_all {A} (P : A → Prop) `{∀ x, Decision (P x)} (l : list A) :
  Forall P l → filter P l = l.
Proof. induction 1 as [|x l Hx Hl IH]; [done|]. by rewrite filter_cons_True, IH. Qed.

Lemma length_filter_0 {A} (P : A → Prop) `{∀ x, Decision (P x)} (l : list A) :
  length (filter P l) = 0%nat → Forall (λ x, ¬ P x) l.
Proof.
  induction l as [|x l IH]; [by constructor|]. destruct (decide (P x)).
  - by rewrite filter_cons_True.
  - rewrite filter_cons_False by done. auto.
Qed.

Lemma DeleteService_err t fs i e s' :
  db_wf t → DeleteService i (mkDB t fs) = (Err e, s') → tbl s' = t.
Proof.
  intros (_ & _ & _ & _ & Hfk) [(n & s1 & E1 & E2)|(e' & E & _)]%bind_inv;
    [|by apply exec_err in E].
  apply exec_inv in E1 as [(a & t1 & [= <- <-] & [= ->] & Et)|(e1 & [=] & _)].
  destruct (Nat.eqb_spec (length (filter (λ r, sr_ID r = i) (services t))) 0) as [E|E] in E2;
    [|done].
  injection E2 as <- <-. apply length_filter_0 in E. rewrite Et. cbn [tbl].
  rewrite (filter_all _ (services t)) by done. rewrite filter_all; [by destruct t|].
  eapply Forall_impl; [exact Hfk|]. intros a (r & Er & Hr)%list_elem_of_fmap Ea.
  eapply Forall_forall in E; [|exact Hr]. congruence.
Qed.

(** ** Properties *)

(** C25. A store operation that returns an error changes no table: the
    transaction of UpsertPeer rolls back whatever step failed (begin, either
    lookup, allocation, statement or commit), a statement that violates a
    constraint has no effect, and DeleteService of an unknown id, which runs
    its DELETE before it reports the error, removes no rule. *)
Theorem store_error_atomic op t fs e s' :
  db_wf t → exec_op op (mkDB t fs) = (Err e, s') → tbl s' = t.
Proof.
  intros Hwf. destruct op; cbn [exec_op]; try apply (exec_err _ (mkDB t fs)).
  - intros E%discard_err. by apply in_tx_err in E.
  - intros E%discard_err. by apply exec_err in E.
  - by apply DeleteService_err.
Qed.

(** C2. UpsertPeer refines the abstract map of peers.  On every database that
    satisfies the constraints and whichever driver calls fail, success means
    the step of [upsert_spec] (the peer with that id, else the one with that
    key, is refreshed and keeps its identity; else a peer is added with an
    unused address), returns the stored peer and keeps the constraints; failure
    leaves the tables as they were.  Conversely, when the driver answers, every
    step of the specification is taken: nothing else makes the call fail. *)
Theorem UpsertPeer_refines t inp subnet gen now :
  db_wf t →
  (∀ fs r s', honest fs → UpsertPeer inp subnet gen now (mkDB t fs) = (r, s') →
     match r with
     | Ok p => upsert_spec (abs t) inp gen now (alloc_in subnet t) p (abs (tbl s')) ∧
               db_wf (tbl s')
     | Err _ => tbl s' = t
     end) ∧
  (∀ p m, upsert_spec (abs t) inp gen now (alloc_in subnet t) p m →
     ∃ t', UpsertPeer inp subnet gen now (mkDB t []) = (Ok p, mkDB t' []) ∧ abs t' = m).
Proof.
  intros Hwf. split.
  - intros fs r s' Hfs E. destruct r as [p|e]; [|by apply in_tx_err in E].
    destruct (fault_sound_UpsertPeer _ _ _ _ _ _ _ _ Hfs E) as [_ [(e & [=] & _)|E2]].
    rewrite UpsertPeer_free in E2. split; [by apply upsert_outcome_spec in E2|].
    eapply keeps_UpsertPeer; [apply exec_update_peer_wf|apply exec_insert_peer_wf|exact E|done].
  - intros p m Hs. rewrite UpsertPeer_free. by apply upsert_spec_outcome.
Qed.

(** The address, the proxy credentials and the creation time of a peer are
    fixed when it is created: no sequence of store operations that does not
    delete that peer changes them or loses the peer, whatever ids, keys and
    addresses the operations carry and whichever of them fail. *)
Lemma peer_identity_stable t ops t' i x :
  steps t ops t' → Forall (λ op, op ≠ OpDeletePeer i) ops →
  identity t i = Some x → identity t' i = Some x.
Proof.
  induction 1 as [t|t op fs r s ops t' E _ IH]; [done|].
  intros [Hop Hops]%Forall_cons Hx. apply IH; [done|].
  by apply (exec_op_identity op i x Hop _ _ _ E).
Qed.

(** ** What the store refuses

    The requests that conflict with what is stored, with the error each gets.
    A new peer is never refused for the address it was allocated. *)

Definition v4_subnet (subnet : string) (server : IP) (n : Z) : Prop :=
  ParseCIDR subnet = Some (As16 server, v4_net server n) ∧ v4_addr server ∧ 1 <= n <= 32.

Definition room (subnet : string) (t : tables) : Prop :=
  ∃ server n ip, v4_subnet subnet server n ∧
    host_free server n (pr_wg_allowed_ip <$> peers t) ip.
Definition full (subnet : string) (t : tables) : Prop :=
  ∃ server n, v4_subnet subnet server n ∧
    ∀ ip, ¬ host_free server n (pr_wg_allowed_ip <$> peers t) ip.

Definition no_peer_with_key (t : tables) (k : string) : Prop :=
  ∀ j q, abs t !! j = Some q → p_WGPublicKey q ≠ k.

Inductive refusal (t : tables) : store_op → error → Prop :=
| RefuseOthersKey inp subnet gen now p j q :
    abs t !! p_ID inp = Some p → abs t !! j = Some q → j ≠ p_ID inp →
    p_WGPublicKey q = p_WGPublicKey inp →
    refusal t (OpUpsertPeer inp subnet gen now) (unique_violation "peers.wg_public_key")
| RefuseSecondKeyless inp subnet gen now j q :
    abs t !! p_ID inp = None → p_WGPublicKey inp = EmptyString → room subnet t →
    abs t !! j = Some q → p_WGPublicKey q = EmptyString →
    refusal t (OpUpsertPeer inp subnet gen now) (unique_violation "peers.wg_public_key")
| RefuseExhausted inp subnet gen now :
    abs t !! p_ID inp = None →
    p_WGPublicKey inp = EmptyString ∨ no_peer_with_key t (p_WGPublicKey inp) → full subnet t →
    refusal t (OpUpsertPeer inp subnet gen now) (EVar ErrSubnetExhausted)
| RefuseProxyUUID inp subnet gen now j q :
    abs t !! p_ID inp = None → no_peer_with_key t (p_WGPublicKey inp) → room subnet t →
    abs t !! j = Some q → p_ProxyUUID q = g_ProxyUUID gen →
    refusal t (OpUpsertPeer inp subnet gen now) (unique_violation "peers.proxy_uuid")
| RefuseCarrierID c uuid now r :
    r ∈ carrier_credentials t →
    cr_id r = (if String.eqb (cc_ID c) EmptyString then uuid else cc_ID c) →
    refusal t (OpInsertCarrier c uuid now) (unique_violation "carrier_credentials.id")
| RefuseUnknownService i :
    (∀ r, r ∈ services t → sr_ID r ≠ i) →
    refusal t (OpDeleteService i) (EWrap EmptyString (EVar ErrNotFound) ": service")
| RefuseRuleID a uuid now r :
    r ∈ service_acls t →
    acl_ID r = (if String.eqb (acl_ID a) EmptyString then uuid else acl_ID a) →
    refusal t (OpInsertACL a uuid now) (unique_violation "service_acls.id")
| RefuseRuleService a uuid now :
    (∀ r, r ∈ service_acls t →
       acl_ID r ≠ (if String.eqb (acl_ID a) EmptyString then uuid else acl_ID a)) →
    (∀ r, r ∈ services t → sr_ID r ≠ acl_ServiceID a) →
    refusal t (OpInsertACL a uuid now) fk_violation.

Lemma alloc_in_v4 subnet t server n :
  v4_subnet subnet server n →
  alloc_spec server n (pr_wg_allowed_ip <$> peers t) (alloc_in subnet t).
Proof.
  intros (Hs & Hv4 & Hn).
  destruct (find_free_spec server n (pr_wg_allowed_ip <$> peers t) Hv4 Hn) as (a & Ea & Hspec).
  assert (alloc_in subnet t = a) as ->; [|done].
  unfold alloc_in, txAllocateIP, query, gets, driver, lift, mbind, M_bind.
  rewrite Hs. cbn [faults tbl fst]. by rewrite Ea.
Qed.

(** The allocator succeeds when there is room, with an address of no row. *)
Lemma alloc_in_room subnet t :
  room subnet t → ∃ ip, alloc_in subnet t = Ok ip ∧ taken pr_wg_allowed_ip ip (peers t) = false.
Proof.
  intros (server & n & ip & Hs & Hf). pose proof (alloc_in_v4 subnet t _ _ Hs) as H.
  destruct (alloc_in subnet t) as [a|e]; [|by destruct H as [_ H]; apply H in Hf].
  destruct H as (ip' & _ & _ & _ & Hn). exists a. split; [done|]. by apply taken_false.
Qed.

Lemma alloc_in_full subnet t : full subnet t → alloc_in subnet t = Err (EVar ErrSubnetExhausted).
Proof.
  intros (server & n & Hs & Hf). pose proof (alloc_in_v4 subnet t _ _ Hs) as H.
  destruct (alloc_in subnet t) as [a|e]; [|by destruct H as [-> _]].
  destruct H as (ip & _ & Hfree & _). by apply Hf in Hfree.
Qed.

Lemma room_or_full subnet t server n : v4_subnet subnet server n → room subnet t ∨ full subnet t.
Proof.
  intros Hs. pose proof (alloc_in_v4 subnet t _ _ Hs) as H.
  destruct (alloc_in subnet t) as [a|e].
  - destruct H as (ip & _ & Hfree & _). left. by exists server, n, ip.
  - destruct H as [_ H]. right. by exists server, n.
Qed.

Lemma exec_insert_refuses p t e :
  ((_ ← exec_insert_peer p; mret p) (mkDB t [])).1 = Err e ↔
  if taken pr_id (p_ID p) (peers t) then e = unique_violation "peers.id"
  else if taken pr_wg_public_key (p_WGPublicKey p) (peers t)
  then e = unique_violation "peers.wg_public_key"
  else if taken pr_wg_allowed_ip (p_WGAllowedIP p) (peers t)
  then e = unique_violation "peers.wg_allowed_ip"
  else if taken pr_proxy_uuid (p_ProxyUUID p) (peers t)
  then e = unique_violation "peers.proxy_uuid" else False.
Proof.
  unfold exec_insert_peer, exec, run, mbind, M_bind. cbn.
  repeat case_match; simplify_eq; cbn; split; naive_solver.
Qed.

Lemma taken_abs_Some (col : PeerRow → string) (fld : Peer → string) x t :
  (∀ r, fld (scanPeer r) = col r) → db_wf t →
  taken col x (peers t) = true ↔ ∃ i p, abs t !! i = Some p ∧ fld p = x.
Proof.
  intros Hc Hwf. rewrite taken_spec, list_elem_of_fmap. split.
  - intros (r & -> & Hr). exists (pr_id r), (scanPeer r). by rewrite row_abs.
  - intros (i & p & (r & Hr & _ & ->)%abs_row & <-). exists r. by rewrite Hc.
Qed.

(** An upsert of a stored peer is refused only for the key of another one. *)
Lemma upsert_known_refuses t inp subnet gen now r e :
  db_wf t → upsert_target inp t = Some r →
  (upsert_outcome inp subnet gen now t).1 = Err e ↔
  refusal t (OpUpsertPeer inp subnet gen now) e.
Proof.
  intros Hwf Et. unfold upsert_outcome. rewrite Et. cbn zeta. rewrite exec_update_free.
  apply (upsert_target_Some t inp r Hwf) in Et as [Hr Hor].
  pose proof (row_abs t r Hwf Hr) as Hrow.
  assert (taken pr_id (pr_id r) (peers t) = true) as Hid.
  { apply taken_spec, list_elem_of_fmap. eauto. }
  cbn [p_ID p_WGPublicKey refresh_peer scanPeer]. rewrite Hid, andb_true_r.
  pose proof (taken_other_key t (p_WGPublicKey inp) (pr_id r) Hwf) as Hk.
  destruct Hor as [Hi|(Hn & He & Ek)].
  - rewrite Hi in *. split.
    + destruct (taken pr_wg_public_key _ _) eqn:Etk; [|done]. intros [= <-].
      apply taken_spec, list_elem_of_fmap in Etk as (r2 & E2 & [Hne Hr2]%list_elem_of_filter).
      eapply RefuseOthersKey; [exact Hrow|exact (row_abs t r2 Hwf Hr2)|done|done].
    + intros H. inversion H as [? ? ? ? p j q Hp Hq Hne Hkq| | | | | | |]; subst; [|congruence..].
      destruct (taken pr_wg_public_key _ _) eqn:Etk; [done|].
      by apply (proj1 Hk eq_refl j q Hq Hne) in Hkq.
  - rewrite (proj2 Hk) by (rewrite <- Ek; by apply own_key_unused). split; [done|].
    intros H. inversion H as [| |? ? ? ? _ Ho _|? ? ? ? j q _ Ho _ _ _| | | |]; subst; try congruence.
    + destruct Ho as [|Ho]; [done|]. by apply (Ho _ _ Hrow) in Ek.
    + by apply (Ho _ _ Hrow) in Ek.
Qed.

(** A request for a new peer is refused for want of an address, for a second
    empty key or for a proxy uuid in use, and for nothing else. *)
Lemma upsert_new_refuses t inp subnet gen now server n e :
  db_wf t → v4_subnet subnet server n → upsert_target inp t = None →
  (upsert_outcome inp subnet gen now t).1 = Err e ↔
  refusal t (OpUpsertPeer inp subnet gen now) e.
Proof.
  intros Hwf Hs Et. unfold upsert_outcome. rewrite Et.
  apply (upsert_target_None t inp Hwf) in Et as [Hn Hor].
  rewrite (key_unused_absent _ _ _ Hn) in Hor.
  pose proof (taken_abs pr_wg_public_key p_WGPublicKey (p_WGPublicKey inp) t ltac:(done) Hwf) as Hk.
  pose proof (taken_abs_Some pr_wg_public_key p_WGPublicKey (p_WGPublicKey inp) t ltac:(done) Hwf) as Hk'.
  pose proof (taken_abs_Some pr_proxy_uuid p_ProxyUUID (g_ProxyUUID gen) t ltac:(done) Hwf) as Hu.
  destruct (room_or_full subnet t server n Hs) as [Hroom|Hfull].
  - destruct (alloc_in_room _ _ Hroom) as (ip & -> & Hip). cbn zeta. rewrite exec_insert_refuses.
    cbn [p_ID p_WGPublicKey p_WGAllowedIP p_ProxyUUID new_peer].
    rewrite (proj2 (taken_id_abs t (p_ID inp)) Hn), Hip.
    assert (¬ full subnet t) as Hnf.
    { intros Hf%alloc_in_full. destruct (alloc_in_room _ _ Hroom) as (? & Ha & _). congruence. }
    split.
    + destruct (taken pr_wg_public_key _ _).
      { intros ->. destruct (proj1 Hk' eq_refl) as (j & q & Hq & Eq).
        destruct Hor as [Ee|Ho]; [|by apply (Ho j q Hq) in Eq].
        eapply RefuseSecondKeyless; [done|done|done|exact Hq|congruence]. }
      destruct (taken pr_proxy_uuid _ _); [|done]. intros ->.
      destruct (proj1 Hu eq_refl) as (j & q & Hq & Eq).
      eapply RefuseProxyUUID; [done|exact (proj1 Hk eq_refl)|done|exact Hq|done].
    + intros H. inversion H as [? ? ? ? p j q Hp| ? ? ? ? j q _ Ee _ Hq Eq|
        |? ? ? ? j q _ Ho _ Hq Eq| | | |]; subst; [congruence| |done|].
      * by rewrite (proj2 Hk') by (exists j, q; split; [done|congruence]).
      * rewrite (proj2 Hk) by exact Ho. by rewrite (proj2 Hu) by eauto.
  - rewrite (alloc_in_full _ _ Hfull). cbn [fst].
    assert (¬ room subnet t) as Hnr.
    { intros (? & Ha & _)%alloc_in_room. rewrite (alloc_in_full _ _ Hfull) in Ha. done. }
    split.
    + intros [= <-]. by apply RefuseExhausted.
    + intros H. inversion H; subst; first [done|congruence].
Qed.

Lemma discard_fst {A} (m : M DB A) s e : (discard m s).1 = Err e ↔ (m s).1 = Err e.
Proof. unfold discard, mbind, M_bind. destruct (m s) as [[] ]; cbn; split; congruence. Qed.

Lemma DeleteService_refuses t i e :
  (DeleteService i (mkDB t [])).1 = Err e ↔ refusal t (OpDeleteService i) e.
Proof.
  unfold DeleteService, exec, run, mbind, M_bind. cbn.
  destruct (length _ =? 0)%nat eqn:El; cbn.
  - apply Nat.eqb_eq, length_zero_iff_nil in El. split; [|by inversion 1].
    intros [= <-]. constructor. intros r Hr E.
    assert (r ∈ filter (λ r, sr_ID r = i) (services t)) as H by (by apply list_elem_of_filter).
    rewrite El in H. by apply not_elem_of_nil in H.
  - split; [done|]. intros H. inversion H as [| | | | |? Hno| |]; subst.
    apply Nat.eqb_neq in El. exfalso. apply El.
    destruct (filter _ _) as [|r l] eqn:Ef; [done|].
    assert (r ∈ filter (λ r, sr_ID r = i) (services t)) as Hr by (rewrite Ef; left).
    apply list_elem_of_filter in Hr as [E Hr]. by apply Hno in Hr.
Qed.

Lemma InsertServiceACL_refuses t a uuid now e :
  (InsertServiceACL a uuid now (mkDB t [])).1 = Err e ↔ refusal t (OpInsertACL a uuid now) e.
Proof.
  unfold InsertServiceACL, exec, run, mbind, M_bind. cbn.
  set (aid := if String.eqb (acl_ID a) EmptyString then uuid else acl_ID a).
  destruct (taken acl_ID aid _) eqn:E1; cbn.
  - apply taken_spec, list_elem_of_fmap in E1 as (r & Er & Hr). split.
    + intros [= <-]. by eapply RefuseRuleID.
    + intros H. inversion H as [| | | | | | |? ? ? Hno _]; subst; [done|].
      by apply Hno in Hr.
  - assert (∀ r, r ∈ service_acls t → acl_ID r ≠ aid) as Hno.
    { intros r Hr E. apply taken_false in E1. apply E1, list_elem_of_fmap. eauto. }
    destruct (taken sr_ID _ _) eqn:E2; cbn.
    + apply taken_spec, list_elem_of_fmap in E2 as (r & Er & Hr). split; [done|].
      intros H. inversion H as [| | | | | |? ? ? r1 Hr1 E|? ? ? _ Hno2]; subst; [by apply Hno in Hr1|].
      by apply Hno2 in Hr.
    + split; [|intros H; inversion H as [| | | | | |? ? ? r1 Hr1 E|]; subst; [by apply Hno in Hr1|done]].
      intros [= <-]. apply RefuseRuleService; [done|]. intros r Hr E. apply taken_false in E2.
      apply E2, list_elem_of_fmap. eauto.
Qed.

Lemma InsertCarrier_refuses t c uuid now e :
  (InsertCarrierCredential c uuid now (mkDB t [])).1 = Err e ↔
  refusal t (OpInsertCarrier c uuid now) e.
Proof.
  unfold InsertCarrierCredential, exec, run, mbind, M_bind. cbn.
  destruct (taken cr_id _ _) eqn:E; cbn.
  - apply taken_spec, list_elem_of_fmap in E as (r & Er & Hr). split; [|by inversion 1].
    intros [= <-]. by eapply RefuseCarrierID.
  - split; [done|]. intros H. inversion H as [| | | |? ? ? r Hr Er| | |]; subst.
    apply taken_false in E. exfalso. apply E, list_elem_of_fmap. eauto.
Qed.

(** On an IPv4 subnet a request for a new peer (new id, new key, fresh
    proxy uuid) succeeds exactly when the subnet has a free address, and the
    peer gets the lowest one, as a /32 that no other peer holds. *)
Lemma UpsertPeer_creates t inp subnet gen now server n :
  db_wf t → ParseCIDR subnet = Some (As16 server, v4_net server n) →
  v4_addr server → 1 <= n <= 32 →
  abs t !! p_ID inp = None → key_unused (abs t) (p_WGPublicKey inp) (p_ID inp) →
  (∀ i p, abs t !! i = Some p → p_ProxyUUID p ≠ g_ProxyUUID gen) →
  let cidrs := pr_wg_allowed_ip <$> peers t in
  let r := (UpsertPeer inp subnet gen now (mkDB t [])).1 in
  (r = Err (EVar ErrSubnetExhausted) ∧ ∀ ip, ¬ host_free server n cidrs ip) ∨
  (∃ ip, r = Ok (new_peer inp (ip_String ip +:+ "/32") gen now) ∧
     host_free server n cidrs ip ∧
     (∀ ip', host_free server n cidrs ip' → be_val ip <= be_val ip')).
Proof.
  intros Hwf Hs Hv4 Hn Hid Hkey Hu cidrs r. unfold r, cidrs.
  pose proof (alloc_in_v4 subnet t server n (conj Hs (conj Hv4 Hn))) as Hspec.
  destruct (alloc_in subnet t) as [addr|e] eqn:Ha.
  - destruct Hspec as (ip & -> & Hfree & Hleast & Hnot). right. exists ip.
    destruct (upsert_spec_outcome t inp subnet gen now
      (new_peer inp (ip_String ip +:+ "/32") gen now) _ Hwf
      (UpsertNew _ _ _ _ _ _ Hid Hkey Ha
        ltac:(intros i p (r0 & Hr & _ & ->)%abs_row E; apply Hnot; rewrite <- E;
              apply list_elem_of_fmap; eauto) Hu)) as (t' & E & _).
    by rewrite UpsertPeer_free, E.
  - destruct Hspec as [-> Hnone]. left. split; [|done]. rewrite UpsertPeer_free.
    unfold upsert_outcome. rewrite (proj2 (upsert_target_None t inp Hwf)) by auto.
    by rewrite Ha.
Qed.

(** C3. What the store keeps and what it refuses.  Every database reached from
    an empty one by any sequence of store operations, whichever of their driver
    calls fail, satisfies the declared constraints; and on it, when the driver
    answers, an operation fails exactly for the conflicts of [refusal], with
    its error: an upsert of a stored peer only for the key of another peer, a
    new peer only when its IPv4 subnet has no free address, or for a second
    empty key or a used proxy uuid (never for its id, its key or the address
    it was allocated), a credential or a rule for its id, a rule for a service
    that is not there, and a deletion of a service that is not there. *)
Theorem store_refusals_exact ops t op :
  steps empty_tables ops t →
  (∀ inp subnet gen now, op = OpUpsertPeer inp subnet gen now →
     ∃ server n, v4_subnet subnet server n) →
  db_wf t ∧ ∀ e, (exec_op op (mkDB t [])).1 = Err e ↔ refusal t op e.
Proof.
  intros Hst Hop. assert (db_wf t) as Hwf by (by eapply store_reachable_wf). split; [done|].
  intros e. destruct op as [k v|inp subnet gen now|i|c u now|now|row|i|a u now]; cbn [exec_op].
  - by split; [|inversion 1].
  - rewrite discard_fst, UpsertPeer_free. destruct (Hop _ _ _ _ eq_refl) as (server & n & Hs).
    destruct (upsert_target inp t) as [r|] eqn:Et;
      [by eapply upsert_known_refuses|by eapply upsert_new_refuses].
  - by split; [|inversion 1].
  - apply InsertCarrier_refuses.
  - by split; [|inversion 1].
  - split; [|by inversion 1]. unfold UpsertService, exec, run, mbind, M_bind. cbn.
    by destruct (taken _ _ _).
  - apply DeleteService_refuses.
  - apply InsertServiceACL_refuses.
Qed.

(** ** Witnesses *)

Definition wit_peer (i key : string) : Peer :=
  mkPeer i "laptop" EmptyString key EmptyString EmptyString EmptyString EmptyString true 0 0 0.
Definition wit_gen (u : string) : GeneratedCreds := mkGen u "pw".
Definition wit_op (i key u : string) : store_op :=
  OpUpsertPeer (wit_peer i key) "10.0.0.1/24" (wit_gen u) 100.
Definition wit_tables : tables := tbl (exec_op (wit_op "p1" "k1" "u1") empty_db).2.

Lemma wit_tables_wf : db_wf wit_tables.
Proof.
  unfold wit_tables. destruct (exec_op (wit_op "p1" "k1" "u1") empty_db) as [r s] eqn:E.
  exact (exec_op_wf _ _ _ _ E empty_wf).
Qed.

(** Two requests later (the first refused for its proxy uuid, the second a
    driver failure), a new peer with that uuid is still refused. *)
Lemma store_refusals_exact_witness :
  let ops := [wit_op "p1" "k1" "u1"; wit_op "p2" "k2" "u1"; wit_op "p3" "k1" "u3"] in
  ∃ t, steps empty_tables ops t ∧ length (peers t) = 1%nat ∧ db_wf t ∧
    refusal t (wit_op "p4" "k4" "u1") (unique_violation "peers.proxy_uuid").
Proof.
  eexists. split; [|split].
  - eapply (steps_cons _ _ []); [vm_compute; reflexivity|].
    eapply (steps_cons _ _ [None; Some (EMsg "disk I/O error")]); [vm_compute; reflexivity|].
    eapply (steps_cons _ _ []); [vm_compute; reflexivity|]. apply steps_nil.
  - reflexivity.
  - edestruct (store_refusals_exact
      [wit_op "p1" "k1" "u1"; wit_op "p2" "k2" "u1"; wit_op "p3" "k1" "u3"]) as [Hwf Href];
      cycle 2.
    + split; [exact Hwf|]. apply Href. vm_compute. reflexivity.
    + eapply (steps_cons _ _ []); [vm_compute; reflexivity|].
      eapply (steps_cons _ _ [None; Some (EMsg "disk I/O error")]); [vm_compute; reflexivity|].
      eapply (steps_cons _ _ []); [vm_compute; reflexivity|]. apply steps_nil.
    + intros inp subnet gen now [= <- <- <- <-]. exists [10; 0; 0; 1], 24.
      split; [vm_compute; reflexivity|]. split; [|lia].
      split; [reflexivity|]. repeat constructor; lia.
Defined.

(** The commit, the last of the five driver calls, fails. *)
Lemma store_error_atomic_witness :
  let fs := [None; None; None; None; None; Some (EMsg "disk I/O error")] in
  let run := exec_op (wit_op "p2" "k2" "u2") (mkDB wit_tables fs) in
  run.1 = Err (EMsg "disk I/O error") ∧ tbl run.2 = wit_tables.
Proof.
  split; [vm_compute; reflexivity|].
  apply (store_error_atomic (wit_op "p2" "k2" "u2") wit_tables
    [None; None; None; None; None; Some (EMsg "disk I/O error")] (EMsg "disk I/O error")).
  - apply wit_tables_wf.
  - vm_compute. reflexivity.
Defined.

(** A second upsert of the same key under a new id refreshes the first peer. *)
Lemma UpsertPeer_refines_witness :
  let s' := (UpsertPeer (wit_peer "p9" "k1") "10.0.0.1/24" (wit_gen "u9") 200 (mkDB wit_tables [])).2 in
  upsert_spec (abs wit_tables) (wit_peer "p9" "k1") (wit_gen "u9") 200
    (alloc_in "10.0.0.1/24" wit_tables)
    (mkPeer "p1" "laptop" EmptyString "k1" "10.0.0.2/32" EmptyString "u1" "pw" true 100 200 0)
    (abs (tbl s')).
Proof.
  pose proof (proj1 (UpsertPeer_refines wit_tables (wit_peer "p9" "k1") "10.0.0.1/24"
    (wit_gen "u9") 200 wit_tables_wf) []) as H.
  apply (H (Ok (mkPeer "p1" "laptop" EmptyString "k1" "10.0.0.2/32" EmptyString "u1" "pw" true 100 200 0))).
  - constructor.
  - vm_compute. reflexivity.
Defined.

Lemma peer_identity_stable_witness :
  ∃ t', steps wit_tables [wit_op "p9" "k1" "u9"; OpDeletePeer "p2"] t' ∧
    identity t' "p1" = Some ("10.0.0.2/32", "u1", "pw", 100).
Proof.
  eexists. split.
  - eapply (steps_cons _ _ []); [vm_compute; reflexivity|].
    eapply (steps_cons _ _ []); [vm_compute; reflexivity|]. apply steps_nil.
  - apply (peer_identity_stable wit_tables [wit_op "p9" "k1" "u9"; OpDeletePeer "p2"]).
    + eapply (steps_cons _ _ []); [vm_compute; reflexivity|].
      eapply (steps_cons _ _ []); [vm_compute; reflexivity|]. apply steps_nil.
    + repeat constructor; discriminate.
    + vm_compute. reflexivity.
Defined.
