(* ===== verification/ConfigData.v ===== *)
(** * The node configuration as data (internal/config/config.go, mode.go)

    The struct [Config] field by field, its [ModeSettings], and one setter for
    each field the code assigns after construction. *)
From S2P Require Import Prelude.

(** RuntimeMode and NetworkProfile are string types with named constants. *)
Definition ModePrivate : string := "private".
Definition ModePublic : string := "public".
Definition NetworkBridge : string := "bridge".
Definition NetworkHostNetwork : string := "host-network".
Definition NetworkNative : string := "native".
Definition legacyModeGateway : string := "gateway".

Record ModeSettings := mkMode {
  m_RuntimeMode : string; m_NetworkProfile : string; m_Warnings : list string;
}.
Definition zeroMode : ModeSettings := mkMode EmptyString EmptyString [].

Record Config := mkConfig {
  c_RunType : string; c_BindAddr : string; c_HTTPPort : string; c_NodeName : string;
  c_Region : string; c_Zone : string; c_Version : string; c_Mode : ModeSettings;
  c_UnsafePublicAPI : bool; c_Mnemonic : string; c_GatewayURL : string;
  c_GatewayPeerMultiaddr : string; c_P2PListenPort : string; c_NodeID : string;
  c_NodeToken : string; c_WalletChain : string; c_NodeRegistrationToken : string;
  c_APIPublicURL : string; c_GatewayAutoRegister : bool; c_GatewayPublicKey : string;
  c_NodeKey : string; c_NodeAPIToken : string; c_WGConfDir : string; c_WGInterface : string;
  c_WGEndpointHost : string; c_WGEndpointPort : string; c_StealthTCPPort : string;
  c_StealthUDPPort : string; c_WGIPv4Subnet : string; c_WGDNS : string; c_WGPostUp : string;
  c_WGPostDown : string; c_WGPreUp : string; c_WGPreDown : string; c_EnableStealth : bool;
  c_VLESSPort : string; c_Hysteria2Port : string; c_RealityServerNames : list string;
  c_RealityHandshakeServer : string; c_Hysteria2ObfsPassword : string; c_EnableTUIC : bool;
  c_StateDir : string; c_DropEnabled : bool; c_DropStorageMax : string;
  c_DropStorageMaxBytes : Z; c_DropSwarmPort : string; c_DropWebUIEnabled : bool;
  c_ChainRegistration : string; c_PrivateDNSEnabled : bool; c_PrivateDNSDomain : string;
  c_PrivateDNSAddr : string; c_UpstreamDNS : string; c_DNSQueryLogs : bool;
  c_ErebrusProfile : string; c_FirewallProvider : string; c_FirewallDNSAddr : string;
  c_ShieldAdminURL : string; c_ShieldAdminUser : string; c_ShieldAdminPassword : string;
  c_ShieldUpstreamDNS : string; c_SentinelAPIURL : string; c_SentinelImage : string;
  c_SentinelLicensed : bool;
}.

Definition set_Mode (x : ModeSettings) (c : Config) : Config :=
  mkConfig
    (c_RunType c) (c_BindAddr c) (c_HTTPPort c) (c_NodeName c) (c_Region c) (c_Zone c)
    (c_Version c) x (c_UnsafePublicAPI c) (c_Mnemonic c) (c_GatewayURL c)
    (c_GatewayPeerMultiaddr c) (c_P2PListenPort c) (c_NodeID c) (c_NodeToken c)
    (c_WalletChain c) (c_NodeRegistrationToken c) (c_APIPublicURL c) (c_GatewayAutoRegister c)
    (c_GatewayPublicKey c) (c_NodeKey c) (c_NodeAPIToken c) (c_WGConfDir c) (c_WGInterface c)
    (c_WGEndpointHost c) (c_WGEndpointPort c) (c_StealthTCPPort c) (c_StealthUDPPort c)
    (c_WGIPv4Subnet c) (c_WGDNS c) (c_WGPostUp c) (c_WGPostDown c) (c_WGPreUp c)
    (c_WGPreDown c) (c_EnableStealth c) (c_VLESSPort c) (c_Hysteria2Port c)
    (c_RealityServerNames c) (c_RealityHandshakeServer c) (c_Hysteria2ObfsPassword c)
    (c_EnableTUIC c) (c_StateDir c) (c_DropEnabled c) (c_DropStorageMax c)
    (c_DropStorageMaxBytes c) (c_DropSwarmPort c) (c_DropWebUIEnabled c)
    (c_ChainRegistration c) (c_PrivateDNSEnabled c) (c_PrivateDNSDomain c) (c_PrivateDNSAddr c)
    (c_UpstreamDNS c) (c_DNSQueryLogs c) (c_ErebrusProfile c) (c_FirewallProvider c)
    (c_FirewallDNSAddr c) (c_ShieldAdminURL c) (c_ShieldAdminUser c) (c_ShieldAdminPassword c)
    (c_ShieldUpstreamDNS c) (c_SentinelAPIURL c) (c_SentinelImage c) (c_SentinelLicensed c).
Definition set_VLESSPort (x : string) (c : Config) : Config :=
  mkConfig
    (c_RunType c) (c_BindAddr c) (c_HTTPPort c) (c_NodeName c) (c_Region c) (c_Zone c)
    (c_Version c) (c_Mode c) (c_UnsafePublicAPI c) (c_Mnemonic c) (c_GatewayURL c)
    (c_GatewayPeerMultiaddr c) (c_P2PListenPort c) (c_NodeID c) (c_NodeToken c)
    (c_WalletChain c) (c_NodeRegistrationToken c) (c_APIPublicURL c) (c_GatewayAutoRegister c)
    (c_GatewayPublicKey c) (c_NodeKey c) (c_NodeAPIToken c) (c_WGConfDir c) (c_WGInterface c)
    (c_WGEndpointHost c) (c_WGEndpointPort c) (c_StealthTCPPort c) (c_StealthUDPPort c)
    (c_WGIPv4Subnet c) (c_WGDNS c) (c_WGPostUp c) (c_WGPostDown c) (c_WGPreUp c)
    (c_WGPreDown c) (c_EnableStealth c) x (c_Hysteria2Port c) (c_RealityServerNames c)
    (c_RealityHandshakeServer c) (c_Hysteria2ObfsPassword c) (c_EnableTUIC c) (c_StateDir c)
    (c_DropEnabled c) (c_DropStorageMax c) (c_DropStorageMaxBytes c) (c_DropSwarmPort c)
    (c_DropWebUIEnabled c) (c_ChainRegistration c) (c_PrivateDNSEnabled c)
    (c_PrivateDNSDomain c) (c_PrivateDNSAddr c) (c_UpstreamDNS c) (c_DNSQueryLogs c)
    (c_ErebrusProfile c) (c_FirewallProvider c) (c_FirewallDNSAddr c) (c_ShieldAdminURL c)
    (c_ShieldAdminUser c) (c_ShieldAdminPassword c) (c_ShieldUpstreamDNS c)
    (c_SentinelAPIURL c) (c_SentinelImage c) (c_SentinelLicensed c).
Definition set_Hysteria2Port (x : string) (c : Config) : Config :=
  mkConfig
    (c_RunType c) (c_BindAddr c) (c_HTTPPort c) (c_NodeName c) (c_Region c) (c_Zone c)
    (c_Version c) (c_Mode c) (c_UnsafePublicAPI c) (c_Mnemonic c) (c_GatewayURL c)
    (c_GatewayPeerMultiaddr c) (c_P2PListenPort c) (c_NodeID c) (c_NodeToken c)
    (c_WalletChain c) (c_NodeRegistrationToken c) (c_APIPublicURL c) (c_GatewayAutoRegister c)
    (c_GatewayPublicKey c) (c_NodeKey c) (c_NodeAPIToken c) (c_WGConfDir c) (c_WGInterface c)
    (c_WGEndpointHost c) (c_WGEndpointPort c) (c_StealthTCPPort c) (c_StealthUDPPort c)
    (c_WGIPv4Subnet c) (c_WGDNS c) (c_WGPostUp c) (c_WGPostDown c) (c_WGPreUp c)
    (c_WGPreDown c) (c_EnableStealth c) (c_VLESSPort c) x (c_RealityServerNames c)
    (c_RealityHandshakeServer c) (c_Hysteria2ObfsPassword c) (c_EnableTUIC c) (c_StateDir c)
    (c_DropEnabled c) (c_DropStorageMax c) (c_DropStorageMaxBytes c) (c_DropSwarmPort c)
    (c_DropWebUIEnabled c) (c_ChainRegistration c) (c_PrivateDNSEnabled c)
    (c_PrivateDNSDomain c) (c_PrivateDNSAddr c) (c_UpstreamDNS c) (c_DNSQueryLogs c)
    (c_ErebrusProfile c) (c_FirewallProvider c) (c_FirewallDNSAddr c) (c_ShieldAdminURL c)
    (c_ShieldAdminUser c) (c_ShieldAdminPassword c) (c_ShieldUpstreamDNS c)
    (c_SentinelAPIURL c) (c_SentinelImage c) (c_SentinelLicensed c).
Definition set_DropStorageMaxBytes (x : Z) (c : Config) : Config :=
  mkConfig
    (c_RunType c) (c_BindAddr c) (c_HTTPPort c) (c_NodeName c) (c_Region c) (c_Zone c)
    (c_Version c) (c_Mode c) (c_UnsafePublicAPI c) (c_Mnemonic c) (c_GatewayURL c)
    (c_GatewayPeerMultiaddr c) (c_P2PListenPort c) (c_NodeID c) (c_NodeToken c)
    (c_WalletChain c) (c_NodeRegistrationToken c) (c_APIPublicURL c) (c_GatewayAutoRegister c)
    (c_GatewayPublicKey c) (c_NodeKey c) (c_NodeAPIToken c) (c_WGConfDir c) (c_WGInterface c)
    (c_WGEndpointHost c) (c_WGEndpointPort c) (c_StealthTCPPort c) (c_StealthUDPPort c)
    (c_WGIPv4Subnet c) (c_WGDNS c) (c_WGPostUp c) (c_WGPostDown c) (c_WGPreUp c)
    (c_WGPreDown c) (c_EnableStealth c) (c_VLESSPort c) (c_Hysteria2Port c)
    (c_RealityServerNames c) (c_RealityHandshakeServer c) (c_Hysteria2ObfsPassword c)
    (c_EnableTUIC c) (c_StateDir c) (c_DropEnabled c) (c_DropStorageMax c) x
    (c_DropSwarmPort c) (c_DropWebUIEnabled c) (c_ChainRegistration c) (c_PrivateDNSEnabled c)
    (c_PrivateDNSDomain c) (c_PrivateDNSAddr c) (c_UpstreamDNS c) (c_DNSQueryLogs c)
    (c_ErebrusProfile c) (c_FirewallProvider c) (c_FirewallDNSAddr c) (c_ShieldAdminURL c)
    (c_ShieldAdminUser c) (c_ShieldAdminPassword c) (c_ShieldUpstreamDNS c)
    (c_SentinelAPIURL c) (c_SentinelImage c) (c_SentinelLicensed c).
Definition set_WGDNS (x : string) (c : Config) : Config :=
  mkConfig
    (c_RunType c) (c_BindAddr c) (c_HTTPPort c) (c_NodeName c) (c_Region c) (c_Zone c)
    (c_Version c) (c_Mode c) (c_UnsafePublicAPI c) (c_Mnemonic c) (c_GatewayURL c)
    (c_GatewayPeerMultiaddr c) (c_P2PListenPort c) (c_NodeID c) (c_NodeToken c)
    (c_WalletChain c) (c_NodeRegistrationToken c) (c_APIPublicURL c) (c_GatewayAutoRegister c)
    (c_GatewayPublicKey c) (c_NodeKey c) (c_NodeAPIToken c) (c_WGConfDir c) (c_WGInterface c)
    (c_WGEndpointHost c) (c_WGEndpointPort c) (c_StealthTCPPort c) (c_StealthUDPPort c)
    (c_WGIPv4Subnet c) x (c_WGPostUp c) (c_WGPostDown c) (c_WGPreUp c) (c_WGPreDown c)
    (c_EnableStealth c) (c_VLESSPort c) (c_Hysteria2Port c) (c_RealityServerNames c)
    (c_RealityHandshakeServer c) (c_Hysteria2ObfsPassword c) (c_EnableTUIC c) (c_StateDir c)
    (c_DropEnabled c) (c_DropStorageMax c) (c_DropStorageMaxBytes c) (c_DropSwarmPort c)
    (c_DropWebUIEnabled c) (c_ChainRegistration c) (c_PrivateDNSEnabled c)
    (c_PrivateDNSDomain c) (c_PrivateDNSAddr c) (c_UpstreamDNS c) (c_DNSQueryLogs c)
    (c_ErebrusProfile c) (c_FirewallProvider c) (c_FirewallDNSAddr c) (c_ShieldAdminURL c)
    (c_ShieldAdminUser c) (c_ShieldAdminPassword c) (c_ShieldUpstreamDNS c)
    (c_SentinelAPIURL c) (c_SentinelImage c) (c_SentinelLicensed c).
Definition set_PrivateDNSAddr (x : string) (c : Config) : Config :=
  mkConfig
    (c_RunType c) (c_BindAddr c) (c_HTTPPort c) (c_NodeName c) (c_Region c) (c_Zone c)
    (c_Version c) (c_Mode c) (c_UnsafePublicAPI c) (c_Mnemonic c) (c_GatewayURL c)
    (c_GatewayPeerMultiaddr c) (c_P2PListenPort c) (c_NodeID c) (c_NodeToken c)
    (c_WalletChain c) (c_NodeRegistrationToken c) (c_APIPublicURL c) (c_GatewayAutoRegister c)
    (c_GatewayPublicKey c) (c_NodeKey c) (c_NodeAPIToken c) (c_WGConfDir c) (c_WGInterface c)
    (c_WGEndpointHost c) (c_WGEndpointPort c) (c_StealthTCPPort c) (c_StealthUDPPort c)
    (c_WGIPv4Subnet c) (c_WGDNS c) (c_WGPostUp c) (c_WGPostDown c) (c_WGPreUp c)
    (c_WGPreDown c) (c_EnableStealth c) (c_VLESSPort c) (c_Hysteria2Port c)
    (c_RealityServerNames c) (c_RealityHandshakeServer c) (c_Hysteria2ObfsPassword c)
    (c_EnableTUIC c) (c_StateDir c) (c_DropEnabled c) (c_DropStorageMax c)
    (c_DropStorageMaxBytes c) (c_DropSwarmPort c) (c_DropWebUIEnabled c)
    (c_ChainRegistration c) (c_PrivateDNSEnabled c) (c_PrivateDNSDomain c) x (c_UpstreamDNS c)
    (c_DNSQueryLogs c) (c_ErebrusProfile c) (c_FirewallProvider c) (c_FirewallDNSAddr c)
    (c_ShieldAdminURL c) (c_ShieldAdminUser c) (c_ShieldAdminPassword c)
    (c_ShieldUpstreamDNS c) (c_SentinelAPIURL c) (c_SentinelImage c) (c_SentinelLicensed c).
Definition set_FirewallProvider (x : string) (c : Config) : Config :=
  mkConfig
    (c_RunType c) (c_BindAddr c) (c_HTTPPort c) (c_NodeName c) (c_Region c) (c_Zone c)
    (c_Version c) (c_Mode c) (c_UnsafePublicAPI c) (c_Mnemonic c) (c_GatewayURL c)
    (c_GatewayPeerMultiaddr c) (c_P2PListenPort c) (c_NodeID c) (c_NodeToken c)
    (c_WalletChain c) (c_NodeRegistrationToken c) (c_APIPublicURL c) (c_GatewayAutoRegister c)
    (c_GatewayPublicKey c) (c_NodeKey c) (c_NodeAPIToken c) (c_WGConfDir c) (c_WGInterface c)
    (c_WGEndpointHost c) (c_WGEndpointPort c) (c_StealthTCPPort c) (c_StealthUDPPort c)
    (c_WGIPv4Subnet c) (c_WGDNS c) (c_WGPostUp c) (c_WGPostDown c) (c_WGPreUp c)
    (c_WGPreDown c) (c_EnableStealth c) (c_VLESSPort c) (c_Hysteria2Port c)
    (c_RealityServerNames c) (c_RealityHandshakeServer c) (c_Hysteria2ObfsPassword c)
    (c_EnableTUIC c) (c_StateDir c) (c_DropEnabled c) (c_DropStorageMax c)
    (c_DropStorageMaxBytes c) (c_DropSwarmPort c) (c_DropWebUIEnabled c)
    (c_ChainRegistration c) (c_PrivateDNSEnabled c) (c_PrivateDNSDomain c) (c_PrivateDNSAddr c)
    (c_UpstreamDNS c) (c_DNSQueryLogs c) (c_ErebrusProfile c) x (c_FirewallDNSAddr c)
    (c_ShieldAdminURL c) (c_ShieldAdminUser c) (c_ShieldAdminPassword c)
    (c_ShieldUpstreamDNS c) (c_SentinelAPIURL c) (c_SentinelImage c) (c_SentinelLicensed c).
Definition set_FirewallDNSAddr (x : string) (c : Config) : Config :=
  mkConfig
    (c_RunType c) (c_BindAddr c) (c_HTTPPort c) (c_NodeName c) (c_Region c) (c_Zone c)
    (c_Version c) (c_Mode c) (c_UnsafePublicAPI c) (c_Mnemonic c) (c_GatewayURL c)
    (c_GatewayPeerMultiaddr c) (c_P2PListenPort c) (c_NodeID c) (c_NodeToken c)
    (c_WalletChain c) (c_NodeRegistrationToken c) (c_APIPublicURL c) (c_GatewayAutoRegister c)
    (c_GatewayPublicKey c) (c_NodeKey c) (c_NodeAPIToken c) (c_WGConfDir c) (c_WGInterface c)
    (c_WGEndpointHost c) (c_WGEndpointPort c) (c_StealthTCPPort c) (c_StealthUDPPort c)
    (c_WGIPv4Subnet c) (c_WGDNS c) (c_WGPostUp c) (c_WGPostDown c) (c_WGPreUp c)
    (c_WGPreDown c) (c_EnableStealth c) (c_VLESSPort c) (c_Hysteria2Port c)
    (c_RealityServerNames c) (c_RealityHandshakeServer c) (c_Hysteria2ObfsPassword c)
    (c_EnableTUIC c) (c_StateDir c) (c_DropEnabled c) (c_DropStorageMax c)
    (c_DropStorageMaxBytes c) (c_DropSwarmPort c) (c_DropWebUIEnabled c)
    (c_ChainRegistration c) (c_PrivateDNSEnabled c) (c_PrivateDNSDomain c) (c_PrivateDNSAddr c)
    (c_UpstreamDNS c) (c_DNSQueryLogs c) (c_ErebrusProfile c) (c_FirewallProvider c) x
    (c_ShieldAdminURL c) (c_ShieldAdminUser c) (c_ShieldAdminPassword c)
    (c_ShieldUpstreamDNS c) (c_SentinelAPIURL c) (c_SentinelImage c) (c_SentinelLicensed c).
Definition set_ShieldAdminURL (x : string) (c : Config) : Config :=
  mkConfig
    (c_RunType c) (c_BindAddr c) (c_HTTPPort c) (c_NodeName c) (c_Region c) (c_Zone c)
    (c_Version c) (c_Mode c) (c_UnsafePublicAPI c) (c_Mnemonic c) (c_GatewayURL c)
    (c_GatewayPeerMultiaddr c) (c_P2PListenPort c) (c_NodeID c) (c_NodeToken c)
    (c_WalletChain c) (c_NodeRegistrationToken c) (c_APIPublicURL c) (c_GatewayAutoRegister c)
    (c_GatewayPublicKey c) (c_NodeKey c) (c_NodeAPIToken c) (c_WGConfDir c) (c_WGInterface c)
    (c_WGEndpointHost c) (c_WGEndpointPort c) (c_StealthTCPPort c) (c_StealthUDPPort c)
    (c_WGIPv4Subnet c) (c_WGDNS c) (c_WGPostUp c) (c_WGPostDown c) (c_WGPreUp c)
    (c_WGPreDown c) (c_EnableStealth c) (c_VLESSPort c) (c_Hysteria2Port c)
    (c_RealityServerNames c) (c_RealityHandshakeServer c) (c_Hysteria2ObfsPassword c)
    (c_EnableTUIC c) (c_StateDir c) (c_DropEnabled c) (c_DropStorageMax c)
    (c_DropStorageMaxBytes c) (c_DropSwarmPort c) (c_DropWebUIEnabled c)
    (c_ChainRegistration c) (c_PrivateDNSEnabled c) (c_PrivateDNSDomain c) (c_PrivateDNSAddr c)
    (c_UpstreamDNS c) (c_DNSQueryLogs c) (c_ErebrusProfile c) (c_FirewallProvider c)
    (c_FirewallDNSAddr c) x (c_ShieldAdminUser c) (c_ShieldAdminPassword c)
    (c_ShieldUpstreamDNS c) (c_SentinelAPIURL c) (c_SentinelImage c) (c_SentinelLicensed c).
Definition set_SentinelAPIURL (x : string) (c : Config) : Config :=
  mkConfig
    (c_RunType c) (c_BindAddr c) (c_HTTPPort c) (c_NodeName c) (c_Region c) (c_Zone c)
    (c_Version c) (c_Mode c) (c_UnsafePublicAPI c) (c_Mnemonic c) (c_GatewayURL c)
    (c_GatewayPeerMultiaddr c) (c_P2PListenPort c) (c_NodeID c) (c_NodeToken c)
    (c_WalletChain c) (c_NodeRegistrationToken c) (c_APIPublicURL c) (c_GatewayAutoRegister c)
    (c_GatewayPublicKey c) (c_NodeKey c) (c_NodeAPIToken c) (c_WGConfDir c) (c_WGInterface c)
    (c_WGEndpointHost c) (c_WGEndpointPort c) (c_StealthTCPPort c) (c_StealthUDPPort c)
    (c_WGIPv4Subnet c) (c_WGDNS c) (c_WGPostUp c) (c_WGPostDown c) (c_WGPreUp c)
    (c_WGPreDown c) (c_EnableStealth c) (c_VLESSPort c) (c_Hysteria2Port c)
    (c_RealityServerNames c) (c_RealityHandshakeServer c) (c_Hysteria2ObfsPassword c)
    (c_EnableTUIC c) (c_StateDir c) (c_DropEnabled c) (c_DropStorageMax c)
    (c_DropStorageMaxBytes c) (c_DropSwarmPort c) (c_DropWebUIEnabled c)
    (c_ChainRegistration c) (c_PrivateDNSEnabled c) (c_PrivateDNSDomain c) (c_PrivateDNSAddr c)
    (c_UpstreamDNS c) (c_DNSQueryLogs c) (c_ErebrusProfile c) (c_FirewallProvider c)
    (c_FirewallDNSAddr c) (c_ShieldAdminURL c) (c_ShieldAdminUser c) (c_ShieldAdminPassword c)
    (c_ShieldUpstreamDNS c) x (c_SentinelImage c) (c_SentinelLicensed c).
Definition set_SentinelImage (x : string) (c : Config) : Config :=
  mkConfig
    (c_RunType c) (c_BindAddr c) (c_HTTPPort c) (c_NodeName c) (c_Region c) (c_Zone c)
    (c_Version c) (c_Mode c) (c_UnsafePublicAPI c) (c_Mnemonic c) (c_GatewayURL c)
    (c_GatewayPeerMultiaddr c) (c_P2PListenPort c) (c_NodeID c) (c_NodeToken c)
    (c_WalletChain c) (c_NodeRegistrationToken c) (c_APIPublicURL c) (c_GatewayAutoRegister c)
    (c_GatewayPublicKey c) (c_NodeKey c) (c_NodeAPIToken c) (c_WGConfDir c) (c_WGInterface c)
    (c_WGEndpointHost c) (c_WGEndpointPort c) (c_StealthTCPPort c) (c_StealthUDPPort c)
    (c_WGIPv4Subnet c) (c_WGDNS c) (c_WGPostUp c) (c_WGPostDown c) (c_WGPreUp c)
    (c_WGPreDown c) (c_EnableStealth c) (c_VLESSPort c) (c_Hysteria2Port c)
    (c_RealityServerNames c) (c_RealityHandshakeServer c) (c_Hysteria2ObfsPassword c)
    (c_EnableTUIC c) (c_StateDir c) (c_DropEnabled c) (c_DropStorageMax c)
    (c_DropStorageMaxBytes c) (c_DropSwarmPort c) (c_DropWebUIEnabled c)
    (c_ChainRegistration c) (c_PrivateDNSEnabled c) (c_PrivateDNSDomain c) (c_PrivateDNSAddr c)
    (c_UpstreamDNS c) (c_DNSQueryLogs c) (c_ErebrusProfile c) (c_FirewallProvider c)
    (c_FirewallDNSAddr c) (c_ShieldAdminURL c) (c_ShieldAdminUser c) (c_ShieldAdminPassword c)
    (c_ShieldUpstreamDNS c) (c_SentinelAPIURL c) x (c_SentinelLicensed c).
Definition set_ErebrusProfile (x : string) (c : Config) : Config :=
  mkConfig
    (c_RunType c) (c_BindAddr c) (c_HTTPPort c) (c_NodeName c) (c_Region c) (c_Zone c)
    (c_Version c) (c_Mode c) (c_UnsafePublicAPI c) (c_Mnemonic c) (c_GatewayURL c)
    (c_GatewayPeerMultiaddr c) (c_P2PListenPort c) (c_NodeID c) (c_NodeToken c)
    (c_WalletChain c) (c_NodeRegistrationToken c) (c_APIPublicURL c) (c_GatewayAutoRegister c)
    (c_GatewayPublicKey c) (c_NodeKey c) (c_NodeAPIToken c) (c_WGConfDir c) (c_WGInterface c)
    (c_WGEndpointHost c) (c_WGEndpointPort c) (c_StealthTCPPort c) (c_StealthUDPPort c)
    (c_WGIPv4Subnet c) (c_WGDNS c) (c_WGPostUp c) (c_WGPostDown c) (c_WGPreUp c)
    (c_WGPreDown c) (c_EnableStealth c) (c_VLESSPort c) (c_Hysteria2Port c)
    (c_RealityServerNames c) (c_RealityHandshakeServer c) (c_Hysteria2ObfsPassword c)
    (c_EnableTUIC c) (c_StateDir c) (c_DropEnabled c) (c_DropStorageMax c)
    (c_DropStorageMaxBytes c) (c_DropSwarmPort c) (c_DropWebUIEnabled c)
    (c_ChainRegistration c) (c_PrivateDNSEnabled c) (c_PrivateDNSDomain c) (c_PrivateDNSAddr c)
    (c_UpstreamDNS c) (c_DNSQueryLogs c) x (c_FirewallProvider c) (c_FirewallDNSAddr c)
    (c_ShieldAdminURL c) (c_ShieldAdminUser c) (c_ShieldAdminPassword c)
    (c_ShieldUpstreamDNS c) (c_SentinelAPIURL c) (c_SentinelImage c) (c_SentinelLicensed c).
Definition set_ShieldAdminUser (x : string) (c : Config) : Config :=
  mkConfig
    (c_RunType c) (c_BindAddr c) (c_HTTPPort c) (c_NodeName c) (c_Region c) (c_Zone c)
    (c_Version c) (c_Mode c) (c_UnsafePublicAPI c) (c_Mnemonic c) (c_GatewayURL c)
    (c_GatewayPeerMultiaddr c) (c_P2PListenPort c) (c_NodeID c) (c_NodeToken c)
    (c_WalletChain c) (c_NodeRegistrationToken c) (c_APIPublicURL c) (c_GatewayAutoRegister c)
    (c_GatewayPublicKey c) (c_NodeKey c) (c_NodeAPIToken c) (c_WGConfDir c) (c_WGInterface c)
    (c_WGEndpointHost c) (c_WGEndpointPort c) (c_StealthTCPPort c) (c_StealthUDPPort c)
    (c_WGIPv4Subnet c) (c_WGDNS c) (c_WGPostUp c) (c_WGPostDown c) (c_WGPreUp c)
    (c_WGPreDown c) (c_EnableStealth c) (c_VLESSPort c) (c_Hysteria2Port c)
    (c_RealityServerNames c) (c_RealityHandshakeServer c) (c_Hysteria2ObfsPassword c)
    (c_EnableTUIC c) (c_StateDir c) (c_DropEnabled c) (c_DropStorageMax c)
    (c_DropStorageMaxBytes c) (c_DropSwarmPort c) (c_DropWebUIEnabled c)
    (c_ChainRegistration c) (c_PrivateDNSEnabled c) (c_PrivateDNSDomain c) (c_PrivateDNSAddr c)
    (c_UpstreamDNS c) (c_DNSQueryLogs c) (c_ErebrusProfile c) (c_FirewallProvider c)
    (c_FirewallDNSAddr c) (c_ShieldAdminURL c) x (c_ShieldAdminPassword c)
    (c_ShieldUpstreamDNS c) (c_SentinelAPIURL c) (c_SentinelImage c) (c_SentinelLicensed c).
Definition set_ShieldAdminPassword (x : string) (c : Config) : Config :=
  mkConfig
    (c_RunType c) (c_BindAddr c) (c_HTTPPort c) (c_NodeName c) (c_Region c) (c_Zone c)
    (c_Version c) (c_Mode c) (c_UnsafePublicAPI c) (c_Mnemonic c) (c_GatewayURL c)
    (c_GatewayPeerMultiaddr c) (c_P2PListenPort c) (c_NodeID c) (c_NodeToken c)
    (c_WalletChain c) (c_NodeRegistrationToken c) (c_APIPublicURL c) (c_GatewayAutoRegister c)
    (c_GatewayPublicKey c) (c_NodeKey c) (c_NodeAPIToken c) (c_WGConfDir c) (c_WGInterface c)
    (c_WGEndpointHost c) (c_WGEndpointPort c) (c_StealthTCPPort c) (c_StealthUDPPort c)
    (c_WGIPv4Subnet c) (c_WGDNS c) (c_WGPostUp c) (c_WGPostDown c) (c_WGPreUp c)
    (c_WGPreDown c) (c_EnableStealth c) (c_VLESSPort c) (c_Hysteria2Port c)
    (c_RealityServerNames c) (c_RealityHandshakeServer c) (c_Hysteria2ObfsPassword c)
    (c_EnableTUIC c) (c_StateDir c) (c_DropEnabled c) (c_DropStorageMax c)
    (c_DropStorageMaxBytes c) (c_DropSwarmPort c) (c_DropWebUIEnabled c)
    (c_ChainRegistration c) (c_PrivateDNSEnabled c) (c_PrivateDNSDomain c) (c_PrivateDNSAddr c)
    (c_UpstreamDNS c) (c_DNSQueryLogs c) (c_ErebrusProfile c) (c_FirewallProvider c)
    (c_FirewallDNSAddr c) (c_ShieldAdminURL c) (c_ShieldAdminUser c) x (c_ShieldUpstreamDNS c)
    (c_SentinelAPIURL c) (c_SentinelImage c) (c_SentinelLicensed c).
Definition set_SentinelLicensed (x : bool) (c : Config) : Config :=
  mkConfig
    (c_RunType c) (c_BindAddr c) (c_HTTPPort c) (c_NodeName c) (c_Region c) (c_Zone c)
    (c_Version c) (c_Mode c) (c_UnsafePublicAPI c) (c_Mnemonic c) (c_GatewayURL c)
    (c_GatewayPeerMultiaddr c) (c_P2PListenPort c) (c_NodeID c) (c_NodeToken c)
    (c_WalletChain c) (c_NodeRegistrationToken c) (c_APIPublicURL c) (c_GatewayAutoRegister c)
    (c_GatewayPublicKey c) (c_NodeKey c) (c_NodeAPIToken c) (c_WGConfDir c) (c_WGInterface c)
    (c_WGEndpointHost c) (c_WGEndpointPort c) (c_StealthTCPPort c) (c_StealthUDPPort c)
    (c_WGIPv4Subnet c) (c_WGDNS c) (c_WGPostUp c) (c_WGPostDown c) (c_WGPreUp c)
    (c_WGPreDown c) (c_EnableStealth c) (c_VLESSPort c) (c_Hysteria2Port c)
    (c_RealityServerNames c) (c_RealityHandshakeServer c) (c_Hysteria2ObfsPassword c)
    (c_EnableTUIC c) (c_StateDir c) (c_DropEnabled c) (c_DropStorageMax c)
    (c_DropStorageMaxBytes c) (c_DropSwarmPort c) (c_DropWebUIEnabled c)
    (c_ChainRegistration c) (c_PrivateDNSEnabled c) (c_PrivateDNSDomain c) (c_PrivateDNSAddr c)
    (c_UpstreamDNS c) (c_DNSQueryLogs c) (c_ErebrusProfile c) (c_FirewallProvider c)
    (c_FirewallDNSAddr c) (c_ShieldAdminURL c) (c_ShieldAdminUser c) (c_ShieldAdminPassword c)
    (c_ShieldUpstreamDNS c) (c_SentinelAPIURL c) (c_SentinelImage c) x.
Definition set_NodeID (x : string) (c : Config) : Config :=
  mkConfig
    (c_RunType c) (c_BindAddr c) (c_HTTPPort c) (c_NodeName c) (c_Region c) (c_Zone c)
    (c_Version c) (c_Mode c) (c_UnsafePublicAPI c) (c_Mnemonic c) (c_GatewayURL c)
    (c_GatewayPeerMultiaddr c) (c_P2PListenPort c) x (c_NodeToken c) (c_WalletChain c)
    (c_NodeRegistrationToken c) (c_APIPublicURL c) (c_GatewayAutoRegister c)
    (c_GatewayPublicKey c) (c_NodeKey c) (c_NodeAPIToken c) (c_WGConfDir c) (c_WGInterface c)
    (c_WGEndpointHost c) (c_WGEndpointPort c) (c_StealthTCPPort c) (c_StealthUDPPort c)
    (c_WGIPv4Subnet c) (c_WGDNS c) (c_WGPostUp c) (c_WGPostDown c) (c_WGPreUp c)
    (c_WGPreDown c) (c_EnableStealth c) (c_VLESSPort c) (c_Hysteria2Port c)
    (c_RealityServerNames c) (c_RealityHandshakeServer c) (c_Hysteria2ObfsPassword c)
    (c_EnableTUIC c) (c_StateDir c) (c_DropEnabled c) (c_DropStorageMax c)
    (c_DropStorageMaxBytes c) (c_DropSwarmPort c) (c_DropWebUIEnabled c)
    (c_ChainRegistration c) (c_PrivateDNSEnabled c) (c_PrivateDNSDomain c) (c_PrivateDNSAddr c)
    (c_UpstreamDNS c) (c_DNSQueryLogs c) (c_ErebrusProfile c) (c_FirewallProvider c)
    (c_FirewallDNSAddr c) (c_ShieldAdminURL c) (c_ShieldAdminUser c) (c_ShieldAdminPassword c)
    (c_ShieldUpstreamDNS c) (c_SentinelAPIURL c) (c_SentinelImage c) (c_SentinelLicensed c).
Definition set_NodeToken (x : string) (c : Config) : Config :=
  mkConfig
    (c_RunType c) (c_BindAddr c) (c_HTTPPort c) (c_NodeName c) (c_Region c) (c_Zone c)
    (c_Version c) (c_Mode c) (c_UnsafePublicAPI c) (c_Mnemonic c) (c_GatewayURL c)
    (c_GatewayPeerMultiaddr c) (c_P2PListenPort c) (c_NodeID c) x (c_WalletChain c)
    (c_NodeRegistrationToken c) (c_APIPublicURL c) (c_GatewayAutoRegister c)
    (c_GatewayPublicKey c) (c_NodeKey c) (c_NodeAPIToken c) (c_WGConfDir c) (c_WGInterface c)
    (c_WGEndpointHost c) (c_WGEndpointPort c) (c_StealthTCPPort c) (c_StealthUDPPort c)
    (c_WGIPv4Subnet c) (c_WGDNS c) (c_WGPostUp c) (c_WGPostDown c) (c_WGPreUp c)
    (c_WGPreDown c) (c_EnableStealth c) (c_VLESSPort c) (c_Hysteria2Port c)
    (c_RealityServerNames c) (c_RealityHandshakeServer c) (c_Hysteria2ObfsPassword c)
    (c_EnableTUIC c) (c_StateDir c) (c_DropEnabled c) (c_DropStorageMax c)
    (c_DropStorageMaxBytes c) (c_DropSwarmPort c) (c_DropWebUIEnabled c)
    (c_ChainRegistration c) (c_PrivateDNSEnabled c) (c_PrivateDNSDomain c) (c_PrivateDNSAddr c)
    (c_UpstreamDNS c) (c_DNSQueryLogs c) (c_ErebrusProfile c) (c_FirewallProvider c)
    (c_FirewallDNSAddr c) (c_ShieldAdminURL c) (c_ShieldAdminUser c) (c_ShieldAdminPassword c)
    (c_ShieldUpstreamDNS c) (c_SentinelAPIURL c) (c_SentinelImage c) (c_SentinelLicensed c).
Definition set_NodeKey (x : string) (c : Config) : Config :=
  mkConfig
    (c_RunType c) (c_BindAddr c) (c_HTTPPort c) (c_NodeName c) (c_Region c) (c_Zone c)
    (c_Version c) (c_Mode c) (c_UnsafePublicAPI c) (c_Mnemonic c) (c_GatewayURL c)
    (c_GatewayPeerMultiaddr c) (c_P2PListenPort c) (c_NodeID c) (c_NodeToken c)
    (c_WalletChain c) (c_NodeRegistrationToken c) (c_APIPublicURL c) (c_GatewayAutoRegister c)
    (c_GatewayPublicKey c) x (c_NodeAPIToken c) (c_WGConfDir c) (c_WGInterface c)
    (c_WGEndpointHost c) (c_WGEndpointPort c) (c_StealthTCPPort c) (c_StealthUDPPort c)
    (c_WGIPv4Subnet c) (c_WGDNS c) (c_WGPostUp c) (c_WGPostDown c) (c_WGPreUp c)
    (c_WGPreDown c) (c_EnableStealth c) (c_VLESSPort c) (c_Hysteria2Port c)
    (c_RealityServerNames c) (c_RealityHandshakeServer c) (c_Hysteria2ObfsPassword c)
    (c_EnableTUIC c) (c_StateDir c) (c_DropEnabled c) (c_DropStorageMax c)
    (c_DropStorageMaxBytes c) (c_DropSwarmPort c) (c_DropWebUIEnabled c)
    (c_ChainRegistration c) (c_PrivateDNSEnabled c) (c_PrivateDNSDomain c) (c_PrivateDNSAddr c)
    (c_UpstreamDNS c) (c_DNSQueryLogs c) (c_ErebrusProfile c) (c_FirewallProvider c)
    (c_FirewallDNSAddr c) (c_ShieldAdminURL c) (c_ShieldAdminUser c) (c_ShieldAdminPassword c)
    (c_ShieldUpstreamDNS c) (c_SentinelAPIURL c) (c_SentinelImage c) (c_SentinelLicensed c).
Definition set_NodeAPIToken (x : string) (c : Config) : Config :=
  mkConfig
    (c_RunType c) (c_BindAddr c) (c_HTTPPort c) (c_NodeName c) (c_Region c) (c_Zone c)
    (c_Version c) (c_Mode c) (c_UnsafePublicAPI c) (c_Mnemonic c) (c_GatewayURL c)
    (c_GatewayPeerMultiaddr c) (c_P2PListenPort c) (c_NodeID c) (c_NodeToken c)
    (c_WalletChain c) (c_NodeRegistrationToken c) (c_APIPublicURL c) (c_GatewayAutoRegister c)
    (c_GatewayPublicKey c) (c_NodeKey c) x (c_WGConfDir c) (c_WGInterface c)
    (c_WGEndpointHost c) (c_WGEndpointPort c) (c_StealthTCPPort c) (c_StealthUDPPort c)
    (c_WGIPv4Subnet c) (c_WGDNS c) (c_WGPostUp c) (c_WGPostDown c) (c_WGPreUp c)
    (c_WGPreDown c) (c_EnableStealth c) (c_VLESSPort c) (c_Hysteria2Port c)
    (c_RealityServerNames c) (c_RealityHandshakeServer c) (c_Hysteria2ObfsPassword c)
    (c_EnableTUIC c) (c_StateDir c) (c_DropEnabled c) (c_DropStorageMax c)
    (c_DropStorageMaxBytes c) (c_DropSwarmPort c) (c_DropWebUIEnabled c)
    (c_ChainRegistration c) (c_PrivateDNSEnabled c) (c_PrivateDNSDomain c) (c_PrivateDNSAddr c)
    (c_UpstreamDNS c) (c_DNSQueryLogs c) (c_ErebrusProfile c) (c_FirewallProvider c)
    (c_FirewallDNSAddr c) (c_ShieldAdminURL c) (c_ShieldAdminUser c) (c_ShieldAdminPassword c)
    (c_ShieldUpstreamDNS c) (c_SentinelAPIURL c) (c_SentinelImage c) (c_SentinelLicensed c).
Definition set_GatewayPublicKey (x : string) (c : Config) : Config :=
  mkConfig
    (c_RunType c) (c_BindAddr c) (c_HTTPPort c) (c_NodeName c) (c_Region c) (c_Zone c)
    (c_Version c) (c_Mode c) (c_UnsafePublicAPI c) (c_Mnemonic c) (c_GatewayURL c)
    (c_GatewayPeerMultiaddr c) (c_P2PListenPort c) (c_NodeID c) (c_NodeToken c)
    (c_WalletChain c) (c_NodeRegistrationToken c) (c_APIPublicURL c) (c_GatewayAutoRegister c)
    x (c_NodeKey c) (c_NodeAPIToken c) (c_WGConfDir c) (c_WGInterface c) (c_WGEndpointHost c)
    (c_WGEndpointPort c) (c_StealthTCPPort c) (c_StealthUDPPort c) (c_WGIPv4Subnet c)
    (c_WGDNS c) (c_WGPostUp c) (c_WGPostDown c) (c_WGPreUp c) (c_WGPreDown c)
    (c_EnableStealth c) (c_VLESSPort c) (c_Hysteria2Port c) (c_RealityServerNames c)
    (c_RealityHandshakeServer c) (c_Hysteria2ObfsPassword c) (c_EnableTUIC c) (c_StateDir c)
    (c_DropEnabled c) (c_DropStorageMax c) (c_DropStorageMaxBytes c) (c_DropSwarmPort c)
    (c_DropWebUIEnabled c) (c_ChainRegistration c) (c_PrivateDNSEnabled c)
    (c_PrivateDNSDomain c) (c_PrivateDNSAddr c) (c_UpstreamDNS c) (c_DNSQueryLogs c)
    (c_ErebrusProfile c) (c_FirewallProvider c) (c_FirewallDNSAddr c) (c_ShieldAdminURL c)
    (c_ShieldAdminUser c) (c_ShieldAdminPassword c) (c_ShieldUpstreamDNS c)
    (c_SentinelAPIURL c) (c_SentinelImage c) (c_SentinelLicensed c).
