(* ===== verification/Config.v ===== *)
(** * Loading and validating the configuration (internal/config)

    [Load] as a function of the environment, the mode and profile parsers,
    [Validate] with its assignment to the mode, and the accessors the other
    packages use.  The process environment is a map; [os.Hostname] is a field
    beside it.

    The theorems: byte sizes are parsed exactly and without overflow; what a
    validated configuration guarantees, condition by condition; the profile
    defaults are stable and valid; and a warning that [Load] adds does not
    survive [Validate]. *)
From S2P Require Import Prelude GoStrings GoNet ConfigData.

Record OSEnv := mkEnv { e_vars : gmap string string; e_hostname : option string }.

Definition Version : string := "2.0.0".

Definition ProfileStandard : string := "standard".
Definition ProfileShield : string := "shield".
Definition ProfileSentinel : string := "sentinel".
Definition FirewallNone : string := "none".
Definition FirewallAdGuardHome : string := "adguard_home".
Definition FirewallUnboundErebrus : string := "unbound_erebrus".

(** ** Readers of the environment *)
Section environment.
Context (E : OSEnv).

Definition Getenv (key : string) : string := default EmptyString (e_vars E !! key).

(** A value, or a default when it is empty. *)
Definition or_else (v def : string) : string := if String.eqb v EmptyString then def else v.

Definition env (key def : string) : string := or_else (Getenv key) def.

(** The last argument is the default. *)
Definition firstEnv (keys : list string) : string :=
  match keys with
  | [] => EmptyString
  | _ => default (default EmptyString (last keys))
           (find_first (λ v, negb (String.eqb v EmptyString)) (Getenv <$> removelast keys))
  end.

Definition boolEnv (key : string) (def : bool) : bool :=
  let v := Getenv key in
  if String.eqb v EmptyString then def else default def (ParseBool v).

Definition hostnameOr (def : string) : string := or_else (default EmptyString (e_hostname E)) def.

Definition splitCSV (s : string) : list string :=
  if String.eqb s EmptyString then []
  else filter (λ t, t ≠ EmptyString) (TrimSpace <$> Split s ","%char).

Definition normalizeInterface (s : string) : string := TrimSuffix s ".conf".

(** ** Byte sizes *)

Definition units : list (string * Z) :=
  [("TB", 1000000000000); ("GB", 1000000000); ("MB", 1000000); ("KB", 1000); ("B", 1)].

Definition invalid_byte_size (value : string) : error :=
  EMsg ("invalid byte size " +:+ quote_q value).

Definition parseByteSize (value : string) : result Z :=
  let s := ToUpper (TrimSpace value) in
  if String.eqb s EmptyString then Err (EMsg "empty byte size") else
  match find_first (λ u, HasSuffix s u.1) units with
  | Some (suffix, scale) =>
      match ParseInt (TrimSpace (TrimSuffix s suffix)) with
      | Some n =>
          if (n <=? 0) || (max_int64 / scale <? n) then Err (invalid_byte_size value)
          else Ok (wrap_int64 (n * scale))
      | None => Err (invalid_byte_size value)
      end
  | None =>
      match ParseInt s with
      | Some n => if n <=? 0 then Err (invalid_byte_size value) else Ok n
      | None => Err (invalid_byte_size value)
      end
  end.

(** ** Modes *)

Definition isAccessToken (s : string) : bool :=
  bool_decide (s ∈ [ModePrivate; ModePublic; legacyModeGateway]).

Definition normalizeAccessToken (s : string) : string :=
  if String.eqb s legacyModeGateway then ModePublic else s.

Definition parseAccess (raw : string) : result (string * list string) :=
  if String.eqb raw EmptyString then Ok (ModePublic, [])
  else if String.eqb raw ModePrivate then Ok (ModePrivate, [])
  else if String.eqb raw ModePublic then Ok (ModePublic, [])
  else if String.eqb raw legacyModeGateway then
    Ok (ModePublic, ["WARNING: access " +:+ quote_q legacyModeGateway +:+
         " is deprecated. Use EREBRUS_ACCESS=" +:+ ModePublic +:+ "."])
  else Err (EMsg ("EREBRUS_ACCESS must be private or public (got " +:+ quote_q raw +:+ ")")).

Definition parseNetworkProfile (raw : string) : result (string * list string) :=
  if String.eqb raw EmptyString then Ok (NetworkBridge, [])
  else if bool_decide (raw ∈ [NetworkBridge; NetworkHostNetwork; NetworkNative])
  then Ok (raw, [])
  else Err (EMsg ("EREBRUS_NETWORK_PROFILE must be bridge, host-network, or native (got "
             +:+ quote_q raw +:+ ")")).

Definition native_warning : string :=
  "WARNING: EREBRUS_NETWORK_PROFILE=native is experimental; container deployment is recommended.".

Definition legacy_access_warning (profileRaw : string) : string :=
  "WARNING: EREBRUS_MODE=" +:+ quote_q profileRaw +:+
  " is deprecated for access. Use EREBRUS_ACCESS=" +:+ normalizeAccessToken profileRaw +:+ ".".

Definition ParseModeSettings (accessRaw profileRaw : string) : result ModeSettings :=
  let accessRaw := ToLower (TrimSpace accessRaw) in
  let profileRaw := ToLower (TrimSpace profileRaw) in
  let '(warnings, accessRaw, profileRaw) :=
    if String.eqb accessRaw EmptyString && isAccessToken profileRaw
    then ([legacy_access_warning profileRaw], profileRaw, EmptyString)
    else ([], accessRaw, profileRaw) in
  '(access, accessWarnings) ← parseAccess accessRaw;
  '(profile, profileWarnings) ← parseNetworkProfile profileRaw;
  Ok (mkMode access profile
    (warnings ++ accessWarnings ++ profileWarnings ++
     if String.eqb profile NetworkNative then [native_warning] else [])).

Definition ParseModeSettingsFromEnv : result ModeSettings :=
  ParseModeSettings (Getenv "EREBRUS_ACCESS") (Getenv "EREBRUS_NETWORK_PROFILE").

Definition IsPrivate (m : ModeSettings) : bool := String.eqb (m_RuntimeMode m) ModePrivate.
Definition IsPublic (m : ModeSettings) : bool := String.eqb (m_RuntimeMode m) ModePublic.
Definition GatewayAccessMode (m : ModeSettings) : string :=
  if String.eqb (m_RuntimeMode m) ModePublic then "public" else "private".

(** ** Profiles *)

Definition HasFirewallService (c : Config) : bool :=
  let p := TrimSpace (c_FirewallProvider c) in
  negb (String.eqb p EmptyString) && negb (String.eqb p FirewallNone).

Definition tunnelGatewayIP (subnet override : string) : string :=
  let o := TrimSpace override in
  if negb (String.eqb o EmptyString) then default EmptyString (head (Split o ":"%char))
  else match ParseCIDR subnet with
       | None => "10.0.0.1"
       | Some (ip, _) => ip_String ip
       end.

(** A field that is empty gets a default. *)
Definition default_to (get : Config → string) (set : string → Config → Config) (v : string)
    (c : Config) : Config :=
  if String.eqb (get c) EmptyString then set v c else c.

Definition default_WGDNS (tunnelDNS : string) (c : Config) : Config :=
  if String.eqb (c_WGDNS c) EmptyString || String.eqb (c_WGDNS c) "1.1.1.1"
  then set_WGDNS tunnelDNS c else c.

Definition ApplyProfileDefaults (c : Config) : Config :=
  let profile := or_else (ToLower (TrimSpace (c_ErebrusProfile c))) ProfileStandard in
  let c := set_ErebrusProfile profile c in
  let tunnelDNS := tunnelGatewayIP (c_WGIPv4Subnet c) (c_PrivateDNSAddr c) in
  if String.eqb profile ProfileShield then
    let c := default_to c_FirewallProvider set_FirewallProvider FirewallAdGuardHome c in
    let c := default_to c_FirewallDNSAddr set_FirewallDNSAddr "adguardhome:53" c in
    let c := default_to c_ShieldAdminURL set_ShieldAdminURL "http://adguardhome:3000" c in
    let c := default_WGDNS tunnelDNS c in
    default_to c_PrivateDNSAddr set_PrivateDNSAddr tunnelDNS c
  else if String.eqb profile ProfileSentinel then
    let c := default_to c_FirewallProvider set_FirewallProvider FirewallUnboundErebrus c in
    let c := default_to c_FirewallDNSAddr set_FirewallDNSAddr "erebrus-sentinel:53" c in
    let c := default_to c_SentinelAPIURL set_SentinelAPIURL "http://erebrus-sentinel:8788" c in
    let c := default_to c_SentinelImage set_SentinelImage
               "ghcr.io/netsepio/erebrus-sentinel:latest" c in
    let c := default_WGDNS tunnelDNS c in
    default_to c_PrivateDNSAddr set_PrivateDNSAddr tunnelDNS c
  else if String.eqb profile ProfileStandard then
    default_to c_FirewallProvider set_FirewallProvider FirewallNone c
  else c.

Definition ValidateProfile (c : Config) : result unit :=
  if negb (bool_decide (c_ErebrusProfile c ∈ [ProfileStandard; ProfileShield; ProfileSentinel]))
  then Err (EMsg ("invalid EREBRUS_PROFILE " +:+ quote_q (c_ErebrusProfile c) +:+
              " (expected standard, shield, or sentinel)"))
  else if negb (bool_decide (c_FirewallProvider c ∈
                  [FirewallNone; FirewallAdGuardHome; FirewallUnboundErebrus]))
  then Err (EMsg ("invalid FIREWALL_PROVIDER " +:+ quote_q (c_FirewallProvider c)))
  else if HasFirewallService c && String.eqb (TrimSpace (c_FirewallDNSAddr c)) EmptyString
  then Err (EMsg ("FIREWALL_DNS_ADDR is required when FIREWALL_PROVIDER=" +:+ c_FirewallProvider c))
  else Ok tt.

(** ** Load *)

Definition isLoopbackAddr (addr : string) : bool :=
  bool_decide (addr ∈ ["127.0.0.1"; "::1"; "localhost"]) || HasPrefix addr "127.".

Definition bind_warning (c : Config) : string :=
  "WARNING: management API bound to " +:+ c_BindAddr c +:+ ":" +:+ c_HTTPPort c +:+
  " — the token-gated peer API is reachable off-host. " +:+
  "Firewall this port to the gateway/trusted sources, or set API_BIND_ADDR=127.0.0.1.".

Definition add_warning (w : string) (c : Config) : Config :=
  let m := c_Mode c in
  set_Mode (mkMode (m_RuntimeMode m) (m_NetworkProfile m) (m_Warnings m ++ [w])) c.

(** The struct literal of Load. *)
Definition load_literal : Config :=
  let bindAddr := or_else (env "API_BIND_ADDR" EmptyString) (env "SERVER" "0.0.0.0") in
  {|
    c_RunType := env "RUNTYPE" "release";
    c_BindAddr := bindAddr;
    c_HTTPPort := env "HTTP_PORT" "9080";
    c_NodeName := env "NODE_NAME" (hostnameOr "erebrus-node");
    c_Region := env "REGION" "unknown";
    c_Zone := env "ZONE" EmptyString;
    c_Version := Version;
    c_Mode := zeroMode;
    c_UnsafePublicAPI := boolEnv "UNSAFE_PUBLIC_API" false;
    c_Mnemonic := Getenv "MNEMONIC";
    c_GatewayURL := env "GATEWAY_URL" EmptyString;
    c_GatewayPeerMultiaddr := env "GATEWAY_PEER_MULTIADDR" EmptyString;
    c_P2PListenPort := env "P2P_LISTEN_PORT" "9002";
    c_NodeID := Getenv "NODE_ID";
    c_NodeToken := Getenv "NODE_TOKEN";
    c_WalletChain := env "WALLET_CHAIN" "SOLANA";
    c_NodeRegistrationToken := firstEnv ["EREBRUS_NODE_REGISTRATION_TOKEN";
      "EREBRUS_ORG_ENROLLMENT_SECRET"; "ORG_ENROLLMENT_SECRET"; EmptyString];
    c_APIPublicURL := Getenv "API_PUBLIC_URL";
    c_GatewayAutoRegister := boolEnv "GATEWAY_AUTO_REGISTER" true;
    c_GatewayPublicKey := Getenv "GATEWAY_PUBLIC_KEY";
    c_NodeKey := firstEnv ["NODE_KEY"; "NODE_API_TOKEN"; EmptyString];
    c_NodeAPIToken := firstEnv ["NODE_KEY"; "NODE_API_TOKEN"; EmptyString];
    c_WGConfDir := env "WG_CONF_DIR" "/etc/wireguard";
    c_WGInterface := normalizeInterface (env "WG_INTERFACE_NAME" "wg0");
    c_WGEndpointHost := Getenv "WG_ENDPOINT_HOST";
    c_WGEndpointPort := firstEnv ["WG_PORT"; "WG_ENDPOINT_PORT"; "51820"];
    c_StealthTCPPort := firstEnv ["STEALTH_TCP_PORT"; "VLESS_PORT"; "443"];
    c_StealthUDPPort := firstEnv ["STEALTH_UDP_PORT"; "HYSTERIA2_PORT"; "443"];
    c_WGIPv4Subnet := env "WG_IPv4_SUBNET" "10.0.0.1/16";
    c_WGDNS := env "WG_DNS" "1.1.1.1";
    c_WGPostUp := Getenv "WG_POST_UP";
    c_WGPostDown := Getenv "WG_POST_DOWN";
    c_WGPreUp := Getenv "WG_PRE_UP";
    c_WGPreDown := Getenv "WG_PRE_DOWN";
    c_EnableStealth := boolEnv "ENABLE_STEALTH" true;
    c_VLESSPort := EmptyString;
    c_Hysteria2Port := EmptyString;
    c_RealityServerNames := splitCSV (env "REALITY_SERVER_NAMES" "www.microsoft.com");
    c_RealityHandshakeServer := env "REALITY_HANDSHAKE_SERVER" EmptyString;
    c_Hysteria2ObfsPassword := Getenv "HYSTERIA2_OBFS_PASSWORD";
    c_EnableTUIC := boolEnv "ENABLE_TUIC" false;
    c_StateDir := env "STATE_DIR" "/var/lib/erebrus";
    c_DropEnabled := boolEnv "DROP_ENABLED" false;
    c_DropStorageMax := env "DROP_STORAGE_MAX" "10GB";
    c_DropStorageMaxBytes := 0;
    c_DropSwarmPort := env "DROP_SWARM_PORT" "4001";
    c_DropWebUIEnabled := boolEnv "DROP_WEBUI_ENABLED" false;
    c_ChainRegistration := env "CHAIN_REGISTRATION" "off";
    c_PrivateDNSEnabled := boolEnv "PRIVATE_DNS_ENABLED" false;
    c_PrivateDNSDomain := env "PRIVATE_DNS_DOMAIN" "ere";
    c_PrivateDNSAddr := Getenv "PRIVATE_DNS_ADDR";
    c_UpstreamDNS := env "UPSTREAM_DNS" "1.1.1.1";
    c_DNSQueryLogs := boolEnv "DNS_QUERY_LOGS" false;
    c_ErebrusProfile := env "EREBRUS_PROFILE" ProfileStandard;
    c_FirewallProvider := env "FIREWALL_PROVIDER" EmptyString;
    c_FirewallDNSAddr := Getenv "FIREWALL_DNS_ADDR";
    c_ShieldAdminURL := Getenv "SHIELD_ADMIN_URL";
    c_ShieldAdminUser := env "SHIELD_ADMIN_USER" "admin";
    c_ShieldAdminPassword := Getenv "SHIELD_ADMIN_PASSWORD";
    c_ShieldUpstreamDNS := env "SHIELD_UPSTREAM_DNS" "1.1.1.1,1.0.0.1";
    c_SentinelAPIURL := Getenv "SENTINEL_API_URL";
    c_SentinelImage := env "SENTINEL_IMAGE" "ghcr.io/netsepio/erebrus-sentinel:latest";
    c_SentinelLicensed := false
  |}.

Definition Load : Config :=
  let c := ApplyProfileDefaults load_literal in
  let c := match ParseModeSettingsFromEnv with Ok mode => set_Mode mode c | Err _ => c end in
  let c := set_VLESSPort (c_StealthTCPPort c) c in
  let c := set_Hysteria2Port (c_StealthUDPPort c) c in
  let c := set_DropStorageMaxBytes
             (match parseByteSize (c_DropStorageMax c) with Ok n => n | Err _ => 0 end) c in
  if negb (isLoopbackAddr (c_BindAddr c)) then add_warning (bind_warning c) c else c.

(** ** Validate *)

Definition stealth_warning : string :=
  "WARNING: Stealth should expose 443/tcp and 443/udp (STEALTH_TCP_PORT/STEALTH_UDP_PORT) for reachability through restrictive networks.".

Definition missing (c : Config) : list string :=
  (if String.eqb (c_Mnemonic c) EmptyString then ["MNEMONIC"] else []) ++
  (if String.eqb (c_WGEndpointHost c) EmptyString then ["WG_ENDPOINT_HOST"] else []).

Definition valid_port (s : string) : bool :=
  match ParseInt s with Some port => (1 <=? port) && (port <=? 65535) | None => false end.

Definition check (b : bool) (e : error) : M Config unit := if b then mret tt else fail e.

Definition Validate : M Config unit :=
  mode ← lift ParseModeSettingsFromEnv;
  c ← get;
  _ ← put (set_Mode mode c);
  c ← get;
  _ ← check (bool_decide (missing c = []))
        (EMsg ("missing required config: " +:+ Join (missing c) ", "));
  _ ← put (if negb (String.eqb (c_StealthTCPPort c) "443") ||
              negb (String.eqb (c_StealthUDPPort c) "443")
           then add_warning stealth_warning c else c);
  c ← get;
  _ ← check (negb (c_DropEnabled c) || (0 <? c_DropStorageMaxBytes c))
        (EMsg "DROP_STORAGE_MAX must be a positive byte size");
  _ ← check (negb (c_DropEnabled c) || valid_port (c_DropSwarmPort c))
        (EMsg "DROP_SWARM_PORT must be a valid port");
  _ ← check (negb (c_DropEnabled c) || negb (c_DropWebUIEnabled c && IsPublic (c_Mode c)))
        (EMsg "DROP_WEBUI_ENABLED is allowed only for private nodes");
  lift (ValidateProfile c).

End environment.

(** ** Accessors *)

Definition DBPath (c : Config) : string := c_StateDir c +:+ "/erebrus.db".

Definition PublicAPIBaseURL (c : Config) : string :=
  if negb (String.eqb (c_APIPublicURL c) EmptyString) then TrimRight_slash (c_APIPublicURL c)
  else "http://" +:+ or_else (c_WGEndpointHost c) "127.0.0.1" +:+ ":" +:+ c_HTTPPort c.

Definition GatewayEnabled (c : Config) : bool :=
  negb (String.eqb (TrimSpace (c_GatewayURL c)) EmptyString).
Definition EffectiveRegistrationToken (c : Config) : string := TrimSpace (c_NodeRegistrationToken c).
Definition EffectiveNodeKey (c : Config) : string :=
  or_else (TrimSpace (c_NodeKey c)) (TrimSpace (c_NodeAPIToken c)).
Definition WGEndpointPortInt (c : Config) : Z := Atoi_or_0 (c_WGEndpointPort c).
Definition VLESSPortInt (c : Config) : Z := Atoi_or_0 (c_VLESSPort c).
Definition Hysteria2PortInt (c : Config) : Z := Atoi_or_0 (c_Hysteria2Port c).
Definition DropSwarmPortInt (c : Config) : Z := Atoi_or_0 (c_DropSwarmPort c).
Definition DropAcceptsPublicUploads (c : Config) : bool := c_DropEnabled c && IsPublic (c_Mode c).
Definition DropWebUIAvailable (c : Config) : bool :=
  c_DropEnabled c && c_DropWebUIEnabled c && negb (IsPublic (c_Mode c)).
Definition RealitySNI (c : Config) : string :=
  match c_RealityServerNames c with s :: _ => s | [] => "www.microsoft.com" end.
Definition RealityHandshakeTarget (c : Config) : string :=
  if negb (String.eqb (c_RealityHandshakeServer c) EmptyString) then c_RealityHandshakeServer c
  else RealitySNI c +:+ ":443".

(** ** Byte sizes *)

Lemma snoc2 a x y :
  a +:+ String x (String y EmptyString) = (a +:+ String x EmptyString) +:+ String y EmptyString.
Proof. exact (app_assoc_str a (String x EmptyString) (String y EmptyString)). Qed.

Lemma HasSuffix_false s suf : (∀ r, s ≠ r +:+ suf) → HasSuffix s suf = false.
Proof.
  intros H. destruct (HasSuffix s suf) eqn:E; [|done].
  apply HasSuffix_spec in E as [r E]. by apply H in E.
Qed.

(** Ltac: [ds] is all digits, so none of the letters of a unit is in it. *)
Ltac no_letter :=
  match goal with
  | H : sforall is_digit ?ds = true, E : ?ds = _ +:+ _ |- _ =>
      rewrite E, sforall_app in H; apply andb_true_iff in H as [_ H]; discriminate H
  end.
Ltac not_suffix :=
  apply HasSuffix_false; intros ? E; rewrite ?app_nil_str, ?snoc2 in E;
  repeat match type of E with
  | _ +:+ String _ EmptyString = _ +:+ String _ EmptyString =>
      apply app_snoc_inj in E as [E ?]; try discriminate
  end; no_letter.

Lemma find_unit ds U scale :
  sforall is_digit ds = true → (U, scale) ∈ (EmptyString, 1) :: units →
  find_first (λ u, HasSuffix (ds +:+ U) u.1) units =
  if String.eqb U EmptyString then None else Some (U, scale).
Proof.
  intros Hd Hin. assert (∀ s suf, HasSuffix (s +:+ suf) suf = true) as Hself.
  { intros. apply HasSuffix_spec. eauto. }
  cbn [find_first units fst]. repeat (apply elem_of_cons in Hin as [[= -> ->]|Hin]);
    [..|by apply not_elem_of_nil in Hin]; cbn [String.eqb];
    rewrite ?Hself;
    repeat match goal with |- context [HasSuffix ?a ?b] =>
      replace (HasSuffix a b) with false by (symmetry; not_suffix) end; done.
Qed.

Lemma digit_facts c : is_digit c = true → is_space c = false ∧ to_upper c = c.
Proof.
  intros Hc. assert (∀ c, negb (is_digit c) ||
    (negb (is_space c) && Ascii.eqb (to_upper c) c) = true) as H.
  { apply byte_cases. vm_compute. reflexivity. }
  specialize (H c). rewrite Hc in H. cbn [negb orb] in H.
  apply andb_true_iff in H as [H1%negb_true_iff H2%Ascii.eqb_eq]. done.
Qed.

Lemma ToUpper_digits ds : sforall is_digit ds = true → ToUpper ds = ds.
Proof.
  intros H. apply smap_id. eapply sforall_impl; [|exact H]. intros c Hc.
  apply Ascii.eqb_eq. by apply digit_facts.
Qed.

Lemma last_digit c ds : is_digit c = true → sforall is_digit ds = true → is_digit (last_byte c ds) = true.
Proof.
  revert c. induction ds as [|d ds IH]; simpl; [done|]. intros c _ [? ?]%andb_true_iff. auto.
Qed.

(** The letters of a unit are not spaces: case is folded by to_upper. *)
Lemma last_unit c u : (∃ scale, (ToUpper u, scale) ∈ (EmptyString, 1) :: units) →
  is_space c = false → is_space (last_byte c u) = false.
Proof.
  intros [scale Hin] Hc.
  assert (∀ c, negb (bool_decide (to_upper c ∈ String.list_ascii_of_string "TGMKB")) || negb (is_space c) = true) as Hl.
  { apply byte_cases. vm_compute. reflexivity. }
  assert (∀ b, to_upper b ∈ String.list_ascii_of_string "TGMKB" → is_space b = false) as Hl'.
  { intros b Hb. specialize (Hl b). rewrite bool_decide_true in Hl by done.
    by apply negb_true_iff. }
  repeat (apply elem_of_cons in Hin as [[= E _]|Hin]); [..|by apply not_elem_of_nil in Hin];
    destruct u as [|x [|y [|z u]]]; try discriminate E; try done;
    injection E as; apply Hl'; subst; set_solver.
Qed.

Lemma TrimSpace_size ds u :
  sforall is_digit ds = true → ds ≠ EmptyString →
  (∃ scale, (ToUpper u, scale) ∈ (EmptyString, 1) :: units) →
  ToUpper (TrimSpace (ds +:+ u)) = ds +:+ ToUpper u ∧ TrimSpace ds = ds.
Proof.
  intros Hd Hne Hu. destruct ds as [|c ds]; [done|]. clear Hne.
  pose proof Hd as Hd'. simpl in Hd'. apply andb_true_iff in Hd' as [Hc Hds].
  pose proof (proj1 (digit_facts c Hc)) as Hsp.
  pose proof (proj1 (digit_facts _ (last_digit c ds Hc Hds))) as Hlast. split.
  - change (String c ds +:+ u) with (String c (ds +:+ u)). rewrite TrimSpace_id; [|done|].
    + change (String c (ds +:+ u)) with (String c ds +:+ u). unfold ToUpper. rewrite smap_app.
      f_equal. by apply ToUpper_digits.
    + rewrite last_byte_app. by apply last_unit.
  - by apply TrimSpace_id.
Qed.

Lemma digits_all ds : sforall is_digit ds = true → ∀ acc, ∃ n, digits acc ds = Some n.
Proof.
  induction ds as [|c ds IH]; simpl; intros H acc; [eauto|].
  apply andb_true_iff in H as [-> H]. auto.
Qed.

Lemma ParseInt_digits ds n :
  sforall is_digit ds = true → ds ≠ EmptyString → digits 0 ds = Some n →
  ParseInt ds = if n <=? max_int64 then Some n else None.
Proof.
  intros Hd Hne Hn. pose proof (digits_bound 0 ds n ltac:(lia) Hn) as Hn0.
  destruct ds as [|c ds]; [done|]. unfold ParseInt.
  simpl in Hd. apply andb_true_iff in Hd as [Hc _]. unfold is_digit, in_range in Hc.
  destruct (Z.eqb_spec (code c) 45); [lia|]. destruct (Z.eqb_spec (code c) 43); [lia|].
  rewrite Hn. cbn [mbind option_bind].
  assert ((min_int64 <=? n) = true) as -> by (unfold min_int64; lia). done.
Qed.

Lemma wrap_int64_id z : min_int64 <= z <= max_int64 → wrap_int64 z = z.
Proof. unfold wrap_int64, min_int64, max_int64. intros. rewrite Z.mod_small; lia. Qed.

Lemma units_scale U scale : (U, scale) ∈ (EmptyString, 1) :: units → 1 <= scale.
Proof. intros Hin. repeat (apply elem_of_cons in Hin as [[= _ ->]|Hin]); by apply not_elem_of_nil in Hin || lia. Qed.

Lemma max_div n scale : 1 <= scale → (max_int64 / scale <? n) = (max_int64 <? n * scale).
Proof.
  intros Hs. pose proof (Z.div_mod max_int64 scale ltac:(lia)).
  pose proof (Z.mod_pos_bound max_int64 scale ltac:(lia)).
  destruct (Z.ltb_spec (max_int64 / scale) n), (Z.ltb_spec max_int64 (n * scale)); try done; nia.
Qed.

(** What a decimal number with a unit parses to. *)
Lemma parseByteSize_unit ds u scale n :
  sforall is_digit ds = true → ds ≠ EmptyString → digits 0 ds = Some n →
  (ToUpper u, scale) ∈ (EmptyString, 1) :: units →
  parseByteSize (ds +:+ u) =
    if (0 <? n) && (n * scale <=? max_int64) then Ok (n * scale)
    else Err (invalid_byte_size (ds +:+ u)).
Proof.
  intros Hd Hne Hn Hu. pose proof (digits_bound 0 ds n ltac:(lia) Hn) as Hn0.
  pose proof (units_scale _ _ Hu) as Hscale.
  destruct (TrimSpace_size ds u Hd Hne ltac:(eauto)) as [E1 E2].
  unfold parseByteSize. rewrite E1.
  assert (String.eqb (ds +:+ ToUpper u) EmptyString = false) as -> by (by destruct ds).
  rewrite (find_unit _ _ scale) by done. destruct (String.eqb_spec (ToUpper u) EmptyString) as [Eu|Eu].
  - rewrite Eu in *. apply elem_of_cons in Hu as [[= ->]|Hu]; [|by set_solver].
    rewrite app_nil_str, (ParseInt_digits ds n) by done. rewrite Z.mul_1_r.
    destruct (Z.leb_spec n max_int64), (Z.leb_spec n 0), (Z.ltb_spec 0 n); try done; lia.
  - rewrite TrimSuffix_app, E2, (ParseInt_digits ds n) by done.
    destruct (Z.leb_spec n max_int64); rewrite ?max_div by done;
    destruct (Z.leb_spec n 0), (Z.ltb_spec 0 n),
      (Z.ltb_spec max_int64 (n * scale)), (Z.leb_spec (n * scale) max_int64);
      try done; try lia; try nia. cbn [orb andb]. f_equal. apply wrap_int64_id.
    unfold min_int64. nia.
Qed.

Lemma parseByteSize_pos v n : parseByteSize v = Ok n → 1 <= n <= max_int64.
Proof.
  unfold parseByteSize. destruct (String.eqb _ _); [done|].
  destruct (find_first _ units) as [[suf scale]|] eqn:Eu.
  - apply find_first_Some in Eu as [Hu _].
    pose proof (units_scale suf scale ltac:(by right)) as Hs.
    destruct (ParseInt _) as [m|]; [|done]. rewrite max_div by done.
    destruct (Z.leb_spec m 0), (Z.ltb_spec max_int64 (m * scale)); try done. cbn [orb].
    rewrite wrap_int64_id by (unfold min_int64; nia). intros [= <-]. nia.
  - destruct (ParseInt _) as [m|] eqn:Em; [|done]. apply ParseInt_bounds in Em.
    destruct (Z.leb_spec m 0); [done|]. intros [= <-]. lia.
Qed.

(** ** Profiles *)

Lemma or_else_eqb v d : d ≠ EmptyString → String.eqb (or_else v d) EmptyString = false.
Proof. intros Hd. unfold or_else. destruct (String.eqb_spec v EmptyString); by apply String.eqb_neq. Qed.

(** The normalised profile is a fixed point of the normalisation. *)
Lemma profile_norm_idem x :
  let p := or_else (ToLower (TrimSpace x)) ProfileStandard in
  or_else (ToLower (TrimSpace p)) ProfileStandard = p.
Proof.
  cbn zeta. unfold or_else at 2 3. destruct (String.eqb (ToLower (TrimSpace x)) EmptyString) eqn:E; [done|].
  rewrite lower_trim_idem. unfold or_else. by rewrite E.
Qed.

Lemma tunnel_again subnet pda :
  let T := tunnelGatewayIP subnet pda in
  let T' := tunnelGatewayIP subnet (or_else pda T) in
  (T = EmptyString ∨ T = "1.1.1.1" → T' = T).
Proof.
  cbn zeta. unfold or_else. destruct (String.eqb_spec pda EmptyString) as [->|]; [|done].
  intros [E|E]; rewrite E; [exact E|reflexivity].
Qed.

(** The defaults that a sidecar profile fills in, in one place. *)
Lemma default_twice (get : Config → string) set v c :
  String.eqb (get c) EmptyString = false → default_to get set v c = c.
Proof. unfold default_to. by intros ->. Qed.

Lemma eqb_empty s : String.eqb s EmptyString = true → s = EmptyString.
Proof. apply String.eqb_eq. Qed.

#[local] Opaque tunnelGatewayIP ToLower TrimSpace.

Lemma set_profile_id c : set_ErebrusProfile (c_ErebrusProfile c) c = c.
Proof. by destruct c. Qed.

Lemma set_WGDNS_id c : set_WGDNS (c_WGDNS c) c = c.
Proof. by destruct c. Qed.

Lemma set_PrivateDNSAddr_id c : set_PrivateDNSAddr (c_PrivateDNSAddr c) c = c.
Proof. by destruct c. Qed.

(** Filling the two resolver fields a second time changes nothing. *)
Lemma dns_defaults_idem c d :
  let T := tunnelGatewayIP (c_WGIPv4Subnet c) (c_PrivateDNSAddr c) in
  c_WGIPv4Subnet d = c_WGIPv4Subnet c →
  c_WGDNS d = (if String.eqb (c_WGDNS c) EmptyString || String.eqb (c_WGDNS c) "1.1.1.1"
               then T else c_WGDNS c) →
  c_PrivateDNSAddr d = or_else (c_PrivateDNSAddr c) T →
  let T' := tunnelGatewayIP (c_WGIPv4Subnet d) (c_PrivateDNSAddr d) in
  default_to c_PrivateDNSAddr set_PrivateDNSAddr T' (default_WGDNS T' d) = d.
Proof.
  intros T Hs Hw Hp. cbn zeta. set (T' := tunnelGatewayIP _ _).
  assert (T = EmptyString ∨ T = "1.1.1.1" → T' = T) as Hagain.
  { unfold T'. rewrite Hs, Hp. apply tunnel_again. }
  assert (default_WGDNS T' d = d) as ->.
  { unfold default_WGDNS.
    destruct (String.eqb (c_WGDNS c) EmptyString || String.eqb (c_WGDNS c) "1.1.1.1") eqn:Ec.
    - destruct (String.eqb (c_WGDNS d) EmptyString || String.eqb (c_WGDNS d) "1.1.1.1") eqn:Ed; [|done].
      rewrite Hw, orb_true_iff, !String.eqb_eq in Ed.
      rewrite (Hagain Ed), <- Hw. apply set_WGDNS_id.
    - by rewrite Hw, Ec. }
  unfold default_to. destruct (String.eqb_spec (c_PrivateDNSAddr d) EmptyString) as [Ep|]; [|done].
  rewrite Hp in Ep. unfold or_else in Ep, Hp.
  destruct (String.eqb_spec (c_PrivateDNSAddr c) EmptyString) as [Ec|] in Ep, Hp; [|done].
  rewrite (Hagain (or_introl Ep)), <- Hp. apply set_PrivateDNSAddr_id.
Qed.

Lemma default_to_get (get : Config → string) set v c :
  (∀ x c, get (set x c) = x) → get (default_to get set v c) = or_else (get c) v.
Proof. intros H. unfold default_to, or_else. by destruct (String.eqb _ _). Qed.

Lemma default_to_other {A} (g : Config → A) get set v c :
  (∀ x c, g (set x c) = g c) → g (default_to get set v c) = g c.
Proof. intros H. unfold default_to. by destruct (String.eqb _ _). Qed.

Lemma default_WGDNS_get T c :
  c_WGDNS (default_WGDNS T c) =
  if String.eqb (c_WGDNS c) EmptyString || String.eqb (c_WGDNS c) "1.1.1.1" then T else c_WGDNS c.
Proof. unfold default_WGDNS. by destruct (_ || _). Qed.

Lemma default_WGDNS_other {A} (g : Config → A) T c :
  (∀ x c, g (set_WGDNS x c) = g c) → g (default_WGDNS T c) = g c.
Proof. intros H. unfold default_WGDNS. by destruct (_ || _). Qed.

(** Ltac: reads a field through the defaults. *)
Ltac project_defaults :=
  repeat match goal with
  | |- context [?g (default_to ?get ?set ?v ?c)] =>
      first [rewrite (default_to_get get set v c) by done
            |rewrite (default_to_other g get set v c) by done]
  | |- context [?g (default_WGDNS ?T ?c)] =>
      first [rewrite (default_WGDNS_get T c)|rewrite (default_WGDNS_other g T c) by done]
  end.

(** The fields a sidecar profile sets, as they are afterwards. *)
Lemma sidecar_fields c p :
  (p = ProfileShield ∨ p = ProfileSentinel) →
  or_else (ToLower (TrimSpace (c_ErebrusProfile c))) ProfileStandard = p →
  let d := ApplyProfileDefaults c in
  let T := tunnelGatewayIP (c_WGIPv4Subnet c) (c_PrivateDNSAddr c) in
  c_ErebrusProfile d = p ∧ c_WGIPv4Subnet d = c_WGIPv4Subnet c ∧
  c_WGDNS d = (if String.eqb (c_WGDNS c) EmptyString || String.eqb (c_WGDNS c) "1.1.1.1"
               then T else c_WGDNS c) ∧
  c_PrivateDNSAddr d = or_else (c_PrivateDNSAddr c) T ∧
  c_FirewallProvider d = or_else (c_FirewallProvider c)
    (if String.eqb p ProfileShield then FirewallAdGuardHome else FirewallUnboundErebrus) ∧
  c_FirewallDNSAddr d = or_else (c_FirewallDNSAddr c)
    (if String.eqb p ProfileShield then "adguardhome:53" else "erebrus-sentinel:53") ∧
  (if String.eqb p ProfileShield
   then c_ShieldAdminURL d = or_else (c_ShieldAdminURL c) "http://adguardhome:3000"
   else c_SentinelAPIURL d = or_else (c_SentinelAPIURL c) "http://erebrus-sentinel:8788" ∧
        c_SentinelImage d =
          or_else (c_SentinelImage c) "ghcr.io/netsepio/erebrus-sentinel:latest").
Proof.
  intros Hp Ep. unfold ApplyProfileDefaults. rewrite Ep. cbn zeta.
  destruct Hp as [->| ->]; cbn [String.eqb];
    change (String.eqb ProfileShield ProfileShield) with true;
    change (String.eqb ProfileSentinel ProfileShield) with false;
    change (String.eqb ProfileSentinel ProfileSentinel) with true; cbn iota;
    project_defaults; done.
Qed.

Lemma ApplyProfileDefaults_idem c :
  ApplyProfileDefaults (ApplyProfileDefaults c) = ApplyProfileDefaults c.
Proof.
  set (p := or_else (ToLower (TrimSpace (c_ErebrusProfile c))) ProfileStandard).
  pose proof (profile_norm_idem (c_ErebrusProfile c)) as Hp. fold p in Hp. cbn zeta in Hp.
  destruct (decide (p = ProfileShield ∨ p = ProfileSentinel)) as [Hside|Hside].
  - destruct (sidecar_fields c p Hside eq_refl) as (E1 & E2 & E3 & E4 & E5 & E6 & E7).
    set (d := ApplyProfileDefaults c) in *.
    pose proof (dns_defaults_idem c d E2 E3 E4) as Hdns. cbn zeta in Hdns.
    unfold ApplyProfileDefaults. rewrite E1, Hp.
    assert (set_ErebrusProfile p d = d) as -> by (rewrite <- E1; apply set_profile_id).
    destruct Hside as [Es|Es]; rewrite Es in *.
    + change (String.eqb ProfileShield ProfileShield) with true in *. cbn iota in *.
      rewrite !(default_twice _ _ _ d) by (rewrite ?E5, ?E6, ?E7; by apply or_else_eqb).
      exact Hdns.
    + change (String.eqb ProfileSentinel ProfileShield) with false in *.
      change (String.eqb ProfileSentinel ProfileSentinel) with true in *. cbn iota in *.
      destruct E7 as [E7 E8].
      rewrite !(default_twice _ _ _ d) by (rewrite ?E5, ?E6, ?E7, ?E8; by apply or_else_eqb).
      exact Hdns.
  - apply Decidable.not_or in Hside as [H1 H2].
    assert (ApplyProfileDefaults c =
      if String.eqb p ProfileStandard
      then default_to c_FirewallProvider set_FirewallProvider FirewallNone (set_ErebrusProfile p c)
      else set_ErebrusProfile p c) as Ec.
    { unfold ApplyProfileDefaults. fold p.
      by rewrite (proj2 (String.eqb_neq _ _) H1), (proj2 (String.eqb_neq _ _) H2). }
    assert (c_ErebrusProfile (ApplyProfileDefaults c) = p) as E1.
    { rewrite Ec. destruct (String.eqb p ProfileStandard); by project_defaults. }
    set (d := ApplyProfileDefaults c) in *. unfold ApplyProfileDefaults. rewrite E1, Hp.
    rewrite (proj2 (String.eqb_neq _ _) H1), (proj2 (String.eqb_neq _ _) H2).
    assert (set_ErebrusProfile p d = d) as -> by (rewrite <- E1; apply set_profile_id).
    destruct (String.eqb p ProfileStandard) eqn:Est; [|done].
    apply default_twice. rewrite Ec. project_defaults. by apply or_else_eqb.
Qed.

Lemma ValidateProfile_sidecar d p prov :
  c_ErebrusProfile d = p → p ∈ [ProfileStandard; ProfileShield; ProfileSentinel] →
  c_FirewallProvider d = prov → prov ∈ [FirewallNone; FirewallAdGuardHome; FirewallUnboundErebrus] →
  (prov ≠ FirewallNone → TrimSpace (c_FirewallDNSAddr d) ≠ EmptyString) →
  ValidateProfile d = Ok tt.
Proof.
  intros E1 Hp E2 Hv Hdns. unfold ValidateProfile. rewrite E1, E2.
  rewrite (bool_decide_true (p ∈ _)), (bool_decide_true (prov ∈ _)) by done. cbn [negb].
  unfold HasFirewallService. rewrite E2.
  destruct (decide (prov = FirewallNone)) as [->|Hne]; [reflexivity|].
  rewrite (proj2 (String.eqb_neq (TrimSpace (c_FirewallDNSAddr d)) _)) by auto.
  by rewrite andb_false_r.
Qed.

Lemma profile_defaults_valid c :
  ToLower (TrimSpace (c_ErebrusProfile c)) ∈
    [EmptyString; ProfileStandard; ProfileShield; ProfileSentinel] →
  c_FirewallProvider c = EmptyString →
  (c_FirewallDNSAddr c = EmptyString ∨ TrimSpace (c_FirewallDNSAddr c) ≠ EmptyString) →
  ValidateProfile (ApplyProfileDefaults c) = Ok tt.
Proof.
  intros Hp Hf Hd.
  assert (∀ v, TrimSpace v ≠ EmptyString → TrimSpace (or_else (c_FirewallDNSAddr c) v) ≠ EmptyString) as Hdns.
  { intros v Hv. unfold or_else. destruct (String.eqb_spec (c_FirewallDNSAddr c) EmptyString); naive_solver. }
  destruct (decide (ToLower (TrimSpace (c_ErebrusProfile c)) ∈ [ProfileShield; ProfileSentinel])) as [Hs|Hs].
  - set (p := ToLower (TrimSpace (c_ErebrusProfile c))) in *.
    assert (or_else p ProfileStandard = p) as Ep 
      by (assert (p = ProfileShield ∨ p = ProfileSentinel) as [E|E] by set_solver; by rewrite E).
    destruct (sidecar_fields c p ltac:(set_solver) Ep) as (E1 & _ & _ & _ & E5 & E6 & _).
    rewrite Hf in E5. eapply ValidateProfile_sidecar; [exact E1|set_solver|exact E5| |].
    + destruct (String.eqb p ProfileShield); set_solver.
    + intros _. rewrite E6. apply Hdns. by destruct (String.eqb p ProfileShield).
  - assert (or_else (ToLower (TrimSpace (c_ErebrusProfile c))) ProfileStandard = ProfileStandard) as Ep.
    { set_unfold. destruct Hp as [E|[E|[E|[E|[]]]]]; rewrite E in *; naive_solver. }
    assert (ApplyProfileDefaults c = set_FirewallProvider FirewallNone (set_ErebrusProfile ProfileStandard c)) as ->.
    { unfold ApplyProfileDefaults. rewrite Ep. unfold default_to.
      change (String.eqb ProfileStandard ProfileShield) with false.
      change (String.eqb ProfileStandard ProfileSentinel) with false.
      change (String.eqb ProfileStandard ProfileStandard) with true. cbn [c_FirewallProvider set_ErebrusProfile].
      by rewrite Hf. }
    eapply ValidateProfile_sidecar; [reflexivity|set_solver|reflexivity|set_solver|done].
Qed.

(** ** Validate *)

(** The configuration a successful Validate leaves behind. *)
Definition validated (mode : ModeSettings) (c : Config) : Config :=
  let c := set_Mode mode c in
  if negb (String.eqb (c_StealthTCPPort c) "443") || negb (String.eqb (c_StealthUDPPort c) "443")
  then add_warning stealth_warning c else c.

Definition drop_ok (mode : ModeSettings) (c : Config) : Prop :=
  c_DropEnabled c = true →
  0 < c_DropStorageMaxBytes c ∧
  (∃ port, ParseInt (c_DropSwarmPort c) = Some port ∧ 1 <= port <= 65535) ∧
  ¬ (c_DropWebUIEnabled c = true ∧ m_RuntimeMode mode = ModePublic).

Lemma check_bind {A} b e (k : unit → M Config A) c :
  (check b e ≫= k) c = if b then k tt c else (Err e, c).
Proof. by destruct b. Qed.

Lemma missing_nil c :
  bool_decide (missing c = []) = negb (String.eqb (c_Mnemonic c) EmptyString) &&
    negb (String.eqb (c_WGEndpointHost c) EmptyString).
Proof. unfold missing. by destruct (String.eqb _ _), (String.eqb _ _). Qed.

Lemma valid_port_spec s :
  valid_port s = true ↔ ∃ port, ParseInt s = Some port ∧ 1 <= port <= 65535.
Proof.
  unfold valid_port. destruct (ParseInt s) as [port|].
  - rewrite andb_true_iff, !Z.leb_le. naive_solver.
  - naive_solver.
Qed.

(** Validate on a mode that parses, check by check. *)
Lemma Validate_run E mode c :
  ParseModeSettingsFromEnv E = Ok mode →
  Validate E c =
    let c1 := set_Mode mode c in let c2 := validated mode c in
    if negb (bool_decide (missing c1 = []))
    then (Err (EMsg ("missing required config: " +:+ Join (missing c1) ", ")), c1)
    else if negb (negb (c_DropEnabled c2) || (0 <? c_DropStorageMaxBytes c2))
    then (Err (EMsg "DROP_STORAGE_MAX must be a positive byte size"), c2)
    else if negb (negb (c_DropEnabled c2) || valid_port (c_DropSwarmPort c2))
    then (Err (EMsg "DROP_SWARM_PORT must be a valid port"), c2)
    else if negb (negb (c_DropEnabled c2) || negb (c_DropWebUIEnabled c2 && IsPublic (c_Mode c2)))
    then (Err (EMsg "DROP_WEBUI_ENABLED is allowed only for private nodes"), c2)
    else (ValidateProfile c2, c2).
Proof.
  intros Em. unfold Validate. rewrite (bind_Ok _ _ _ mode c) by (unfold lift; by rewrite Em).
  rewrite (bind_Ok _ _ _ c c) by done. rewrite (bind_Ok _ _ _ tt (set_Mode mode c)) by done.
  rewrite (bind_Ok _ _ _ (set_Mode mode c) (set_Mode mode c)) by done. rewrite check_bind.
  destruct (bool_decide (missing (set_Mode mode c) = [])); [|done]. cbn [negb] in *. cbn zeta.
  rewrite (bind_Ok _ _ _ tt (validated mode c)) by done.
  rewrite (bind_Ok _ _ _ (validated mode c) (validated mode c)) by done.
  rewrite !check_bind. destruct (_ || (0 <? _)); [|done].
  destruct (_ || valid_port _); [|done].
  by destruct (_ || negb (_ && _)).
Qed.

Lemma validated_fields mode c :
  c_DropEnabled (validated mode c) = c_DropEnabled c ∧
  c_DropStorageMaxBytes (validated mode c) = c_DropStorageMaxBytes c ∧
  c_DropSwarmPort (validated mode c) = c_DropSwarmPort c ∧
  c_DropWebUIEnabled (validated mode c) = c_DropWebUIEnabled c ∧
  m_RuntimeMode (c_Mode (validated mode c)) = m_RuntimeMode mode ∧
  ValidateProfile (validated mode c) = ValidateProfile c ∧
  missing (set_Mode mode c) = missing c.
Proof. unfold validated. by destruct (_ || _). Qed.

Lemma drop_checks mode c2 c :
  c_DropEnabled c2 = c_DropEnabled c → c_DropStorageMaxBytes c2 = c_DropStorageMaxBytes c →
  c_DropSwarmPort c2 = c_DropSwarmPort c → c_DropWebUIEnabled c2 = c_DropWebUIEnabled c →
  m_RuntimeMode (c_Mode c2) = m_RuntimeMode mode →
  ((negb (c_DropEnabled c2) || (0 <? c_DropStorageMaxBytes c2)) &&
   (negb (c_DropEnabled c2) || valid_port (c_DropSwarmPort c2)) &&
   (negb (c_DropEnabled c2) || negb (c_DropWebUIEnabled c2 && IsPublic (c_Mode c2)))) = true
  ↔ drop_ok mode c.
Proof.
  intros -> -> -> -> E. unfold drop_ok, IsPublic. rewrite E. destruct (c_DropEnabled c); [|naive_solver].
  cbn [negb orb]. rewrite !andb_true_iff, valid_port_spec, Z.ltb_lt, negb_true_iff, andb_false_iff,
    String.eqb_neq.
  destruct (c_DropWebUIEnabled c); naive_solver.
Qed.

(** The warnings the mode parser can emit. *)
Lemma mode_warnings a b mode w :
  ParseModeSettings a b = Ok mode → w ∈ m_Warnings mode →
  HasPrefix w "WARNING: EREBRUS_" = true ∨ HasPrefix w "WARNING: access " = true.
Proof.
  unfold ParseModeSettings. cbn zeta.
  set (a' := ToLower (TrimSpace a)). set (b' := ToLower (TrimSpace b)).
  assert (∀ x y v, parseAccess x = Ok (y, v) → w ∈ v → HasPrefix w "WARNING: access " = true) as Ha.
  { intros x y v. unfold parseAccess. repeat case_match; intros [= <- <-]; set_solver. }
  assert (∀ x y v, parseNetworkProfile x = Ok (y, v) → v = []) as Hb.
  { intros x y v. unfold parseNetworkProfile. repeat case_match; by intros [= <- <-]. }
  destruct (_ && _) eqn:?; cbn.
  - destruct (parseAccess b') as [[y v]|] eqn:E1; [|done]. cbn.
    intros [= <-]. cbn. rewrite !elem_of_cons, !elem_of_app, elem_of_nil. intros [->|[?|[]]]; [by left|].
    right. eauto.
  - destruct (parseAccess a') as [[y v]|] eqn:E1; [|done]. cbn.
    destruct (parseNetworkProfile b') as [[y2 v2]|] eqn:E2; [|done]. cbn.
    apply Hb in E2 as ->. intros [= <-]. cbn. rewrite elem_of_app.
    intros [?|Hn]; [right; eauto|]. left. destruct (String.eqb y2 NetworkNative); set_solver.
Qed.

(** A successful Validate stores the mode it parsed itself. *)
Lemma Validate_stores E c c' :
  Validate E c = (Ok tt, c') →
  ∃ mode, ParseModeSettingsFromEnv E = Ok mode ∧ c' = validated mode c.
Proof.
  intros Hv. destruct (ParseModeSettingsFromEnv E) as [mode|e] eqn:Em.
  - exists mode. split; [done|]. rewrite (Validate_run E mode _ Em) in Hv. cbn zeta in Hv.
    revert Hv. destruct (negb (bool_decide _)); [done|].
    repeat (destruct (negb _); [done|]). by intros [= _ <-].
  - unfold Validate in Hv. rewrite (bind_Err _ _ _ e c) in Hv; [done|]. unfold lift. by rewrite Em.
Qed.

(** What the two mode variables, trimmed and in lower case, stand for. *)
Inductive mode_denotes (access profile : string) : string → string → Prop :=
| ModePlain m n :
    (access, m) ∈ [("", "public"); ("private", "private"); ("public", "public"); ("gateway", "public")] →
    (profile, n) ∈ [("", "bridge"); ("bridge", "bridge"); ("host-network", "host-network"); ("native", "native")] →
    mode_denotes access profile m n
| ModeLegacy m :
    access = "" → (profile, m) ∈ [("private", "private"); ("public", "public"); ("gateway", "public")] →
    mode_denotes access profile m "bridge".

(** The requirements on a configuration, for the access [m] and the network
    profile [n]. *)
Record requirements (E : OSEnv) (c : Config) (m n : string) : Prop := {
  rq_mode : mode_denotes (ToLower (TrimSpace (Getenv E "EREBRUS_ACCESS")))
              (ToLower (TrimSpace (Getenv E "EREBRUS_NETWORK_PROFILE"))) m n;
  rq_mnemonic : c_Mnemonic c ≠ "";
  rq_host : c_WGEndpointHost c ≠ "";
  rq_drop : c_DropEnabled c = true →
    0 < c_DropStorageMaxBytes c ∧
    (∃ port, ParseInt (c_DropSwarmPort c) = Some port ∧ 1 <= port <= 65535) ∧
    ¬ (c_DropWebUIEnabled c = true ∧ m = "public");
  rq_profile : c_ErebrusProfile c ∈ ["standard"; "shield"; "sentinel"];
  rq_provider : c_FirewallProvider c ∈ ["none"; "adguard_home"; "unbound_erebrus"];
  rq_dns : c_FirewallProvider c ≠ "none" → TrimSpace (c_FirewallDNSAddr c) ≠ "";
}.

Lemma parseAccess_iff a m ws :
  parseAccess a = Ok (m, ws) →
  (a, m) ∈ [("", "public"); ("private", "private"); ("public", "public"); ("gateway", "public")] ∧ native_warning ∉ ws.
Proof.
  unfold parseAccess. intros H.
  destruct (String.eqb_spec a EmptyString) as [->|_]; [injection H as <- <-; split; [left|apply not_elem_of_nil]|].
  destruct (String.eqb_spec a ModePrivate) as [->|_]; [injection H as <- <-; split; [right; left|apply not_elem_of_nil]|].
  destruct (String.eqb_spec a ModePublic) as [->|_]; [injection H as <- <-; split; [do 2 right; left|apply not_elem_of_nil]|].
  destruct (String.eqb_spec a legacyModeGateway) as [->|_]; [|done]. injection H as <- <-.
  split; [do 3 right; left|]. rewrite list_elem_of_singleton. discriminate.
Qed.

Lemma parseNetworkProfile_iff p n ws :
  parseNetworkProfile p = Ok (n, ws) →
  (p, n) ∈ [("", "bridge"); ("bridge", "bridge"); ("host-network", "host-network"); ("native", "native")] ∧ ws = [].
Proof.
  unfold parseNetworkProfile. destruct (String.eqb_spec p EmptyString) as [->|]; 
    [intros [= <- <-]; split; [left|done]|].
  case_bool_decide as H; [|done]. intros [= <- <-]. split; [|done].
  set_unfold in H. destruct H as [->|[->|[->|[]]]]; apply list_elem_of_In; vm_compute; tauto.
Qed.

(** The parser of the mode variables against what they stand for. *)
Lemma ParseModeSettings_denotes a p m n ws :
  ParseModeSettings a p = Ok (mkMode m n ws) →
  mode_denotes (ToLower (TrimSpace a)) (ToLower (TrimSpace p)) m n ∧ (native_warning ∈ ws ↔ n = "native").
Proof.
  unfold ParseModeSettings. cbn zeta. set (a' := ToLower (TrimSpace a)). set (p' := ToLower (TrimSpace p)).
  assert (∀ w0 x y, native_warning ∉ w0 →
    ('(access, w1) ← parseAccess x; '(profile, w2) ← parseNetworkProfile y;
     Ok (mkMode access profile (w0 ++ w1 ++ w2 ++ if String.eqb profile NetworkNative then [native_warning] else [])))
      = Ok (mkMode m n ws) →
    (x, m) ∈ [("", "public"); ("private", "private"); ("public", "public"); ("gateway", "public")] ∧
    (y, n) ∈ [("", "bridge"); ("bridge", "bridge"); ("host-network", "host-network"); ("native", "native")] ∧
    (native_warning ∈ ws ↔ n = "native")) as Hgo.
  { intros w0 x y Hw0. destruct (parseAccess x) as [[m1 w1]|] eqn:E1; [|done]. cbn.
    destruct (parseNetworkProfile y) as [[n1 w2]|] eqn:E2; [|done]. cbn. intros [= <- <- <-].
    apply parseAccess_iff in E1 as [H1 Hn1]. apply parseNetworkProfile_iff in E2 as [H2 ->].
    split; [done|]. split; [done|]. rewrite !elem_of_app.
    destruct (String.eqb_spec n1 NetworkNative) as [->|Hn]; [split; [done|]; intros _; do 3 right; left|].
    split; [|done]. rewrite elem_of_nil. naive_solver. }
  destruct (String.eqb_spec a' EmptyString) as [Ea|Ea]; cbn [andb].
  - unfold isAccessToken. case_bool_decide as Hp.
    + intros H. destruct (Hgo [legacy_access_warning p'] p' EmptyString) as (H1 & H2 & H3); [|exact H|].
      { rewrite list_elem_of_singleton. discriminate. }
      split; [|done]. assert (n = "bridge") as -> by (apply list_elem_of_In in H2; cbn in H2; naive_solver).
      apply ModeLegacy; [done|]. apply elem_of_cons in H1 as [[= E _]|H1]; [|exact H1].
      rewrite E in Hp. apply list_elem_of_In in Hp. cbn in Hp. naive_solver.
    + intros H. destruct (Hgo [] a' p') as (H1 & H2 & H3); [apply not_elem_of_nil|exact H|].
      split; [by constructor|done].
  - intros H. destruct (Hgo [] a' p') as (H1 & H2 & H3); [apply not_elem_of_nil|exact H|].
    split; [by constructor|done].
Qed.

Lemma denotes_ParseModeSettings a p m n :
  mode_denotes (ToLower (TrimSpace a)) (ToLower (TrimSpace p)) m n →
  ∃ ws, ParseModeSettings a p = Ok (mkMode m n ws).
Proof.
  unfold ParseModeSettings. set (a' := ToLower (TrimSpace a)). set (p' := ToLower (TrimSpace p)).
  intros [m' n' Ha Hp|m' Ha Hp].
  - apply list_elem_of_In in Ha, Hp. cbn in Ha, Hp.
    destruct Ha as [[= <- <-]|[[= <- <-]|[[= <- <-]|[[= <- <-]|[]]]]];
      destruct Hp as [[= <- <-]|[[= <- <-]|[[= <- <-]|[[= <- <-]|[]]]]]; by eexists.
  - rewrite Ha. apply list_elem_of_In in Hp. cbn in Hp.
    destruct Hp as [[= <- <-]|[[= <- <-]|[[= <- <-]|[]]]]; by eexists.
Qed.

(** The warnings that Validate adds to those of the parser. *)
Lemma validated_mode m n ws c :
  ∃ ws', validated (mkMode m n ws) c = set_Mode (mkMode m n ws') c ∧
    (stealth_warning ∈ ws' ↔ stealth_warning ∈ ws ∨ ¬ (c_StealthTCPPort c = "443" ∧ c_StealthUDPPort c = "443")) ∧
    (native_warning ∈ ws' ↔ native_warning ∈ ws).
Proof.
  unfold validated. cbn [c_StealthTCPPort c_StealthUDPPort set_Mode].
  destruct (String.eqb_spec (c_StealthTCPPort c) "443"), (String.eqb_spec (c_StealthUDPPort c) "443"); cbn [negb orb].
  1: exists ws; split; [done|]; split; [|done]; naive_solver.
  all: exists (ws ++ [stealth_warning]); split; [done|].
  all: rewrite !elem_of_app, !list_elem_of_singleton; (split; [naive_solver|]).
  all: split; [|by left]; intros [?|H]; [done|discriminate H].
Qed.

Lemma mode_warned a p mode :
  ParseModeSettings a p = Ok mode →
  (stealth_warning ∉ m_Warnings mode) ∧ (native_warning ∈ m_Warnings mode ↔ m_NetworkProfile mode = "native").
Proof.
  intros H. split.
  - intros Hin. destruct (mode_warnings _ _ _ _ H Hin) as [H'|H']; discriminate H'.
  - destruct mode as [m n ws]. by apply ParseModeSettings_denotes in H as [_ H].
Qed.

Lemma ValidateProfile_iff c :
  ValidateProfile c = Ok tt ↔
  c_ErebrusProfile c ∈ ["standard"; "shield"; "sentinel"] ∧
  c_FirewallProvider c ∈ ["none"; "adguard_home"; "unbound_erebrus"] ∧
  (c_FirewallProvider c ≠ "none" → TrimSpace (c_FirewallDNSAddr c) ≠ "").
Proof.
  split.
  - unfold ValidateProfile. case_bool_decide as H1; cbn [negb]; [|done]. case_bool_decide as H2; cbn [negb]; [|done].
    destruct (_ && _) eqn:E; [done|]. intros _. split; [done|]. split; [done|]. intros Hne Hd.
    rewrite Hd, andb_true_r in E. unfold HasFirewallService in E.
    set_unfold in H2. destruct H2 as [H2|[H2|[H2|[]]]]; rewrite H2 in *; done.
  - intros (H1 & H2 & H3). by eapply ValidateProfile_sidecar.
Qed.

(** Validate against its parts. *)
Lemma Validate_iff E c c' :
  Validate E c = (Ok tt, c') ↔
  ∃ mode, ParseModeSettingsFromEnv E = Ok mode ∧ c_Mnemonic c ≠ EmptyString ∧
    c_WGEndpointHost c ≠ EmptyString ∧ drop_ok mode c ∧
    ValidateProfile c = Ok tt ∧ c' = validated mode c.
Proof.
  destruct (ParseModeSettingsFromEnv E) as [mode|e] eqn:Em.
  2:{ split; [|naive_solver]. unfold Validate. by rewrite (bind_Err _ _ _ e c) by (unfold lift; by rewrite Em). }
  rewrite (Validate_run E mode c Em). cbn zeta.
  destruct (validated_fields mode c) as (F1 & F2 & F3 & F4 & F5 & F6 & F7).
  pose proof (drop_checks mode (validated mode c) c F1 F2 F3 F4 F5) as Hd.
  rewrite F7, missing_nil, <- F6. set (c2 := validated mode c) in *.
  destruct (String.eqb_spec (c_Mnemonic c) EmptyString); [naive_solver|].
  destruct (String.eqb_spec (c_WGEndpointHost c) EmptyString); [naive_solver|]. cbn [negb andb].
  destruct (_ || (0 <? _)); [|split; [done|]; intros (m & [= <-] & _ & _ & D & _); by apply Hd in D].
  destruct (_ || valid_port _); [|split; [done|]; intros (m & [= <-] & _ & _ & D & _); by apply Hd in D].
  destruct (_ || negb (_ && _)); [|split; [done|]; intros (m & [= <-] & _ & _ & D & _); by apply Hd in D].
  cbn [negb andb] in *. split.
  - intros [= Hv <-]. exists mode. split; [done|]. split; [done|]. split; [done|]. split; [by apply Hd|done].
  - intros (m & [= <-] & _ & _ & _ & -> & ->). done.
Qed.

Lemma requirements_mode E c mode :
  ParseModeSettingsFromEnv E = Ok mode → c_Mnemonic c ≠ EmptyString → c_WGEndpointHost c ≠ EmptyString →
  drop_ok mode c → ValidateProfile c = Ok tt → requirements E c (m_RuntimeMode mode) (m_NetworkProfile mode).
Proof.
  intros Em H1 H2 H3 (H4 & H5 & H6)%ValidateProfile_iff. destruct mode as [m n ws]. cbn.
  apply ParseModeSettings_denotes in Em as [Em _]. by split.
Qed.

Lemma requirements_run E c m n :
  requirements E c m n →
  ∃ ws, ParseModeSettingsFromEnv E = Ok (mkMode m n ws) ∧ c_Mnemonic c ≠ EmptyString ∧
    c_WGEndpointHost c ≠ EmptyString ∧ drop_ok (mkMode m n ws) c ∧ ValidateProfile c = Ok tt.
Proof.
  intros [R1 R2 R3 R4 R5 R6 R7]. apply denotes_ParseModeSettings in R1 as [ws R1].
  exists ws. split; [exact R1|]. split; [done|]. split; [done|]. split; [exact R4|]. by apply ValidateProfile_iff.
Qed.

(** ** Properties *)


(** C31. Validate succeeds exactly on the configurations that meet every
    requirement, each stated as the documentation states it: known access and
    network-profile values (empty ones mean public and bridge; an access value
    in the place of the profile is the old spelling), the mnemonic and the
    endpoint host present, Drop with a positive capacity, a port in 1..65535
    and no web UI on a public node, a known deployment profile and firewall
    provider, and a DNS address for a firewall.  It then replaces the mode by
    the denoted access and network profile, changes nothing else, and warns of
    stealth ports other than 443 and of a native network exactly when there is
    reason to. *)
Theorem Validate_ok_iff E c :
  ((Validate E c).1 = Ok tt ↔ ∃ m n, requirements E c m n) ∧
  ∀ c', Validate E c = (Ok tt, c') →
    ∃ m n ws, requirements E c m n ∧ c' = set_Mode (mkMode m n ws) c ∧
      (stealth_warning ∈ ws ↔ ¬ (c_StealthTCPPort c = "443" ∧ c_StealthUDPPort c = "443")) ∧
      (native_warning ∈ ws ↔ n = "native").
Proof.
  split.
  - split.
    + destruct (Validate E c) as [r c'] eqn:H. cbn. intros ->. apply Validate_iff in H as (mode & Em & H1 & H2 & H3 & H4 & _).
      exists (m_RuntimeMode mode), (m_NetworkProfile mode). by apply requirements_mode.
    + intros (m & n & Hr). destruct (requirements_run E c m n Hr) as (ws & Em & H).
      assert (Validate E c = (Ok tt, validated (mkMode m n ws) c)) as -> by (apply Validate_iff; naive_solver). done.
  - intros c' H. apply Validate_iff in H as (mode & Em & H1 & H2 & H3 & H4 & ->).
    destruct mode as [m n ws]. destruct (validated_mode m n ws c) as (ws' & -> & Hw1 & Hw2).
    exists m, n, ws'. split; [by apply (requirements_mode E c (mkMode m n ws))|]. split; [done|].
    destruct (mode_warned _ _ _ Em) as [N1 N2]. cbn in N1, N2. rewrite Hw1, Hw2. naive_solver.
Qed.

(** The profile defaults are stable (applying them again changes nothing)
    and valid: a configuration whose profile is unset or one of the three, in
    any case and spacing, and which names no firewall provider, passes
    ValidateProfile after the defaults are filled in. *)
Lemma profile_defaults_stable_valid c :
  ApplyProfileDefaults (ApplyProfileDefaults c) = ApplyProfileDefaults c ∧
  (ToLower (TrimSpace (c_ErebrusProfile c)) ∈
     [EmptyString; ProfileStandard; ProfileShield; ProfileSentinel] →
   c_FirewallProvider c = EmptyString →
   (c_FirewallDNSAddr c = EmptyString ∨ TrimSpace (c_FirewallDNSAddr c) ≠ EmptyString) →
   ValidateProfile (ApplyProfileDefaults c) = Ok tt).
Proof. split; [apply ApplyProfileDefaults_idem|apply profile_defaults_valid]. Qed.

(** The warning that the management API is reachable off-host, which Load
    adds for every address that is not loopback, is never among the warnings
    of the validated configuration: Validate parses the mode again and assigns
    it, so the warnings collected before it are gone. *)
Lemma bind_warning_lost E c' :
  let c := Load E in
  (isLoopbackAddr (c_BindAddr c) = false → bind_warning c ∈ m_Warnings (c_Mode c)) ∧
  (Validate E c = (Ok tt, c') → bind_warning c ∉ m_Warnings (c_Mode c')).
Proof.
  cbn zeta. split.
  - unfold Load. cbn zeta. set (c5 := set_DropStorageMaxBytes _ _).
    destruct (isLoopbackAddr (c_BindAddr c5)) eqn:El; cbn [negb].
    + congruence.
    + intros _. unfold add_warning. cbn. set_solver.
  - intros Hv Hin. destruct (Validate_stores _ _ _ Hv) as (mode & Em & ->).
    set (c0 := Load E) in *.
    assert (bind_warning c0 ∈ m_Warnings mode ∨ bind_warning c0 = stealth_warning) as [H|H].
    { revert Hin. clear. unfold validated, add_warning. destruct (_ || _); cbn [c_Mode set_Mode m_Warnings].
      - rewrite elem_of_app, elem_of_cons, elem_of_nil. tauto.
      - auto. }
    + destruct (mode_warnings _ _ _ _ Em H) as [H'|H']; discriminate H'.
    + discriminate H.
Qed.

(** ** Witnesses *)

Definition wit_env : OSEnv :=
  mkEnv {[ "MNEMONIC" := "m"; "WG_ENDPOINT_HOST" := "node.example"; "DROP_ENABLED" := "true" ]} None.


Lemma profile_defaults_stable_valid_witness :
  let c := load_literal (mkEnv {[ "EREBRUS_PROFILE" := " Shield" ]} None) in
  ValidateProfile c ≠ Ok tt ∧ ValidateProfile (ApplyProfileDefaults c) = Ok tt.
Proof.
  cbn zeta. split; [vm_compute; discriminate|].
  apply (proj2 (profile_defaults_stable_valid _)).
  - apply list_elem_of_In. vm_compute. tauto.
  - vm_compute. reflexivity.
  - left. vm_compute. reflexivity.
Defined.

Lemma bind_warning_lost_witness :
  let c := Load wit_env in let c' := (Validate wit_env c).2 in
  c_BindAddr c = "0.0.0.0" ∧ bind_warning c ∈ m_Warnings (c_Mode c) ∧
  bind_warning c ∉ m_Warnings (c_Mode c').
Proof.
  cbn zeta. split; [vm_compute; reflexivity|]. split.
  - apply (proj1 (bind_warning_lost wit_env (Validate wit_env (Load wit_env)).2)). vm_compute. reflexivity.
  - apply (proj2 (bind_warning_lost wit_env (Validate wit_env (Load wit_env)).2)). vm_compute. reflexivity.
Defined.

Lemma Validate_ok_iff_witness :
  ∃ m n, requirements wit_env (Load wit_env) m n ∧ (Validate wit_env (Load wit_env)).1 = Ok tt.
Proof.
  assert ((Validate wit_env (Load wit_env)).1 = Ok tt) as H by (vm_compute; reflexivity).
  destruct (proj1 (proj1 (Validate_ok_iff wit_env (Load wit_env))) H) as (m & n & Hr). exists m, n. split; [exact Hr|exact H].
Defined.
