(* ===== verification/Wg.v ===== *)
(** * The WireGuard manager (internal/wg)

    The server keypair kept in node_settings, the rendering of the interface
    configuration and of the clients' configurations, and [Apply], which writes
    the interface configuration and replaces the device's peers.

    Outside the model: the kernel device and wg-quick.  [w_dev] records, per
    interface, the peer list of the last ConfigureDevice call that succeeded,
    and [w_os] is a schedule of failures of the calls to the operating system
    and to wgctrl.  wgtypes.ParseKey is a parameter. *)
From S2P Require Import Prelude GoStrings GoLines GoNet StoreDB IPAlloc Store ConfigData Config.

(** ** Templates (template.go) *)

Definition PrivateKeyPlaceholder : string := "REPLACE_WITH_PRIVATE_KEY".

Record serverTplData := mkServerTpl {
  st_Address : string; st_ListenPort : Z; st_PrivateKey : string; st_MTU : Z;
  st_PreUp : string; st_PostUp : string; st_PreDown : string; st_PostDown : string;
  st_Peers : list Peer;
}.

Record clientTplData := mkClientTpl {
  ct_Address : string; ct_DNS : string; ct_ServerPublicKey : string;
  ct_PresharedKey : string; ct_Endpoint : string;
}.

(** A template line whose [{{- if}}] is true when the field is not empty. *)
Definition tpl_if (key v : string) : string :=
  if String.eqb v EmptyString then EmptyString else newline +:+ key +:+ " = " +:+ v.

Definition render_peer (p : Peer) : string :=
  if p_Enabled p then
    newline +:+ "# " +:+ p_Name p +:+ " / " +:+ p_Wallet p +:+ " / id=" +:+ p_ID p +:+
    newline +:+ "[Peer]" +:+
    newline +:+ "PublicKey = " +:+ p_WGPublicKey p +:+
    tpl_if "PresharedKey" (p_WGPresharedKey p) +:+
    newline +:+ "AllowedIPs = " +:+ p_WGAllowedIP p +:+ newline
  else EmptyString.

Fixpoint render_peers (l : list Peer) : string :=
  match l with [] => EmptyString | p :: l => render_peer p +:+ render_peers l end.

Definition renderServer (d : serverTplData) : string :=
  "# Erebrus wg0 — generated, do not edit by hand" +:+
  newline +:+ "[Interface]" +:+
  newline +:+ "Address = " +:+ st_Address d +:+
  newline +:+ "ListenPort = " +:+ Itoa (st_ListenPort d) +:+
  newline +:+ "PrivateKey = " +:+ st_PrivateKey d +:+
  (if st_MTU d =? 0 then EmptyString else newline +:+ "MTU = " +:+ Itoa (st_MTU d)) +:+
  tpl_if "PreUp" (st_PreUp d) +:+ tpl_if "PostUp" (st_PostUp d) +:+
  tpl_if "PreDown" (st_PreDown d) +:+ tpl_if "PostDown" (st_PostDown d) +:+
  newline +:+ render_peers (st_Peers d).

Definition renderClient (d : clientTplData) : string :=
  "[Interface]" +:+
  newline +:+ "Address = " +:+ ct_Address d +:+
  newline +:+ "PrivateKey = " +:+ PrivateKeyPlaceholder +:+
  tpl_if "DNS" (ct_DNS d) +:+
  newline +:+ newline +:+ "[Peer]" +:+
  newline +:+ "PublicKey = " +:+ ct_ServerPublicKey d +:+
  tpl_if "PresharedKey" (ct_PresharedKey d) +:+
  newline +:+ "AllowedIPs = 0.0.0.0/0, ::/0" +:+
  newline +:+ "Endpoint = " +:+ ct_Endpoint d +:+
  newline +:+ "PersistentKeepalive = 16" +:+ newline.

(** ** The host *)

Record PeerConfig := mkPC {
  pc_PublicKey : list Z; pc_ReplaceAllowedIPs : bool;
  pc_PresharedKey : option (list Z); pc_AllowedIPs : list IPNet;
}.

(** The store, the files, the device, and the manager's two key fields.  A
    failure of a call to come has its error and, for a write that had opened
    (and so truncated) the file, how much of the content it left there. *)
Record World := mkWorld {
  w_db : DB; w_files : gmap string string; w_dev : gmap string (list PeerConfig);
  w_os : list (option (error * option nat)); w_priv : string; w_pub : string;
}.

Definition set_db (d : DB) (w : World) : World :=
  mkWorld d (w_files w) (w_dev w) (w_os w) (w_priv w) (w_pub w).
Definition set_os (o : list (option (error * option nat))) (w : World) : World :=
  mkWorld (w_db w) (w_files w) (w_dev w) o (w_priv w) (w_pub w).

Definition on_db {A} (m : M DB A) : M World A := zoom w_db set_db m.

(** A call that leaves no trace but its error. *)
Definition os_call : M World unit := fun w =>
  match w_os w with
  | Some (e, _) :: l => (Err e, set_os l w)
  | None :: l => (Ok tt, set_os l w)
  | [] => (Ok tt, w)
  end.

Definition set_file (path data : string) (w : World) : World :=
  mkWorld (w_db w) (<[path := data]> (w_files w)) (w_dev w) (w_os w) (w_priv w) (w_pub w).

(** os.WriteFile: open with truncation, write, close. *)
Definition write_file (path data : string) : M World unit := fun w =>
  match w_os w with
  | Some (e, None) :: l => (Err e, set_os l w)
  | Some (e, Some n) :: l => (Err e, set_file path (String.substring 0 n data) (set_os l w))
  | None :: l => (Ok tt, set_file path data (set_os l w))
  | [] => (Ok tt, set_file path data w)
  end.

(** cl.ConfigureDevice with ReplacePeers. *)
Definition configure_device (iface : string) (l : list PeerConfig) : M World unit :=
  _ ← os_call; run (λ w, (Ok tt,
    mkWorld (w_db w) (w_files w) (<[iface := l]> (w_dev w)) (w_os w) (w_priv w) (w_pub w))).

Section wg.
Context {srt : Sorting} (ParseKey : string → result (list Z)) (cfg : Config).

(** ** The controller (controller.go) *)

Definition parse_cidr_err (s : string) : error := EMsg ("invalid CIDR address: " +:+ s).

Definition peer_config (p : Peer) : result PeerConfig :=
  match ParseKey (p_WGPublicKey p) with
  | Err e => Err (EWrap ("peer " +:+ p_ID p +:+ " bad public key: ") e EmptyString)
  | Ok pub =>
      psk ← (if String.eqb (p_WGPresharedKey p) EmptyString then Ok None
             else match ParseKey (p_WGPresharedKey p) with
                  | Err e => Err (EWrap ("peer " +:+ p_ID p +:+ " bad preshared key: ") e EmptyString)
                  | Ok k => Ok (Some k)
                  end);
      match ParseCIDR (p_WGAllowedIP p) with
      | None => Err (EWrap ("peer " +:+ p_ID p +:+ " bad allowed ip: ")
                       (parse_cidr_err (p_WGAllowedIP p)) EmptyString)
      | Some (_, ipnet) => Ok (mkPC pub true psk [ipnet])
      end
  end.

(** The loop over the peers: the first error aborts it. *)
Fixpoint peer_configs (l : list Peer) : result (list PeerConfig) :=
  match l with
  | [] => Ok []
  | p :: l =>
      if negb (p_Enabled p) then peer_configs l
      else pc ← peer_config p; rest ← peer_configs l; Ok (pc :: rest)
  end.

Definition SyncPeers (iface : string) (peers : list Peer) : M World unit :=
  _ ← os_call;
  cfgs ← lift (peer_configs peers);
  configure_device iface cfgs.

(** [out] is the output of wg-quick up. *)
Definition BringUp (out : string) : M World unit :=
  _ ← try os_call;
  r ← try os_call;
  match r with
  | Err e => fail (EMsg ("wg-quick up: " +:+ error_text e +:+ ": " +:+ TrimSpace out))
  | Ok _ => mret tt
  end.

(** ** The manager (wg.go) *)

Definition settingServerPrivateKey : string := "wg_server_private_key".
Definition settingServerPublicKey : string := "wg_server_public_key".

Definition ServerPublicKey : M World string := gets w_pub.
Definition Endpoint : string := c_WGEndpointHost cfg +:+ ":" +:+ c_WGEndpointPort cfg.
Definition Subnet : string := c_WGIPv4Subnet cfg.

Definition serverAddress : string :=
  match ParseCIDR (c_WGIPv4Subnet cfg) with
  | None => c_WGIPv4Subnet cfg
  | Some (ip, ipnet) => ip_String ip +:+ "/" +:+ Itoa (Mask_ones (net_Mask ipnet))
  end.

(** filepath.Join of a directory and a file name, both already clean. *)
Definition confPath : string :=
  let n := c_WGInterface cfg in
  c_WGConfDir cfg +:+ "/" +:+ (if HasSuffix n ".conf" then n else n +:+ ".conf").

(** [key] is the pair (private, public) that GeneratePrivateKey returns. *)
Definition loadOrCreateKeys (key : result (string * string)) : M World unit :=
  priv ← on_db (GetSetting settingServerPrivateKey);
  priv ← (if String.eqb priv EmptyString then
            '(priv, pub) ← lift key;
            _ ← on_db (SetSetting settingServerPrivateKey priv);
            _ ← on_db (SetSetting settingServerPublicKey pub);
            mret priv
          else mret priv);
  pub ← on_db (GetSetting settingServerPublicKey);
  run (λ w, (Ok tt, mkWorld (w_db w) (w_files w) (w_dev w) (w_os w) priv pub)).

Definition server_data (priv : string) (peers : list Peer) : serverTplData :=
  mkServerTpl serverAddress (WGEndpointPortInt cfg) priv 0
    (c_WGPreUp cfg) (c_WGPostUp cfg) (c_WGPreDown cfg) (c_WGPostDown cfg) peers.

Definition writeServerConf : M World unit :=
  peers ← on_db ListPeers;
  priv ← gets w_priv;
  write_file confPath (renderServer (server_data priv peers)).

Definition Init (key : result (string * string)) (out : string) : M World unit :=
  _ ← loadOrCreateKeys key;
  _ ← os_call;
  _ ← writeServerConf;
  BringUp out.

Definition Apply : M World unit :=
  _ ← writeServerConf;
  peers ← on_db ListPeers;
  SyncPeers (c_WGInterface cfg) peers.

Definition ClientConfig (pub : string) (p : Peer) : string :=
  renderClient (mkClientTpl (p_WGAllowedIP p) (c_WGDNS cfg) pub (p_WGPresharedKey p) Endpoint).

End wg.

(** ** Device statistics (controller.go) *)

(** A peer of the device as wgctrl reports it; times in nanoseconds. *)
Record DevPeer := mkDev {
  d_PublicKey : string; d_ReceiveBytes : Z; d_TransmitBytes : Z; d_LastHandshake : option Z;
}.
Record DeviceStats := mkStats { ds_RxBytes : Z; ds_TxBytes : Z; ds_Connected : Z }.
Record PeerTransfer := mkTransfer {
  pt_WGPublicKey : string; pt_RxBytes : Z; pt_TxBytes : Z; pt_LastHandshake : Z;
}.

Definition device_stats (now : Z) (d : list DevPeer) : DeviceStats :=
  let cutoff := now - 180 * 10 ^ 9 in
  foldl (λ st p, mkStats
    (wrap_int64 (ds_RxBytes st + d_ReceiveBytes p))
    (wrap_int64 (ds_TxBytes st + d_TransmitBytes p))
    (match d_LastHandshake p with
     | Some t => if cutoff <? t then ds_Connected st + 1 else ds_Connected st
     | None => ds_Connected st
     end)) (mkStats 0 0 0) d.

(** The manager's Stats: zero when the device cannot be read. *)
Definition manager_Stats (now : Z) (d : option (list DevPeer)) : DeviceStats :=
  match d with Some d => device_stats now d | None => mkStats 0 0 0 end.

Definition PeerTransfers (d : option (list DevPeer)) : list PeerTransfer :=
  match d with
  | None => []
  | Some d => (λ p, mkTransfer (d_PublicKey p) (d_ReceiveBytes p) (d_TransmitBytes p)
                 (match d_LastHandshake p with Some t => t / 10 ^ 9 | None => 0 end)) <$> d
  end.

(** ** Lines of a rendered configuration *)

Definition opt_line (key v : string) : list string :=
  if String.eqb v EmptyString then [] else [key +:+ " = " +:+ v].

Definition peer_lines (p : Peer) : list string :=
  if p_Enabled p then
    [EmptyString; "# " +:+ p_Name p +:+ " / " +:+ p_Wallet p +:+ " / id=" +:+ p_ID p; "[Peer]";
     "PublicKey = " +:+ p_WGPublicKey p] ++ opt_line "PresharedKey" (p_WGPresharedKey p) ++
    ["AllowedIPs = " +:+ p_WGAllowedIP p]
  else [].

(** The lines after the first. *)
Definition server_lines (d : serverTplData) : list string :=
  ["[Interface]"; "Address = " +:+ st_Address d; "ListenPort = " +:+ Itoa (st_ListenPort d);
   "PrivateKey = " +:+ st_PrivateKey d] ++
  (if st_MTU d =? 0 then [] else ["MTU = " +:+ Itoa (st_MTU d)]) ++
  opt_line "PreUp" (st_PreUp d) ++ opt_line "PostUp" (st_PostUp d) ++
  opt_line "PreDown" (st_PreDown d) ++ opt_line "PostDown" (st_PostDown d) ++
  concat (peer_lines <$> st_Peers d) ++ [EmptyString].

Lemma tpl_if_lines k v : tpl_if k v = cat_nl (opt_line k v).
Proof.
  unfold tpl_if, opt_line. destruct (String.eqb v EmptyString); [done|].
  cbn [cat_nl]. by rewrite app_nil_str.
Qed.

Lemma render_peers_lines l :
  newline +:+ render_peers l = cat_nl (concat (peer_lines <$> l) ++ [EmptyString]).
Proof.
  induction l as [|p l IH]; [done|]. rewrite fmap_cons. cbn [render_peers concat].
  rewrite <- app_assoc, cat_nl_app, <- IH. unfold render_peer, peer_lines.
  destruct (p_Enabled p); [|done]. rewrite tpl_if_lines, !cat_nl_app. cbn [cat_nl app].
  rewrite ?app_assoc_str', ?app_nil_str. done.
Qed.

Lemma renderServer_lines d :
  renderServer d = "# Erebrus wg0 — generated, do not edit by hand" +:+ cat_nl (server_lines d).
Proof.
  unfold renderServer, server_lines. rewrite !tpl_if_lines, render_peers_lines, !cat_nl_app.
  cbn [cat_nl app]. destruct (st_MTU d =? 0); cbn [cat_nl]; 
    rewrite ?app_assoc_str', ?nil_app_str, ?app_nil_str; reflexivity.
Qed.

Lemma opt_line_no_nl k v : no_nl k → no_nl v → Forall no_nl (opt_line k v).
Proof.
  intros. unfold opt_line. destruct (String.eqb v EmptyString); [constructor|].
  apply Forall_singleton. rewrite !no_nl_app. done.
Qed.

Definition peer_clean (p : Peer) : Prop :=
  no_nl (p_Name p) ∧ no_nl (p_Wallet p) ∧ no_nl (p_ID p) ∧ no_nl (p_WGPublicKey p) ∧
  no_nl (p_WGPresharedKey p) ∧ no_nl (p_WGAllowedIP p).

Definition server_clean (d : serverTplData) : Prop :=
  no_nl (st_Address d) ∧ no_nl (st_PrivateKey d) ∧ no_nl (st_PreUp d) ∧ no_nl (st_PostUp d) ∧
  no_nl (st_PreDown d) ∧ no_nl (st_PostDown d) ∧ Forall peer_clean (st_Peers d).

Lemma peer_lines_clean p : peer_clean p → Forall no_nl (peer_lines p).
Proof.
  intros (H1 & H2 & H3 & H4 & H5 & H6). unfold peer_lines. destruct (p_Enabled p); [|by apply Forall_nil].
  rewrite !Forall_app. split_and!; [clean_lines|by apply opt_line_no_nl|clean_lines].
Qed.

Lemma server_lines_clean d : server_clean d → Forall no_nl (server_lines d).
Proof.
  intros (H1 & H2 & H3 & H4 & H5 & H6 & H7). unfold server_lines. rewrite !Forall_app.
  split_and!; [clean_lines| |by apply opt_line_no_nl..| |clean_lines].
  - destruct (st_MTU d =? 0); clean_lines.
  - apply Forall_concat, Forall_fmap. eapply Forall_impl; [exact H7|]. apply peer_lines_clean.
Qed.

(** ** Runs on the host *)

Definition wt (w : World) : tables := tbl (w_db w).

(** Everything but the device, the files and the schedules is as it was. *)
Definition same_state (w w' : World) : Prop :=
  wt w' = wt w ∧ w_priv w' = w_priv w ∧ w_pub w' = w_pub w.

#[export] Instance same_state_preorder : PreOrder same_state.
Proof. unfold same_state. split; red; intuition congruence. Qed.

Definition listed {srt : Sorting} (t : tables) : list Peer :=
  scanPeer <$> sort_by (λ a b, pr_created_at a <? pr_created_at b) (peers t).

Section runs.
Context {srt : Sorting} (ParseKey : string → result (list Z)) (cfg : Config).

Lemma os_call_inv w r w' :
  os_call w = (r, w') →
  same_state w w' ∧ w_files w' = w_files w ∧ w_dev w' = w_dev w ∧
  (w_os w = [] → r = Ok tt ∧ w' = w).
Proof.
  unfold os_call. destruct (w_os w) as [|[[e n]|] l]; intros [= <- <-]; repeat split; done.
Qed.

Lemma write_file_inv path data w r w' :
  write_file path data w = (r, w') →
  same_state w w' ∧ w_dev w' = w_dev w ∧
  (r = Ok tt → w_files w' = <[path := data]> (w_files w)) ∧
  (w_os w = [] → r = Ok tt ∧ w_os w' = [] ∧ w_db w' = w_db w).
Proof.
  unfold write_file. destruct (w_os w) as [|[[e [n|]]|] l] eqn:Eo; intros [= <- <-]; by repeat split.
Qed.

Lemma configure_device_inv iface l w r w' :
  configure_device iface l w = (r, w') →
  same_state w w' ∧ w_files w' = w_files w ∧
  (r = Ok tt → w_dev w' = <[iface := l]> (w_dev w)) ∧
  (is_ok r = false → w_dev w' = w_dev w) ∧
  (w_os w = [] → r = Ok tt).
Proof.
  intros [([] & w1 & E & [= <- <-])|(e & E & ->)]%bind_inv;
    apply os_call_inv in E as ((H1 & H2 & H3) & H4 & H5 & H6); (split; [repeat split; done|]);
    (split; [done|]); (split; [intros [=]; cbn; congruence|]); (split; [done|]).
  - done.
  - intros H. by destruct (H6 H).
Qed.

Lemma on_db_ListPeers_inv w r w' :
  on_db ListPeers w = (r, w') →
  same_state w w' ∧ w_files w' = w_files w ∧ w_dev w' = w_dev w ∧ w_os w' = w_os w ∧
  (∀ l, r = Ok l → l = listed (wt w)) ∧
  (faults (w_db w) = [] → r = Ok (listed (wt w)) ∧ w' = w).
Proof.
  intros (d & E & ->)%zoom_inv. pose proof (query_inv _ _ _ _ E) as [Ed Hr].
  split; [repeat split; done|]. split; [done|]. split; [done|]. split; [done|]. split.
  - intros l ->. by destruct Hr as [[= ->]|[e [=]]].
  - intros Hf. unfold ListPeers, query, driver, mbind, M_bind in E. rewrite Hf in E.
    injection E as <- <-. split; [done|]. by destruct w.
Qed.

Lemma writeServerConf_inv w r w' :
  writeServerConf cfg w = (r, w') →
  same_state w w' ∧ w_dev w' = w_dev w ∧
  (r = Ok tt → w_files w' = <[confPath cfg :=
     renderServer (server_data cfg (w_priv w) (listed (wt w)))]> (w_files w)) ∧
  (w_os w = [] → faults (w_db w) = [] → r = Ok tt ∧ w_os w' = [] ∧ faults (w_db w') = []).
Proof.
  intros [(l & w1 & E1 & E2)|(e & E & ->)]%bind_inv.
  - apply on_db_ListPeers_inv in E1 as ((A1 & A2 & A3) & A4 & A5 & A6 & A7 & A8).
    rewrite (bind_Ok _ _ _ (w_priv w1) w1) in E2 by done.
    apply write_file_inv in E2 as (B1 & B2 & B3 & B4).
    split; [etransitivity; [|exact B1]; by repeat split|]. split; [congruence|]. split.
    + intros Hr. rewrite (B3 Hr), A4, A2, (A7 l) by done. done.
    + intros Ho Hf. destruct (A8 Hf) as [_ ->]. destruct (B4 Ho) as (? & ? & ?). split_and!; congruence.
  - apply on_db_ListPeers_inv in E as (A1 & A4 & A5 & A6 & A7 & A8).
    split; [done|]. split; [done|]. split; [done|]. intros _ Hf. by destruct (A8 Hf) as [[=] _].
Qed.

Lemma SyncPeers_inv iface l w r w' :
  SyncPeers ParseKey iface l w = (r, w') →
  same_state w w' ∧ w_files w' = w_files w ∧
  (r = Ok tt → ∃ cfgs, peer_configs ParseKey l = Ok cfgs ∧ w_dev w' = <[iface := cfgs]> (w_dev w)) ∧
  (is_ok r = false → w_dev w' = w_dev w) ∧
  (w_os w = [] → is_ok (peer_configs ParseKey l) = true → r = Ok tt).
Proof.
  intros [([] & w1 & E1 & E2)|(e & E & ->)]%bind_inv.
  - apply os_call_inv in E1 as (A1 & A2 & A3 & A4).
    destruct (peer_configs ParseKey l) as [cfgs|e] eqn:Ec.
    + rewrite (bind_Ok _ _ _ cfgs w1) in E2 by (unfold lift; by rewrite ?Ec).
      apply configure_device_inv in E2 as (B1 & B2 & B3 & B4 & B5).
      split; [by etransitivity|]. split; [congruence|]. split; [|split].
      * intros Hr. exists cfgs. rewrite (B3 Hr). split; [done|]. by rewrite A3.
      * intros Hr. rewrite (B4 Hr). done.
      * intros Ho _. destruct (A4 Ho) as [_ ->]. by apply B5.
    + rewrite (bind_Err _ _ _ e w1) in E2 by (unfold lift; by rewrite ?Ec). injection E2 as <- <-.
      split; [done|]. split; [done|]. split; [done|]. split; done.
  - apply os_call_inv in E as (A1 & A2 & A3 & A4).
    split; [done|]. split; [done|]. split; [done|]. split; [done|].
    intros Ho _. by destruct (A4 Ho) as [[=] _].
Qed.

(** What a successful Apply establishes. *)
Definition in_sync (w : World) : Prop :=
  w_files w !! confPath cfg = Some (renderServer (server_data cfg (w_priv w) (listed (wt w)))) ∧
  ∃ cfgs, peer_configs ParseKey (listed (wt w)) = Ok cfgs ∧
    w_dev w !! c_WGInterface cfg = Some cfgs.

Lemma Apply_inv w r w' :
  Apply ParseKey cfg w = (r, w') →
  same_state w w' ∧ (r = Ok tt → in_sync w') ∧ (is_ok r = false → w_dev w' = w_dev w) ∧
  (is_ok (peer_configs ParseKey (listed (wt w))) = false → is_ok r = false) ∧
  (w_os w = [] → faults (w_db w) = [] →
   is_ok (peer_configs ParseKey (listed (wt w))) = true → r = Ok tt).
Proof.
  intros [([] & w1 & E1 & E2)|(e & E & ->)]%bind_inv.
  2:{ apply writeServerConf_inv in E as (A1 & A2 & A3 & A4).
      split; [done|]. split; [done|]. split; [done|]. split; [done|].
      intros Ho Hf _. by destruct (A4 Ho Hf) as [[=] _]. }
  apply writeServerConf_inv in E1 as (A1 & A2 & A3 & A4). pose proof A1 as (At & Ap & Au).
  apply bind_inv in E2 as [(l & w2 & E2 & E3)|(e & E & ->)].
  2:{ apply on_db_ListPeers_inv in E as (B1 & B2 & B3 & B4 & B5 & B6).
      split; [by etransitivity|]. split; [done|]. split; [congruence|]. split; [done|].
      intros Ho Hf _. destruct (A4 Ho Hf) as (_ & _ & Hf1). by destruct (B6 Hf1) as [[=] _]. }
  apply on_db_ListPeers_inv in E2 as (B1 & B2 & B3 & B4 & B5 & B6).
  pose proof B1 as (Bt & Bp & Bu). specialize (B5 l eq_refl) as ->. rewrite At in *.
  apply SyncPeers_inv in E3 as (C1 & C2 & C3 & C4 & C5). pose proof C1 as (Ct & Cp & Cu).
  split; [exact (transitivity A1 (transitivity B1 C1))|]. split; [|split; [|split]].
  - intros Hr. destruct (C3 Hr) as (cfgs & Ec & Ed).
    assert (wt w' = wt w) as Ew by congruence. unfold in_sync. rewrite Ew. split.
    + rewrite C2, B2, (A3 eq_refl), lookup_insert_eq. do 3 f_equal. congruence.
    + exists cfgs. split; [done|]. by rewrite Ed, lookup_insert_eq.
  - intros Hr. rewrite (C4 Hr). congruence.
  - intros Hbad. destruct r as [[]|]; [|done]. destruct (C3 eq_refl) as (cfgs & Ec & _).
    by rewrite Ec in Hbad.
  - intros Ho Hf Hok. destruct (A4 Ho Hf) as (_ & Ho1 & Hf1). apply C5; [|done]. congruence.
Qed.
End runs.

(** ** Properties *)

(** C33. The lines of the interface configuration, for any fields: the rendered
    text is the header, the [Interface] lines and one [Peer] block per enabled
    peer, in order, with that peer's comment, key, preshared key and address,
    and nothing else, each cut further at the newlines its own fields hold. It
    has exactly the intended lines if and only if none of the written lines
    holds a newline, as when no field does; nothing in the renderer checks for
    them, the peer's name included. *)
Theorem renderServer_exact d :
  let header := "# Erebrus wg0 — generated, do not edit by hand" in
  Split (renderServer d) nl = concat ((λ l, Split l nl) <$> header :: server_lines d) ∧
  (Split (renderServer d) nl = header :: server_lines d ↔ Forall no_nl (server_lines d)) ∧
  (server_clean d → Split (renderServer d) nl = header :: server_lines d).
Proof.
  intros header. rewrite renderServer_lines.
  split_and!; [apply Split_cat_any|by apply Split_cat_iff|].
  intros Hd. apply Split_cat; [done|by apply server_lines_clean].
Qed.

(** The fields of the interface configuration are not checked for newlines:
    the name of a peer, free text of the provisioning request, is written into
    the interface configuration as it is, so a name with a newline adds lines
    of the requester's choice, such as a PostUp command, to the file that
    wg-quick executes. *)
Lemma peer_name_injects_line d p before line after :
  p ∈ st_Peers d → p_Enabled p = true → no_nl line →
  p_Name p = before +:+ newline +:+ line +:+ newline +:+ after →
  line ∈ Split (renderServer d) nl.
Proof.
  intros Hp He Hl Hn. rewrite renderServer_lines.
  assert (∃ a b, cat_nl (server_lines d) = a +:+ newline +:+ line +:+ newline +:+ b) as (a & b & ->).
  { assert (∃ k1 c k2, server_lines d = k1 ++ ("# " +:+ p_Name p +:+ c) :: k2) as (k1 & c & k2 & ->).
    { assert ("# " +:+ p_Name p +:+ " / " +:+ p_Wallet p +:+ " / id=" +:+ p_ID p ∈ server_lines d) as Hin.
      { unfold server_lines. rewrite !elem_of_app. do 6 right. left.
        apply list_elem_of_In, in_concat. exists (peer_lines p). split; [by apply list_elem_of_In, list_elem_of_fmap_2|]. apply list_elem_of_In.
        unfold peer_lines. rewrite He. right. left. }
      apply list_elem_of_split in Hin as (k1 & k2 & E). eauto. }
    rewrite cat_nl_app. cbn [cat_nl]. rewrite Hn.
    eexists (cat_nl k1 +:+ newline +:+ "# " +:+ before), (after +:+ c +:+ cat_nl k2).
    by rewrite !app_assoc_str'. }
  rewrite app_assoc_str, Split_app_nl, elem_of_app. right.
  rewrite Split_app_nl, elem_of_app. left. rewrite Split_no_nl by done. set_solver.
Qed.

(** ** Server keys *)

Section keys.
Context {srt : Sorting}.

Definition stored (key : string) (w : World) : string :=
  default EmptyString (node_settings (wt w) !! key).

(** The host never fails from here on. *)
Definition quiet (w : World) : Prop := faults (w_db w) = [] ∧ w_os w = [].

Lemma GetSetting_quiet key w :
  faults (w_db w) = [] → on_db (GetSetting key) w = (Ok (stored key w), w).
Proof.
  intros Hf. unfold on_db, zoom, GetSetting, query, gets, driver, mbind, M_bind. rewrite Hf.
  by destruct w.
Qed.

Lemma SetSetting_quiet key v w :
  faults (w_db w) = [] →
  on_db (SetSetting key v) w =
    (Ok tt, set_db (mkDB (set_settings (<[key := v]> (node_settings (wt w))) (wt w)) []) w).
Proof.
  intros Hf. unfold on_db, zoom, SetSetting, exec, run, driver, mbind, M_bind. rewrite Hf. cbn.
  by rewrite Hf.
Qed.

(** Loading keys that are both stored reads them and generates nothing. *)
Lemma load_stored key w :
  faults (w_db w) = [] → stored settingServerPrivateKey w ≠ EmptyString →
  loadOrCreateKeys key w =
    (Ok tt, mkWorld (w_db w) (w_files w) (w_dev w) (w_os w)
       (stored settingServerPrivateKey w) (stored settingServerPublicKey w)).
Proof.
  intros Hf Hs. unfold loadOrCreateKeys. rewrite (bind_Ok _ _ _ _ _ (GetSetting_quiet _ w Hf)).
  rewrite (proj2 (String.eqb_neq _ _) Hs).
  rewrite (bind_Ok _ _ _ (stored settingServerPrivateKey w) w) by done.
  by rewrite (bind_Ok _ _ _ _ _ (GetSetting_quiet _ w Hf)).
Qed.

Lemma load_fresh priv pub w :
  faults (w_db w) = [] → stored settingServerPrivateKey w = EmptyString →
  ∃ w', loadOrCreateKeys (Ok (priv, pub)) w = (Ok tt, w') ∧ faults (w_db w') = [] ∧
    w_priv w' = priv ∧ w_pub w' = pub ∧
    stored settingServerPrivateKey w' = priv ∧ stored settingServerPublicKey w' = pub.
Proof.
  intros Hf Hs. destruct w as [[t fs] files dev os p0 u0]. cbn in Hf. subst fs.
  unfold stored, wt in Hs. cbn in Hs.
  unfold loadOrCreateKeys, on_db, zoom, GetSetting, SetSetting, query, exec, run, gets, driver,
    lift, mbind, M_bind. cbn. rewrite Hs. cbn.
  eexists. split; [reflexivity|]. unfold stored, wt. cbn.
  rewrite !lookup_insert_eq, lookup_insert_ne, lookup_insert_eq by done. done.
Qed.
End keys.

(** The server keypair is stable: on a store without a private key Init's
    first step generates a pair and stores it, and every later load, whatever
    pair the generator would offer, yields the same two keys. *)
Lemma server_keys_stable priv pub w other :
  faults (w_db w) = [] → stored settingServerPrivateKey w = EmptyString → priv ≠ EmptyString →
  ∃ w1 w2, loadOrCreateKeys (Ok (priv, pub)) w = (Ok tt, w1) ∧
    loadOrCreateKeys other w1 = (Ok tt, w2) ∧
    w_priv w1 = priv ∧ w_pub w1 = pub ∧ w_priv w2 = priv ∧ w_pub w2 = pub.
Proof.
  intros Hf Hs Hp. destruct (load_fresh priv pub w Hf Hs) as (w1 & E1 & F1 & P1 & U1 & S1 & S2).
  exists w1. eexists. split; [exact E1|]. rewrite load_stored; [|done|congruence].
  split; [reflexivity|]. done.
Qed.

(** A crash between the two writes is not repaired: when the private key
    was stored and storing the public key failed, every later load succeeds
    with the stored private key and an empty public key, which the node then
    puts in every client configuration. *)
Lemma server_public_key_lost priv pub e w key :
  faults (w_db w) = [None; None; Some e] → stored settingServerPrivateKey w = EmptyString →
  stored settingServerPublicKey w = EmptyString → priv ≠ EmptyString →
  ∃ w1 w2, loadOrCreateKeys (Ok (priv, pub)) w = (Err e, w1) ∧
    loadOrCreateKeys key w1 = (Ok tt, w2) ∧ w_priv w2 = priv ∧ w_pub w2 = EmptyString.
Proof.
  intros Hf Hs Hs2 Hp. destruct w as [[t fs] files dev os p0 u0]. cbn in Hf. subst fs.
  unfold stored, wt in Hs, Hs2. cbn in Hs, Hs2.
  set (w1 := mkWorld (mkDB (set_settings (<[settingServerPrivateKey := priv]> (node_settings t)) t) [])
    files dev os p0 u0).
  exists w1. eexists. split.
  - unfold loadOrCreateKeys, on_db, zoom, GetSetting, SetSetting, query, exec, run, gets, driver,
      lift, mbind, M_bind. cbn. rewrite Hs. reflexivity.
  - rewrite load_stored; [split; [reflexivity|]| |]; unfold stored, wt, w1; cbn;
      rewrite ?lookup_insert_eq; [|done..].
    split; [done|]. by rewrite lookup_insert_ne.
Qed.

(** ** Witnesses *)

Definition wit_world (fs : list (option error)) : World :=
  mkWorld (mkDB empty_tables fs) ∅ ∅ [] EmptyString EmptyString.

Definition wit_server (name : string) : serverTplData :=
  mkServerTpl "10.0.0.1/16" 51820 "priv" 0 EmptyString "iptables -A" EmptyString EmptyString
    [mkPeer "p1" name EmptyString "k1" "10.0.0.2/32" EmptyString "u" "pw" true 0 0 0].

Lemma renderServer_exact_witness :
  Split (renderServer (wit_server "laptop")) nl =
    ["# Erebrus wg0 — generated, do not edit by hand"; "[Interface]"; "Address = 10.0.0.1/16";
     "ListenPort = 51820"; "PrivateKey = priv"; "PostUp = iptables -A"; EmptyString;
     "# laptop /  / id=p1"; "[Peer]"; "PublicKey = k1"; "AllowedIPs = 10.0.0.2/32"; EmptyString].
Proof.
  destruct (renderServer_exact (wit_server "laptop")) as (_ & _ & H).
  etransitivity; [apply H|vm_compute; reflexivity].
  unfold server_clean, peer_clean, no_nl. repeat split; try reflexivity.
  apply Forall_singleton. repeat split; reflexivity.
Defined.

Lemma peer_name_injects_line_witness :
  "PostUp = reboot" ∈ Split (renderServer (wit_server
    ("x" +:+ newline +:+ "PostUp = reboot" +:+ newline +:+ EmptyString))) nl.
Proof.
  eapply (peer_name_injects_line _ _ "x" "PostUp = reboot" EmptyString).
  - left.
  - reflexivity.
  - reflexivity.
  - reflexivity.
Defined.

Lemma server_keys_stable_witness :
  ∃ w1 w2, loadOrCreateKeys (Ok ("a", "A")) (wit_world []) = (Ok tt, w1) ∧
    loadOrCreateKeys (Ok ("b", "B")) w1 = (Ok tt, w2) ∧
    w_priv w1 = "a" ∧ w_pub w1 = "A" ∧ w_priv w2 = "a" ∧ w_pub w2 = "A".
Proof. apply (server_keys_stable "a" "A" (wit_world [])); [reflexivity|reflexivity|discriminate]. Defined.

Lemma server_public_key_lost_witness :
  ∃ w1 w2, loadOrCreateKeys (Ok ("a", "A")) (wit_world [None; None; Some (EMsg "disk full")]) =
      (Err (EMsg "disk full"), w1) ∧
    loadOrCreateKeys (Ok ("b", "B")) w1 = (Ok tt, w2) ∧ w_priv w2 = "a" ∧ w_pub w2 = EmptyString.
Proof. apply server_public_key_lost; [reflexivity|reflexivity|reflexivity|discriminate]. Defined.
