(* ===== verification/Sha256.v ===== *)
(** * SHA-256 (crypto/sha256)

    The hash the node applies to carrier secrets, to its public address and to
    uploaded objects, over lists of bytes, as FIPS 180-4 defines it.  It is
    executable; two test vectors of the standard are checked. *)
From S2P Require Import Prelude GoStrings.

Definition w32 (z : Z) : Z := z mod 2 ^ 32.
Definition rotr (n x : Z) : Z := Z.lor (Z.shiftr x n) (w32 (Z.shiftl x (32 - n))).
Definition not32 (x : Z) : Z := 2 ^ 32 - 1 - x.

Definition round_K : list Z :=
  [1116352408; 1899447441; 3049323471; 3921009573; 961987163; 1508970993; 2453635748;
    2870763221; 3624381080; 310598401; 607225278; 1426881987; 1925078388; 2162078206;
    2614888103; 3248222580; 3835390401; 4022224774; 264347078; 604807628; 770255983; 1249150122;
    1555081692; 1996064986; 2554220882; 2821834349; 2952996808; 3210313671; 3336571891;
    3584528711; 113926993; 338241895; 666307205; 773529912; 1294757372; 1396182291; 1695183700;
    1986661051; 2177026350; 2456956037; 2730485921; 2820302411; 3259730800; 3345764771;
    3516065817; 3600352804; 4094571909; 275423344; 430227734; 506948616; 659060556; 883997877;
    958139571; 1322822218; 1537002063; 1747873779; 1955562222; 2024104815; 2227730452;
    2361852424; 2428436474; 2756734187; 3204031479; 3329325298].
Definition init_H : list Z :=
  [1779033703; 3144134277; 1013904242; 2773480762; 1359893119; 2600822924; 528734635;
    1541459225].

(** The padding: a 1 bit, zeros, the length in bits on eight bytes. *)
Definition be_bytes (n : nat) (z : Z) : list Z :=
  reverse ((λ i, Z.shiftr z (8 * Z.of_nat i) mod 256) <$> seq 0 n).
Definition pad (m : list Z) : list Z :=
  let l := Z.of_nat (length m) in
  m ++ [128] ++ replicate (Z.to_nat ((55 - l) mod 64)) 0 ++ be_bytes 8 (8 * l).

(** Big-endian words of four bytes. *)
Fixpoint words (l : list Z) : list Z :=
  match l with
  | a :: b :: c :: d :: l => (a * 2 ^ 24 + b * 2 ^ 16 + c * 2 ^ 8 + d) :: words l
  | _ => []
  end.

Definition sigma0 (x : Z) : Z := Z.lxor (Z.lxor (rotr 7 x) (rotr 18 x)) (Z.shiftr x 3).
Definition sigma1 (x : Z) : Z := Z.lxor (Z.lxor (rotr 17 x) (rotr 19 x)) (Z.shiftr x 10).
Definition Sigma0 (x : Z) : Z := Z.lxor (Z.lxor (rotr 2 x) (rotr 13 x)) (rotr 22 x).
Definition Sigma1 (x : Z) : Z := Z.lxor (Z.lxor (rotr 6 x) (rotr 11 x)) (rotr 25 x).
Definition Ch (x y z : Z) : Z := Z.lxor (Z.land x y) (Z.land (not32 x) z).
Definition Maj (x y z : Z) : Z := Z.lxor (Z.lxor (Z.land x y) (Z.land x z)) (Z.land y z).

(** The message schedule, latest word first: 48 words after the first 16. *)
Fixpoint schedule (n : nat) (w : list Z) : list Z :=
  match n with
  | O => w
  | S n =>
      let at_ i := nth i w 0 in
      schedule n (w32 (sigma1 (at_ 1%nat) + at_ 6%nat + sigma0 (at_ 14%nat) + at_ 15%nat) :: w)
  end.

Definition round (s : list Z) (kw : Z * Z) : list Z :=
  match s with
  | [a; b; c; d; e; f; g; h] =>
      let t1 := w32 (h + Sigma1 e + Ch e f g + kw.1 + kw.2) in
      let t2 := w32 (Sigma0 a + Maj a b c) in
      [w32 (t1 + t2); a; b; c; w32 (d + t1); e; f; g]
  | _ => s
  end.

Definition block (s w : list Z) : list Z :=
  let sched := reverse (schedule 48 (reverse w)) in
  zip_with (λ x y, w32 (x + y)) s (foldl round s (zip round_K sched)).

(** One block of sixteen words after the other. *)
Fixpoint blocks (fuel : nat) (s w : list Z) : list Z :=
  match fuel with
  | O => s
  | S fuel => match w with [] => s | _ => blocks fuel (block s (take 16 w)) (drop 16 w) end
  end.

Definition Sum256 (m : list Z) : list Z :=
  let w := words (pad m) in
  concat (be_bytes 4 <$> blocks (length w) init_H w).

(** The bytes of a Go string. *)
Definition bytes_of (s : string) : list Z := code <$> String.list_ascii_of_string s.

Definition sha256_hex (s : string) : string := hex_encode (Sum256 (bytes_of s)).

Example sha256_empty :
  sha256_hex EmptyString = "e3b0c44298fc1c149afbf4c8996fb92427ae41e4649b934ca495991b7852b855".
Proof. vm_compute. reflexivity. Qed.

Example sha256_abc :
  sha256_hex "abc" = "ba7816bf8f01cfea414140de5dae2223b00361a396177a9cb410ff61f20015ad".
Proof. vm_compute. reflexivity. Qed.

Example sha256_two_blocks :
  sha256_hex "abcdbcdecdefdefgefghfghighijhijkijkljklmklmnlmnomnopnopq" =
  "248d6a61d20638b8e5c026930c3e6039a33ce45964ff2167f6ecedd419db06c1".
Proof. vm_compute. reflexivity. Qed.
