(* ===== verification/Stealth.v ===== *)
(** * The stealth carriers (internal/stealth)

    The node-wide secrets behind the [SettingsStore] interface, the sing-box
    options the node runs, the parameters and the profile handed to clients,
    and the life cycle of the embedded instance (Start, Close, rotations).

    [SettingsStore] is a class: what the store promises to this package.  The
    theorems about secrets are proved for every instance; the SQLite store is
    one ([store_settings]).

    Outside the model: sing-box itself.  [m_instance] is the options the
    running instance was built with; building and starting it may fail, as the
    schedule [m_box] says.  Random values are arguments. *)
From S2P Require Import Prelude GoStrings GoNet GoUrl StoreDB IPAlloc Store ConfigData Config.

(** ** The interface (secrets.go) *)

Class SettingsStore (S : Type) := {
  ss_Get : string → M S string;
  ss_Set : string → string → M S unit;
  (** The settings held, and that no failure is to come. *)
  ss_view : S → gmap string string;
  ss_quiet : S → Prop;
  ss_get_any : ∀ k s r s', ss_Get k s = (r, s') →
    ss_view s' = ss_view s ∧ (∀ v, r = Ok v → v = default EmptyString (ss_view s !! k));
  ss_get_quiet : ∀ k s, ss_quiet s → ss_Get k s = (Ok (default EmptyString (ss_view s !! k)), s);
  ss_set_any : ∀ k v s r s', ss_Set k v s = (r, s') →
    ss_view s' = match r with Ok _ => <[k := v]> (ss_view s) | Err _ => ss_view s end;
  ss_set_quiet : ∀ k v s, ss_quiet s → ∃ s', ss_Set k v s = (Ok tt, s') ∧ ss_quiet s';
}.

Lemma store_get_any k s r s' :
  GetSetting k s = (r, s') →
  node_settings (tbl s') = node_settings (tbl s) ∧
  (∀ v, r = Ok v → v = default EmptyString (node_settings (tbl s) !! k)).
Proof.
  intros [E Hr]%query_inv. rewrite E. split; [done|]. intros v ->.
  by destruct Hr as [[= ->]|[e [=]]].
Qed.

Lemma store_get_quiet k s :
  faults s = [] → GetSetting k s = (Ok (default EmptyString (node_settings (tbl s) !! k)), s).
Proof.
  intros Hf. unfold GetSetting, query, gets, driver, mbind, M_bind. by rewrite Hf.
Qed.

Lemma store_set_any k v s r s' :
  SetSetting k v s = (r, s') →
  node_settings (tbl s') =
    match r with Ok _ => <[k := v]> (node_settings (tbl s)) | Err _ => node_settings (tbl s) end.
Proof.
  intros [(a & t & [= <- <-] & -> & ->)|(e & -> & ->)]%exec_inv; done.
Qed.

Lemma store_set_quiet k v s :
  faults s = [] → ∃ s', SetSetting k v s = (Ok tt, s') ∧ faults s' = [].
Proof.
  intros Hf. unfold SetSetting, exec, run, driver, mbind, M_bind. rewrite Hf. cbn.
  rewrite Hf. eauto.
Qed.

#[export] Instance store_settings : SettingsStore DB := {|
  ss_Get := GetSetting;
  ss_Set := SetSetting;
  ss_view s := node_settings (tbl s);
  ss_quiet s := faults s = [];
  ss_get_any := store_get_any;
  ss_get_quiet := store_get_quiet;
  ss_set_any := store_set_any;
  ss_set_quiet := store_set_quiet;
|}.

(** ** Secrets (secrets.go) *)

Definition keyRealityPrivate : string := "stealth_reality_private_key".
Definition keyRealityPublic : string := "stealth_reality_public_key".
Definition keyRealityShortID : string := "stealth_reality_short_id".
Definition keyVLESSUUID : string := "stealth_vless_uuid".
Definition keyHysteria2Pass : string := "stealth_hysteria2_password".
Definition keyHysteria2Cert : string := "stealth_hysteria2_cert_pem".
Definition keyHysteria2Key : string := "stealth_hysteria2_key_pem".

Record Secrets := mkSecrets {
  s_RealityPrivateKey : string; s_RealityPublicKey : string; s_RealityShortID : string;
  s_VLESSUUID : string; s_Hysteria2Password : string;
}.

(** Fresh values: the x25519 pair (or the generator's error), randHex(4),
    uuid.NewString() and randToken(24). *)
Record Fresh := mkFresh {
  f_keypair : result (string * string); f_shortID : string; f_uuid : string; f_password : string;
}.

Section secrets.
Context {St : Type} {ST : SettingsStore St}.

Definition getOrSet (key def : string) : M St string :=
  v ← ss_Get key;
  if negb (String.eqb v EmptyString) then mret v
  else _ ← ss_Set key def; mret def.

Definition loadOrCreateSecrets (fr : Fresh) : M St Secrets :=
  priv ← ss_Get keyRealityPrivate;
  priv ← (if String.eqb priv EmptyString then
            '(priv, pubStr) ← lift (f_keypair fr);
            _ ← ss_Set keyRealityPrivate priv;
            _ ← ss_Set keyRealityPublic pubStr;
            mret priv
          else mret priv);
  pub ← ss_Get keyRealityPublic;
  short ← getOrSet keyRealityShortID (f_shortID fr);
  vless ← getOrSet keyVLESSUUID (f_uuid fr);
  pass ← getOrSet keyHysteria2Pass (f_password fr);
  mret (mkSecrets priv pub short vless pass).

(** tlscert.go; [cert] is the outcome of generateSelfSigned. *)
Definition loadOrCreateCert (cert : result (string * string)) : M St (string * string) :=
  certPEM ← ss_Get keyHysteria2Cert;
  keyPEM ← ss_Get keyHysteria2Key;
  if negb (String.eqb certPEM EmptyString) && negb (String.eqb keyPEM EmptyString)
  then mret (certPEM, keyPEM)
  else
    '(certPEM, keyPEM) ← lift cert;
    _ ← ss_Set keyHysteria2Cert certPEM;
    _ ← ss_Set keyHysteria2Key keyPEM;
    mret (certPEM, keyPEM).
End secrets.

(** ** sing-box options (stealth.go): the fields the node sets *)

Record VLESSUser := mkVLESSUser { vu_Name : string; vu_UUID : string; vu_Flow : string }.
Record VLESSInbound := mkVLESSInbound {
  vi_Listen : string; vi_ListenPort : Z; vi_Users : list VLESSUser;
  vi_TLS_ServerName : string; vi_Handshake_Server : string; vi_Handshake_Port : Z;
  vi_PrivateKey : string; vi_ShortID : list string;
}.
Record Hysteria2Inbound := mkHysteria2Inbound {
  hi_Listen : string; hi_ListenPort : Z; hi_IgnoreClientBandwidth : bool;
  hi_Users : list (string * string); hi_TLS_ServerName : string; hi_ALPN : list string;
  hi_Certificate : list string; hi_Key : list string; hi_Obfs : option (string * string);
}.
Inductive Inbound :=
| InVLESS (tag : string) (o : VLESSInbound)
| InHysteria2 (tag : string) (o : Hysteria2Inbound).
(** A direct outbound with its override address and port. *)
Record DirectOutbound := mkDirect { do_Tag : string; do_OverrideAddress : string; do_OverridePort : Z }.
Record BoxOptions := mkBox {
  bo_LogLevel : string; bo_Inbounds : list Inbound; bo_Outbounds : list DirectOutbound;
  bo_RouteFinal : string;
}.

Definition vlessFlowVision : string := "xtls-rprx-vision".

Definition splitHostPort (s : string) (def : Z) : string * Z :=
  match cut_last ":"%char s with
  | None => (s, def)
  | Some (host, port) =>
      match ParseInt port with
      | Some p => if (p <=? 0) || (65535 <? p) then (host, def) else (host, p)
      | None => (host, def)
      end
  end.

Section options.
Context (cfg : Config).

Definition vlessInbound (s : Secrets) : Inbound :=
  let '(host, port) := splitHostPort (RealityHandshakeTarget cfg) 443 in
  InVLESS "vless-reality"
    (mkVLESSInbound "0.0.0.0" (wrap_uint16 (VLESSPortInt cfg))
       [mkVLESSUser "erebrus" (s_VLESSUUID s) vlessFlowVision]
       (RealitySNI cfg) host port (s_RealityPrivateKey s) [s_RealityShortID s]).

Definition hysteria2Inbound (s : Secrets) (certPEM keyPEM : string) : Inbound :=
  InHysteria2 "hysteria2"
    (mkHysteria2Inbound "0.0.0.0" (wrap_uint16 (Hysteria2PortInt cfg)) true
       [("erebrus", s_Hysteria2Password s)] (RealitySNI cfg) ["h3"] [certPEM] [keyPEM]
       (if String.eqb (c_Hysteria2ObfsPassword cfg) EmptyString then None
        else Some ("salamander", c_Hysteria2ObfsPassword cfg))).

Definition serverOptions (s : Secrets) (certPEM keyPEM : string) : BoxOptions :=
  mkBox (if String.eqb (c_RunType cfg) "debug" then "info" else "warn")
    [vlessInbound s; hysteria2Inbound s certPEM keyPEM]
    [mkDirect "direct" "127.0.0.1" (wrap_uint16 (WGEndpointPortInt cfg))]
    "direct".

(** ** The manager (stealth.go) *)

(** [m_box]: the outcome of the next builds and starts of an instance. *)
Record Manager (St : Type) := mkManager {
  m_st : St; m_secrets : option Secrets; m_certPEM : string; m_keyPEM : string;
  m_instance : option BoxOptions; m_running : bool; m_box : list (option error);
}.
Arguments mkManager {St}. Arguments m_st {St}. Arguments m_secrets {St}.
Arguments m_certPEM {St}. Arguments m_keyPEM {St}. Arguments m_instance {St}.
Arguments m_running {St}. Arguments m_box {St}.

Context {St : Type} {ST : SettingsStore St}.

Definition set_st (s : St) (m : Manager St) : Manager St :=
  mkManager s (m_secrets m) (m_certPEM m) (m_keyPEM m) (m_instance m) (m_running m) (m_box m).
Definition set_secrets (x : option Secrets) (m : Manager St) : Manager St :=
  mkManager (m_st m) x (m_certPEM m) (m_keyPEM m) (m_instance m) (m_running m) (m_box m).
Definition set_cert (c k : string) (m : Manager St) : Manager St :=
  mkManager (m_st m) (m_secrets m) c k (m_instance m) (m_running m) (m_box m).
Definition set_instance (i : option BoxOptions) (r : bool) (m : Manager St) : Manager St :=
  mkManager (m_st m) (m_secrets m) (m_certPEM m) (m_keyPEM m) i r (m_box m).
Definition set_box (b : list (option error)) (m : Manager St) : Manager St :=
  mkManager (m_st m) (m_secrets m) (m_certPEM m) (m_keyPEM m) (m_instance m) (m_running m) b.

Definition on_st {A} (x : M St A) : M (Manager St) A := zoom m_st set_st x.
Definition modify (f : Manager St → Manager St) : M (Manager St) unit := run (λ m, (Ok tt, f m)).

(** box.New followed by instance.Start. *)
Definition box_start : M (Manager St) unit := run (λ m,
  match m_box m with
  | Some e :: l => (Err (EWrap "stealth: start sing-box: " e EmptyString), set_box l m)
  | None :: l => (Ok tt, set_box l m)
  | [] => (Ok tt, m)
  end).

Definition wrap_err {A} (pre : string) (x : M (Manager St) A) : M (Manager St) A :=
  r ← try x; match r with Ok a => mret a | Err e => fail (EWrap pre e EmptyString) end.

Definition Init (fr : Fresh) (cert : result (string * string)) : M (Manager St) unit :=
  secrets ← wrap_err "stealth secrets: " (on_st (loadOrCreateSecrets fr));
  '(c, k) ← wrap_err "stealth cert: " (on_st (loadOrCreateCert cert));
  modify (λ m, set_cert c k (set_secrets (Some secrets) m)).

Definition Start : M (Manager St) unit :=
  if negb (c_EnableStealth cfg) then mret tt else
  m ← get;
  match m_secrets m with
  | None => fail (EMsg "stealth: Init not called")
  | Some s =>
      _ ← box_start;
      modify (set_instance (Some (serverOptions s (m_certPEM m) (m_keyPEM m))) true)
  end.

Definition Close : M (Manager St) unit := modify (set_instance None false).

Definition RotateAllSecrets (fr init_fr : Fresh) (cert : result (string * string))
    : M (Manager St) unit :=
  m ← get;
  _ ← (match m_secrets m with None => Init init_fr cert | Some _ => mret tt end);
  _ ← on_st (ss_Set keyVLESSUUID (f_uuid fr));
  _ ← on_st (ss_Set keyRealityShortID (f_shortID fr));
  _ ← on_st (ss_Set keyHysteria2Pass (f_password fr));
  secrets ← on_st (loadOrCreateSecrets fr);
  _ ← modify (set_secrets (Some secrets));
  m ← get;
  let wasRunning := m_running m in
  _ ← (if wasRunning then Close else mret tt);
  if wasRunning && c_EnableStealth cfg then Start else mret tt.

Definition RotateReality (shortID : string) : M (Manager St) string :=
  m ← get;
  match m_secrets m with
  | None => fail (EMsg "stealth: not initialized")
  | Some s =>
      _ ← on_st (ss_Set keyRealityShortID shortID);
      _ ← modify (set_secrets (Some (mkSecrets (s_RealityPrivateKey s) (s_RealityPublicKey s)
             shortID (s_VLESSUUID s) (s_Hysteria2Password s))));
      m ← get;
      _ ← (if m_running m then _ ← Close; Start else mret tt);
      mret shortID
  end.
End options.
Arguments mkManager {St}. Arguments m_st {St}. Arguments m_secrets {St}.
Arguments m_certPEM {St}. Arguments m_keyPEM {St}. Arguments m_instance {St}.
Arguments m_running {St}. Arguments m_box {St}.

(** ** What clients are given (profile.go) *)

Definition ClientPrivateKeyPlaceholder : string := "REPLACE_WITH_CLIENT_PRIVATE_KEY".

Record ParamsT := mkParams {
  pm_Enabled : bool; pm_Host : string; pm_VLESSPort : Z; pm_Hysteria2Port : Z; pm_SNI : string;
  pm_VLESSUUID : string; pm_VLESSFlow : string; pm_RealityPublicKey : string;
  pm_RealityShortID : string; pm_Hysteria2Password : string; pm_Hysteria2Obfs : string;
}.

Definition no_params : ParamsT :=
  mkParams false EmptyString 0 0 EmptyString EmptyString EmptyString EmptyString EmptyString
    EmptyString EmptyString.

Definition Params (cfg : Config) (secrets : option Secrets) : ParamsT :=
  match secrets with
  | Some s =>
      if c_EnableStealth cfg then
        mkParams true (c_WGEndpointHost cfg) (VLESSPortInt cfg) (Hysteria2PortInt cfg)
          (RealitySNI cfg) (s_VLESSUUID s) vlessFlowVision (s_RealityPublicKey s)
          (s_RealityShortID s) (s_Hysteria2Password s) (c_Hysteria2ObfsPassword cfg)
      else no_params
  | None => no_params
  end.

Definition vlessURI {srt : Sorting} (p : ParamsT) (label : string) : string :=
  "vless://" +:+ pm_VLESSUUID p +:+ "@" +:+ pm_Host p +:+ ":" +:+ Itoa (pm_VLESSPort p) +:+ "?" +:+
  Encode [("encryption", "none"); ("flow", pm_VLESSFlow p); ("security", "reality");
          ("sni", pm_SNI p); ("fp", "chrome"); ("pbk", pm_RealityPublicKey p);
          ("sid", pm_RealityShortID p); ("type", "tcp")] +:+ "#" +:+ PathEscape label.

Definition hysteria2URI {srt : Sorting} (p : ParamsT) (label : string) : string :=
  "hysteria2://" +:+ QueryEscape (pm_Hysteria2Password p) +:+ "@" +:+ pm_Host p +:+ ":" +:+
  Itoa (pm_Hysteria2Port p) +:+ "?" +:+
  Encode ([("sni", pm_SNI p); ("insecure", "1"); ("alpn", "h3")] ++
    if String.eqb (pm_Hysteria2Obfs p) EmptyString then []
    else [("obfs", "salamander"); ("obfs-password", pm_Hysteria2Obfs p)]) +:+
  "#" +:+ PathEscape label.

Definition singboxProfile (cfg : Config) (p : ParamsT) (serverWGPub clientAddrCIDR psk : string)
    : json :=
  let wgPeer := JObj (
    [("address", JStr "127.0.0.1"); ("port", JNum (WGEndpointPortInt cfg));
     ("public_key", JStr serverWGPub); ("allowed_ips", JArr [JStr "0.0.0.0/0"; JStr "::/0"]);
     ("persistent_keepalive_interval", JNum 25)] ++
    if String.eqb psk EmptyString then [] else [("pre_shared_key", JStr psk)]) in
  let vlessTLS := JObj
    [("enabled", JBool true); ("server_name", JStr (pm_SNI p));
     ("utls", JObj [("enabled", JBool true); ("fingerprint", JStr "chrome")]);
     ("reality", JObj [("enabled", JBool true); ("public_key", JStr (pm_RealityPublicKey p));
                       ("short_id", JStr (pm_RealityShortID p))])] in
  let hy2TLS := JObj
    [("enabled", JBool true); ("server_name", JStr (pm_SNI p)); ("insecure", JBool true);
     ("alpn", JArr [JStr "h3"])] in
  let hy2Out := JObj (
    [("type", JStr "hysteria2"); ("tag", JStr "carrier-hysteria2"); ("server", JStr (pm_Host p));
     ("server_port", JNum (pm_Hysteria2Port p)); ("password", JStr (pm_Hysteria2Password p));
     ("tls", hy2TLS)] ++
    if String.eqb (pm_Hysteria2Obfs p) EmptyString then []
    else [("obfs", JObj [("type", JStr "salamander"); ("password", JStr (pm_Hysteria2Obfs p))])]) in
  JObj
    [("log", JObj [("level", JStr "warn")]);
     ("endpoints", JArr [JObj
        [("type", JStr "wireguard"); ("tag", JStr "wg-out"); ("address", JArr [JStr clientAddrCIDR]);
         ("private_key", JStr ClientPrivateKeyPlaceholder); ("peers", JArr [wgPeer]);
         ("detour", JStr "carrier-vless")]]);
     ("outbounds", JArr [
        JObj [("type", JStr "vless"); ("tag", JStr "carrier-vless"); ("server", JStr (pm_Host p));
              ("server_port", JNum (pm_VLESSPort p)); ("uuid", JStr (pm_VLESSUUID p));
              ("flow", JStr (pm_VLESSFlow p)); ("tls", vlessTLS)];
        hy2Out]);
     ("route", JObj [("final", JStr "wg-out")])].

Record PeerStealth := mkPeerStealth {
  ps_VLESSURI : string; ps_Hysteria2URI : string; ps_SingboxProfile : json;
}.

Definition BuildPeer {srt : Sorting} (cfg : Config) (secrets : option Secrets)
    (label serverWGPub clientAddrCIDR psk : string) : PeerStealth :=
  let p := Params cfg secrets in
  mkPeerStealth (vlessURI p label) (hysteria2URI p label)
    (singboxProfile cfg p serverWGPub clientAddrCIDR psk).

(** ** Secrets: lemmas over the interface *)

Section secrets_lemmas.
Context {St : Type} {ST : SettingsStore St}.

Definition setting (s : St) (k : string) : string := default EmptyString (ss_view s !! k).

(** Two stores that agree on the settings other than [k]. *)
Definition others_kept (k : string) (s s' : St) : Prop :=
  ∀ k', k' ≠ k → setting s' k' = setting s k'.

Lemma getOrSet_spec k d s v s' :
  getOrSet k d s = (Ok v, s') → d ≠ EmptyString →
  v ≠ EmptyString ∧ setting s' k = v ∧ others_kept k s s' ∧
  (setting s k ≠ EmptyString → v = setting s k).
Proof.
  intros (v0 & s1 & E1 & E2)%bind_ok Hd. destruct (ss_get_any _ _ _ _ E1) as [Hv Hr].
  specialize (Hr v0 eq_refl). destruct (String.eqb_spec v0 EmptyString) as [->|Hne]; cbn [negb] in E2.
  - apply bind_ok in E2 as ([] & s2 & E2 & [= <- <-]). pose proof (ss_set_any _ _ _ _ _ E2) as Hs.
    cbn in Hs. split; [done|]. unfold setting, others_kept. rewrite Hs, lookup_insert_eq.
    split; [done|]. split; [|congruence].
    intros k' Hk. unfold setting. by rewrite Hs, lookup_insert_ne, Hv.
  - injection E2 as <- <-. split; [done|]. unfold setting, others_kept. rewrite Hv.
    split; [done|]. split; [|done]. intros k' _. unfold setting. by rewrite Hv.
Qed.

Lemma getOrSet_quiet k d s :
  ss_quiet s → setting s k ≠ EmptyString → getOrSet k d s = (Ok (setting s k), s).
Proof.
  intros Hq Hne. unfold getOrSet. rewrite (bind_Ok _ _ _ _ _ (ss_get_quiet k s Hq)).
  fold (setting s k). by rewrite (proj2 (String.eqb_neq _ _) Hne).
Qed.

Definition fresh_ok (fr : Fresh) : Prop :=
  (∀ priv pub, f_keypair fr = Ok (priv, pub) → priv ≠ EmptyString) ∧
  f_shortID fr ≠ EmptyString ∧ f_uuid fr ≠ EmptyString ∧ f_password fr ≠ EmptyString.

(** The store holds exactly these secrets, none of them empty except perhaps
    the public key. *)
Definition holds (s : St) (x : Secrets) : Prop :=
  setting s keyRealityPrivate = s_RealityPrivateKey x ∧
  setting s keyRealityPublic = s_RealityPublicKey x ∧
  setting s keyRealityShortID = s_RealityShortID x ∧
  setting s keyVLESSUUID = s_VLESSUUID x ∧
  setting s keyHysteria2Pass = s_Hysteria2Password x ∧
  s_RealityPrivateKey x ≠ EmptyString ∧ s_RealityShortID x ≠ EmptyString ∧
  s_VLESSUUID x ≠ EmptyString ∧ s_Hysteria2Password x ≠ EmptyString.

(** The keypair step: the private key is in the store afterwards. *)
Lemma load_keypair_spec fr s priv s' :
  fresh_ok fr →
  (priv ← ss_Get keyRealityPrivate;
   if String.eqb priv EmptyString then
     '(priv, pubStr) ← lift (f_keypair fr);
     _ ← ss_Set keyRealityPrivate priv; _ ← ss_Set keyRealityPublic pubStr; mret priv
   else mret priv) s = (Ok priv, s') →
  priv ≠ EmptyString ∧ setting s' keyRealityPrivate = priv ∧
  ∀ k, k ≠ keyRealityPrivate → k ≠ keyRealityPublic → setting s' k = setting s k.
Proof.
  intros [Hk _] (v0 & s1 & E1 & E2)%bind_ok. destruct (ss_get_any _ _ _ _ E1) as [Hv Hr].
  specialize (Hr v0 eq_refl). destruct (String.eqb_spec v0 EmptyString) as [->|Hne].
  - apply bind_ok in E2 as ([p pub] & s2 & E2 & E3). injection E2 as Ep <-.
    apply bind_ok in E3 as ([] & s3 & E3 & E4). apply bind_ok in E4 as ([] & s4 & E4 & [= <- <-]).
    pose proof (ss_set_any _ _ _ _ _ E3) as H3. pose proof (ss_set_any _ _ _ _ _ E4) as H4.
    cbn in H3, H4. split; [by eapply Hk|]. unfold setting. rewrite H4, H3. split.
    + by rewrite lookup_insert_ne, lookup_insert_eq.
    + intros k H1 H2. by rewrite !lookup_insert_ne, Hv.
  - injection E2 as <- <-. split; [done|]. unfold setting. rewrite Hv. split; done.
Qed.

Lemma loadOrCreateSecrets_holds fr s x s' :
  fresh_ok fr → loadOrCreateSecrets fr s = (Ok x, s') →
  holds s' x ∧
  (setting s keyRealityShortID ≠ EmptyString → s_RealityShortID x = setting s keyRealityShortID) ∧
  (setting s keyVLESSUUID ≠ EmptyString → s_VLESSUUID x = setting s keyVLESSUUID) ∧
  (setting s keyHysteria2Pass ≠ EmptyString → s_Hysteria2Password x = setting s keyHysteria2Pass).
Proof.
  intros Hf E. unfold loadOrCreateSecrets in E.
  apply bind_ok in E as (p0 & s0 & E0 & E). apply bind_ok in E as (priv & s1 & E1 & E).
  assert ((priv ← ss_Get keyRealityPrivate;
    if String.eqb priv EmptyString then
      '(priv, pubStr) ← lift (f_keypair fr);
      _ ← ss_Set keyRealityPrivate priv; _ ← ss_Set keyRealityPublic pubStr; mret priv
    else mret priv) s = (Ok priv, s1)) as Ek by (by rewrite (bind_Ok _ _ _ _ _ E0)).
  destruct (load_keypair_spec _ _ _ _ Hf Ek) as (Kne & Kset & Kk). destruct Hf as (_ & Fs & Fu & Fp).
  apply bind_ok in E as (pub & s2 & E2 & E). destruct (ss_get_any _ _ _ _ E2) as [V2 R2].
  specialize (R2 pub eq_refl).
  apply bind_ok in E as (short & s3 & E3 & E). destruct (getOrSet_spec _ _ _ _ _ E3 Fs) as (N3 & S3 & O3 & G3).
  apply bind_ok in E as (vless & s4 & E4 & E). destruct (getOrSet_spec _ _ _ _ _ E4 Fu) as (N4 & S4 & O4 & G4).
  apply bind_ok in E as (pass & s5 & E5 & [= <- <-]).
  destruct (getOrSet_spec _ _ _ _ _ E5 Fp) as (N5 & S5 & O5 & G5).
  assert (∀ k, setting s2 k = setting s1 k) as H2 by (intros; unfold setting; by rewrite V2).
  split; [|cbn; rewrite <- !(Kk keyRealityShortID), <- !(Kk keyVLESSUUID), <- !(Kk keyHysteria2Pass), <- !H2 by done;
    split; [done|]; split;
    [rewrite <- (O3 keyVLESSUUID) by done; done
    |rewrite <- (O3 keyHysteria2Pass), <- (O4 keyHysteria2Pass) by done; done]].
  unfold holds. cbn.
  rewrite !(O5 keyRealityPrivate), !(O5 keyRealityPublic), !(O5 keyRealityShortID), !(O5 keyVLESSUUID),
    !(O4 keyRealityPrivate), !(O4 keyRealityPublic), !(O4 keyRealityShortID),
    !(O3 keyRealityPrivate), !(O3 keyRealityPublic), !H2 by done.
  repeat split; try done.
Qed.

Lemma loadOrCreateSecrets_quiet fr s x :
  ss_quiet s → holds s x → loadOrCreateSecrets fr s = (Ok x, s).
Proof.
  intros Hq (H1 & H2 & H3 & H4 & H5 & N1 & N3 & N4 & N5). unfold loadOrCreateSecrets.
  rewrite (bind_Ok _ _ _ _ _ (ss_get_quiet keyRealityPrivate s Hq)). fold (setting s keyRealityPrivate).
  rewrite H1, (proj2 (String.eqb_neq _ _) N1).
  rewrite (bind_Ok _ _ _ (s_RealityPrivateKey x) s) by done.
  rewrite (bind_Ok _ _ _ _ _ (ss_get_quiet keyRealityPublic s Hq)). fold (setting s keyRealityPublic).
  rewrite (bind_Ok _ _ _ _ _ (getOrSet_quiet keyRealityShortID (f_shortID fr) s Hq ltac:(congruence))).
  rewrite (bind_Ok _ _ _ _ _ (getOrSet_quiet keyVLESSUUID (f_uuid fr) s Hq ltac:(congruence))).
  rewrite (bind_Ok _ _ _ _ _ (getOrSet_quiet keyHysteria2Pass (f_password fr) s Hq ltac:(congruence))).
  rewrite H2, H3, H4, H5. by destruct x.
Qed.
End secrets_lemmas.

(** ** The manager as a state machine *)

Section manager.
Context {St : Type} {ST : SettingsStore St} (cfg : Config).

Inductive mgr_op :=
| MInit (fr : Fresh) (cert : result (string * string))
| MStart
| MClose
| MRotateAll (fr init_fr : Fresh) (cert : result (string * string))
| MRotateReality (shortID : string).

Definition exec_mgr (op : mgr_op) : M (Manager St) unit :=
  match op with
  | MInit fr cert => Init fr cert
  | MStart => Start cfg
  | MClose => Close
  | MRotateAll fr init_fr cert => RotateAllSecrets cfg fr init_fr cert
  | MRotateReality short => _ ← RotateReality cfg short; mret tt
  end.

(** New(cfg, st). *)
Definition new_manager (st : St) (box : list (option error)) : Manager St :=
  mkManager st None EmptyString EmptyString None false box.

(** Executions.  The node calls Init once, before Start. *)
Inductive mgr_steps : Manager St → list mgr_op → Manager St → Prop :=
| mgr_nil m : mgr_steps m [] m
| mgr_cons m op r m1 ops m2 :
    (∀ fr cert, op = MInit fr cert → m_running m = false) →
    exec_mgr op m = (r, m1) → mgr_steps m1 ops m2 → mgr_steps m (op :: ops) m2.

(** A running instance was built from the secrets the manager holds now;
    otherwise there is no instance. *)
Definition current (m : Manager St) : Prop :=
  if m_running m then
    c_EnableStealth cfg = true ∧ ∃ s, m_secrets m = Some s ∧
      m_instance m = Some (serverOptions cfg s (m_certPEM m) (m_keyPEM m))
  else m_instance m = None.

Lemma on_st_inv {A} (x : M St A) m r m' :
  on_st x m = (r, m') → ∃ s, m' = set_st s m.
Proof. intros (s & _ & ->)%zoom_inv. eauto. Qed.

Lemma current_set_st s m : current (set_st s m) ↔ current m.
Proof. done. Qed.

Lemma wrap_err_inv {A} pre (x : M (Manager St) A) m r m' :
  wrap_err pre x m = (r, m') → ∃ r0, x m = (r0, m').
Proof.
  unfold wrap_err, try, mbind, M_bind. destruct (x m) as [[a|e] m1]; intros [= <- <-]; eauto.
Qed.

Lemma Init_inv fr cert (m : Manager St) r m' :
  Init fr cert m = (r, m') →
  m_running m' = m_running m ∧ m_instance m' = m_instance m ∧
  (r = Ok tt → is_Some (m_secrets m')).
Proof.
  intros [(s & m1 & E1 & E2)|(e & E & ->)]%bind_inv.
  2:{ apply wrap_err_inv in E as (r0 & E). apply on_st_inv in E as (s & ->). done. }
  apply wrap_err_inv in E1 as (r1 & E1). apply on_st_inv in E1 as (s1 & ->).
  apply bind_inv in E2 as [([c k] & m2 & E2 & [= <- <-])|(e & E & ->)].
  - apply wrap_err_inv in E2 as (r2 & E2). apply on_st_inv in E2 as (s2 & ->). by repeat split.
  - apply wrap_err_inv in E as (r2 & E). apply on_st_inv in E as (s2 & ->). done.
Qed.

Lemma box_start_inv (m : Manager St) r m' :
  box_start m = (r, m') → ∃ b, m' = set_box b m.
Proof.
  unfold box_start, run. destruct (m_box m) as [|[e|] l] eqn:Eb; intros [= <- <-]; eauto.
  exists []. destruct m; cbn in *; by rewrite Eb.
Qed.

(** Start either leaves the instance alone or runs the current secrets. *)
Lemma Start_inv (m : Manager St) r m' :
  Start cfg m = (r, m') →
  m_secrets m' = m_secrets m ∧ m_certPEM m' = m_certPEM m ∧ m_keyPEM m' = m_keyPEM m ∧
  ((m_running m' = m_running m ∧ m_instance m' = m_instance m) ∨ (m_running m' = true ∧ current m')).
Proof.
  unfold Start. destruct (c_EnableStealth cfg) eqn:Ee; cbn [negb];
    [|intros [= <- <-]; by repeat split; auto].
  rewrite (bind_Ok _ _ _ m m) by done. destruct (m_secrets m) as [s|] eqn:Es.
  - intros [([] & m1 & (b & ->)%box_start_inv & [= <- <-])|(e & (b & ->)%box_start_inv & ->)]%bind_inv.
    + split; [done|]. split; [done|]. split; [done|]. right. split; [done|]. unfold current. cbn.
      split; [done|]. eauto.
    + repeat split; auto.
  - intros [= <- <-]. repeat split; auto.
Qed.

Lemma Start_current m r m' : current m → Start cfg m = (r, m') → current m'.
Proof.
  intros Hc (H1 & H2 & H3 & [[H4 H5]|[_ H]])%Start_inv; [|done].
  unfold current in *. rewrite H4. destruct (m_running m); [|congruence].
  destruct Hc as (He & s & Hs & Hi). split; [done|]. exists s. split; [congruence|].
  by rewrite H5, H2, H3.
Qed.

Lemma current_stopped m : m_running m = false → m_instance m = None → current m.
Proof. unfold current. by intros -> ->. Qed.

(** New secrets, then a restart when the instance was running. *)
Lemma restart_current s (m : Manager St) r m' :
  current m →
  (m1 ← get; _ ← (if m_running m1 then _ ← Close; Start cfg else mret tt); mret tt)
    (set_secrets (Some s) m) = (r, m') → current m'.
Proof.
  intros Hc. rewrite (bind_Ok _ _ _ (set_secrets (Some s) m) (set_secrets (Some s) m)) by done.
  cbn [m_running set_secrets]. unfold current in Hc. destruct (m_running m) eqn:Er.
  - intros E. assert (∃ r1, Start cfg (set_instance None false (set_secrets (Some s) m)) = (r1, m')) as [r1 E1].
    { apply bind_inv in E as [([] & m1 & E & [= <- <-])|(e & E & ->)];
        rewrite (bind_Ok _ _ _ tt (set_instance None false (set_secrets (Some s) m))) in E by done; eauto. }
    eapply Start_current; [|exact E1]. by apply current_stopped.
  - intros [= <- <-]. by apply current_stopped.
Qed.

Lemma RotateReality_current short m r m' :
  current m → RotateReality cfg short m = (r, m') → current m'.
Proof.
  intros Hc. unfold RotateReality. rewrite (bind_Ok _ _ _ m m) by done.
  destruct (m_secrets m) as [s|]; [|by intros [= <- <-]].
  intros [([] & m1 & (s1 & ->)%on_st_inv & E)|(e & (s1 & ->)%on_st_inv & _)]%bind_inv; [|done].
  set (s' := mkSecrets _ _ _ _ _) in E.
  rewrite (bind_Ok _ _ _ tt (set_secrets (Some s') (set_st s1 m))) in E by done.
  rewrite (bind_Ok _ _ _ (set_secrets (Some s') (set_st s1 m)) (set_secrets (Some s') (set_st s1 m))) in E by done.
  assert (∃ r1, (m1 ← get; _ ← (if m_running m1 then _ ← Close; Start cfg else mret tt); mret tt)
    (set_secrets (Some s') (set_st s1 m)) = (r1, m')) as [r1 E1].
  { rewrite (bind_Ok _ _ _ (set_secrets (Some s') (set_st s1 m)) (set_secrets (Some s') (set_st s1 m))) by done.
    apply bind_inv in E as [([] & m2 & E2 & [= <- <-])|(e & E2 & _)];
      [rewrite (bind_Ok _ _ _ _ _ E2)|rewrite (bind_Err _ _ _ _ _ E2)]; eauto. }
  eapply restart_current; [|exact E1]. done.
Qed.

Lemma RotateAll_current fr ifr cert m r m' :
  current m → RotateAllSecrets cfg fr ifr cert m = (r, m') → current m'.
Proof.
  intros Hc. unfold RotateAllSecrets. rewrite (bind_Ok _ _ _ m m) by done.
  assert (∀ r0 m1, (match m_secrets m with None => Init ifr cert | Some _ => mret tt end) m = (r0, m1) →
    current m1) as Hinit.
  { intros r0 m1. unfold current in Hc. destruct (m_secrets m) as [s|] eqn:Es;
      [intros [= <- <-]; unfold current; by rewrite Es|].
    intros (H1 & H2 & _)%Init_inv. destruct (m_running m) eqn:Er; [by destruct Hc as (_ & s & [=] & _)|].
    apply current_stopped; congruence. }
  intros [([] & m1 & E1 & E)|(e & E & _)]%bind_inv; [|by eapply Hinit]. apply Hinit in E1. clear Hc Hinit.
  apply bind_inv in E as [([] & m2 & (s2 & ->)%on_st_inv & E)|(e & (s2 & ->)%on_st_inv & _)]; [|done].
  apply bind_inv in E as [([] & m3 & (s3 & ->)%on_st_inv & E)|(e & (s3 & ->)%on_st_inv & _)]; [|done].
  apply bind_inv in E as [([] & m4 & (s4 & ->)%on_st_inv & E)|(e & (s4 & ->)%on_st_inv & _)]; [|done].
  apply bind_inv in E as [(sec & m5 & (s5 & ->)%on_st_inv & E)|(e & (s5 & ->)%on_st_inv & _)]; [|done].
  cbn [set_st] in E. set (m5 := set_st s5 m1 : Manager St).
  assert (current m5) as H5 by done.
  rewrite (bind_Ok _ _ _ tt (set_secrets (Some sec) m5)) in E by done.
  rewrite (bind_Ok _ _ _ (set_secrets (Some sec) m5) (set_secrets (Some sec) m5)) in E by done.
  cbn zeta in E. cbn [m_running set_secrets] in E. unfold current in H5.
  destruct (m_running m5) eqn:Er.
  - rewrite (bind_Ok _ _ _ tt (set_instance None false (set_secrets (Some sec) m5))) in E by done.
    destruct H5 as (He & _). rewrite He in E. cbn [andb] in E.
    eapply Start_current; [|exact E]. by apply current_stopped.
  - rewrite (bind_Ok _ _ _ tt (set_secrets (Some sec) m5)) in E by done. injection E as <- <-.
    by apply current_stopped.
Qed.
End manager.

(** What a successful rotation leaves: the fresh secrets, in the store, in
    memory and, when the carriers run, in the running instance. *)
Section rotation.
Context {St : Type} {ST : SettingsStore St} (cfg : Config).

Lemma on_st_ok {A} (x : M St A) m a m' :
  on_st x m = (Ok a, m') → x (m_st m) = (Ok a, m_st m') ∧ m' = set_st (m_st m') m.
Proof. intros (s & E & ->)%zoom_inv. done. Qed.

Lemma set_setting k v (s : St) s' :
  ss_Set k v s = (Ok tt, s') → setting s' k = v ∧ others_kept k s s'.
Proof.
  intros H%ss_set_any. cbn in H. unfold others_kept, setting. rewrite H, lookup_insert_eq.
  split; [done|]. intros k' Hk. by rewrite lookup_insert_ne.
Qed.

Lemma RotateAll_installs fr ifr cert (m : Manager St) m' :
  fresh_ok fr → RotateAllSecrets cfg fr ifr cert m = (Ok tt, m') →
  ∃ x, m_secrets m' = Some x ∧ s_VLESSUUID x = f_uuid fr ∧
    s_RealityShortID x = f_shortID fr ∧ s_Hysteria2Password x = f_password fr ∧
    holds (m_st m') x.
Proof.
  intros Hf. unfold RotateAllSecrets. rewrite (bind_Ok _ _ _ m m) by done.
  intros ([] & m1 & _ & E)%bind_ok. pose proof Hf as (_ & F1 & F2 & F3).
  apply bind_ok in E as ([] & m2 & [E2 Q2]%on_st_ok & E). apply set_setting in E2 as [S2 O2].
  apply bind_ok in E as ([] & m3 & [E3 Q3]%on_st_ok & E). apply set_setting in E3 as [S3 O3].
  apply bind_ok in E as ([] & m4 & [E4 Q4]%on_st_ok & E). apply set_setting in E4 as [S4 O4].
  apply bind_ok in E as (sec & m5 & [E5 Q5]%on_st_ok & E).
  destruct (loadOrCreateSecrets_holds _ _ _ _ Hf E5) as (H & G1 & G2 & G3).
  assert (setting (m_st m4) keyVLESSUUID = f_uuid fr) as T1 by (by rewrite (O4 keyVLESSUUID), (O3 keyVLESSUUID)).
  assert (setting (m_st m4) keyRealityShortID = f_shortID fr) as T2 by (by rewrite (O4 keyRealityShortID)).
  assert (m_secrets m' = Some sec ∧ m_st m' = m_st m5) as [Hsec Hst].
  { rewrite (bind_Ok _ _ _ tt (set_secrets (Some sec) m5)) in E by done.
    rewrite (bind_Ok _ _ _ (set_secrets (Some sec) m5) (set_secrets (Some sec) m5)) in E by done.
    cbn zeta in E. cbn [m_running set_secrets] in E.
    apply bind_ok in E as ([] & m6 & E6 & E). assert (m_secrets m6 = Some sec ∧ m_st m6 = m_st m5) as [A B].
    { destruct (m_running m5); by injection E6 as <-. }
    destruct (_ && _); [|by injection E as <-]. rewrite <- A, <- B. clear -E.
    unfold Start in E. destruct (c_EnableStealth cfg); cbn [negb] in E; [|by injection E as <-].
    rewrite (bind_Ok _ _ _ m6 m6) in E by done. destruct (m_secrets m6) eqn:Es; [|done].
    apply bind_ok in E as ([] & m7 & E7 & [= <-]).
    apply box_start_inv in E7 as (b & ->). by rewrite <- Es. }
  exists sec. rewrite Hst, G1, G2, G3, T1, T2, S4 by congruence. done.
Qed.

(** A rotation that succeeds leaves the carriers running if and only if they
    were. *)
Lemma RotateAll_running fr ifr cert (m : Manager St) m' :
  c_EnableStealth cfg = true → RotateAllSecrets cfg fr ifr cert m = (Ok tt, m') →
  m_running m' = m_running m.
Proof.
  intros He. unfold RotateAllSecrets. rewrite (bind_Ok _ _ _ m m) by done.
  intros ([] & m1 & E1 & E)%bind_ok.
  assert (m_running m1 = m_running m) as <-.
  { destruct (m_secrets m); [by injection E1 as <-|]. by apply Init_inv in E1 as [? _]. }
  apply bind_ok in E as ([] & m2 & (s2 & ->)%on_st_inv & E).
  apply bind_ok in E as ([] & m3 & (s3 & ->)%on_st_inv & E).
  apply bind_ok in E as ([] & m4 & (s4 & ->)%on_st_inv & E).
  apply bind_ok in E as (sec & m5 & (s5 & ->)%on_st_inv & E). cbn [set_st] in E.
  set (m5 := set_secrets (Some sec) (set_st s5 m1) : Manager St).
  rewrite (bind_Ok _ _ _ tt m5) in E by done. rewrite (bind_Ok get _ _ m5 m5 eq_refl) in E.
  cbn zeta in E. change (m_running m5) with (m_running m1) in E.
  destruct (m_running m1) eqn:Er.
  - rewrite (bind_Ok _ _ _ tt (set_instance None false m5)), He in E by done. cbn [andb] in E.
    unfold Start in E. rewrite He in E. cbn [negb] in E.
    rewrite (bind_Ok get _ _ _ _ eq_refl) in E. cbn [m_secrets set_instance m5 set_secrets] in E.
    apply bind_ok in E as ([] & m7 & (b & ->)%box_start_inv & [= <-]). done.
  - rewrite (bind_Ok _ _ _ tt m5) in E by done. by injection E as <-.
Qed.
End rotation.

(** ** Properties *)

(** The node-wide secrets are stable: once a load has succeeded, every
    later load from a store that answers returns the same secrets and writes
    nothing, whatever fresh values it is offered.  Proved for every
    implementation of the SettingsStore interface. *)
Lemma secrets_stable {St : Type} {ST : SettingsStore St} fr fr' (s : St) x s1 :
  fresh_ok fr → loadOrCreateSecrets fr s = (Ok x, s1) → ss_quiet s1 →
  loadOrCreateSecrets fr' s1 = (Ok x, s1).
Proof.
  intros Hf E Hq. apply loadOrCreateSecrets_quiet; [done|].
  by destruct (loadOrCreateSecrets_holds _ _ _ _ Hf E).
Qed.

(** C34. In every execution of the manager (any sequence of Start, Close and
    the two rotations, after Init, any of whose store and sing-box calls may
    fail) a running instance was built from exactly the secrets the manager
    hands to clients, and a manager that is not running holds no instance. *)
Theorem stealth_instance_current {St : Type} {ST : SettingsStore St} cfg (st : St) box ops m :
  mgr_steps cfg (new_manager st box) ops m → current cfg m.
Proof.
  intros H. assert (current cfg (new_manager st box)) as H0 by done.
  induction H as [m|m op r m1 ops m2 Hg E _ IH]; [done|]. apply IH. clear IH.
  destruct op as [fr cert| | |fr ifr cert|short]; cbn [exec_mgr] in E.
  - specialize (Hg _ _ eq_refl). apply Init_inv in E as (H1 & H2 & _).
    unfold current in H0. rewrite Hg in H0. apply current_stopped; congruence.
  - by eapply Start_current.
  - injection E as <- <-. by apply current_stopped.
  - by eapply RotateAll_current.
  - apply bind_inv in E as [(s & m3 & E & [= <- <-])|(e & E & _)]; by eapply RotateReality_current.
Qed.

(** A path into a JSON value. *)
Fixpoint jpath (p : list (string + nat)) (j : json) : option json :=
  match p with
  | [] => Some j
  | inl k :: p => jget k j ≫= jpath p
  | inr i :: p => jidx i j ≫= jpath p
  end.

(** What each inbound asks of a client's outbound.  A VLESS client is let in
    when it dials the port, offers the SNI, proves one of the users with that
    user's flow, knows one of the short ids and the public half [pub] of the
    Reality key; a Hysteria2 client when it dials the port, offers the SNI and
    the protocol, knows a user's password and obfuscates as the inbound does. *)
Definition vless_admits (vi : VLESSInbound) (pub host : string) (out : json) : Prop :=
  ∃ user short,
    user ∈ vi_Users vi ∧ short ∈ vi_ShortID vi ∧
    jget "type" out = Some (JStr "vless") ∧
    jget "server" out = Some (JStr host) ∧
    jget "server_port" out = Some (JNum (vi_ListenPort vi)) ∧
    jget "uuid" out = Some (JStr (vu_UUID user)) ∧
    jget "flow" out = Some (JStr (vu_Flow user)) ∧
    jpath [inl "tls"; inl "enabled"] out = Some (JBool true) ∧
    jpath [inl "tls"; inl "server_name"] out = Some (JStr (vi_TLS_ServerName vi)) ∧
    jpath [inl "tls"; inl "reality"; inl "enabled"] out = Some (JBool true) ∧
    jpath [inl "tls"; inl "reality"; inl "public_key"] out = Some (JStr pub) ∧
    jpath [inl "tls"; inl "reality"; inl "short_id"] out = Some (JStr short).

Definition hysteria2_admits (hi : Hysteria2Inbound) (host : string) (out : json) : Prop :=
  ∃ name pass,
    (name, pass) ∈ hi_Users hi ∧
    jget "type" out = Some (JStr "hysteria2") ∧
    jget "server" out = Some (JStr host) ∧
    jget "server_port" out = Some (JNum (hi_ListenPort hi)) ∧
    jget "password" out = Some (JStr pass) ∧
    jpath [inl "tls"; inl "enabled"] out = Some (JBool true) ∧
    jpath [inl "tls"; inl "server_name"] out = Some (JStr (hi_TLS_ServerName hi)) ∧
    jpath [inl "tls"; inl "alpn"] out = Some (JArr (JStr <$> hi_ALPN hi)) ∧
    jpath [inl "obfs"; inl "type"] out = (λ o, JStr (fst o)) <$> hi_Obfs hi ∧
    jpath [inl "obfs"; inl "password"] out = (λ o, JStr (snd o)) <$> hi_Obfs hi.

(** The tunnel of the profile leaves the carriers at the address and port [d]
    delivers every connection to, and is keyed for the node's [pub] and for the
    client's own private key, which is not in the profile. *)
Definition tunnel_reaches (d : DirectOutbound) (pub addr : string) (j : json) : Prop :=
  ∃ ep peer tag,
    jpath [inl "endpoints"; inr 0%nat] j = Some ep ∧
    jpath [inl "peers"; inr 0%nat] ep = Some peer ∧
    jget "address" peer = Some (JStr (do_OverrideAddress d)) ∧
    jget "port" peer = Some (JNum (do_OverridePort d)) ∧
    jget "public_key" peer = Some (JStr pub) ∧
    jget "address" ep = Some (JArr [JStr addr]) ∧
    jget "private_key" ep = Some (JStr ClientPrivateKeyPlaceholder) ∧
    jget "detour" ep = Some (JStr tag) ∧
    jpath [inl "outbounds"; inr 0%nat; inl "tag"] j = Some (JStr tag) ∧
    jget "tag" ep = jpath [inl "route"; inl "final"] j.

(** The same secrets up to the Reality private key. *)
Definition same_public (s s' : Secrets) : Prop :=
  s_RealityPublicKey s' = s_RealityPublicKey s ∧ s_RealityShortID s' = s_RealityShortID s ∧
  s_VLESSUUID s' = s_VLESSUUID s ∧ s_Hysteria2Password s' = s_Hysteria2Password s.

Lemma BuildPeer_public {srt : Sorting} cfg s s' label pub addr psk :
  same_public s s' →
  BuildPeer cfg (Some s') label pub addr psk = BuildPeer cfg (Some s) label pub addr psk.
Proof.
  intros (E1 & E2 & E3 & E4). unfold BuildPeer. f_equal; unfold Params; by rewrite E1, E2, E3, E4.
Qed.

Lemma obfs_same cfg p pub addr psk hi cert key s :
  hysteria2Inbound cfg s cert key = InHysteria2 "hysteria2" hi →
  pm_Hysteria2Obfs p = c_Hysteria2ObfsPassword cfg →
  let j := singboxProfile cfg p pub addr psk in
  jpath [inl "outbounds"; inr 1%nat; inl "obfs"; inl "type"] j = (λ o, JStr (fst o)) <$> hi_Obfs hi ∧
  jpath [inl "outbounds"; inr 1%nat; inl "obfs"; inl "password"] j = (λ o, JStr (snd o)) <$> hi_Obfs hi.
Proof.
  intros [= <-] E. cbn zeta. unfold singboxProfile. rewrite E. cbn [hi_Obfs].
  by destruct (String.eqb (c_Hysteria2ObfsPassword cfg) EmptyString).
Qed.


(** ** Witnesses *)

Definition wit_fresh (x : string) : Fresh :=
  mkFresh (Ok ("priv" +:+ x, "pub" +:+ x)) ("sid" +:+ x) ("uuid" +:+ x) ("pass" +:+ x).
Definition wit_cfg : Config := Load (mkEnv {[ "WG_ENDPOINT_HOST" := "node.example" ]} None).

Lemma wit_fresh_ok x : fresh_ok (wit_fresh x).
Proof. split; [by intros p q [= <- <-]|done]. Qed.

Lemma secrets_stable_witness :
  let r := loadOrCreateSecrets (wit_fresh "1") empty_db in
  ∃ x, r.1 = Ok x ∧ s_VLESSUUID x = "uuid1" ∧
    loadOrCreateSecrets (wit_fresh "2") r.2 = (Ok x, r.2).
Proof.
  cbn zeta. eexists. split; [vm_compute; reflexivity|]. split; [reflexivity|].
  apply (secrets_stable (wit_fresh "1") (wit_fresh "2") empty_db).
  - apply wit_fresh_ok.
  - vm_compute. reflexivity.
  - vm_compute. reflexivity.
Defined.

Definition wit_ops : list mgr_op :=
  [MInit (wit_fresh "1") (Ok ("cert", "key")); MStart; MRotateReality "beef";
   MRotateAll (wit_fresh "2") (wit_fresh "3") (Ok ("cert", "key"))].

Lemma stealth_instance_current_witness :
  ∃ m, mgr_steps wit_cfg (new_manager empty_db [None; Some (EMsg "port in use")]) wit_ops m ∧
    m_running m = false ∧ current wit_cfg m.
Proof.
  eexists. split; [|split].
  - eapply mgr_cons; [reflexivity|apply surjective_pairing|].
    eapply mgr_cons; [discriminate|apply surjective_pairing|].
    eapply mgr_cons; [discriminate|apply surjective_pairing|].
    eapply mgr_cons; [discriminate|apply surjective_pairing|]. apply mgr_nil.
  - vm_compute. reflexivity.
  - apply (stealth_instance_current wit_cfg empty_db [None; Some (EMsg "port in use")] wit_ops).
    eapply mgr_cons; [reflexivity|apply surjective_pairing|].
    eapply mgr_cons; [discriminate|apply surjective_pairing|].
    eapply mgr_cons; [discriminate|apply surjective_pairing|].
    eapply mgr_cons; [discriminate|apply surjective_pairing|]. apply mgr_nil.
Defined.

