(* ===== verification/SelfSigned.v ===== *)
(** * The carriers' certificate, draws and protocol registries
      (internal/stealth/tlscert.go, secrets.go, registry.go)

    The cryptographic calls of generateSelfSigned are a record of functions, as
    are the registration functions of sing-box; what they are relied on for is
    stated where it is used. *)
From S2P Require Import Prelude GoStrings GoUrl Tokens StoreDB Store ConfigData Config Wg Stealth.

(** ** The self-signed certificate (tlscert.go) *)

(** x509.Certificate: the fields the template sets.  Times in seconds. *)
Record CertTemplate := mkCertTemplate {
  xc_SerialNumber : Z; xc_CommonName : string; xc_DNSNames : list string;
  xc_NotBefore : Z; xc_NotAfter : Z; xc_KeyUsage : list string; xc_ExtKeyUsage : list string;
  xc_BasicConstraintsValid : bool;
}.

(** ecdsa.GenerateKey, rand.Int below a bound, x509.CreateCertificate,
    x509.MarshalPKCS8PrivateKey and pem.EncodeToMemory. *)
Record CertLib (Key : Type) := mkCertLib {
  xl_GenerateKey : result Key;
  xl_Int : Z → result Z;
  xl_CreateCertificate : CertTemplate → Key → result (list Z);
  xl_MarshalPKCS8 : Key → result (list Z);
  xl_pem : string → list Z → string;
}.
Arguments mkCertLib {Key}. Arguments xl_GenerateKey {Key}. Arguments xl_Int {Key}.
Arguments xl_CreateCertificate {Key}. Arguments xl_MarshalPKCS8 {Key}. Arguments xl_pem {Key}.

Section certificate.
Context {Key : Type} (X : CertLib Key).

(** [now]: the two readings of the clock. *)
Definition cert_template (sni : string) (serial : Z) (now : Z * Z) : CertTemplate :=
  mkCertTemplate serial sni [sni] (now.1 - 3600) (now.2 + 10 * 365 * 24 * 3600)
    ["digitalSignature"; "keyEncipherment"] ["serverAuth"] true.

Definition generateSelfSigned (sni : string) (now : Z * Z) : result (string * string) :=
  key ← xl_GenerateKey X;
  serial ← xl_Int X (2 ^ 128);
  der ← xl_CreateCertificate X (cert_template sni serial now) key;
  keyDER ← xl_MarshalPKCS8 X key;
  Ok (xl_pem X "CERTIFICATE" der, xl_pem X "PRIVATE KEY" keyDER).

(** The pair belongs together: the certificate is made for the key that is
    returned, names the SNI, and is valid from an hour before the call for ten
    years of 365 days. *)
Lemma generateSelfSigned_pair sni now cert key :
  generateSelfSigned sni now = Ok (cert, key) → now.1 <= now.2 →
  ∃ k serial der keyDER, xl_GenerateKey X = Ok k ∧ xl_Int X (2 ^ 128) = Ok serial ∧
    xl_CreateCertificate X (cert_template sni serial now) k = Ok der ∧ xl_MarshalPKCS8 X k = Ok keyDER ∧
    cert = xl_pem X "CERTIFICATE" der ∧ key = xl_pem X "PRIVATE KEY" keyDER ∧
    xc_DNSNames (cert_template sni serial now) = [sni] ∧
    ∀ t, now.1 - 3600 <= t <= now.2 + 315360000 →
      xc_NotBefore (cert_template sni serial now) <= t <= xc_NotAfter (cert_template sni serial now).
Proof.
  unfold generateSelfSigned. destruct (xl_GenerateKey X) as [k|]; [|done].
  cbn. destruct (xl_Int X _) as [serial|]; [|done].
  cbn. destruct (xl_CreateCertificate X _ k) as [der|] eqn:Ec; [|done].
  cbn. destruct (xl_MarshalPKCS8 X k) as [keyDER|] eqn:Em; [|done]. intros [= <- <-] Hn.
  exists k, serial, der, keyDER. do 7 (split; [done|]). cbn. lia.
Qed.

(** It fails exactly when one of the four calls does, so then Init does. *)
Lemma generateSelfSigned_fails sni now :
  is_ok (generateSelfSigned sni now) = true ↔
  ∃ k serial, xl_GenerateKey X = Ok k ∧ xl_Int X (2 ^ 128) = Ok serial ∧
    is_ok (xl_CreateCertificate X (cert_template sni serial now) k) = true ∧ is_ok (xl_MarshalPKCS8 X k) = true.
Proof.
  unfold generateSelfSigned.
  destruct (xl_GenerateKey X) as [k|]; [|by split; [|intros (? & ? & [=] & _)]].
  cbn. destruct (xl_Int X _) as [serial|]; [|by split; [|intros (? & ? & _ & [=] & _)]].
  cbn. destruct (xl_CreateCertificate X _ k) as [der|] eqn:Ec; cbn.
  - destruct (xl_MarshalPKCS8 X k) as [keyDER|] eqn:Em; cbn.
    + split; [|done]. intros _. exists k, serial. by rewrite Ec, Em.
    + split; [done|]. intros (k' & s' & [= <-] & [= <-] & _ & H). by rewrite Em in H.
  - split; [done|]. intros (k' & s' & [= <-] & [= <-] & H & _). by rewrite Ec in H.
Qed.
End certificate.

(** ** Drawing the secrets (secrets.go) *)

(** What loadOrCreateSecrets draws for the settings that are not there. *)
Definition draw_fresh (rand_Read : nat → list Z) (uuid : string) (keypair : result (string * string)) : Fresh :=
  mkFresh keypair (randHex rand_Read 4) uuid (randToken rand_Read 24).

Lemma hex_encode_length l : String.length (hex_encode l) = (2 * length l)%nat.
Proof. induction l as [|b l IH]; [done|]. cbn [hex_encode String.length length]. rewrite IH. lia. Qed.

(** A short id has the eight digits that REALITY takes (at most sixteen). *)
Lemma draw_fresh_shortID rand_Read uuid keypair :
  length (rand_Read 4%nat) = 4%nat → String.length (f_shortID (draw_fresh rand_Read uuid keypair)) = 8%nat.
Proof. intros H. cbn. unfold randHex. by rewrite hex_encode_length, H. Qed.

(** ** The protocol registries (registry.go) *)

(** A registry knows the types that were registered. *)
Definition ProtoRegistry := list string.
Definition NewRegistry : ProtoRegistry := [].

Record SingBox := mkSingBox {
  vless_RegisterInbound : ProtoRegistry → ProtoRegistry;
  hysteria2_RegisterInbound : ProtoRegistry → ProtoRegistry;
  direct_RegisterOutbound : ProtoRegistry → ProtoRegistry;
}.

(** What sing-box documents of them: they add their type. *)
Class Registers (B : SingBox) := {
  registers_vless : ∀ r t, t ∈ vless_RegisterInbound B r ↔ t = "vless" ∨ t ∈ r;
  registers_hysteria2 : ∀ r t, t ∈ hysteria2_RegisterInbound B r ↔ t = "hysteria2" ∨ t ∈ r;
  registers_direct : ∀ r t, t ∈ direct_RegisterOutbound B r ↔ t = "direct" ∨ t ∈ r;
}.

Section registries.
Context (B : SingBox).

Definition inboundRegistry : ProtoRegistry :=
  let r := NewRegistry in
  let r := vless_RegisterInbound B r in
  hysteria2_RegisterInbound B r.
Definition outboundRegistry : ProtoRegistry := direct_RegisterOutbound B NewRegistry.
Definition endpointRegistry : ProtoRegistry := NewRegistry.
End registries.

(** The types that the options name. *)
Definition inbound_type (i : Inbound) : string :=
  match i with InVLESS _ _ => "vless" | InHysteria2 _ _ => "hysteria2" end.
Definition outbound_type (o : DirectOutbound) : string := "direct".

(** Every protocol of the node's options is registered, and nothing else is:
    sing-box is not asked for a protocol that it does not know. *)
Lemma registries_exact (B : SingBox) {HB : Registers B} cfg s cert key :
  (∀ t, t ∈ inboundRegistry B ↔ t ∈ (inbound_type <$> bo_Inbounds (serverOptions cfg s cert key))) ∧
  (∀ t, t ∈ outboundRegistry B ↔ t ∈ (outbound_type <$> bo_Outbounds (serverOptions cfg s cert key))) ∧
  endpointRegistry = [].
Proof.
  unfold inboundRegistry, outboundRegistry, serverOptions, vlessInbound, hysteria2Inbound.
  destruct (splitHostPort _ _). split; [|split; [|done]]; intros t; cbn.
  - rewrite registers_hysteria2, registers_vless. unfold NewRegistry. set_solver.
  - rewrite registers_direct. unfold NewRegistry. set_solver.
Qed.

(** Functions of that kind. *)
Definition singbox_example : SingBox := mkSingBox (cons "vless") (cons "hysteria2") (cons "direct").
#[export] Instance singbox_example_registers : Registers singbox_example.
Proof. split; intros r t; cbn; by rewrite elem_of_cons. Qed.
Example registry_example : inboundRegistry singbox_example = ["hysteria2"; "vless"].
Proof. reflexivity. Qed.
