(* ===== verification/Carriers.v ===== *)
(** * Rotation of the carrier credentials (internal/carriers, store/carriers.go)

    [Rotate] on the stealth manager whose settings store is the node's
    database: it archives the hashes of the current secrets with a grace
    expiry, installs fresh secrets and records their hashes.

    The theorems say what a rotation leaves in the database and in the running
    instance, and compare that with what the operator is told. *)
From S2P Require Import Prelude GoStrings GoNet StoreDB IPAlloc Store ConfigData Config Sha256 Stealth.

Definition hashSecret (s : string) : string := sha256_hex s.

Record Options := mkOptions { o_GracePeriod : Z; o_PeerID : string }.

(** Three readings of the clock, in nanoseconds, and the row ids
    uuid.NewString() returns, in order. *)
Record Inputs := mkInputs { t_now : Z; t_expires : Z; t_archive : Z; ids : list string }.

Definition unix (ns : Z) : Z := ns / 10 ^ 9.
Definition hours (h : Z) : Z := h * 3600 * 10 ^ 9.

Section rotate.
Context (cfg : Config).

(** The three (transport, material) pairs of the two loops. *)
Definition materials (p : ParamsT) : list (string * string) :=
  [("vless_reality", pm_VLESSUUID p); ("hysteria2", pm_Hysteria2Password p);
   ("reality_short_id", pm_RealityShortID p)].

Definition insert_material (now expires : Z) (scope peer : string) (x : (string * string) * string)
    : M (Manager DB) unit :=
  let '((transport, material), uuid) := x in
  if String.eqb material EmptyString then mret tt
  else on_st (InsertCarrierCredential
         (mkCarrier EmptyString transport (hashSecret material) now expires true scope peer) uuid now).

Definition archiveCurrent (scope peer : string) (expiresAt : Z) (inp : Inputs)
    : M (Manager DB) unit :=
  m ← get;
  let p := Params cfg (m_secrets m) in
  if negb (pm_Enabled p) then mret tt
  else for_each (insert_material (unix (t_archive inp)) expiresAt scope peer)
         (zip (materials p) (take 3 (ids inp))).

Definition grace_of (opt : Options) : Z :=
  if o_GracePeriod opt <=? 0 then hours 24 else o_GracePeriod opt.
Definition scope_of (opt : Options) : string :=
  if String.eqb (o_PeerID opt) EmptyString then "node" else "peer".

Definition Rotate (opt : Options) (inp : Inputs) (fr init_fr : Fresh)
    (cert : result (string * string)) : M (Manager DB) unit :=
  let now := unix (t_now inp) in
  let expires := unix (t_expires inp + grace_of opt) in
  let scope := scope_of opt in
  _ ← archiveCurrent scope (o_PeerID opt) expires inp;
  _ ← wrap_err "rotate secrets: " (RotateAllSecrets cfg fr init_fr cert);
  m ← get;
  let p := Params cfg (m_secrets m) in
  _ ← for_each (insert_material now 0 scope (o_PeerID opt)) (zip (materials p) (drop 3 (ids inp)));
  _ ← try (on_st (DeactivateExpiredCarrierCredentials now));
  mret tt.
End rotate.

(** ** What the steps do to the table *)

Definition carriers_of (m : Manager DB) : list CarrierRow := carrier_credentials (tbl (m_st m)).

Definition same_carriers (m m' : Manager DB) : Prop := carriers_of m' = carriers_of m.
#[export] Instance same_carriers_preorder : PreOrder same_carriers.
Proof. unfold same_carriers. split; red; congruence. Qed.

(** A row that is in the table stays there. *)
Definition keeps_row (r : CarrierRow) (m m' : Manager DB) : Prop :=
  r ∈ carriers_of m → r ∈ carriers_of m'.
#[export] Instance keeps_row_preorder r : PreOrder (keeps_row r).
Proof. unfold keeps_row. split; red; auto. Qed.

Lemma keeps_on_st {A} (R : Manager DB → Manager DB → Prop) (x : M DB A) :
  (∀ m s r s', x (m_st m) = (r, s') → s = m_st m → R m (set_st s' m)) → keeps R (on_st x).
Proof. intros H m r m' (s' & E & ->)%zoom_inv. by eapply H. Qed.

Lemma keeps_get R `{!PreOrder R} : keeps R (get (S := Manager DB)).
Proof. intros m r m' [= <- <-]. reflexivity. Qed.

Lemma keeps_modify_same f :
  (∀ m, m_st (f m) = m_st m) → keeps same_carriers (modify f).
Proof. intros H m r m' [= <- <-]. unfold same_carriers, carriers_of. by rewrite H. Qed.

Lemma keeps_setting_get k : keeps same_carriers (on_st (ss_Get k)).
Proof.
  apply keeps_on_st. intros m s r s' E _. apply query_inv in E as [E _].
  unfold same_carriers, carriers_of. cbn [m_st set_st]. by rewrite E.
Qed.

Lemma keeps_setting_set k v : keeps same_carriers (on_st (ss_Set k v)).
Proof.
  apply keeps_on_st. intros m s r s' E _. unfold same_carriers, carriers_of. cbn [m_st set_st].
  apply exec_inv in E as [(a & t & [= <- <-] & -> & E)|(e & -> & E)]; by rewrite E.
Qed.

(** A program over the store, run on the manager's store. *)
Lemma keeps_zoomed {A} (x : M DB A) :
  keeps (λ s s', carrier_credentials (tbl s') = carrier_credentials (tbl s)) x →
  keeps same_carriers (on_st x).
Proof.
  intros H. apply keeps_on_st. intros m s r s' E _. unfold same_carriers, carriers_of. cbn [m_st set_st].
  by apply H in E.
Qed.

Definition db_same (s s' : DB) : Prop := carrier_credentials (tbl s') = carrier_credentials (tbl s).
#[export] Instance db_same_preorder : PreOrder db_same.
Proof. unfold db_same. split; red; congruence. Qed.

Lemma db_same_get k : keeps db_same (ss_Get k).
Proof. intros s r s' [E _]%query_inv. unfold db_same. by rewrite E. Qed.
Lemma db_same_set k v : keeps db_same (ss_Set k v).
Proof.
  intros s r s' [(a & t & [= <- <-] & -> & E)|(e & -> & E)]%exec_inv; unfold db_same; by rewrite E.
Qed.
#[export] Hint Resolve db_same_get db_same_set : erebrus.

Lemma db_same_getOrSet k d : keeps db_same (getOrSet k d).
Proof.
  apply keeps_bind; [apply _|auto with erebrus|]. intros v.
  destruct (negb _); [apply keeps_ret, _|].
  apply keeps_bind; [apply _|auto with erebrus|]. intros. apply keeps_ret, _.
Qed.

Lemma db_same_load fr : keeps db_same (loadOrCreateSecrets fr).
Proof.
  apply keeps_bind; [apply _|auto with erebrus|]. intros p.
  apply keeps_bind; [apply _| |].
  { destruct (String.eqb p EmptyString); [|apply keeps_ret, _].
    apply keeps_bind; [apply _|apply keeps_lift, _|]. intros [a b].
    do 2 (apply keeps_bind; [apply _|auto with erebrus|]; intros). apply keeps_ret, _. }
  intros q. apply keeps_bind; [apply _|auto with erebrus|]. intros pub.
  do 3 (apply keeps_bind; [apply _|apply db_same_getOrSet|]; intros). apply keeps_ret, _.
Qed.

Lemma db_same_cert c : keeps db_same (loadOrCreateCert c).
Proof.
  do 2 (apply keeps_bind; [apply _|auto with erebrus|]; intros).
  destruct (_ && _); [apply keeps_ret, _|].
  apply keeps_bind; [apply _|apply keeps_lift, _|]. intros [x y].
  do 2 (apply keeps_bind; [apply _|auto with erebrus|]; intros). apply keeps_ret, _.
Qed.

Lemma keeps_wrap_err {A} pre (x : M (Manager DB) A) :
  keeps same_carriers x → keeps same_carriers (wrap_err pre x).
Proof. intros H m r m' (r0 & E)%wrap_err_inv. by eapply H. Qed.

Lemma same_Init fr cert : keeps same_carriers (Init fr cert).
Proof.
  apply keeps_bind; [apply _|apply keeps_wrap_err, keeps_zoomed, db_same_load|]. intros x.
  apply keeps_bind; [apply _|apply keeps_wrap_err, keeps_zoomed, db_same_cert|]. intros [c k].
  by apply keeps_modify_same.
Qed.

Lemma same_Start cfg : keeps same_carriers (Start cfg).
Proof.
  intros m r m' E. unfold Start in E. destruct (negb _); [by injection E as <- <-|].
  rewrite (bind_Ok _ _ _ m m) in E by done. destruct (m_secrets m); [|by injection E as <- <-].
  apply bind_inv in E as [([] & m1 & (b & ->)%box_start_inv & [= <- <-])|(e & (b & ->)%box_start_inv & _)];
    done.
Qed.

(** A rotation of the secrets does not touch the credential table. *)
Lemma same_RotateAll cfg fr ifr cert : keeps same_carriers (RotateAllSecrets cfg fr ifr cert).
Proof.
  apply keeps_bind; [apply _|apply keeps_get, _|]. intros m.
  apply keeps_bind; [apply _|destruct (m_secrets m); [apply keeps_ret, _|apply same_Init]|]. intros [].
  do 3 (apply keeps_bind; [apply _|apply keeps_setting_set|]; intros []).
  apply keeps_bind; [apply _|apply keeps_zoomed, db_same_load|]. intros sec.
  apply keeps_bind; [apply _|by apply keeps_modify_same|]. intros [].
  apply keeps_bind; [apply _|apply keeps_get, _|]. intros m2. cbn zeta.
  apply keeps_bind; [apply _|destruct (m_running m2); [by apply keeps_modify_same|apply keeps_ret, _]|].
  intros []. destruct (_ && _); [apply same_Start|apply keeps_ret, _].
Qed.

(** The row a loop iteration inserts. *)
Definition material_row (now expires : Z) (scope peer : string) (x : (string * string) * string)
    : CarrierRow :=
  mkCarrierRow x.2 x.1.1 (hashSecret x.1.2) now expires 1 scope peer.

Lemma insert_material_row now expires scope peer x m m' :
  insert_material now expires scope peer x m = (Ok tt, m') →
  x.1.2 ≠ EmptyString → material_row now expires scope peer x ∈ carriers_of m'.
Proof.
  destruct x as [[tr mat] uuid]. cbn. intros E Hne. rewrite (proj2 (String.eqb_neq _ _) Hne) in E.
  apply on_st_ok in E as [E _]. unfold carriers_of.
  apply exec_inv in E as [(a & t & E & _ & ->)|(e & [=] & _)]. cbn in E.
  destruct (taken cr_id uuid _) in E; [done|]. injection E as <- <-. cbn.
  assert ((if now =? 0 then now else now) = now) as -> by (by destruct (now =? 0)). set_solver.
Qed.

Lemma insert_material_keeps r now expires scope peer x :
  keeps (keeps_row r) (insert_material now expires scope peer x).
Proof.
  destruct x as [[tr mat] uuid]. unfold insert_material.
  destruct (String.eqb mat EmptyString); [apply keeps_ret, _|]. apply keeps_on_st.
  intros m s r0 s' E _. unfold keeps_row, carriers_of. cbn [m_st set_st].
  apply exec_inv in E as [(a & t & E & _ & Et)|(e & _ & Et)]; rewrite Et; [|done].
  cbn in E. destruct (taken cr_id uuid _) in E; [done|]. injection E as <- <-. cbn. set_solver.
Qed.

Lemma same_keeps_row {A} r (x : M (Manager DB) A) : keeps same_carriers x → keeps (keeps_row r) x.
Proof. intros H m r0 m' E. unfold keeps_row. by rewrite (H _ _ _ E). Qed.

Lemma deactivate_keeps r now :
  expired now r = false → keeps (keeps_row r) (on_st (DeactivateExpiredCarrierCredentials now)).
Proof.
  intros Hr. apply keeps_on_st. intros m s r0 s' E _. unfold keeps_row, carriers_of. cbn [m_st set_st].
  apply exec_inv in E as [(a & t & E & _ & Et)|(e & _ & Et)]; rewrite Et; [|done].
  injection E as <- <-. cbn. intros Hin. apply list_elem_of_fmap. exists r. by rewrite Hr.
Qed.

(** Rows without an expiry survive every store operation. *)
Lemma active_forever r op : cr_expires_at r = 0 →
  keeps (preserves (λ t, r ∈ carrier_credentials t)) (exec_op op).
Proof.
  intros Hr. destruct op; cbn [exec_op]; unfold discard.
  - apply keeps_exec. by intros t a t' [= <- <-].
  - apply keeps_bind; [apply preserves_preorder| |intros; apply keeps_ret, preserves_preorder].
    apply keeps_UpsertPeer; intros p; apply keeps_exec; intros t a t' E.
    + by destruct (_ && _) in E; simplify_eq.
    + by repeat (destruct (taken _ _ _) in E; [done|]); simplify_eq.
  - apply keeps_exec. by intros t a t' [= <- <-].
  - apply keeps_exec. intros t a t' E. destruct (taken _ _ _) in E; simplify_eq. cbn. set_solver.
  - apply keeps_bind; [apply preserves_preorder| |intros; apply keeps_ret, preserves_preorder].
    apply keeps_exec. intros t a t' [= <- <-] Hin. cbn. apply list_elem_of_fmap. exists r.
    unfold expired. rewrite Hr. by rewrite andb_false_r.
  - apply keeps_exec. intros t a t' E. by destruct (taken _ _ _) in E; simplify_eq.
  - apply keeps_bind; [apply preserves_preorder| |intros n; destruct (n =? 0)%nat;
      [apply keeps_fail|apply keeps_ret]; apply preserves_preorder].
    apply keeps_exec. by intros t a t' [= <- <-].
  - apply keeps_exec. intros t b t' E. destruct (taken acl_ID _ _) in E; [done|].
    by destruct (negb _) in E; simplify_eq.
Qed.

(** Only the store component of the manager changes. *)
Definition only_store (m m' : Manager DB) : Prop := ∃ s, m' = set_st s m.
#[export] Instance only_store_preorder : PreOrder only_store.
Proof.
  split; red.
  - intros m. exists (m_st m). by destruct m.
  - intros m1 m2 m3 [s1 ->] [s2 ->]. by exists s2.
Qed.

Lemma only_store_on_st {A} (x : M DB A) : keeps only_store (on_st x).
Proof. intros m r m' (s & ->)%on_st_inv. by exists s. Qed.

Lemma only_store_insert now expires scope peer x :
  keeps only_store (insert_material now expires scope peer x).
Proof.
  destruct x as [[tr mat] uuid]. unfold insert_material.
  destruct (String.eqb mat EmptyString); [apply keeps_ret, _|apply only_store_on_st].
Qed.

Lemma archive_only_store cfg scope peer e inp : keeps only_store (archiveCurrent cfg scope peer e inp).
Proof.
  apply keeps_bind; [apply _|apply keeps_get, _|]. intros m. cbn zeta.
  destruct (negb _); [apply keeps_ret, _|]. apply keeps_for_each; [apply _|apply only_store_insert].
Qed.

(** Recording credentials changes no setting. *)
Definition same_settings (m m' : Manager DB) : Prop :=
  node_settings (tbl (m_st m')) = node_settings (tbl (m_st m)).
#[export] Instance same_settings_preorder : PreOrder same_settings.
Proof. unfold same_settings. split; red; congruence. Qed.

Lemma same_settings_exec {A} (f : tables → result (A * tables)) :
  (∀ t a t', f t = Ok (a, t') → node_settings t' = node_settings t) →
  keeps same_settings (on_st (exec f)).
Proof.
  intros Hf. apply keeps_on_st. intros m s r s' E _. unfold same_settings. cbn [m_st set_st].
  apply exec_inv in E as [(a & t & Ef & -> & ->)|(e & -> & ->)]; [by eapply Hf|done].
Qed.

Lemma same_settings_insert now expires scope peer x :
  keeps same_settings (insert_material now expires scope peer x).
Proof.
  destruct x as [[tr mat] uuid]. unfold insert_material.
  destruct (String.eqb mat EmptyString); [apply keeps_ret, _|]. apply same_settings_exec.
  intros t a t' E. by destruct (taken _ _ _) in E; simplify_eq.
Qed.

Lemma same_settings_deactivate now :
  keeps same_settings (on_st (DeactivateExpiredCarrierCredentials now)).
Proof. apply same_settings_exec. by intros t a t' [= <- <-]. Qed.

Lemma holds_settings (m m' : Manager DB) x :
  same_settings m m' → holds (m_st m) x → holds (m_st m') x.
Proof. unfold same_settings, holds, setting. cbn [ss_view store_settings]. by intros ->. Qed.

(** The stages of a successful rotation. *)
Lemma Rotate_stages cfg opt inp fr ifr cert m m' :
  Rotate cfg opt inp fr ifr cert m = (Ok tt, m') →
  ∃ m1 m2 m3,
    archiveCurrent cfg (scope_of opt) (o_PeerID opt) (unix (t_expires inp + grace_of opt)) inp m = (Ok tt, m1) ∧
    RotateAllSecrets cfg fr ifr cert m1 = (Ok tt, m2) ∧
    for_each (insert_material (unix (t_now inp)) 0 (scope_of opt) (o_PeerID opt))
      (zip (materials (Params cfg (m_secrets m2))) (drop 3 (ids inp))) m2 = (Ok tt, m3) ∧
    ∃ r, on_st (DeactivateExpiredCarrierCredentials (unix (t_now inp))) m3 = (r, m').
Proof.
  intros ([] & m1 & E1 & E)%bind_ok. apply bind_ok in E as ([] & m2 & E2 & E).
  rewrite (bind_Ok _ _ _ m2 m2) in E by done. cbn zeta in E.
  apply bind_ok in E as ([] & m3 & E3 & E). apply bind_ok in E as (r & m4 & E4 & [= <-]).
  exists m1, m2, m3. split; [done|]. split.
  - unfold wrap_err, try, mbind, M_bind in E2. destruct (RotateAllSecrets _ _ _ _ m1) as [[[]|e] m5];
      [|done]. by injection E2 as <-.
  - split; [done|]. unfold try in E4. destruct (on_st _ m3) as [r4 m5]. injection E4 as <- <-. eauto.
Qed.

Lemma row_survives cfg opt inp fr ifr cert m1 m2 m3 m' r :
  RotateAllSecrets cfg fr ifr cert m1 = (Ok tt, m2) →
  for_each (insert_material (unix (t_now inp)) 0 (scope_of opt) (o_PeerID opt))
      (zip (materials (Params cfg (m_secrets m2))) (drop 3 (ids inp))) m2 = (Ok tt, m3) →
  (∃ r0, on_st (DeactivateExpiredCarrierCredentials (unix (t_now inp))) m3 = (r0, m')) →
  expired (unix (t_now inp)) r = false → r ∈ carriers_of m1 → r ∈ carriers_of m'.
Proof.
  intros E2 E3 [r0 E4] Hr Hin. eapply deactivate_keeps; [exact Hr|exact E4|].
  apply (keeps_for_each (keeps_row r) _ _ (insert_material_keeps r _ _ _ _) _ _ _ E3).
  rewrite (same_RotateAll _ _ _ _ _ _ _ E2). exact Hin.
Qed.

(** ** Properties *)

(** C36. What a successful rotation leaves behind.  The fresh secrets are in
    memory, and the settings table holds exactly the secrets in memory; the
    carriers run if and only if they ran before, with all the options of those
    secrets, and with no instance otherwise; the hashes of the fresh secrets
    are recorded as active with no expiry; and the hashes of the previous
    secrets are recorded as active until the grace period ends.  The grace
    period is therefore only a record: the previous credentials themselves are
    no longer served. *)
Theorem rotation_outcome cfg opt inp fr ifr cert m m' :
  fresh_ok fr → c_EnableStealth cfg = true → current cfg m →
  Rotate cfg opt inp fr ifr cert m = (Ok tt, m') →
  let now := unix (t_now inp) in
  let expires := unix (t_expires inp + grace_of opt) in
  ∃ x, m_secrets m' = Some x ∧ s_VLESSUUID x = f_uuid fr ∧
    s_RealityShortID x = f_shortID fr ∧ s_Hysteria2Password x = f_password fr ∧
    holds (m_st m') x ∧ m_running m' = m_running m ∧
    m_instance m' =
      (if m_running m then Some (serverOptions cfg x (m_certPEM m') (m_keyPEM m')) else None) ∧
    (∀ y, y ∈ zip (materials (Params cfg (Some x))) (drop 3 (ids inp)) →
       material_row now 0 (scope_of opt) (o_PeerID opt) y ∈ carriers_of m') ∧
    (∀ s, m_secrets m = Some s → now < expires →
       ∀ y, y ∈ zip (materials (Params cfg (Some s))) (take 3 (ids inp)) → y.1.2 ≠ EmptyString →
       material_row (unix (t_archive inp)) expires (scope_of opt) (o_PeerID opt) y ∈ carriers_of m').
Proof.
  intros Hf He Hc E. cbn zeta.
  destruct (Rotate_stages _ _ _ _ _ _ _ _ E) as (m1 & m2 & m3 & E1 & E2 & E3 & E4).
  destruct (RotateAll_installs _ _ _ _ _ _ Hf E2) as (x & X1 & X2 & X3 & X4 & X5).
  destruct (archive_only_store _ _ _ _ _ _ _ _ E1) as [s1 Hm1].
  assert (current cfg m1) as Hc1 by (by rewrite Hm1).
  pose proof (RotateAll_current _ _ _ _ _ _ _ Hc1 E2) as Hc2.
  pose proof (RotateAll_running _ _ _ _ _ _ He E2) as Hr.
  assert (m_running m1 = m_running m) as Hr1 by (by rewrite Hm1).
  assert (only_store m2 m' ∧ same_settings m2 m') as [[s4 Hm4] Hs4].
  { destruct E4 as [r4 E4]. split; etransitivity.
    - exact (keeps_for_each only_store _ _ (only_store_insert _ _ _ _) _ _ _ E3).
    - by eapply only_store_on_st.
    - exact (keeps_for_each same_settings _ _ (same_settings_insert _ _ _ _) _ _ _ E3).
    - by eapply same_settings_deactivate. }
  exists x. split; [by rewrite Hm4|]. do 3 (split; [done|]).
  split; [by eapply holds_settings|]. split; [rewrite Hm4; cbn; congruence|].
  split; [|split].
  - rewrite Hm4. cbn. unfold current in Hc2. rewrite <- Hr1, <- Hr. destruct (m_running m2); [|done].
    destruct Hc2 as (_ & y & Hy & Hi). rewrite Hi. do 2 f_equal. congruence.
  - intros y Hy. destruct E4 as [r4 E4].
    eapply deactivate_keeps; [|exact E4|]; [done|].
    rewrite <- X1 in Hy. eapply (for_each_all _
      (λ y m, y.1.2 ≠ EmptyString → material_row _ 0 _ _ y ∈ carriers_of m)); [| |exact E3|exact Hy|].
    + intros z ma mb Ez. by eapply insert_material_row.
    + intros z w ma r mb Ew Hz Hne. eapply insert_material_keeps; [exact Ew|]. by apply Hz.
    + rewrite X1 in Hy. unfold materials, Params in Hy. rewrite He in Hy. destruct Hf as (_ & F1 & F2 & F3).
      destruct y as [y1 y2]. apply elem_of_zip_l in Hy. cbn in Hy. rewrite X2, X3, X4 in Hy. set_unfold. naive_solver.
  - intros s Hs Hlt y Hy Hne. eapply row_survives; [exact E2|exact E3|exact E4| |].
    { unfold expired, material_row. cbn. lia. }
    unfold archiveCurrent in E1. rewrite (bind_Ok _ _ _ m m) in E1 by done. cbn zeta in E1.
    rewrite Hs in E1. assert (pm_Enabled (Params cfg (Some s)) = true) as Hen by (unfold Params; by rewrite He).
    rewrite Hen in E1. cbn [negb] in E1. eapply (for_each_all _
      (λ y m, y.1.2 ≠ EmptyString → material_row _ _ _ _ y ∈ carriers_of m)); [| |exact E1|exact Hy|exact Hne].
    + intros z ma mb Ez. by eapply insert_material_row.
    + intros z w ma r mb Ew Hz Hz'. eapply insert_material_keeps; [exact Ew|]. by apply Hz.
Qed.

(** The record of a rotation is never closed: the rows that a rotation
    writes for the secrets it installs have no expiry, so they are still there,
    active, after any later rotations and any other store operations, when the
    secrets they describe have long been replaced. *)
Lemma rotation_rows_stay_active cfg opt inp fr ifr cert m m' ops t :
  fresh_ok fr → c_EnableStealth cfg = true → current cfg m →
  Rotate cfg opt inp fr ifr cert m = (Ok tt, m') → length (ids inp) = 6%nat →
  steps (tbl (m_st m')) ops t →
  ∃ r, r ∈ carrier_credentials t ∧ cr_transport r = "vless_reality" ∧
    cr_secret_hash r = hashSecret (f_uuid fr) ∧ cr_active r = 1 ∧ cr_expires_at r = 0.
Proof.
  intros Hf He Hc E Hids Hs.
  destruct (Rotate_stages _ _ _ _ _ _ _ _ E) as (m1 & m2 & m3 & E1 & E2 & E3 & [r4 E4]).
  destruct (RotateAll_installs _ _ _ _ _ _ Hf E2) as (x & X1 & X2 & X3 & X4 & _).
  destruct (ids inp) as [|i1 [|i2 [|i3 [|i4 [|i5 [|i6 l]]]]]] eqn:Ei; try discriminate Hids.
  set (y := (("vless_reality", f_uuid fr), i4)).
  set (row := material_row (unix (t_now inp)) 0 (scope_of opt) (o_PeerID opt) y).
  assert (row ∈ carriers_of m') as Hrow.
  { eapply deactivate_keeps; [done|exact E4|].
    eapply (for_each_all _ (λ y m, y.1.2 ≠ EmptyString → material_row _ 0 _ _ y ∈ carriers_of m));
      [| |exact E3| |apply Hf].
    - intros z ma mb Ez. by eapply insert_material_row.
    - intros z w ma r mb Ew Hz Hne. eapply insert_material_keeps; [exact Ew|]. by apply Hz.
    - rewrite X1. unfold materials, Params. rewrite He. cbn. rewrite X2. left. }
  exists row. split; [|done]. clear -Hs Hrow. unfold carriers_of in Hrow.
  induction Hs as [t|t op fs r s ops t' E _ IH]; [done|]. apply IH.
  by apply (active_forever row op eq_refl _ _ _ E).
Qed.

(** ** Witnesses *)

Definition wit_manager : Manager DB :=
  (exec_mgr wit_cfg MStart (exec_mgr wit_cfg (MInit (wit_fresh "1") (Ok ("cert", "key")))
     (new_manager empty_db [])).2).2.
Definition wit_inputs (n : string) : Inputs :=
  mkInputs (10 ^ 18) (10 ^ 18) (10 ^ 18)
    ["a" +:+ n; "b" +:+ n; "c" +:+ n; "d" +:+ n; "e" +:+ n; "f" +:+ n].
Definition wit_rotate (n : string) (m : Manager DB) :=
  Rotate wit_cfg (mkOptions (hours 1) EmptyString) (wit_inputs n) (wit_fresh n) (wit_fresh "x")
    (Ok ("cert", "key")) m.

Lemma wit_manager_current : current wit_cfg wit_manager.
Proof.
  unfold current. vm_compute. split; [reflexivity|]. eexists. split; reflexivity.
Qed.

Lemma rotation_outcome_witness :
  let m' := (wit_rotate "2" wit_manager).2 in
  ∃ x, m_secrets m' = Some x ∧ s_VLESSUUID x = "uuid2" ∧ holds (m_st m') x ∧
    m_instance m' = Some (serverOptions wit_cfg x (m_certPEM m') (m_keyPEM m')).
Proof.
  cbn zeta.
  destruct (rotation_outcome wit_cfg (mkOptions (hours 1) EmptyString) (wit_inputs "2")
    (wit_fresh "2") (wit_fresh "x") (Ok ("cert", "key")) wit_manager (wit_rotate "2" wit_manager).2)
    as (x & H1 & H2 & _ & _ & H5 & _ & H7 & _).
  - apply wit_fresh_ok.
  - vm_compute. reflexivity.
  - apply wit_manager_current.
  - vm_compute. reflexivity.
  - exists x. split; [exact H1|]. split; [exact H2|]. split; [exact H5|].
    rewrite H7. vm_compute. reflexivity.
Defined.

Lemma rotation_rows_stay_active_witness :
  ∃ r, r ∈ carriers_of (wit_rotate "2" wit_manager).2 ∧ cr_transport r = "vless_reality" ∧
    cr_secret_hash r = hashSecret "uuid2" ∧ cr_active r = 1 ∧ cr_expires_at r = 0.
Proof.
  apply (rotation_rows_stay_active wit_cfg (mkOptions (hours 1) EmptyString) (wit_inputs "2")
    (wit_fresh "2") (wit_fresh "x") (Ok ("cert", "key")) wit_manager (wit_rotate "2" wit_manager).2 []).
  - apply wit_fresh_ok.
  - vm_compute. reflexivity.
  - apply wit_manager_current.
  - vm_compute. reflexivity.
  - reflexivity.
  - apply steps_nil.
Defined.
