(* ===== verification/Node.v ===== *)
(** * The provisioning service (internal/node/service.go)

    [Service] over the host of the WireGuard manager: peers are stored, then
    the interface is synced, then the credential bundle is built.  The stealth
    manager is present or nil; when present its secrets and its flag are read.
    Random values and clock readings are arguments.

    The theorems: a provisioned peer is stored and live; what a deletion and a
    resync remove and keep; and how one peer with a malformed key stops all
    provisioning. *)
From S2P Require Import Prelude GoStrings GoNet GoUrl StoreDB IPAlloc Store ConfigData Config Wg Stealth.

(** ** Data (internal/api/types.go) *)

Definition BundleVersion : Z := 2.

Record TransportEntry := mkTransportEntry { te_Kind : string; te_URI : string }.
Record WireGuardBundle := mkWGBundle {
  wb_ClientConf : string; wb_ServerPublicKey : string; wb_Endpoint : string;
  wb_Address : string; wb_DNS : string;
}.
Record CredentialBundle := mkBundle {
  b_BundleVersion : Z; b_NodeID : string; b_ID : string; b_IssuedAt : Z; b_ExpiresAt : Z;
  b_WireGuard : WireGuardBundle; b_Transports : list TransportEntry;
  b_VLESSURI : string; b_Hysteria2URI : string; b_SingboxProfile : option json;
}.
Record PeerRequest := mkPeerRequest {
  rq_Name : string; rq_Wallet : string; rq_WGPublicKey : string; rq_WGPresharedKey : string;
  rq_ExpiresAt : Z;
}.
Record PeerInfo := mkPeerInfo {
  pi_ID : string; pi_Name : string; pi_WGAllowedIP : string; pi_Enabled : bool;
  pi_CreatedAt : Z; pi_ExpiresAt : Z;
}.
Record NodeStats := mkNodeStats {
  nst_Status : string; nst_Version : string; nst_Region : string; nst_Zone : string;
  nst_Protocols : list string; nst_TotalPeers : Z; nst_ConnectedPeers : Z;
  nst_RxBytes : Z; nst_TxBytes : Z; nst_UptimeSec : Z;
}.

(** The host and the three metrics the service updates. *)
Record NodeState := mkNode {
  n_host : World; n_provisioned : Z; n_deprovisioned : Z; n_gauge : Z;
}.
Definition set_host (w : World) (n : NodeState) : NodeState :=
  mkNode w (n_provisioned n) (n_deprovisioned n) (n_gauge n).
Definition on_host {A} (m : M World A) : M NodeState A := zoom n_host set_host m.
Definition on_store {A} (m : M DB A) : M NodeState A := on_host (on_db m).

(** New: no peer has been counted. *)
Definition node_New (w : World) : NodeState := mkNode w 0 0 0.

Section service.
Context {srt : Sorting} (ParseKey : string → result (list Z)) (cfg : Config).
(** [stealth]: None for a nil manager, else its secrets. *)
Context (stealth : option (option Secrets)).

Definition buildBundle (pub : string) (issued : Z) (p : Peer) : CredentialBundle :=
  let wgb := mkWGBundle (ClientConfig cfg pub p) pub (Endpoint cfg) (p_WGAllowedIP p) (c_WGDNS cfg) in
  let plain := mkBundle BundleVersion (c_NodeID cfg) (p_ID p) issued (p_ExpiresAt p) wgb
                 [] EmptyString EmptyString None in
  match stealth with
  | Some secrets =>
      if c_EnableStealth cfg then
        let label := or_else (p_Name p) (c_NodeName cfg) in
        let ps := BuildPeer cfg secrets label pub (p_WGAllowedIP p) (p_WGPresharedKey p) in
        mkBundle BundleVersion (c_NodeID cfg) (p_ID p) issued (p_ExpiresAt p) wgb
          [mkTransportEntry "direct_wireguard_udp" (Endpoint cfg);
           mkTransportEntry "vless_reality_tcp" (ps_VLESSURI ps);
           mkTransportEntry "hysteria2_quic_udp" (ps_Hysteria2URI ps)]
          (ps_VLESSURI ps) (ps_Hysteria2URI ps) (Some (ps_SingboxProfile ps))
      else plain
  | None => plain
  end.

Definition updatePeerGauge : M NodeState unit :=
  r ← try (on_store ListPeers);
  match r with
  | Err _ => mret tt
  | Ok l => run (λ n, (Ok tt, mkNode (n_host n) (n_provisioned n) (n_deprovisioned n)
                               (Z.of_nat (length l))))
  end.

Definition count_provisioned : M NodeState unit :=
  run (λ n, (Ok tt, mkNode (n_host n) (n_provisioned n + 1) (n_deprovisioned n) (n_gauge n))).
Definition count_deprovisioned : M NodeState unit :=
  run (λ n, (Ok tt, mkNode (n_host n) (n_provisioned n) (n_deprovisioned n + 1) (n_gauge n))).

(** What one call draws: a peer id, the proxy credentials, the clock at the
    store and at the bundle. *)
Record Draw := mkDraw { dr_id : string; dr_gen : GeneratedCreds; dr_now : Z; dr_issued : Z }.

Definition UpsertPeer (metrics : bool) (i : string) (req : PeerRequest) (d : Draw)
    : M NodeState CredentialBundle :=
  let i := if String.eqb i EmptyString then dr_id d else i in
  let inp := mkPeer i (rq_Name req) (rq_Wallet req) (rq_WGPublicKey req) EmptyString
               (rq_WGPresharedKey req) EmptyString EmptyString true 0 0 (rq_ExpiresAt req) in
  peer ← on_store (Store.UpsertPeer inp (Subnet cfg) (dr_gen d) (dr_now d));
  _ ← on_host (Apply ParseKey cfg);
  _ ← (if metrics then _ ← count_provisioned; updatePeerGauge else mret tt);
  n ← get;
  mret (buildBundle (w_pub (n_host n)) (dr_issued d) peer).

Definition DeletePeer (metrics : bool) (i : string) : M NodeState unit :=
  _ ← on_store (Store.DeletePeer i);
  _ ← on_host (Apply ParseKey cfg);
  if metrics then _ ← count_deprovisioned; updatePeerGauge else mret tt.

Definition Credentials (i : string) (issued : Z) : M NodeState CredentialBundle :=
  peer ← on_store (GetPeer i);
  n ← get;
  mret (buildBundle (w_pub (n_host n)) issued peer).

Definition ListPeers : M NodeState (list PeerInfo) :=
  peers ← on_store Store.ListPeers;
  mret ((λ p, mkPeerInfo (p_ID p) (p_Name p) (p_WGAllowedIP p) (p_Enabled p)
                (p_CreatedAt p) (p_ExpiresAt p)) <$> peers).

(** [missing] ranges over a map: its order is not specified. *)
Definition ResyncPeers (metrics : bool) (keep : list string) : M NodeState (list string) :=
  let want : gset string := list_to_set keep in
  peers ← on_store Store.ListPeers;
  _ ← for_each (λ p, if decide (p_ID p ∈ want) then mret tt else DeletePeer metrics (p_ID p)) peers;
  let have : gset string := list_to_set (p_ID <$> peers) in
  mret (elements (want ∖ have)).

(** [live]: what the device reports; [uptime] in nanoseconds. *)
Definition Stats (live : DeviceStats) (uptime : Z) : M NodeState NodeStats :=
  peers ← on_store Store.ListPeers;
  mret (mkNodeStats "online" (c_Version cfg) (c_Region cfg) (c_Zone cfg)
    ("wireguard" :: if c_EnableStealth cfg then ["vless-reality"; "hysteria2"] else [])
    (Z.of_nat (length peers)) (ds_Connected live) (ds_RxBytes live) (ds_TxBytes live)
    (Z.quot uptime (10 ^ 9))).
End service.

(** ** Runs of the service *)

Definition nt (n : NodeState) : tables := wt (n_host n).

Lemma on_host_inv {A} (m : M World A) n r n' :
  on_host m n = (r, n') → ∃ w, m (n_host n) = (r, w) ∧ n_host n' = w.
Proof. intros (w & E & ->)%zoom_inv. eauto. Qed.

Lemma on_store_inv {A} (m : M DB A) n r n' :
  on_store m n = (r, n') → ∃ d, m (w_db (n_host n)) = (r, d) ∧ n_host n' = set_db d (n_host n).
Proof. intros (w & (d & E & ->)%zoom_inv & Hw)%on_host_inv. eauto. Qed.

Section runs.
Context {srt : Sorting} (ParseKey : string → result (list Z)) (cfg : Config).

(** The host is the same except for what the metrics read. *)
Lemma updatePeerGauge_inv n r n' :
  updatePeerGauge n = (r, n') → r = Ok tt ∧ nt n' = nt n ∧ same_state (n_host n) (n_host n') ∧
    w_files (n_host n') = w_files (n_host n) ∧ w_dev (n_host n') = w_dev (n_host n).
Proof.
  unfold updatePeerGauge, try, mbind, M_bind. destruct (on_store Store.ListPeers n) as [r0 n1] eqn:E.
  apply on_store_inv in E as (d & E & Hn).
  assert (tbl d = nt n) as Hd by (by apply query_inv in E as [E _]).
  destruct r0 as [l|e]; intros [= <- <-]; cbn; unfold nt, same_state, wt in *; rewrite Hn; cbn; done.
Qed.

Lemma in_sync_same w w' :
  same_state w w' → w_files w' = w_files w → w_dev w' = w_dev w →
  in_sync ParseKey cfg w → in_sync ParseKey cfg w'.
Proof.
  intros (E1 & E2 & E3) E4 E5 [H1 H2]. unfold in_sync. by rewrite E1, E2, E4, E5.
Qed.

(** The metrics at the end of an operation change nothing that matters. *)
Lemma metrics_tail metrics (count : M NodeState unit) n r n' :
  (∀ m r m', count m = (r, m') → r = Ok tt ∧ n_host m' = n_host m) →
  (if metrics : bool then _ ← count; updatePeerGauge else mret tt) n = (r, n') →
  r = Ok tt ∧ same_state (n_host n) (n_host n') ∧
    w_files (n_host n') = w_files (n_host n) ∧ w_dev (n_host n') = w_dev (n_host n).
Proof.
  intros Hc. destruct metrics; [|by intros [= <- <-]].
  intros [([] & n1 & E1 & E2)|(e & E & ->)]%bind_inv.
  - apply Hc in E1 as [_ E1]. apply updatePeerGauge_inv in E2 as (-> & _ & H1 & H2 & H3).
    by rewrite E1 in *.
  - by apply Hc in E as [[=] _].
Qed.

Lemma count_provisioned_ok n r n' :
  count_provisioned n = (r, n') → r = Ok tt ∧ n_host n' = n_host n.
Proof. by intros [= <- <-]. Qed.
Lemma count_deprovisioned_ok n r n' :
  count_deprovisioned n = (r, n') → r = Ok tt ∧ n_host n' = n_host n.
Proof. by intros [= <- <-]. Qed.

Lemma DeletePeer_inv metrics i n r n' :
  DeletePeer ParseKey cfg metrics i n = (r, n') →
  (nt n' = nt n ∧ is_ok r = false ∨
   nt n' = set_peers (delete_peer_rows i (peers (nt n))) (nt n) ∧
   (r = Ok tt → in_sync ParseKey cfg (n_host n')) ∧
   (is_ok (peer_configs ParseKey (listed (nt n'))) = false → is_ok r = false)).
Proof.
  intros [([] & n1 & E1 & E2)|(e & E & ->)]%bind_inv.
  - right. apply on_store_inv in E1 as (d & E1 & Hn1).
    apply exec_inv in E1 as [(a & t & [= <- <-] & _ & Ht)|(e & [=] & _)].
    assert (nt n1 = set_peers (delete_peer_rows i (peers (nt n))) (nt n)) as Hnt.
    { unfold nt, wt at 1. rewrite Hn1. cbn. by rewrite Ht. }
    apply bind_inv in E2 as [([] & n2 & E2 & E3)|(e & E & ->)].
    + apply on_host_inv in E2 as (w2 & E2 & Hw2). apply Apply_inv in E2 as ((A1 & A2) & A3 & A4 & A5 & _).
      apply metrics_tail in E3 as (-> & B1 & B2 & B3); [|apply count_deprovisioned_ok].
      rewrite Hw2 in *. assert (nt n' = nt n1) as Hn' by (unfold nt; destruct B1; congruence).
      rewrite Hn', Hnt. split; [done|]. split.
      * intros _. eapply in_sync_same; [exact B1|done|done|]. by apply A3.
      * fold (nt n1) in A5. rewrite Hnt in A5. by intros H%A5.
    + apply on_host_inv in E as (w2 & E & Hw2). apply Apply_inv in E as ((A1 & A2) & A3 & A4 & A5 & _).
      split; [unfold nt; rewrite Hw2; unfold nt in Hnt; congruence|]. done.
  - left. apply on_store_inv in E as (d & E & Hn). split; [|done].
    apply exec_err in E. unfold nt, wt. rewrite Hn. cbn. by rewrite E.
Qed.
End runs.

(** ** Provisioning *)

Section provisioning.
Context {srt : Sorting} (ParseKey : string → result (list Z)) (cfg : Config)
  (stealth : option (option Secrets)).

Definition request_peer (i : string) (req : PeerRequest) (d : Draw) : Peer :=
  mkPeer (if String.eqb i EmptyString then dr_id d else i) (rq_Name req) (rq_Wallet req)
    (rq_WGPublicKey req) EmptyString (rq_WGPresharedKey req) EmptyString EmptyString true 0 0
    (rq_ExpiresAt req).

(** What follows the store's step: Apply, the metrics, the bundle. *)
Lemma upsert_tail metrics issued p n1 r n' :
  (_ ← on_host (Apply ParseKey cfg);
   _ ← (if metrics : bool then _ ← count_provisioned; updatePeerGauge else mret tt);
   n ← get;
   mret (buildBundle cfg stealth (w_pub (n_host n)) issued p)) n1 = (r, n') →
  nt n' = nt n1 ∧
  (is_ok (peer_configs ParseKey (listed (nt n1))) = false → is_ok r = false) ∧
  (∀ b, r = Ok b → b = buildBundle cfg stealth (w_pub (n_host n')) issued p ∧
     in_sync ParseKey cfg (n_host n')).
Proof.
  intros [([] & n2 & E2 & E3)|(e & E & ->)]%bind_inv.
  - apply on_host_inv in E2 as (w2 & E2 & Hw2). apply Apply_inv in E2 as ([A1 _] & A3 & A4 & A5 & _).
    apply bind_inv in E3 as [([] & n3 & E3 & E4)|(e & E & ->)].
    2:{ apply metrics_tail in E as ([=] & _); apply count_provisioned_ok. }
    apply metrics_tail in E3 as (_ & B1 & B2 & B3); [|apply count_provisioned_ok].
    rewrite (bind_Ok _ _ _ n3 n3) in E4 by done. injection E4 as <- <-. rewrite Hw2 in *.
    pose proof B1 as [B _]. split; [unfold nt; congruence|]. split; [by intros H%A5|].
    intros b [= <-]. split; [done|]. eapply in_sync_same; [exact B1|done|done|]. by apply A3.
  - apply on_host_inv in E as (w2 & E & Hw2). apply Apply_inv in E as ([A1 _] & _).
    split; [unfold nt; congruence|]. done.
Qed.

Lemma store_step_inv i req d n p n1 :
  db_wf (nt n) → honest (faults (w_db (n_host n))) →
  on_store (Store.UpsertPeer (request_peer i req d) (Subnet cfg) (dr_gen d) (dr_now d)) n = (Ok p, n1) →
  upsert_spec (abs (nt n)) (request_peer i req d) (dr_gen d) (dr_now d)
    (alloc_in (Subnet cfg) (nt n)) p (abs (nt n1)) ∧
  abs (nt n1) !! p_ID p = Some p ∧ p_WGPublicKey p = rq_WGPublicKey req ∧ p_Enabled p = true ∧
  db_wf (nt n1).
Proof.
  intros Hwf Hh (s & E & Hn)%on_store_inv. unfold nt, wt in *. rewrite Hn. cbn.
  destruct (w_db (n_host n)) as [t fs]. by eapply UpsertPeer_stored.
Qed.

(** The two outcomes of the store's step, and what Apply adds. *)
Lemma UpsertPeer_inv metrics i req d n r n' :
  db_wf (nt n) → honest (faults (w_db (n_host n))) →
  UpsertPeer ParseKey cfg stealth metrics i req d n = (r, n') →
  (nt n' = nt n ∧ is_ok r = false) ∨
  (∃ p, upsert_spec (abs (nt n)) (request_peer i req d) (dr_gen d) (dr_now d)
          (alloc_in (Subnet cfg) (nt n)) p (abs (nt n')) ∧
     abs (nt n') !! p_ID p = Some p ∧ p_WGPublicKey p = rq_WGPublicKey req ∧ p_Enabled p = true ∧
     db_wf (nt n') ∧
     (is_ok (peer_configs ParseKey (listed (nt n'))) = false → is_ok r = false) ∧
     (∀ b, r = Ok b → b = buildBundle cfg stealth (w_pub (n_host n')) (dr_issued d) p ∧
        in_sync ParseKey cfg (n_host n'))).
Proof.
  intros Hwf Hh [(p & n1 & E1 & E2)|(e & E & ->)]%bind_inv.
  - right. exists p. destruct (store_step_inv i req d n p n1 Hwf Hh E1) as (S1 & S2 & S3 & S4 & S5).
    apply upsert_tail in E2 as (T1 & T2 & T3). rewrite T1. do 5 (split; [done|]). done.
  - left. apply on_store_inv in E as (s & E & Hn). split; [|done].
    apply in_tx_err in E. unfold nt, wt. rewrite Hn. cbn. by rewrite E.
Qed.

Lemma listed_abs t i p : abs t !! i = Some p → p ∈ listed t.
Proof.
  intros (r & Hr & _ & ->)%abs_row. unfold listed. apply list_elem_of_fmap. exists r.
  split; [done|]. by rewrite sort_by_perm.
Qed.

(** Every enabled peer of the list is configured on the device. *)
Lemma peer_configs_In l cfgs p :
  peer_configs ParseKey l = Ok cfgs → p ∈ l → p_Enabled p = true →
  ∃ pc, pc ∈ cfgs ∧ peer_config ParseKey p = Ok pc.
Proof.
  revert cfgs. induction l as [|q l IH]; intros cfgs E Hp He; [by apply not_elem_of_nil in Hp|].
  cbn in E. apply elem_of_cons in Hp as [<-|Hp].
  - rewrite He in E. cbn in E. destruct (peer_config ParseKey p) as [pc|]; [|done]. cbn in E.
    destruct (peer_configs ParseKey l); [|done]. injection E as <-. exists pc. split; [left|done].
  - destruct (negb (p_Enabled q)); [by apply IH|]. destruct (peer_config ParseKey q); [|done].
    cbn in E. destruct (peer_configs ParseKey l) as [rest|]; [|done]. injection E as <-.
    destruct (IH rest eq_refl Hp He) as (pc & ? & ?). exists pc. split; [by right|done].
Qed.

Lemma peer_config_inv p pc :
  peer_config ParseKey p = Ok pc →
  ParseKey (p_WGPublicKey p) = Ok (pc_PublicKey pc) ∧
  ∃ ip ipnet, ParseCIDR (p_WGAllowedIP p) = Some (ip, ipnet) ∧ pc_AllowedIPs pc = [ipnet].
Proof.
  unfold peer_config. destruct (ParseKey (p_WGPublicKey p)) as [k|]; [|done].
  destruct (String.eqb (p_WGPresharedKey p) EmptyString); [|destruct (ParseKey (p_WGPresharedKey p)); [|done]];
    cbn; (destruct (ParseCIDR (p_WGAllowedIP p)) as [[ip ipnet]|]; [|done]); intros [= <-]; eauto.
Qed.

Lemma bad_peer_configs t i p e :
  abs t !! i = Some p → p_Enabled p = true → ParseKey (p_WGPublicKey p) = Err e →
  is_ok (peer_configs ParseKey (listed t)) = false.
Proof.
  intros Hp He Hk. destruct (peer_configs ParseKey (listed t)) as [cfgs|] eqn:E; [|done].
  destruct (peer_configs_In _ _ _ E (listed_abs _ _ _ Hp) He) as (pc & _ & Hpc).
  unfold peer_config in Hpc. by rewrite Hk in Hpc.
Qed.

Lemma abs_delete t i : abs (set_peers (delete_peer_rows i (peers t)) t) = delete i (abs t).
Proof.
  apply map_eq. intros j. rewrite abs_lookup. cbn [peers set_peers]. unfold delete_peer_rows.
  destruct (decide (j = i)) as [->|Hne].
  - rewrite lookup_delete_eq. apply fmap_None, find_first_None. intros r [Hr _]%list_elem_of_filter.
    by apply String.eqb_neq.
  - rewrite lookup_delete_ne, abs_lookup by done. f_equal. apply find_first_filter.
    intros r E%String.eqb_eq Ei. congruence.
Qed.
End provisioning.

(** ** Properties *)

(** C14. A provisioned peer is stored and live.  When UpsertPeer returns a
    bundle, the peer it names is in the store with the requested key; the
    interface file is the rendering of the stored peers and the device's peer
    list is theirs, this peer's entry included, with the parsed key and the
    address that the bundle gives; and the constraints hold. *)
Theorem UpsertPeer_provisions {srt : Sorting} ParseKey cfg stealth metrics i req d n b n' :
  db_wf (nt n) → honest (faults (w_db (n_host n))) →
  UpsertPeer ParseKey cfg stealth metrics i req d n = (Ok b, n') →
  ∃ p pc cfgs, abs (nt n') !! b_ID b = Some p ∧ p_WGPublicKey p = rq_WGPublicKey req ∧
    wb_Address (b_WireGuard b) = p_WGAllowedIP p ∧
    wb_ClientConf (b_WireGuard b) = ClientConfig cfg (w_pub (n_host n')) p ∧
    w_dev (n_host n') !! c_WGInterface cfg = Some cfgs ∧ pc ∈ cfgs ∧
    ParseKey (rq_WGPublicKey req) = Ok (pc_PublicKey pc) ∧
    (∃ ip ipnet, ParseCIDR (p_WGAllowedIP p) = Some (ip, ipnet) ∧ pc_AllowedIPs pc = [ipnet]) ∧
    in_sync ParseKey cfg (n_host n') ∧ db_wf (nt n').
Proof.
  intros Hwf Hh E. destruct (UpsertPeer_inv _ _ _ _ _ _ _ _ _ _ Hwf Hh E)
    as [[_ [=]]|(p & H1 & H2 & H3 & H4 & H5 & _ & H6)].
  destruct (H6 b eq_refl) as [-> Hsync]. pose proof Hsync as [_ (cfgs & Hc & Hd)].
  destruct (peer_configs_In _ _ _ _ Hc (listed_abs _ _ _ H2) H4) as (pc & Hpc & Epc).
  exists p, pc, cfgs.
  assert (∀ issued, b_ID (buildBundle cfg stealth (w_pub (n_host n')) issued p) = p_ID p ∧
    b_WireGuard (buildBundle cfg stealth (w_pub (n_host n')) issued p) =
      mkWGBundle (ClientConfig cfg (w_pub (n_host n')) p) (w_pub (n_host n')) (Endpoint cfg)
        (p_WGAllowedIP p) (c_WGDNS cfg)) as Hb.
  { intros issued. unfold buildBundle. destruct stealth as [s|]; [|done]. by destruct (c_EnableStealth cfg). }
  destruct (Hb (dr_issued d)) as [-> ->]. apply peer_config_inv in Epc as [Ek Eip]. rewrite H3 in Ek.
  do 9 (split; [done|]). done.
Qed.


(** A peer with a malformed key is stored although the request that
    brought it fails: whenever the store's step succeeds, a key that
    wgtypes.ParseKey rejects makes UpsertPeer return an error, with the peer
    committed and enabled. *)
Lemma bad_key_committed {srt : Sorting} ParseKey cfg stealth metrics i req d n p m e :
  db_wf (nt n) → faults (w_db (n_host n)) = [] →
  ParseKey (rq_WGPublicKey req) = Err e →
  upsert_spec (abs (nt n)) (request_peer i req d) (dr_gen d) (dr_now d)
    (alloc_in (Subnet cfg) (nt n)) p m →
  ∃ e' n', UpsertPeer ParseKey cfg stealth metrics i req d n = (Err e', n') ∧ abs (nt n') = m ∧
    m !! p_ID p = Some p ∧ p_WGPublicKey p = rq_WGPublicKey req ∧ p_Enabled p = true.
Proof.
  intros Hwf Hf Hk Hs. destruct (upsert_spec_outcome _ _ _ _ _ _ _ Hwf Hs) as (t' & Eo & Hm).
  set (n1 := set_host (set_db (mkDB t' []) (n_host n)) n).
  assert (on_store (Store.UpsertPeer (request_peer i req d) (Subnet cfg) (dr_gen d) (dr_now d)) n =
    (Ok p, n1)) as E1.
  { unfold on_store, on_host, on_db, zoom. unfold nt, wt in Eo.
    destruct (w_db (n_host n)) as [t fs]. cbn in Hf, Eo. subst fs. by rewrite UpsertPeer_free, Eo. }
  destruct (store_step_inv cfg i req d n p n1 Hwf ltac:(rewrite Hf; constructor) E1)
    as (_ & S2 & S3 & S4 & _).
  destruct (UpsertPeer ParseKey cfg stealth metrics i req d n) as [r n'] eqn:E.
  unfold UpsertPeer in E. cbn zeta in E. fold (request_peer i req d) in E.
  rewrite (bind_Ok _ _ _ _ _ E1) in E. apply upsert_tail in E as (T1 & T2 & _).
  assert (is_ok r = false) as Hr.
  { apply T2. eapply bad_peer_configs; [exact S2|done|]. by rewrite S3. }
  destruct r as [|e']; [done|]. exists e', n'. rewrite T1.
  assert (abs (nt n1) = m) as Hn1 by done. rewrite <- Hn1. done.
Qed.

(** As long as that peer is there, nothing else can be provisioned or
    removed: a request for any other id and key, and the deletion of any other
    peer, return an error, and leave the malformed peer in place. *)
Lemma bad_key_blocks_service {srt : Sorting} ParseKey cfg stealth metrics bad p e n :
  db_wf (nt n) → honest (faults (w_db (n_host n))) →
  abs (nt n) !! bad = Some p → p_Enabled p = true → ParseKey (p_WGPublicKey p) = Err e →
  (∀ i req d r n', p_ID (request_peer i req d) ≠ bad → rq_WGPublicKey req ≠ p_WGPublicKey p →
     UpsertPeer ParseKey cfg stealth metrics i req d n = (r, n') →
     is_ok r = false ∧ abs (nt n') !! bad = Some p ∧ db_wf (nt n')) ∧
  (∀ i r n', i ≠ bad → DeletePeer ParseKey cfg metrics i n = (r, n') →
     is_ok r = false ∧ abs (nt n') !! bad = Some p).
Proof.
  intros Hwf Hh Hp He Hk. split.
  - intros i req d r n' Hi Hkey E. destruct (UpsertPeer_inv _ _ _ _ _ _ _ _ _ _ Hwf Hh E)
      as [[Hn Hr]|(q & H1 & H2 & H3 & H4 & H5 & H6 & _)]; [by rewrite Hn|].
    assert (abs (nt n') !! bad = Some p) as Hp'.
    { eapply upsert_spec_other; [exact H1|exact Hp|congruence|cbn; congruence]. }
    split; [|done]. apply H6. by eapply bad_peer_configs.
  - intros i r n' Hi E. apply DeletePeer_inv in E as [[Hn Hr]|(Hn & _ & H6)]; [by rewrite Hn|].
    assert (abs (nt n') !! bad = Some p) as Hp'.
    { rewrite Hn, abs_delete, lookup_delete_ne by done. done. }
    split; [|done]. apply H6. by eapply bad_peer_configs.
Qed.

(** ** Resync *)

(** Peers may go, except those of [keep]; none changes or appears. *)
Definition resync_rel (keep : list string) (n n' : NodeState) : Prop :=
  abs (nt n') ⊆ abs (nt n) ∧ ∀ i, i ∈ keep → abs (nt n') !! i = abs (nt n) !! i.

#[export] Instance resync_rel_preorder keep : PreOrder (resync_rel keep).
Proof.
  unfold resync_rel. split; red; [done|]. intros n1 n2 n3 [H1 H2] [H3 H4].
  split; [by etransitivity|]. intros i Hi. by rewrite H4, H2.
Qed.

Section resync.
Context {srt : Sorting} (ParseKey : string → result (list Z)) (cfg : Config).

Lemma DeletePeer_resync metrics keep i :
  i ∉ keep → keeps (resync_rel keep) (DeletePeer ParseKey cfg metrics i).
Proof.
  intros Hi n r n' E. unfold resync_rel.
  apply DeletePeer_inv in E as [[-> _]|(-> & _)]; [done|]. rewrite abs_delete.
  split; [apply delete_subseteq|]. intros j Hj. rewrite lookup_delete_ne; [done|]. congruence.
Qed.

Definition resync_one (metrics : bool) (keep : list string) (p : Peer) : M NodeState unit :=
  if decide (p_ID p ∈ (list_to_set keep : gset string)) then mret tt
  else DeletePeer ParseKey cfg metrics (p_ID p).

Lemma resync_one_rel metrics keep p : keeps (resync_rel keep) (resync_one metrics keep p).
Proof.
  unfold resync_one. destruct (decide _) as [|Hn]; [apply keeps_ret, _|].
  apply DeletePeer_resync. by rewrite elem_of_list_to_set in Hn.
Qed.

Lemma resync_one_gone metrics keep p n n' :
  resync_one metrics keep p n = (Ok tt, n') → p_ID p ∉ keep → abs (nt n') !! p_ID p = None.
Proof.
  unfold resync_one. intros E Hn. destruct (decide _) as [Hy|_];
    [by rewrite elem_of_list_to_set in Hy|].
  apply DeletePeer_inv in E as [[_ [=]]|(-> & _)]. rewrite abs_delete. apply lookup_delete_eq.
Qed.

Lemma listed_ids t i p : abs t !! i = Some p → p ∈ listed t ∧ p_ID p = i.
Proof.
  intros H. split; [by eapply listed_abs|]. by apply abs_row in H as (r & _ & <- & ->).
Qed.

Lemma listed_have t i : i ∈ (p_ID <$> listed t) ↔ is_Some (abs t !! i).
Proof.
  rewrite abs_lookup, fmap_is_Some. split.
  - intros (p & -> & Hp)%list_elem_of_fmap. unfold listed in Hp.
    apply list_elem_of_fmap in Hp as (r & -> & Hr). rewrite sort_by_perm in Hr. cbn.
    destruct (find_first (λ r0, String.eqb (pr_id r0) (pr_id r)) (peers t)) eqn:E; [done|].
    eapply find_first_None in E; [|exact Hr]. by rewrite String.eqb_refl in E.
  - intros [r [Hr E%String.eqb_eq]%find_first_Some]. apply list_elem_of_fmap. exists (scanPeer r).
    split; [done|]. unfold listed. apply list_elem_of_fmap. exists r. split; [done|].
    by rewrite sort_by_perm.
Qed.
End resync.

(** C15. ResyncPeers makes the gateway's list authoritative.  Whether it
    succeeds or stops at an error, no peer of the list is lost or changed and
    none is added; when it succeeds, the peers left are exactly the previous
    ones that are on the list, and the result names, once each, the ids on the
    list that the node does not have. *)
Theorem ResyncPeers_exact {srt : Sorting} ParseKey cfg metrics keep n r n' :
  ResyncPeers ParseKey cfg metrics keep n = (r, n') →
  resync_rel keep n n' ∧
  ∀ l, r = Ok l →
    (∀ i, abs (nt n') !! i = if decide (i ∈ keep) then abs (nt n) !! i else None) ∧
    NoDup l ∧ (∀ i, i ∈ l ↔ i ∈ keep ∧ abs (nt n) !! i = None).
Proof.
  intros [(peers & n1 & E1 & E2)|(e & E & ->)]%bind_inv.
  2:{ apply on_store_inv in E as (d & E & Hn). apply query_inv in E as [E _].
      assert (nt n' = nt n) as Hnt by (unfold nt, wt; rewrite Hn; cbn; by rewrite E).
      unfold resync_rel. by rewrite Hnt. }
  apply on_store_inv in E1 as (d & E1 & Hn). apply query_inv in E1 as [Ed Hr].
  assert (nt n1 = nt n) as Hnt by (unfold nt, wt; rewrite Hn; cbn; by rewrite Ed).
  assert (peers = listed (nt n)) as -> by (by destruct Hr as [[= ->]|[e [=]]]).
  cbv zeta in E2. fold (resync_one ParseKey cfg metrics keep) in E2.
  assert (∀ r2 n2, for_each (resync_one ParseKey cfg metrics keep) (listed (nt n)) n1 = (r2, n2) →
    resync_rel keep n n2) as Hloop.
  { intros r2 n2 E. pose proof (keeps_for_each (resync_rel keep) _ _
      (resync_one_rel ParseKey cfg metrics keep) _ _ _ E) as H. unfold resync_rel in *. by rewrite Hnt in H. }
  apply bind_inv in E2 as [([] & n2 & E2 & [= <- <-])|(e & E & ->)].
  2:{ split; [by eapply Hloop|done]. }
  pose proof (Hloop _ _ E2) as Hrel. split; [done|]. intros l [= <-]. split_and!.
  - intros i. destruct Hrel as [Hsub Hkeep]. destruct (decide (i ∈ keep)) as [Hi|Hi]; [by apply Hkeep|].
    destruct (abs (nt n2) !! i) as [q|] eqn:Eq; [|done]. exfalso.
    pose proof (lookup_weaken _ _ _ _ Eq Hsub) as Hq.
    destruct (listed_ids _ _ _ Hq) as [Hin <-].
    pose proof (for_each_all _ (λ p m, p_ID p ∉ keep → abs (nt m) !! p_ID p = None) _ _ _
      (resync_one_gone ParseKey cfg metrics keep)
      (λ x y s r s' E H Hx, eq_None_ne_Some_2 _ (λ v Hv, eq_None_ne_Some_1 _ _ (H Hx)
        (lookup_weaken _ _ _ _ Hv (proj1 (resync_one_rel ParseKey cfg metrics keep y s r s' E))))) E2
      q Hin Hi) as Hnone. congruence.
  - apply NoDup_elements.
  - intros i. rewrite elem_of_elements, elem_of_difference, !elem_of_list_to_set, listed_have.
    rewrite <- eq_None_not_Some. done.
Qed.

(** ** Witnesses *)

(** A stand-in for wgtypes.ParseKey: keys are texts that start with k. *)
Definition wit_ParseKey (s : string) : result (list Z) :=
  if HasPrefix s "k" then Ok (code <$> String.list_ascii_of_string s)
  else Err (EMsg "failed to parse base64-encoded key").
Definition wit_node : NodeState :=
  mkNode (mkWorld (mkDB wit_tables []) ∅ ∅ [] "priv" "pub") 0 0 0.
Definition wit_req (key : string) : PeerRequest := mkPeerRequest "phone" EmptyString key EmptyString 0.
Definition wit_draw : Draw := mkDraw "auto" (mkGen "u2" "pw2") 200 201.
Definition wit_upsert (key : string) :=
  UpsertPeer wit_ParseKey wit_cfg None true "p2" (wit_req key) wit_draw wit_node.

Lemma UpsertPeer_provisions_witness :
  let n' := (wit_upsert "k2").2 in
  ∃ b p pc cfgs, (wit_upsert "k2").1 = Ok b ∧ abs (nt n') !! b_ID b = Some p ∧
    w_dev (n_host n') !! "wg0" = Some cfgs ∧ pc ∈ cfgs ∧ wb_Address (b_WireGuard b) = p_WGAllowedIP p.
Proof.
  cbn zeta. destruct (wit_upsert "k2").1 as [b|] eqn:E; [|exfalso; vm_compute in E; discriminate].
  exists b. destruct (UpsertPeer_provisions wit_ParseKey wit_cfg None true "p2" (wit_req "k2") wit_draw
    wit_node b (wit_upsert "k2").2) as (p & pc & cfgs & H1 & _ & H3 & _ & H5 & H6 & _).
  - apply wit_tables_wf.
  - constructor.
  - change (wit_upsert "k2" = (Ok b, (wit_upsert "k2").2)). rewrite <- E. apply surjective_pairing.
  - exists p, pc, cfgs. split; [reflexivity|]. split; [exact H1|]. split; [exact H5|]. split; [exact H6|exact H3].
Defined.

Lemma wit_spec : ∃ p m,
  upsert_spec (abs (nt wit_node)) (request_peer "p2" (wit_req "bad") wit_draw) (dr_gen wit_draw)
    (dr_now wit_draw) (alloc_in (Subnet wit_cfg) (nt wit_node)) p m.
Proof.
  eexists _, _. eapply UpsertNew with (ip := "10.0.0.3/32").
  - vm_compute. reflexivity.
  - intros i p (r & Hr & _ & ->)%abs_row _. apply list_elem_of_In in Hr.
    vm_compute in Hr. destruct Hr as [<-|[]]. discriminate.
  - vm_compute. reflexivity.
  - intros i p (r & Hr & _ & ->)%abs_row. apply list_elem_of_In in Hr.
    vm_compute in Hr. destruct Hr as [<-|[]]. discriminate.
  - intros i p (r & Hr & _ & ->)%abs_row. apply list_elem_of_In in Hr.
    vm_compute in Hr. destruct Hr as [<-|[]]. discriminate.
Qed.

Lemma bad_key_committed_witness :
  ∃ e' n' p, wit_upsert "bad" = (Err e', n') ∧ abs (nt n') !! p_ID p = Some p ∧ p_Enabled p = true.
Proof.
  destruct wit_spec as (p & m & Hs).
  destruct (bad_key_committed wit_ParseKey wit_cfg None true "p2" (wit_req "bad") wit_draw wit_node
    p m (EMsg "failed to parse base64-encoded key")) as (e' & n' & H1 & H2 & H3 & _ & H5).
  - apply wit_tables_wf.
  - reflexivity.
  - reflexivity.
  - exact Hs.
  - exists e', n', p. split; [exact H1|]. split; [|exact H5]. rewrite H2. exact H3.
Defined.

Definition wit_poisoned : NodeState :=
  mkNode (mkWorld (mkDB (tbl (exec_op (wit_op "pbad" "bad" "u1") empty_db).2) []) ∅ ∅ [] "priv" "pub") 0 0 0.

Lemma wit_poisoned_wf : db_wf (nt wit_poisoned).
Proof.
  unfold wit_poisoned, nt, wt. cbn [n_host w_db tbl].
  destruct (exec_op (wit_op "pbad" "bad" "u1") empty_db) as [r s] eqn:E.
  exact (exec_op_wf _ _ _ _ E empty_wf).
Qed.

Lemma bad_key_blocks_service_witness :
  let run := UpsertPeer wit_ParseKey wit_cfg None true "p2" (wit_req "k2") wit_draw wit_poisoned in
  is_ok run.1 = false ∧ is_Some (abs (nt run.2) !! "pbad").
Proof.
  cbn zeta. destruct (abs (nt wit_poisoned) !! "pbad") as [p|] eqn:Ep;
    [|exfalso; vm_compute in Ep; discriminate].
  destruct (bad_key_blocks_service wit_ParseKey wit_cfg None true "pbad" p
    (EMsg "failed to parse base64-encoded key") wit_poisoned) as [H _].
  - apply wit_poisoned_wf.
  - constructor.
  - exact Ep.
  - vm_compute in Ep. injection Ep as <-. reflexivity.
  - vm_compute in Ep. injection Ep as <-. reflexivity.
  - destruct (H "p2" (wit_req "k2") wit_draw _ _ ltac:(discriminate)
      ltac:(vm_compute in Ep; injection Ep as <-; discriminate) (surjective_pairing _)) as (H1 & H2 & _).
    split; [exact H1|]. eexists. exact H2.
Defined.

Lemma ResyncPeers_exact_witness :
  let run := ResyncPeers wit_ParseKey wit_cfg true ["p7"] wit_node in
  ∃ l, run.1 = Ok l ∧ (∀ i, i ∈ l ↔ i ∈ ["p7"] ∧ abs (nt wit_node) !! i = None).
Proof.
  cbn zeta. exists ["p7"]. split; [vm_compute; reflexivity|].
  apply (ResyncPeers_exact wit_ParseKey wit_cfg true ["p7"] wit_node (Ok ["p7"])
    (ResyncPeers wit_ParseKey wit_cfg true ["p7"] wit_node).2); [vm_compute; reflexivity|reflexivity].
Defined.
