(* ===== verification/Speedtest.v ===== *)
(** * The speed test: internal/speedtest/speedtest.go

    Throughput measurements cached for heartbeats.  Floating-point numbers are
    the IEEE 754 binary64 numbers of the Standard Library's specification of
    floating-point arithmetic.  What the three requests yield (how long each
    took in nanoseconds, and how many bytes arrived) is an argument. *)
From S2P Require Import Prelude GoStrings.
From Stdlib Require Import SpecFloat.

(** ** binary64 *)

Definition float64 := spec_float.
Definition f_of_Z (n : Z) : float64 := binary_normalize 53 1024 n 0 false.
Definition f_add : float64 → float64 → float64 := SFadd 53 1024.
Definition f_mul : float64 → float64 → float64 := SFmul 53 1024.
Definition f_div : float64 → float64 → float64 := SFdiv 53 1024.
Definition f_zero : float64 := S754_zero false.
Definition f_positive (x : float64) : bool := SFltb f_zero x.

(** [Duration.Seconds] and [Duration.Milliseconds]. *)
Definition Seconds (d : Z) : float64 :=
  f_add (f_of_Z (Z.quot d (10 ^ 9))) (f_div (f_of_Z (Z.rem d (10 ^ 9))) (f_of_Z (10 ^ 9))).
Definition Milliseconds (d : Z) : Z := Z.quot d (10 ^ 6).

(** ** Measurements *)

Record Speedtest := mkSpeedtest {
  sd_DownloadMbps : float64; sd_UploadMbps : float64; sd_LatencyMs : float64; sd_MeasuredAt : Z }.

Definition zero_speedtest : Speedtest := mkSpeedtest f_zero f_zero f_zero 0.

Definition downloadBytes : Z := 50000000.
Definition uploadBytes : Z := 20000000.

(** The rate in megabits per second of [n] bytes in [secs] seconds. *)
Definition mbps (n : Z) (secs : float64) : float64 :=
  f_div (f_mul (f_of_Z n) (f_of_Z 8)) (f_mul secs (f_of_Z 1000000)).

(** [latency], [upload]: the duration of the request, [None] when it failed;
    [download]: with the number of bytes read. *)
Definition Measure (latency : option Z) (download : option (Z * Z)) (upload : option Z) (now : Z)
  : result Speedtest :=
  let latencyMs := match latency with Some d => f_of_Z (Milliseconds d) | None => f_zero end in
  let downloadMbps :=
    match download with
    | Some (d, n) => let secs := Seconds d in
                     if f_positive secs && (0 <? n) then mbps n secs else f_zero
    | None => f_zero
    end in
  let uploadMbps :=
    match upload with
    | Some d => let secs := Seconds d in if f_positive secs then mbps uploadBytes secs else f_zero
    | None => f_zero
    end in
  Ok (mkSpeedtest downloadMbps uploadMbps latencyMs now).

(** ** The cache *)

Record Cache := mkCache { ca_last : Speedtest }.
Definition NewCache : Cache := mkCache zero_speedtest.
Definition cache_Get (c : Cache) : Speedtest := ca_last c.
Definition cache_set (st : Speedtest) (c : Cache) : Cache := mkCache st.

Definition cache_refresh (latency : option Z) (download : option (Z * Z)) (upload : option Z) (now : Z)
    (c : Cache) : Cache :=
  match Measure latency download upload now with
  | Err _ => c
  | Ok st => cache_set st c
  end.

(** Start: one measurement, then one per tick, each with what it met. *)
Record Trial := mkTrial {
  tr_latency : option Z; tr_download : option (Z * Z); tr_upload : option Z; tr_now : Z }.
Definition trial_refresh (c : Cache) (t : Trial) : Cache :=
  cache_refresh (tr_latency t) (tr_download t) (tr_upload t) (tr_now t) c.
Definition cache_Start (first : Trial) (ticks : list Trial) (c : Cache) : Cache :=
  foldl trial_refresh (trial_refresh c first) ticks.

(** The cache holds the latest measurement that succeeded. *)
Lemma cache_Start_latest first ticks t st c :
  Measure (tr_latency t) (tr_download t) (tr_upload t) (tr_now t) = Ok st →
  cache_Get (cache_Start first (ticks ++ [t]) c) = st ∧
  ∀ more, Forall (λ u, is_ok (Measure (tr_latency u) (tr_download u) (tr_upload u) (tr_now u)) = false) more →
    cache_Get (cache_Start first ((ticks ++ [t]) ++ more) c) = st.
Proof.
  intros E. unfold cache_Start, cache_Get.
  assert (ca_last (foldl trial_refresh (trial_refresh c first) (ticks ++ [t])) = st) as H.
  { rewrite foldl_app. cbn [foldl]. unfold trial_refresh, cache_refresh. by rewrite E. }
  split; [done|]. intros more Hm. rewrite foldl_app. revert H.
  generalize (foldl trial_refresh (trial_refresh c first) (ticks ++ [t])).
  induction Hm as [|u more Hu _ IH]; intros x Hx; [done|]. cbn [foldl]. apply IH.
  unfold trial_refresh, cache_refresh. by destruct (Measure _ _ _ _).
Qed.

(** ** itoa *)

(** The loop over the 20-byte buffer: [room] bytes are left in front. *)
Fixpoint itoa_loop (room : nat) (n : Z) (buf : string) : result string :=
  if n <=? 0 then Ok buf
  else match room with
       | O => Err (EPanic "index out of range")
       | S room => itoa_loop room (n / 10) (String (chr ((48 + n mod 10) mod 256)) buf)
       end.

Definition itoa (n : Z) : result string := if n =? 0 then Ok "0" else itoa_loop 20 n EmptyString.

(** ** Properties *)

Lemma digit_char n : 0 <= n → chr ((48 + n mod 10) mod 256) = pretty_N_char (Z.to_N n mod 10).
Proof.
  intros Hn. pose proof (Z.mod_pos_bound n 10 ltac:(lia)).
  rewrite Z.mod_small by lia.
  replace (Z.to_N n mod 10)%N with (Z.to_N (n mod 10)) by (by rewrite Z2N.inj_mod by lia).
  assert (Hd : n mod 10 ∈ seqZ 0 10) by (apply elem_of_seqZ; lia).
  revert Hd. generalize (n mod 10). intros d Hd. apply list_elem_of_In in Hd.
  repeat (destruct Hd as [<-|Hd]; [done|]). destruct Hd.
Qed.

Lemma itoa_loop_pretty room : ∀ n buf,
  0 <= n < 10 ^ Z.of_nat room → itoa_loop room n buf = Ok (pretty_N_go (Z.to_N n) buf).
Proof.
  induction room as [|room IH]; intros n buf Hn.
  { change (10 ^ Z.of_nat 0) with 1 in Hn. replace n with 0 by lia. done. }
  cbn [itoa_loop]. destruct (Z.leb_spec n 0) as [H0|H0]; [by replace n with 0 by lia|].
  rewrite pretty_N_go_step by lia. rewrite digit_char, IH.
  - by rewrite Z2N.inj_div by lia.
  - rewrite Nat2Z.inj_succ, Z.pow_succ_r in Hn by lia. split; [apply Z.div_pos; lia|].
    apply Z.div_lt_upper_bound; lia.
  - lia.
Qed.

(** On every non-negative int64, itoa writes the decimal text and never runs
    out of its buffer. *)
Lemma itoa_exact n : 0 <= n <= max_int64 → itoa n = Ok (Itoa n).
Proof.
  intros Hn. unfold itoa. destruct (Z.eqb_spec n 0) as [->|Hne]; [done|].
  rewrite itoa_loop_pretty; [|unfold max_int64 in *; split; [lia|]; change (10 ^ Z.of_nat 20) with (10 ^ 20); lia].
  f_equal. unfold Itoa. destruct n as [|p|p]; [done| |lia]. cbn [Z.to_N].
  change (pretty (Z.pos p)) with (pretty (N.pos p)). unfold pretty, pretty_N. by rewrite decide_False by lia.
Qed.

(** A failed speed test replaces the last good one: Measure never returns
    an error, so a refresh in which every request fails stores zero rates and
    the current time, whatever the cache held. *)
Lemma failed_speedtest_overwrites c now :
  cache_Get (cache_refresh None None None now c) = mkSpeedtest f_zero f_zero f_zero now ∧
  ∀ latency download upload, is_ok (Measure latency download upload now) = true.
Proof. done. Qed.

(** One second for 50 MB is 400 Mbit/s. *)
Example measured : Measure (Some 12345678) (Some (10 ^ 9, downloadBytes)) None 7 =
  Ok (mkSpeedtest (f_of_Z 400) f_zero (f_of_Z 12) 7).
Proof. vm_compute. reflexivity. Qed.
