(* ===== verification/GoDuration.v ===== *)
(** * time.ParseDuration

    A duration is an int64 number of nanoseconds.  The text is a sign and a
    sequence of decimal numbers, each with an optional fraction and a unit;
    sums are checked for overflow, and fractions are computed in binary64. *)
From S2P Require Import Prelude GoStrings Speedtest.
From Stdlib Require Import SpecFloat.

Definition two63 : Z := 2 ^ 63.

(** leadingInt: the digits at the front; [None] on overflow. *)
Fixpoint leadingInt (x : Z) (s : string) : option (Z * string) :=
  match s with
  | String c s' =>
      if is_digit c then
        if two63 / 10 <? x then None
        else let x := x * 10 + (code c - 48) in
             if two63 <? x then None else leadingInt x s'
      else Some (x, s)
  | EmptyString => Some (x, s)
  end.

(** leadingFraction: digits past an overflow are skipped. *)
Fixpoint leadingFraction (x scale : Z) (overflow : bool) (s : string) : Z * Z * string :=
  match s with
  | String c s' =>
      if is_digit c then
        if overflow then leadingFraction x scale true s'
        else if (two63 - 1) / 10 <? x then leadingFraction x scale true s'
        else let y := x * 10 + (code c - 48) in
             if two63 <? y then leadingFraction x scale true s'
             else leadingFraction y (scale * 10) false s'
      else (x, scale, s)
  | EmptyString => (x, scale, s)
  end.

(** The text up to the next digit or point. *)
Fixpoint unit_text (s : string) : string * string :=
  match s with
  | EmptyString => (EmptyString, EmptyString)
  | String c s' =>
      if (code c =? 46) || is_digit c then (EmptyString, s)
      else let '(u, r) := unit_text s' in (String c u, r)
  end.

(** The two spellings of the micro sign in UTF-8: U+00B5 and U+03BC. *)
Definition micro1 : string := String (chr 194) (String (chr 181) "s").
Definition micro2 : string := String (chr 206) (String (chr 188) "s").

Definition unitMap (u : string) : option Z :=
  if String.eqb u "ns" then Some 1
  else if String.eqb u "us" || String.eqb u micro1 || String.eqb u micro2 then Some (10 ^ 3)
  else if String.eqb u "ms" then Some (10 ^ 6)
  else if String.eqb u "s" then Some (10 ^ 9)
  else if String.eqb u "m" then Some (60 * 10 ^ 9)
  else if String.eqb u "h" then Some (3600 * 10 ^ 9)
  else None.

(** [uint64] of a float that is not negative. *)
Definition f_trunc (x : float64) : Z :=
  match x with
  | S754_finite false m e => if 0 <=? e then Z.pos m * 2 ^ e else Z.pos m / 2 ^ (- e)
  | _ => 0
  end.

Definition starts_with (p : Ascii.ascii → bool) (s : string) : bool :=
  match s with String c _ => p c | EmptyString => false end.
Definition is_point (c : Ascii.ascii) : bool := code c =? 46.

(** One number with its unit: its value and the text after it. *)
Definition duration_item (orig s : string) : result (Z * string) :=
  let invalid := EMsg ("time: invalid duration " +:+ quote_q orig) in
  if negb (starts_with (λ c, is_point c || is_digit c) s) then Err invalid
  else match leadingInt 0 s with
       | None => Err invalid
       | Some (v, s1) =>
           let pre := negb (slen s1 =? slen s) in
           let '(f, scale, s2, post) :=
             match s1 with
             | String c s1' =>
                 if is_point c then
                   let '(f, scale, s2) := leadingFraction 0 1 false s1' in
                   (f, scale, s2, negb (slen s2 =? slen s1'))
                 else (0, 1, s1, false)
             | EmptyString => (0, 1, s1, false)
             end in
           if negb pre && negb post then Err invalid
           else
             let '(u, s3) := unit_text s2 in
             if String.eqb u EmptyString then Err (EMsg ("time: missing unit in duration " +:+ quote_q orig))
             else match unitMap u with
                  | None => Err (EMsg ("time: unknown unit " +:+ quote_q u +:+ " in duration " +:+ quote_q orig))
                  | Some unit =>
                      if two63 / unit <? v then Err invalid
                      else
                        let v := v * unit in
                        let v := if 0 <? f
                                 then v + f_trunc (f_mul (f_of_Z f) (f_div (f_of_Z unit) (f_of_Z scale)))
                                 else v in
                        if two63 <? v then Err invalid else Ok (v, s3)
                  end
       end.

(** The loop; [None]: the fuel ran out. *)
Fixpoint duration_items (fuel : nat) (orig s : string) (d : Z) : option (result Z) :=
  match s, fuel with
  | EmptyString, _ => Some (Ok d)
  | _, O => None
  | _, S fuel =>
      match duration_item orig s with
      | Err e => Some (Err e)
      | Ok (v, s) =>
          let d := d + v in
          if two63 <? d then Some (Err (EMsg ("time: invalid duration " +:+ quote_q orig)))
          else duration_items fuel orig s d
      end
  end.

Definition ParseDuration (s : string) : option (result Z) :=
  let invalid := EMsg ("time: invalid duration " +:+ quote_q s) in
  let '(neg, t) :=
    match s with
    | String c s' => if code c =? 45 then (true, s') else if code c =? 43 then (false, s') else (false, s)
    | EmptyString => (false, s)
    end in
  if String.eqb t "0" then Some (Ok 0)
  else if String.eqb t EmptyString then Some (Err invalid)
  else match duration_items (String.length t) s t 0 with
       | None => None
       | Some (Err e) => Some (Err e)
       | Some (Ok d) =>
           if neg then Some (Ok (wrap_int64 (- d)))
           else if two63 - 1 <? d then Some (Err invalid) else Some (Ok d)
       end.

Example day : ParseDuration "24h" = Some (Ok (24 * 3600 * 10 ^ 9)).
Proof. vm_compute. reflexivity. Qed.
Example mixed : ParseDuration "-1h30.5m" = Some (Ok (- (5430 * 10 ^ 9))).
Proof. vm_compute. reflexivity. Qed.
Example tenth : ParseDuration "0.1h" = Some (Ok (360 * 10 ^ 9)).
Proof. vm_compute. reflexivity. Qed.

(** ** The fuel is enough and the result is a duration *)

Lemma digit_nonneg c : is_digit c = true → 0 <= code c - 48.
Proof. unfold is_digit, in_range. intros [H _]%andb_true_iff. apply Z.leb_le in H. lia. Qed.

Lemma leadingInt_len x s v s' :
  0 <= x → leadingInt x s = Some (v, s') → (String.length s' <= String.length s)%nat ∧ 0 <= v.
Proof.
  revert x. induction s as [|c s IH]; intros x Hx; cbn [leadingInt]; [by intros [= <- <-]|].
  destruct (is_digit c) eqn:Ec; [|by intros [= <- <-]]. apply digit_nonneg in Ec.
  destruct (_ <? x); [done|]. cbv zeta. destruct (_ <? _); [done|].
  intros H%IH; [|lia]. cbn. lia.
Qed.

Lemma f_trunc_nonneg x : 0 <= f_trunc x.
Proof.
  destruct x as [|[]| |[] m e]; cbn; try lia. destruct (Z.leb_spec 0 e).
  - apply Z.mul_nonneg_nonneg; [lia|apply Z.pow_nonneg; lia].
  - apply Z.div_pos; [lia|]. apply Z.pow_pos_nonneg; lia.
Qed.

Lemma unitMap_pos u unit : unitMap u = Some unit → 0 < unit.
Proof. unfold unitMap. repeat case_match; by intros [= <-]. Qed.

Lemma leadingFraction_len x sc o s : (String.length (leadingFraction x sc o s).2 <= String.length s)%nat.
Proof.
  revert x sc o. induction s as [|c s IH]; intros x sc o; cbn [leadingFraction]; [done|].
  destruct (is_digit c); [|done].
  assert (∀ y sc o, (String.length (leadingFraction y sc o s).2 <= S (String.length s))%nat) as H
    by (intros y sc' o'; specialize (IH y sc' o'); lia).
  cbn [String.length]. cbv zeta. repeat case_match; apply H.
Qed.

Lemma unit_text_len s : (String.length (unit_text s).1 + String.length (unit_text s).2 = String.length s)%nat.
Proof.
  induction s as [|c s IH]; cbn [unit_text]; [done|].
  destruct (_ || _); [done|]. destruct (unit_text s) as [u r]. cbn in *. lia.
Qed.

Lemma duration_item_len orig s v s' :
  duration_item orig s = Ok (v, s') → (String.length s' < String.length s)%nat ∧ 0 <= v.
Proof.
  unfold duration_item. cbv zeta. destruct (negb _); [done|].
  destruct (leadingInt 0 s) as [[n s1]|] eqn:E1; [|done]. apply leadingInt_len in E1 as [E1 Hn]; [|done].
  set (x := match s1 with String c s1' => _ | EmptyString => _ end).
  assert (String.length x.1.2 <= String.length s1)%nat as Hx.
  { subst x. destruct s1 as [|c s1']; [done|]. destruct (is_point c); [|done].
    pose proof (leadingFraction_len 0 1 false s1') as H.
    destruct (leadingFraction 0 1 false s1') as [[f sc] s2]. cbn in *. lia. }
  destruct x as [[[f sc] s2] post]. cbn in Hx. destruct (_ && _); [done|].
  pose proof (unit_text_len s2) as Hu. destruct (unit_text s2) as [u s3]. cbn in Hu.
  destruct (String.eqb_spec u EmptyString) as [|Hne]; [done|].
  destruct (unitMap u) as [unit|] eqn:Eu; [|done]. apply unitMap_pos in Eu. destruct (_ <? n); [done|].
  destruct (two63 <? _); [done|]. intros [= <- <-]. split; [destruct u; [done|]; cbn in Hu; lia|].
  destruct (0 <? f); [|nia]. pose proof (f_trunc_nonneg (f_mul (f_of_Z f) (f_div (f_of_Z unit) (f_of_Z sc)))).
  nia.
Qed.

Lemma duration_items_total orig : ∀ fuel s d, (String.length s <= fuel)%nat → 0 <= d <= two63 →
  ∃ r, duration_items fuel orig s d = Some r ∧ ∀ z, r = Ok z → 0 <= z <= two63.
Proof.
  induction fuel as [|fuel IH]; intros s d Hl Hd.
  - destruct s; [|cbn in Hl; lia]. exists (Ok d). split; [done|]. by intros z [= <-].
  - destruct s as [|c s]; [exists (Ok d); split; [done|by intros z [= <-]]|].
    cbn [duration_items]. destruct (duration_item orig (String c s)) as [[v s']|e] eqn:E;
      [|exists (Err e); done].
    apply duration_item_len in E as [E Hv].
    destruct (two63 <? d + v) eqn:Ed; [eexists; split; done|]. apply Z.ltb_ge in Ed. apply IH; lia.
Qed.

(** Parsing ends on every text, and what it yields is an int64. *)
Lemma ParseDuration_total s :
  ∃ r, ParseDuration s = Some r ∧ ∀ d, r = Ok d → min_int64 <= d <= max_int64.
Proof.
  unfold ParseDuration. cbv zeta. set (x := match s with String c s' => _ | EmptyString => _ end).
  destruct x as [neg t]. unfold min_int64, max_int64.
  destruct (String.eqb t "0"); [eexists; split; [done|]; intros d [= <-]; lia|].
  destruct (String.eqb t EmptyString); [by eexists|].
  destruct (duration_items_total s (String.length t) t 0) as ([d|e] & -> & Hd); [done|by unfold two63| |].
  - specialize (Hd d eq_refl). unfold two63 in Hd. destruct neg.
    + eexists. split; [done|]. intros z [= <-]. unfold wrap_int64.
      pose proof (Z.mod_pos_bound (- d + 2 ^ 63) (2 ^ 64)). lia.
    + unfold two63. destruct (Z.ltb_spec (2 ^ 63 - 1) d); [by eexists|]. eexists. split; [done|].
      intros z [= <-]. lia.
  - by eexists.
Qed.
