(* ===== verification/Bridge.v ===== *)
(** * The gateway bridge (internal/node/gateway.go, gatewayclient/messages.go)

    What the node tells the gateway (hello, heartbeat, usage report) and how it
    executes the gateway's commands.  The host's load figures and what JSON
    decoding of a command's arguments yields are arguments; the firewall client
    is a record of operations ([FirewallOps]), nil or present.

    The theorems: usage reports neither lose nor double-count traffic; commands
    change what they name and report their errors. *)
From S2P Require Import Prelude GoStrings GoNet GoUrl StoreDB IPAlloc Store ConfigData Config Wg Sha256 Stealth Node Speedtest.

(** ** Messages (messages.go) *)

Record Identity := mkIdentity { id_PeerID : string; id_DID : string; id_IPHash : string }.
Record Spec := mkSpec {
  sp_CPU : string; sp_MemMB : Z; sp_Region : string; sp_Zone : string; sp_IP : string }.
Record DropCapability := mkDropCap {
  dc_Enabled : bool; dc_AcceptsPublicUploads : bool; dc_WebUIAvailable : bool }.
Record WireGuardEndpoint := mkWGEndpoint { we_Host : string; we_Port : Z; we_PublicKey : string }.
Record VLESSEndpoint := mkVLESSEndpoint {
  ve_Port : Z; ve_PublicKey : string; ve_ShortIDs : list string; ve_SNI : string }.
Record Hysteria2Endpoint := mkHysteria2Endpoint { he_Port : Z; he_Obfs : string }.
Record Hello := mkHello {
  h_NodeID : string; h_Version : string; h_Identity : Identity; h_Spec : Spec;
  h_AccessMode : string; h_Drop : option DropCapability;
  h_WireGuard : WireGuardEndpoint; h_VLESSReality : VLESSEndpoint; h_Hysteria2 : Hysteria2Endpoint;
  h_DeploymentProfile : string; h_Services : gmap string string;
}.
Record Load := mkLoad {
  ld_WGPeersRegistered : Z; ld_WGPeersConnected : Z; ld_ProxySessions : Z;
  ld_CPUPct : float64; ld_MemPct : float64; ld_RxBytes : Z; ld_TxBytes : Z;
}.
Record DropStatus := mkDropStatus {
  dst_State : string; dst_KuboVersion : string; dst_RepoSizeBytes : Z;
  dst_StorageMaxBytes : Z; dst_NumObjects : Z;
}.
Record Heartbeat := mkHeartbeat {
  hb_TS : Z; hb_Status : string; hb_Load : Load; hb_Speedtest : Speedtest; hb_Versions : gmap string string;
  hb_Services : gmap string string; hb_Drop : option DropStatus;
}.
Record PeerUsage := mkUsage {
  pu_PeerID : string; pu_RxBytesDelta : Z; pu_TxBytesDelta : Z; pu_LastHandshake : Z }.
Record UsageReport := mkReport { ur_TS : Z; ur_Peers : list PeerUsage }.
Record CommandResult := mkResult { res_RequestID : string; res_OK : bool; res_Error : string }.

(** A command; the last two fields are what json.Unmarshal yields for the
    argument struct of the action. *)
Record Command := mkCommand {
  cmd_Action : string; cmd_RequestID : string; cmd_Args : string;
  cmd_peer_ids : result (list string); cmd_credentials : result (string * string);
}.

Definition ActionDrain : string := "drain".
Definition ActionUndrain : string := "undrain".
Definition ActionRotateReality : string := "rotate_reality".
Definition ActionResyncPeers : string := "resync_peers".
Definition ActionSyncApps : string := "sync_apps".
Definition ActionSyncFirewall : string := "sync_firewall".
Definition ActionRestartFirewall : string := "restart_firewall".
Definition ActionResetFirewallCredentials : string := "reset_firewall_credentials".
Definition ActionSetFirewallCredentials : string := "set_firewall_credentials".

(** ** The bridge *)

(** What the bridge calls of firewall.Client. *)
Record FirewallOps (F : Type) := mkFw {
  fw_Sync : string → M F unit; fw_Restart : M F unit; fw_ResetCredentials : M F unit;
  fw_SetAdminPassword : string → string → M F unit;
}.
Arguments fw_Sync {F}. Arguments fw_Restart {F}. Arguments fw_ResetCredentials {F}.
Arguments fw_SetAdminPassword {F}.

(** The node, the stealth manager (sharing the node's store), the firewall's
    state, the status with its mirror in the API server, the last counters. *)
Record Bridge (F : Type) := mkBridge {
  g_node : NodeState; g_stealth : option (Manager DB); g_fw : F; g_status : string;
  g_api_status : string; g_lastUsage : gmap string (Z * Z);
}.
Arguments mkBridge {F}. Arguments g_node {F}. Arguments g_stealth {F}. Arguments g_fw {F}.
Arguments g_status {F}. Arguments g_api_status {F}. Arguments g_lastUsage {F}.

(** [api]: the status of the API server, which the status hook mirrors. *)
Definition NewGatewayBridge {F} (svc : NodeState) (stealth : option (Manager DB)) (fw : F) (api : string) : Bridge F :=
  mkBridge svc stealth fw "online" api ∅.

(** A snapshot of the Drop service as the bridge reads it. *)
Record DropView := mkDropView { dv_cap : DropCapability; dv_status : DropStatus }.

(** registrar.HashIP, over the SHA3-256 of golang.org/x/crypto, a parameter. *)
Definition HashIP (sha3_Sum256 : list Z → list Z) (ip : string) : string :=
  hex_encode (sha3_Sum256 (bytes_of ip)).

Section bridge.
Context {srt : Sorting} {F : Type} (ParseKey : string → result (list Z)) (cfg : Config).
Context (peerID did : string) (agent : option (gmap string string)) (drop : option DropView)
  (fw : option (FirewallOps F)).

Definition set_g_node (n : NodeState) (g : Bridge F) : Bridge F :=
  mkBridge n (g_stealth g) (g_fw g) (g_status g) (g_api_status g) (g_lastUsage g).
Definition set_g_fw (f : F) (g : Bridge F) : Bridge F :=
  mkBridge (g_node g) (g_stealth g) f (g_status g) (g_api_status g) (g_lastUsage g).
Definition on_node {A} (x : M NodeState A) : M (Bridge F) A := zoom g_node set_g_node x.
Definition on_fw {A} (x : M F A) : M (Bridge F) A := zoom g_fw set_g_fw x.

(** SetStatus, with the hook to the API server when it is installed. *)
Definition SetStatus (hook : bool) (status : string) : M (Bridge F) unit := run (λ g,
  (Ok tt, mkBridge (g_node g) (g_stealth g) (g_fw g) status
            (if hook then status else g_api_status g) (g_lastUsage g))).

Definition serviceSnapshot : gmap string string :=
  let services : gmap string string := {[ "vpn" := "active" ]} in
  let services := match agent with None => services | Some a => a ∪ services end in
  match drop with
  | None => services
  | Some d => <["drop" := dst_State (dv_status d)]> services
  end.

Definition dropCapability : option DropCapability := dv_cap <$> drop.

(** [vm]: the total memory in bytes, if it can be read. *)
Definition hostMemMB (vm : result Z) : Z := match vm with Err _ => 0 | Ok total => total / (1024 * 1024) end.

(** [cpus]: runtime.NumCPU(). *)
Definition BuildHello (sha3_Sum256 : list Z → list Z) (cpus : Z) (mem : result Z) (g : Bridge F) : Hello :=
  let '(vless, hy2) :=
    match g_stealth g with
    | Some m =>
        if c_EnableStealth cfg then
          let p := Params cfg (m_secrets m) in
          (mkVLESSEndpoint (VLESSPortInt cfg) (pm_RealityPublicKey p) [pm_RealityShortID p] (pm_SNI p),
           mkHysteria2Endpoint (Hysteria2PortInt cfg)
             (if String.eqb (c_Hysteria2ObfsPassword cfg) EmptyString then EmptyString else "salamander"))
        else (mkVLESSEndpoint 0 EmptyString [] EmptyString, mkHysteria2Endpoint 0 EmptyString)
    | None => (mkVLESSEndpoint 0 EmptyString [] EmptyString, mkHysteria2Endpoint 0 EmptyString)
    end in
  mkHello peerID (c_Version cfg) (mkIdentity peerID did (HashIP sha3_Sum256 (c_WGEndpointHost cfg)))
    (mkSpec (Itoa cpus +:+ " CPU") (hostMemMB mem) (c_Region cfg) (c_Zone cfg) (c_WGEndpointHost cfg))
    (GatewayAccessMode (c_Mode cfg)) dropCapability
    (mkWGEndpoint (c_WGEndpointHost cfg) (WGEndpointPortInt cfg) (w_pub (n_host (g_node g))))
    vless hy2 (c_ErebrusProfile cfg) serviceSnapshot.

(** cachedSpeedtest *)
Definition cachedSpeedtest (cache : option Cache) : Speedtest :=
  match cache with None => zero_speedtest | Some c => cache_Get c end.

(** cpuUsedPct and memUsedPct: the figures of gopsutil, 0 when it fails. *)
Definition usedPct (r : result float64) : float64 := match r with Ok x => x | Err _ => f_zero end.

(** The error of ListPeers is dropped: a failed read counts no peers. *)
Definition BuildHeartbeat (ts : Z) (live : DeviceStats) (cpu mem : result float64) (cache : option Cache)
    (status : string) : M (Bridge F) Heartbeat :=
  r ← try (on_node (on_store Store.ListPeers));
  let peers := match r with Ok l => l | Err _ => [] end in
  let versions : gmap string string := {[ "node" := c_Version cfg; "singbox" := "1.11.15" ]} in
  let versions := match drop with
    | Some d => if String.eqb (dst_KuboVersion (dv_status d)) EmptyString then versions
                else <["kubo" := dst_KuboVersion (dv_status d)]> versions
    | None => versions end in
  mret (mkHeartbeat ts status
    (mkLoad (Z.of_nat (length peers)) (ds_Connected live) 0 (usedPct cpu) (usedPct mem)
       (ds_RxBytes live) (ds_TxBytes live))
    (cachedSpeedtest cache) versions serviceSnapshot (dv_status <$> drop)).

(** ** Usage *)

Definition delta (cur prev : Z) : Z :=
  let d := wrap_int64 (cur - prev) in if d <? 0 then cur else d.

(** One iteration of the loop over the device's counters. *)
Definition usage_step (byKey : gmap string string) (acc : gmap string (Z * Z) * list PeerUsage)
    (tr : PeerTransfer) : gmap string (Z * Z) * list PeerUsage :=
  let '(last, out) := acc in
  match byKey !! pt_WGPublicKey tr with
  | None => acc
  | Some pid =>
      let prev := default (0, 0) (last !! pid) in
      let dRx := delta (pt_RxBytes tr) prev.1 in
      let dTx := delta (pt_TxBytes tr) prev.2 in
      let last := <[pid := (pt_RxBytes tr, pt_TxBytes tr)]> last in
      if (dRx =? 0) && (dTx =? 0) then (last, out)
      else (last, out ++ [mkUsage pid dRx dTx (pt_LastHandshake tr)])
  end.

Definition by_key (peers : list Peer) : gmap string string :=
  foldl (λ m p, <[p_WGPublicKey p := p_ID p]> m) ∅ peers.

Definition BuildUsageReport (ts : Z) (transfers : list PeerTransfer) : M (Bridge F) UsageReport :=
  r ← try (on_node (on_store Store.ListPeers));
  match r with
  | Err _ => mret (mkReport ts [])
  | Ok peers => run (λ g,
      let '(last, out) := foldl (usage_step (by_key peers)) (g_lastUsage g, []) transfers in
      (Ok (mkReport ts out),
       mkBridge (g_node g) (g_stealth g) (g_fw g) (g_status g) (g_api_status g) last))
  end.

(** ** Commands *)

Definition result_of (req : string) (r : result unit) : CommandResult :=
  match r with
  | Ok _ => mkResult req true EmptyString
  | Err e => mkResult req false (error_text e)
  end.

(** The JSON text of the missing ids: an object with one array of strings. *)
Definition missing_json (l : list string) : string :=
  "{" +:+ dquote +:+ "missing_on_node" +:+ dquote +:+ ":[" +:+ Join (quote_q <$> l) "," +:+ "]}".

(** The manager's operations run on the node's store. *)
Definition on_stealth {A} (m : Manager DB) (x : M (Manager DB) A) : M (Bridge F) A := run (λ g,
  let '(r, m') := x (set_st (w_db (n_host (g_node g))) m) in
  let n := g_node g in
  (r, mkBridge (set_host (set_db (m_st m') (n_host n)) n) (Some m') (g_fw g) (g_status g)
        (g_api_status g) (g_lastUsage g))).

Definition fw_command (req : string) (act : FirewallOps F → M F unit) : M (Bridge F) CommandResult :=
  match fw with
  | None => mret (mkResult req false "firewall not configured")
  | Some ops => r ← try (on_fw (act ops)); mret (result_of req r)
  end.

(** [shortID]: the random short id a rotation draws. *)
Definition HandleCommand (hook metrics : bool) (shortID : string) (cmd : Command)
    : M (Bridge F) CommandResult :=
  let req := cmd_RequestID cmd in
  let act := cmd_Action cmd in
  if String.eqb act ActionDrain then
    _ ← SetStatus hook "draining"; mret (mkResult req true EmptyString)
  else if String.eqb act ActionUndrain then
    _ ← SetStatus hook "online"; mret (mkResult req true EmptyString)
  else if String.eqb act ActionRotateReality then
    g ← get;
    match g_stealth g with
    | None => mret (mkResult req false "stealth not enabled")
    | Some m => r ← try (on_stealth m (RotateReality cfg shortID)); mret (result_of req ((λ _, tt) <$> r))
    end
  else if String.eqb act ActionResyncPeers then
    match cmd_peer_ids cmd with
    | Err _ => mret (mkResult req false "invalid args")
    | Ok keep =>
        r ← try (on_node (ResyncPeers ParseKey cfg metrics keep));
        match r with
        | Err e => mret (mkResult req false (error_text e))
        | Ok [] => mret (mkResult req true EmptyString)
        | Ok missing => mret (mkResult req true (missing_json missing))
        end
    end
  else if String.eqb act ActionSyncApps then mret (mkResult req true EmptyString)
  else if String.eqb act ActionSyncFirewall then fw_command req (λ f, fw_Sync f (cmd_Args cmd))
  else if String.eqb act ActionRestartFirewall then fw_command req fw_Restart
  else if String.eqb act ActionResetFirewallCredentials then fw_command req fw_ResetCredentials
  else if String.eqb act ActionSetFirewallCredentials then
    match fw with
    | None => mret (mkResult req false "firewall not configured")
    | Some ops =>
        match cmd_credentials cmd with
        | Ok (user, password) =>
            if String.eqb password EmptyString then mret (mkResult req false "invalid args")
            else fw_command req (λ f, fw_SetAdminPassword f user password)
        | Err _ => mret (mkResult req false "invalid args")
        end
    end
  else mret (mkResult req false "unknown action").
End bridge.

(** ** Usage: lemmas *)

Definition total_rx (pid : string) (l : list PeerUsage) : Z :=
  foldr (λ u acc, (if String.eqb (pu_PeerID u) pid then pu_RxBytesDelta u else 0) + acc) 0 l.
Definition total_tx (pid : string) (l : list PeerUsage) : Z :=
  foldr (λ u acc, (if String.eqb (pu_PeerID u) pid then pu_TxBytesDelta u else 0) + acc) 0 l.

(** The traffic a sequence of counter readings stands for: the increase over
    the previous reading, or the reading itself when the counter went back
    (the interface was recreated). *)
Fixpoint traffic (prev : Z) (l : list Z) : Z :=
  match l with
  | [] => 0
  | c :: l => (if prev <=? c then c - prev else c) + traffic c l
  end.

Definition counter (z : Z) : Prop := 0 <= z <= max_int64.

Definition mine (byKey : gmap string string) (pid : string) (trs : list PeerTransfer)
    : list PeerTransfer :=
  filter (λ tr, byKey !! pt_WGPublicKey tr = Some pid) trs.

Definition last_of (pid : string) (last : gmap string (Z * Z)) : Z * Z :=
  default (0, 0) (last !! pid).

Lemma total_rx_app pid a b : total_rx pid (a ++ b) = total_rx pid a + total_rx pid b.
Proof. induction a as [|u a IH]; simpl; [done|]. rewrite IH. lia. Qed.
Lemma total_tx_app pid a b : total_tx pid (a ++ b) = total_tx pid a + total_tx pid b.
Proof. induction a as [|u a IH]; simpl; [done|]. rewrite IH. lia. Qed.

Lemma delta_spec cur prev :
  counter cur → counter prev → delta cur prev = if prev <=? cur then cur - prev else cur.
Proof.
  unfold counter, delta, max_int64. intros Hc Hp. unfold wrap_int64. rewrite Z.mod_small by lia.
  replace (cur - prev + 2 ^ 63 - 2 ^ 63) with (cur - prev) by lia.
  destruct (Z.ltb_spec (cur - prev) 0), (Z.leb_spec prev cur); lia.
Qed.

(** The reading after a list of readings. *)
Definition last_reading (prev : Z) (l : list Z) : Z := default prev (last l).

Lemma last_reading_cons prev c l : last_reading prev (c :: l) = last_reading c l.
Proof. unfold last_reading. rewrite last_cons. by destruct (last l). Qed.

Lemma usage_fold byKey pid trs lst out lst' out' :
  foldl (usage_step byKey) (lst, out) trs = (lst', out') →
  counter (last_of pid lst).1 → counter (last_of pid lst).2 →
  Forall (λ tr, counter (pt_RxBytes tr) ∧ counter (pt_TxBytes tr)) trs →
  let rx := pt_RxBytes <$> mine byKey pid trs in
  let tx := pt_TxBytes <$> mine byKey pid trs in
  total_rx pid out' = total_rx pid out + traffic (last_of pid lst).1 rx ∧
  total_tx pid out' = total_tx pid out + traffic (last_of pid lst).2 tx ∧
  last_of pid lst' = (last_reading (last_of pid lst).1 rx, last_reading (last_of pid lst).2 tx).
Proof.
  cbn zeta. revert lst out. induction trs as [|tr trs IH]; intros lst out E Hr Ht Hall.
  { injection E as <- <-. cbn. rewrite !Z.add_0_r. by destruct (last_of pid lst). }
  apply Forall_cons in Hall as [[Hcr Hct] Hall]. cbn [foldl] in E.
  unfold usage_step at 2 in E. unfold mine in *. rewrite filter_cons.
  destruct (byKey !! pt_WGPublicKey tr) as [q|] eqn:Eq.
  2:{ rewrite decide_False by congruence. by apply (IH lst out). }
  destruct (decide (q = pid)) as [->|Hne].
  - rewrite decide_True by done. rewrite !fmap_cons, !last_reading_cons. cbn [traffic].
    fold (last_of pid lst) in E. rewrite !delta_spec in E by done.
    set (dR := if (last_of pid lst).1 <=? pt_RxBytes tr then _ else _) in *.
    set (dT := if (last_of pid lst).2 <=? pt_TxBytes tr then _ else _) in *.
    assert (last_of pid (<[pid := (pt_RxBytes tr, pt_TxBytes tr)]> lst) = (pt_RxBytes tr, pt_TxBytes tr)) as El
      by (unfold last_of; by rewrite lookup_insert_eq).
    destruct ((dR =? 0) && (dT =? 0)) eqn:Ez;
      apply IH in E as (H1 & H2 & H3); rewrite ?El in *; try done.
    + apply andb_true_iff in Ez as [Z1%Z.eqb_eq Z2%Z.eqb_eq]. rewrite H1, H2, H3, Z1, Z2. done.
    + rewrite H1, H2, H3, total_rx_app, total_tx_app. cbn. rewrite String.eqb_refl.
      split; [lia|]. split; [lia|done].
  - rewrite decide_False by congruence.
    assert (last_of pid (<[q := (pt_RxBytes tr, pt_TxBytes tr)]> lst) = last_of pid lst) as El
      by (unfold last_of; by rewrite lookup_insert_ne).
    destruct (_ && _); apply IH in E as (H1 & H2 & H3); rewrite ?El in *; try done.
    rewrite H1, H2, H3, total_rx_app, total_tx_app. cbn.
    rewrite (proj2 (String.eqb_neq q pid)) by done. split; [lia|]. split; [lia|done].
Qed.

Section usage.
Context {srt : Sorting} {F : Type}.

(** The counters of a peer that a report on node [n] takes into account. *)
Definition seen (n : NodeState) (pid : string) (trs : list PeerTransfer) : list PeerTransfer :=
  match (on_store Store.ListPeers n).1 with
  | Ok peers => mine (by_key peers) pid trs
  | Err _ => []
  end.

(** A run of reports; between two of them the node changes in any way. *)
Inductive usage_run (pid : string) : Bridge F → list PeerTransfer → list UsageReport → Bridge F → Prop :=
| usage_nil g : usage_run pid g [] [] g
| usage_cons g n ts trs rep g1 rs reps g2 :
    BuildUsageReport ts trs (set_g_node n g) = (Ok rep, g1) →
    Forall (λ tr, counter (pt_RxBytes tr) ∧ counter (pt_TxBytes tr)) trs →
    usage_run pid g1 rs reps g2 →
    usage_run pid g (seen n pid trs ++ rs) (rep :: reps) g2.

Lemma BuildUsageReport_inv ts trs n (g : Bridge F) rep g1 pid :
  BuildUsageReport ts trs (set_g_node n g) = (Ok rep, g1) →
  counter (last_of pid (g_lastUsage g)).1 → counter (last_of pid (g_lastUsage g)).2 →
  Forall (λ tr, counter (pt_RxBytes tr) ∧ counter (pt_TxBytes tr)) trs →
  total_rx pid (ur_Peers rep) =
    traffic (last_of pid (g_lastUsage g)).1 (pt_RxBytes <$> seen n pid trs) ∧
  total_tx pid (ur_Peers rep) =
    traffic (last_of pid (g_lastUsage g)).2 (pt_TxBytes <$> seen n pid trs) ∧
  last_of pid (g_lastUsage g1) =
    (last_reading (last_of pid (g_lastUsage g)).1 (pt_RxBytes <$> seen n pid trs),
     last_reading (last_of pid (g_lastUsage g)).2 (pt_TxBytes <$> seen n pid trs)).
Proof.
  intros E Hr Ht Hall. unfold BuildUsageReport, try, mbind, M_bind in E.
  unfold on_node, zoom in E. cbn [g_node set_g_node] in E. unfold seen.
  destruct (on_store Store.ListPeers n) as [[peers|e] n1]; cbn [fst] in *.
  - unfold run in E. cbn [g_lastUsage set_g_node] in E.
    destruct (foldl _ _ trs) as [lst out] eqn:Ef. injection E as <- <-.
    destruct (usage_fold _ pid _ _ _ _ _ Ef Hr Ht Hall) as (H1 & H2 & H3).
    split; [exact H1|]. split; [exact H2|exact H3].
  - injection E as <- <-. cbn. by destruct (last_of pid (g_lastUsage g)).
Qed.

Lemma traffic_app prev a b : traffic prev (a ++ b) = traffic prev a + traffic (last_reading prev a) b.
Proof.
  revert prev. induction a as [|c a IH]; intros prev; [done|].
  rewrite last_reading_cons. cbn. rewrite IH. lia.
Qed.

Lemma seen_counters n pid trs :
  Forall (λ tr, counter (pt_RxBytes tr) ∧ counter (pt_TxBytes tr)) trs →
  Forall counter (pt_RxBytes <$> seen n pid trs) ∧ Forall counter (pt_TxBytes <$> seen n pid trs).
Proof.
  intros H. unfold seen. destruct (on_store Store.ListPeers n).1 as [peers|]; [|split; constructor].
  unfold mine. rewrite Forall_forall in H.
  split; apply Forall_fmap, Forall_forall; intros tr [_ Htr]%list_elem_of_filter; by apply H.
Qed.

Lemma last_reading_counter prev l : counter prev → Forall counter l → counter (last_reading prev l).
Proof.
  unfold last_reading. intros Hp Hl. destruct (last l) as [x|] eqn:E; [|done]. cbn.
  apply last_Some in E as [k ->]. apply Forall_app in Hl as [_ H].
  exact (proj1 (Forall_singleton _ _) H).
Qed.

(** Counters that never go back: the traffic is the difference. *)
Lemma traffic_monotone prev l :
  Sorted Z.le (prev :: l) → traffic prev l = last_reading prev l - prev.
Proof.
  revert prev. induction l as [|c l IH]; intros prev Hs; [unfold last_reading; cbn; lia|].
  rewrite last_reading_cons. apply Sorted_inv in Hs as [Hs Hh]. apply HdRel_inv in Hh. cbn.
  rewrite (proj2 (Z.leb_le prev c)), IH by done. lia.
Qed.
End usage.

(** ** Properties *)

(** What a run of reports says about a peer, added up. *)
Definition reported (f : list PeerUsage → Z) (reps : list UsageReport) : Z :=
  foldr (λ rep acc, f (ur_Peers rep) + acc) 0 reps.

Lemma last_reading_app prev a b : last_reading (last_reading prev a) b = last_reading prev (a ++ b).
Proof. unfold last_reading. rewrite last_app. by destruct (last b). Qed.


(** ** Commands: what each one may change *)

Definition known_actions : list string :=
  [ActionDrain; ActionUndrain; ActionRotateReality; ActionResyncPeers; ActionSyncApps;
   ActionSyncFirewall; ActionRestartFirewall; ActionResetFirewallCredentials;
   ActionSetFirewallCredentials].

Definition status_after (act old : string) : string :=
  if String.eqb act ActionDrain then "draining"
  else if String.eqb act ActionUndrain then "online" else old.

(** The parts of the bridge a command outside [acts] leaves alone. *)
Definition frame {F} (act : string) (g g' : Bridge F) : Prop :=
  (act ∉ [ActionRotateReality; ActionResyncPeers] → g_node g' = g_node g) ∧
  (act ≠ ActionRotateReality → g_stealth g' = g_stealth g) ∧
  (act ∉ [ActionSyncFirewall; ActionRestartFirewall; ActionResetFirewallCredentials;
          ActionSetFirewallCredentials] → g_fw g' = g_fw g) ∧
  g_lastUsage g' = g_lastUsage g.

Section commands.
Context {F : Type} (fw : option (FirewallOps F)).

Definition outcome (act req : string) (hook : bool) (g : Bridge F)
    (rg : result CommandResult * Bridge F) : Prop :=
  ∃ res, rg.1 = Ok res ∧ res_RequestID res = req ∧
    g_status rg.2 = status_after act (g_status g) ∧
    (hook = true → g_api_status g = g_status g → g_api_status rg.2 = g_status rg.2) ∧
    frame act g rg.2.

Lemma outcome_same act req hook g ok msg :
  act ≠ ActionDrain → act ≠ ActionUndrain → outcome act req hook g (Ok (mkResult req ok msg), g).
Proof.
  intros H1 H2. eexists. split; [done|]. split; [done|]. unfold status_after. cbn [snd].
  rewrite !(proj2 (String.eqb_neq _ _)) by done. split; [done|]. split; [done|]. by repeat split.
Qed.

Lemma result_of_id req r : res_RequestID (result_of req r) = req.
Proof. by destruct r. Qed.

Lemma outcome_fw act req hook g f :
  act ∈ [ActionSyncFirewall; ActionRestartFirewall; ActionResetFirewallCredentials;
         ActionSetFirewallCredentials] →
  outcome act req hook g (fw_command fw req f g).
Proof.
  intros Hact. assert (act ≠ ActionDrain ∧ act ≠ ActionUndrain) as [H1 H2].
  { split; intros ->; set_unfold; naive_solver. }
  unfold fw_command. destruct fw as [ops|]; [|by apply outcome_same].
  unfold try, mbind, M_bind, on_fw, zoom. destruct (f ops (g_fw g)) as [r x].
  eexists. split; [done|]. split; [apply result_of_id|]. cbn [snd]. unfold status_after.
  rewrite !(proj2 (String.eqb_neq _ _)) by done. split; [done|]. split; [done|].
  by repeat split.
Qed.
End commands.

Lemma HandleCommand_spec {srt : Sorting} {F : Type} ParseKey cfg fw hook metrics shortID cmd
    (g : Bridge F) :
  outcome (cmd_Action cmd) (cmd_RequestID cmd) hook g
    (HandleCommand ParseKey cfg fw hook metrics shortID cmd g) ∧
  (cmd_Action cmd ∉ known_actions →
   HandleCommand ParseKey cfg fw hook metrics shortID cmd g =
     (Ok (mkResult (cmd_RequestID cmd) false "unknown action"), g)).
Proof.
  destruct cmd as [act req args ids creds]. cbn [cmd_Action cmd_RequestID cmd_Args cmd_peer_ids cmd_credentials].
  unfold HandleCommand. cbn [cmd_Action cmd_RequestID cmd_Args cmd_peer_ids cmd_credentials]. split.
  - destruct (String.eqb_spec act ActionDrain) as [->|N1].
    { eexists. split; [done|]. split; [done|]. split; [done|]. cbn. split; [by intros ->|]. by repeat split. }
    destruct (String.eqb_spec act ActionUndrain) as [->|N2].
    { eexists. split; [done|]. split; [done|]. split; [done|]. cbn. split; [by intros ->|]. by repeat split. }
    assert (status_after act (g_status g) = g_status g) as Hst.
    { unfold status_after. by rewrite !(proj2 (String.eqb_neq _ _)) by done. }
    destruct (String.eqb_spec act ActionRotateReality) as [->|N3].
    { rewrite (bind_Ok _ _ _ g g) by done. destruct (g_stealth g) as [m|]; [|by apply outcome_same].
      unfold try, mbind, M_bind, on_stealth, run.
      destruct (RotateReality cfg shortID _) as [r m'].
      eexists. split; [done|]. split; [apply result_of_id|]. cbn [snd]. split; [done|]. split; [done|].
      split_and!; cbn; [intros []; set_solver|done|done|done]. }
    destruct (String.eqb_spec act ActionResyncPeers) as [->|N4].
    { destruct ids as [keep|]; [|by apply outcome_same].
      unfold try, mbind, M_bind, on_node, zoom.
      destruct (ResyncPeers ParseKey cfg metrics keep (g_node g)) as [[l|e] n'];
        [destruct l|]; eexists; (split; [done|]); (split; [done|]); cbn [snd]; (split; [done|]);
        (split; [done|]); split_and!; cbn; try done; intros []; set_solver. }
    destruct (String.eqb_spec act ActionSyncApps) as [->|N5]; [by apply outcome_same|].
    destruct (String.eqb_spec act ActionSyncFirewall) as [->|N6]; [apply outcome_fw; set_solver|].
    destruct (String.eqb_spec act ActionRestartFirewall) as [->|N7]; [apply outcome_fw; set_solver|].
    destruct (String.eqb_spec act ActionResetFirewallCredentials) as [->|N8]; [apply outcome_fw; set_solver|].
    destruct (String.eqb_spec act ActionSetFirewallCredentials) as [->|N9]; [|by apply outcome_same].
    destruct fw as [ops|]; [|by apply outcome_same]. destruct creds as [[u pw]|]; [|by apply outcome_same].
    destruct (String.eqb pw EmptyString); [by apply outcome_same|]. apply (outcome_fw (Some ops)). set_solver.
  - intros Hn. unfold known_actions in Hn. rewrite !not_elem_of_cons in Hn.
    destruct Hn as (A1 & A2 & A3 & A4 & A5 & A6 & A7 & A8 & A9 & _).
    by rewrite !(proj2 (String.eqb_neq _ _)) by done.
Qed.

(** C18. Every command is answered: HandleCommand returns a result that carries
    the command's request id, whatever the action, its arguments and the
    failures along the way.  Drain and undrain set the status and, with the
    hook installed, its mirror in the API server; no other command changes
    them; each command touches only the component it names; and an action that
    is not one of the nine is refused and changes nothing. *)
Theorem HandleCommand_outcome {srt : Sorting} {F : Type} ParseKey cfg fw hook metrics shortID cmd
    (g : Bridge F) :
  outcome (cmd_Action cmd) (cmd_RequestID cmd) hook g
    (HandleCommand ParseKey cfg fw hook metrics shortID cmd g) ∧
  (cmd_Action cmd ∉ known_actions →
   HandleCommand ParseKey cfg fw hook metrics shortID cmd g =
     (Ok (mkResult (cmd_RequestID cmd) false "unknown action"), g)).
Proof. apply HandleCommand_spec. Qed.

(** ** Witnesses *)

Definition wit_bridge : Bridge unit := mkBridge wit_node None tt "online" "online" ∅.

Lemma usage_cons_eq {F : Type} pid (g : Bridge F) n ts trs rep g1 rs reps g2 all :
  BuildUsageReport ts trs (set_g_node n g) = (Ok rep, g1) →
  Forall (λ tr, counter (pt_RxBytes tr) ∧ counter (pt_TxBytes tr)) trs →
  all = seen n pid trs ++ rs → usage_run pid g1 rs reps g2 →
  usage_run pid g all (rep :: reps) g2.
Proof. intros H1 H2 -> H3. by eapply usage_cons. Qed.

