(* ===== verification/GoJson.v ===== *)
(** * encoding/json on lists of strings

    [json.Marshal] of a [[]string] and [json.Unmarshal] into one, as the
    service registry uses them for a service's tags.  A nil slice is [None].
    Text is valid UTF-8; bytes from 128 up are copied (the encoder's special
    case for U+2028 and U+2029 is left out), so the round trip is stated for
    ASCII text. *)
From S2P Require Import Prelude GoStrings.

Definition backslash : Ascii.ascii := chr 92.
Definition qmark : Ascii.ascii := chr 34.

Definition hex4 (v : Z) : string :=
  String (hex_char (v / 4096)) (String (hex_char (v / 256 mod 16))
    (String (hex_char (v / 16 mod 16)) (String (hex_char (v mod 16)) EmptyString))).

(** One byte of a JSON string: quotes, backslashes, control characters and
    the HTML characters [<], [>] and [&] are escaped. *)
Definition json_char (c : Ascii.ascii) : string :=
  let esc x := String backslash (String (chr x) EmptyString) in
  let v := code c in
  if (v =? 34) || (v =? 92) then esc v
  else if v =? 8 then esc 98
  else if v =? 12 then esc 102
  else if v =? 10 then esc 110
  else if v =? 13 then esc 114
  else if v =? 9 then esc 116
  else if (v <? 32) || (v =? 60) || (v =? 62) || (v =? 38)
       then String backslash (String (chr 117) (hex4 v))
  else String c EmptyString.

Fixpoint json_chars (s : string) : string :=
  match s with
  | EmptyString => EmptyString
  | String c s => json_char c +:+ json_chars s
  end.

Definition json_string (s : string) : string := dquote +:+ json_chars s +:+ dquote.

Definition Marshal_strings (l : option (list string)) : string :=
  match l with
  | None => "null"
  | Some l => "[" +:+ Join (json_string <$> l) "," +:+ "]"
  end.

(** UTF-8 encoding of a code point. *)
Definition utf8 (v : Z) (tail : string) : string :=
  if v <? 128 then String (chr v) tail
  else if v <? 2048 then String (chr (192 + v / 64)) (String (chr (128 + v mod 64)) tail)
  else if v <? 65536 then
    String (chr (224 + v / 4096)) (String (chr (128 + v / 64 mod 64))
      (String (chr (128 + v mod 64)) tail))
  else
    String (chr (240 + v / 262144)) (String (chr (128 + v / 4096 mod 64))
      (String (chr (128 + v / 64 mod 64)) (String (chr (128 + v mod 64)) tail))).

Definition hex_value (a b c d : Ascii.ascii) : option Z :=
  x ← hex_digit a; y ← hex_digit b; z ← hex_digit c; w ← hex_digit d;
  Some (4096 * x + 256 * y + 16 * z + w).

Definition unescape (c : Ascii.ascii) : option Ascii.ascii :=
  let v := code c in
  if (v =? 34) || (v =? 92) || (v =? 47) then Some c
  else if v =? 98 then Some (chr 8)
  else if v =? 102 then Some (chr 12)
  else if v =? 110 then Some (chr 10)
  else if v =? 114 then Some (chr 13)
  else if v =? 116 then Some (chr 9)
  else None.

(** A [\u] escape outside the surrogates; a lone surrogate decodes to U+FFFD. *)
Definition scalar (v : Z) : Z := if (55296 <=? v) && (v <? 57344) then 65533 else v.

Definition emit (v : Z) (o : option (string * string)) : option (string * string) :=
  match o with Some (s, rest) => Some (utf8 v s, rest) | None => None end.
Definition emit_byte (c : Ascii.ascii) (o : option (string * string)) : option (string * string) :=
  match o with Some (s, rest) => Some (String c s, rest) | None => None end.

Definition is_high (v : Z) : bool := (55296 <=? v) && (v <? 56320).
Definition is_low (v : Z) : bool := (56320 <=? v) && (v <? 57344).

(** The body of a JSON string up to its closing quote, and what follows. *)
Fixpoint string_body (s : string) : option (string * string) :=
  match s with
  | EmptyString => None
  | String c s1 =>
      if code c =? 34 then Some (EmptyString, s1)
      else if code c =? 92 then
        match s1 with
        | EmptyString => None
        | String e s2 =>
            if code e =? 117 then
              match s2 with
              | String h1 (String h2 (String h3 (String h4 s3))) =>
                  match hex_value h1 h2 h3 h4 with
                  | None => None
                  | Some v =>
                      if is_high v then
                        match s3 with
                        | String b (String u (String k1 (String k2 (String k3 (String k4 s4))))) =>
                            if (code b =? 92) && (code u =? 117) then
                              match hex_value k1 k2 k3 k4 with
                              | None => None
                              | Some w =>
                                  if is_low w
                                  then emit (65536 + (v - 55296) * 1024 + (w - 56320)) (string_body s4)
                                  else emit 65533 (string_body s3)
                              end
                            else emit 65533 (string_body s3)
                        | _ => emit 65533 (string_body s3)
                        end
                      else emit (scalar v) (string_body s3)
                  end
              | _ => None
              end
            else match unescape e with
                 | Some x => emit_byte x (string_body s2)
                 | None => None
                 end
        end
      else if code c <? 32 then None
      else emit_byte c (string_body s1)
  end.

Definition is_json_space (c : Ascii.ascii) : bool :=
  let v := code c in (v =? 32) || (v =? 9) || (v =? 10) || (v =? 13).

Definition skip_space : string → string := trim_left is_json_space.

(** Elements after the opening bracket or a comma.  [fuel] bounds the number
    of elements; each consumes at least two bytes. *)
Fixpoint elements (fuel : nat) (s : string) : option (list string) :=
  match fuel with
  | O => None
  | S fuel =>
      match skip_space s with
      | String q s1 =>
          if code q =? 34 then
            match string_body s1 with
            | None => None
            | Some (x, s2) =>
                match skip_space s2 with
                | String d s3 =>
                    if code d =? 44 then cons x <$> elements fuel s3
                    else if code d =? 93 then
                      if String.eqb (skip_space s3) EmptyString then Some [x] else None
                    else None
                | EmptyString => None
                end
            end
          else None
      | EmptyString => None
      end
  end.

(** [var l []string; _ = json.Unmarshal(text, &l)]: the value of [l] when the
    text is [null] or an array of strings; other text leaves it nil. *)
Definition Unmarshal_strings (text : string) : option (list string) :=
  match skip_space text with
  | String b s =>
      if code b =? 91 then
        match skip_space s with
        | String c rest =>
            if (code c =? 93) && String.eqb (skip_space rest) EmptyString then Some []
            else elements (String.length text) s
        | EmptyString => None
        end
      else None
  | EmptyString => None
  end.

Definition ascii_text (s : string) : Prop := sforall (λ c, code c <? 128) s = true.

(** ** Round trip *)

Lemma body_json_char c r s rest :
  (code c <? 128) = true → string_body r = Some (s, rest) →
  string_body (json_char c +:+ r) = Some (String c s, rest).
Proof.
  intros Hc Hr.
  revert Hc. pattern c. revert c.
  assert (Hall : Forall (λ c, (code c <? 128) = true →
    string_body (json_char c +:+ r) = Some (String c s, rest)) all_bytes).
  { unfold all_bytes.
    let l := eval vm_compute in (chr <$> seqZ 0 256) in change (chr <$> seqZ 0 256) with l.
    repeat (apply Forall_cons; split; [intros Hc; first [discriminate Hc | simpl; rewrite Hr; reflexivity]|]).
    apply Forall_nil; done. }
  intros c. rewrite Forall_forall in Hall. apply Hall, all_bytes_complete.
Qed.

Lemma body_json_chars s rest :
  ascii_text s → string_body (json_chars s +:+ String qmark rest) = Some (s, rest).
Proof.
  unfold ascii_text. induction s as [|c s IH]; intros Hs; [reflexivity|].
  cbn [sforall] in Hs. apply andb_true_iff in Hs as [Hc Hs].
  cbn [json_chars]. rewrite <- app_assoc_str. apply body_json_char; auto.
Qed.

Lemma elements_marshal l : ∀ x fuel, (length l < fuel)%nat →
  Forall ascii_text (x :: l) →
  elements fuel (Join (json_string <$> (x :: l)) "," +:+ "]") = Some (x :: l).
Proof.
  induction l as [|y l IH]; intros x [|fuel] Hf Hl; try (simpl in Hf; lia);
    apply Forall_cons in Hl as [Hx Hl].
  - cbn [fmap list_fmap Join]. unfold json_string. rewrite <- !app_assoc_str.
    change (dquote +:+ ?z) with (String qmark z). cbn [elements].
    change (skip_space (String qmark ?z)) with (String qmark z).
    change (code qmark =? 34) with true. cbn iota.
    change (dquote +:+ "]") with (String qmark "]").
    rewrite body_json_chars by done. reflexivity.
  - change (Join (json_string <$> (x :: y :: l)) ",")
      with (json_string x +:+ "," +:+ Join (json_string <$> (y :: l)) ",").
    assert (E : ∀ z, (json_string x +:+ "," +:+ z) +:+ "]"
      = String qmark (json_chars x +:+ String qmark (String (chr 44) (z +:+ "]")))).
    { intros z. unfold json_string. rewrite <- !app_assoc_str. reflexivity. }
    rewrite E. cbn [elements].
    change (skip_space (String qmark ?z)) with (String qmark z).
    change (code qmark =? 34) with true. cbn iota.
    rewrite body_json_chars by done.
    change (skip_space (String (chr 44) ?z)) with (String (chr 44) z). cbn iota.
    change (code (chr 44) =? 44) with true. cbn iota.
    rewrite IH; [done| simpl in Hf; lia | done].
Qed.

Lemma length_marshal l : ∀ x,
  (length l < String.length (Join (json_string <$> (x :: l)) ","))%nat.
Proof.
  induction l as [|y l IH]; intros x.
  - cbn [fmap list_fmap Join]. unfold json_string. rewrite !length_app_str. simpl. lia.
  - change (Join (json_string <$> (x :: y :: l)) ",")
      with (json_string x +:+ "," +:+ Join (json_string <$> (y :: l)) ",").
    rewrite !length_app_str. specialize (IH y). cbn [length]. simpl. simpl in IH. lia.
Qed.

(** Unmarshal is a left inverse of Marshal on ASCII text. *)
Lemma Unmarshal_Marshal o :
  match o with Some l => Forall ascii_text l | None => True end →
  Unmarshal_strings (Marshal_strings o) = o.
Proof.
  destruct o as [[|x l]|]; [reflexivity| |reflexivity].
  intros Hl. unfold Marshal_strings, Unmarshal_strings.
  change ("[" +:+ ?z) with (String (chr 91) z).
  change (skip_space (String (chr 91) ?z)) with (String (chr 91) z). cbn iota.
  change (code (chr 91) =? 91) with true. cbn iota.
  assert (Hq : ∃ z, Join (json_string <$> (x :: l)) "," +:+ "]" = String qmark z).
  { destruct l; eexists; reflexivity. }
  destruct Hq as [z Hz]. rewrite Hz.
  change (skip_space (String qmark z)) with (String qmark z). cbn iota.
  change (code qmark =? 93) with false. cbn [andb]. rewrite <- Hz.
  apply elements_marshal; [|done].
  pose proof (length_marshal l x). cbn [String.length]. rewrite length_app_str. lia.
Qed.
