(* ===== verification/Services.v ===== *)
(** * The private service registry: internal/services and internal/templates

    Services published on the VPN, the rules that say who may connect to
    them, and the built-in presets.  Both packages work on the store of
    Store.v; the clock and the random part of a generated id are arguments. *)
From S2P Require Import Prelude GoStrings GoJson StoreDB Store.

(** ** registry.go *)

Record Service := mkService {
  s_ID : string; s_Name : string; s_Type : string; s_Protocol : string;
  s_InternalAddr : string; s_Port : Z; s_OwnerPeerID : string; s_OwnerDID : string;
  s_Visibility : string; s_AuthMode : string; s_Tags : option (list string);
  s_CreatedAt : Z; s_UpdatedAt : Z }.

Definition rowToService (row : ServiceRow) : Service :=
  mkService (sr_ID row) (sr_Name row) (sr_Type row) (sr_Protocol row) (sr_InternalAddr row)
    (sr_Port row) (sr_OwnerPeerID row) (sr_OwnerDID row) (sr_Visibility row) (sr_AuthMode row)
    (Unmarshal_strings (sr_Tags row)) (sr_CreatedAt row) (sr_UpdatedAt row).

Definition service_row (s : Service) : ServiceRow :=
  mkServiceRow (s_ID s) (s_Name s) (s_Type s) (s_Protocol s) (s_InternalAddr s) (s_Port s)
    (s_OwnerPeerID s) (s_OwnerDID s) (s_Visibility s) (s_AuthMode s)
    (Marshal_strings (s_Tags s)) (s_CreatedAt s) (s_UpdatedAt s).

Definition if_empty (v def : string) : string := if String.eqb v EmptyString then def else v.

(** The service Publish stores and returns; [uuid8] is [uuid.NewString()[:8]]. *)
Definition fill_service (s : Service) (now : Z) (uuid8 : string) : Service :=
  mkService
    (if_empty (s_ID s)
       ("svc_" +:+ ReplaceAll1 (s_Name s) (chr 32) (chr 45) +:+ "_" +:+ uuid8))
    (s_Name s) (s_Type s) (if_empty (s_Protocol s) "http")
    (if_empty (s_InternalAddr s) ("127.0.0.1:" +:+ Itoa (s_Port s)))
    (s_Port s) (s_OwnerPeerID s) (s_OwnerDID s)
    (if_empty (s_Visibility s) "private") (if_empty (s_AuthMode s) "vpn-peer")
    (s_Tags s) now now.

Definition Publish (s : Service) (now : Z) (uuid8 : string) : M DB Service :=
  if String.eqb (s_Name s) EmptyString || (s_Port s <=? 0)
  then fail (EMsg "name and port are required")
  else
    let s := fill_service s now uuid8 in
    _ ← UpsertService (service_row s);
    mret s.

Section registry.
Context {srt : Sorting}.

Definition List : M DB (list Service) :=
  rows ← ListServices; mret (rowToService <$> rows).

Definition Get (i : string) : M DB Service := row ← GetService i; mret (rowToService row).
Definition Remove (i : string) : M DB unit := DeleteService i.
Definition FindByName (n : string) : M DB Service := row ← GetServiceByName n; mret (rowToService row).
End registry.

(** ** acl.go *)

Definition ActionConnect : string := "connect".
Definition ActionPublish : string := "publish".
Definition ActionManage : string := "manage".

Definition matchSubject (rule subject : string) : bool :=
  let rule := TrimSpace rule in
  let subject := TrimSpace subject in
  if String.eqb rule "public" then true
  else if HasPrefix rule "peer:" then String.eqb subject (TrimPrefix rule "peer:")
  else if HasPrefix rule "did:" then String.eqb subject (TrimPrefix rule "did:")
  else if HasPrefix rule "wallet:" then EqualFold subject (TrimPrefix rule "wallet:")
  else String.eqb rule subject.

Definition connect_action (a : ServiceACL) : bool :=
  String.eqb (acl_Action a) ActionConnect || String.eqb (acl_Action a) EmptyString.

Definition AllowConnect (svc : option Service) (subject : string) : M DB bool :=
  match svc with
  | None => fail (EMsg "service is nil")
  | Some svc =>
      if String.eqb (s_AuthMode svc) "public" then mret true
      else if String.eqb (s_AuthMode svc) "vpn-peer" then
        if String.eqb subject EmptyString then mret false
        else if negb (String.eqb (s_OwnerPeerID svc) EmptyString)
                && String.eqb subject (s_OwnerPeerID svc)
        then mret true
        else
          acls ← ListServiceACLs (s_ID svc);
          if existsb (λ a, connect_action a && matchSubject (acl_Subject a) subject) acls
          then mret true
          else mret (negb (String.eqb (s_Visibility svc) "private")
                     || String.eqb (s_OwnerPeerID svc) subject)
      else if String.eqb (s_AuthMode svc) "token" then
        acls ← ListServiceACLs (s_ID svc);
        mret (existsb (λ a, matchSubject (acl_Subject a) subject) acls)
      else mret (String.eqb (s_Visibility svc) "public")
  end.

(** [uuid] and [now] are what InsertServiceACL draws for the new row. *)
Definition Grant (serviceID subject action uuid : string) (now : Z) : M DB unit :=
  InsertServiceACL (mkACL EmptyString serviceID subject action 0) uuid now.

(** ** templates.go *)

Record Template := mkTemplate {
  tp_Name : string; tp_Type : string; tp_Ports : list Z; tp_Protocol : string;
  tp_DefaultVisibility : string; tp_DefaultAuth : string; tp_Description : string }.

Definition Catalog : list Template :=
  let mk n t p d := mkTemplate n t [p] "http" "private" "vpn-peer" d in
  [ mk "drop-room" "webdav" 8787 "WebDAV/file sharing";
    mk "ollama" "ai.llm" 11434 "Local Ollama LLM API";
    mk "openai-compatible-llm" "ai.llm" 8080 "OpenAI-compatible local endpoint";
    mk "nextcloud" "web" 8080 "Nextcloud";
    mk "home-assistant" "web" 8123 "Home Assistant";
    mk "dashboard" "web" 3000 "Local web dashboard";
    mk "static-site" "web" 8080 "Simple static site" ].

Definition Find (name : string) : result Template :=
  match find_first (λ t, String.eqb (tp_Name t) name) Catalog with
  | Some t => Ok t
  | None => Err (EMsg ("unknown template " +:+ quote_q name))
  end.

(** [tpl.Ports[0]] panics on an empty list; every preset has one port. *)
Definition Install (name : string) (now : Z) (uuid8 : string) : M DB Service :=
  tpl ← lift (Find name);
  match tp_Ports tpl with
  | port :: _ =>
      Publish (mkService EmptyString (tp_Name tpl) (tp_Type tpl) (tp_Protocol tpl) EmptyString port
        EmptyString EmptyString (tp_DefaultVisibility tpl) (tp_DefaultAuth tpl) None 0 0) now uuid8
  | [] => fail (EMsg "runtime error: index out of range [0] with length 0")
  end.

(** ** Publishing and reading back *)

Definition the_service (i : string) (t : tables) : option ServiceRow :=
  find_first (λ r, String.eqb (sr_ID r) i) (services t).

Lemma Get_free i t :
  Get i (mkDB t []) = (rowToService <$> service_result (the_service i t), mkDB t []).
Proof.
  unfold Get, GetService, the_service, query, mbind, M_bind, driver, gets, lift, mret, M_ret. cbn.
  destruct (find_first _ (services t)); reflexivity.
Qed.

(** Rows keep their place under an update of one of them. *)
Lemma find_upsert (row : ServiceRow) (l : list ServiceRow) i :
  let l' := (λ r, if String.eqb (sr_ID r) (sr_ID row) then merge_service row r else r) <$> l in
  find_first (λ r, String.eqb (sr_ID r) i) l' =
  (λ r, if String.eqb (sr_ID r) (sr_ID row) then merge_service row r else r)
    <$> find_first (λ r, String.eqb (sr_ID r) i) l.
Proof.
  cbv zeta. apply find_first_fmap. intros r.
  destruct (String.eqb (sr_ID r) (sr_ID row)); reflexivity.
Qed.

(** The stored form of a published service. *)
Lemma row_roundtrip s :
  match s_Tags s with Some l => Forall ascii_text l | None => True end →
  rowToService (service_row s) = s.
Proof.
  intros H. destruct s. unfold rowToService, service_row. cbn in *.
  rewrite Unmarshal_Marshal by exact H. reflexivity.
Qed.

(** [s] with the owner and the creation time of [old]. *)
Definition keep_origin (old : ServiceRow) (s : Service) : Service :=
  mkService (s_ID s) (s_Name s) (s_Type s) (s_Protocol s) (s_InternalAddr s) (s_Port s)
    (sr_OwnerPeerID old) (sr_OwnerDID old) (s_Visibility s) (s_AuthMode s) (s_Tags s)
    (sr_CreatedAt old) (s_UpdatedAt s).

Definition published_as (old : option ServiceRow) (s : Service) : Service :=
  match old with Some old => keep_origin old s | None => s end.

Lemma merge_roundtrip s old :
  match s_Tags s with Some l => Forall ascii_text l | None => True end →
  sr_ID old = s_ID s →
  rowToService (merge_service (service_row s) old) = keep_origin old s.
Proof.
  intros H E. destruct s. unfold rowToService, service_row, keep_origin. cbn in *.
  rewrite Unmarshal_Marshal, E by exact H. reflexivity.
Qed.

Lemma UpsertService_free row t :
  UpsertService row (mkDB t []) =
  (Ok tt, mkDB (set_services
     (if taken sr_ID (sr_ID row) (services t)
      then (λ r, if String.eqb (sr_ID r) (sr_ID row) then merge_service row r else r) <$> services t
      else services t ++ [row]) t) []).
Proof.
  unfold UpsertService, exec, mbind, M_bind, driver, run. cbn.
  destruct (taken sr_ID (sr_ID row) (services t)); reflexivity.
Qed.

Lemma taken_the_service i t :
  taken sr_ID i (services t) = match the_service i t with Some _ => true | None => false end.
Proof.
  unfold taken, the_service. induction (services t) as [|r l IH]; [done|]. cbn.
  destruct (String.eqb_spec (sr_ID r) i); rewrite ?IH; done.
Qed.

(** Where the row of id [i] is after an upsert of [row]. *)
Lemma the_service_upsert row t i :
  the_service i (tbl (UpsertService row (mkDB t [])).2) =
  if String.eqb i (sr_ID row)
  then Some (match the_service (sr_ID row) t with Some old => merge_service row old | None => row end)
  else the_service i t.
Proof.
  rewrite UpsertService_free, taken_the_service. unfold the_service. cbn [snd tbl services set_services].
  destruct (find_first (λ r, String.eqb (sr_ID r) (sr_ID row)) (services t)) as [old|] eqn:E.
  - rewrite find_upsert. destruct (String.eqb_spec i (sr_ID row)) as [->|Hne].
    + rewrite E. apply find_first_Some in E as (_ & Hk). cbn.
      apply String.eqb_eq in Hk. rewrite Hk, String.eqb_refl. done.
    + destruct (find_first (λ r, String.eqb (sr_ID r) i) (services t)) as [r|] eqn:Er; [|done].
      apply find_first_Some in Er as (_ & Hk). apply String.eqb_eq in Hk. cbn.
      destruct (String.eqb_spec (sr_ID r) (sr_ID row)); congruence.
  - rewrite find_first_app. destruct (String.eqb_spec i (sr_ID row)) as [->|Hne].
    + rewrite E. cbn. rewrite String.eqb_refl. done.
    + destruct (find_first (λ r, String.eqb (sr_ID r) i) (services t)); [done|]. cbn.
      destruct (String.eqb_spec (sr_ID row) i); [congruence|done].
Qed.

(** C38. Publishing a named service with a positive port succeeds, keeps the
    database's constraints, and Get then returns the service under its id: the
    published one when the id is new, and the published one with the stored
    owner and creation time when the id was already registered (the value
    Publish itself returns has the caller's owner and the current time).  No
    other service changes. *)
Theorem Publish_then_Get t s now uuid8 :
  db_wf t → s_Name s ≠ EmptyString → 0 < s_Port s →
  match s_Tags s with Some l => Forall ascii_text l | None => True end →
  let s' := fill_service s now uuid8 in
  ∃ t', Publish s now uuid8 (mkDB t []) = (Ok s', mkDB t' []) ∧ db_wf t' ∧
    Get (s_ID s') (mkDB t' [])
      = (Ok (published_as (the_service (s_ID s') t) s'), mkDB t' []) ∧
    ∀ i, i ≠ s_ID s' → (Get i (mkDB t' [])).1 = (Get i (mkDB t [])).1.
Proof.
  intros Hwf Hn Hp Ht s'. set (row := service_row s').
  exists (tbl (UpsertService row (mkDB t [])).2).
  split; [|split; [|split]].
  - unfold Publish. apply String.eqb_neq in Hn. rewrite Hn.
    replace (s_Port s <=? 0) with false by lia. cbn [orb]. fold s'. fold row.
    erewrite bind_Ok by apply UpsertService_free. rewrite UpsertService_free. done.
  - apply (UpsertService_wf row (mkDB t []) (Ok tt) (UpsertService row (mkDB t [])).2); [|done].
    rewrite UpsertService_free. done.
  - rewrite Get_free, the_service_upsert. cbn [sr_ID row service_row].
    change (sr_ID row) with (s_ID s'). rewrite String.eqb_refl.
    destruct (the_service (s_ID s') t) as [old|] eqn:E; cbn [service_result fmap result_fmap published_as].
    + unfold row. rewrite merge_roundtrip; [done|done|].
      apply find_first_Some in E as (_ & Hk). apply String.eqb_eq in Hk. done.
    + unfold row. rewrite row_roundtrip; done.
  - intros i Hi. rewrite !Get_free, the_service_upsert.
    change (sr_ID row) with (s_ID s'). apply String.eqb_neq in Hi. rewrite Hi. done.
Qed.

(** ** Who may connect *)

Lemma ListServiceACLs_inv t fs i r s' :
  ListServiceACLs i (mkDB t fs) = (r, s') →
  tbl s' = t ∧ ((∃ e, r = Err e ∧ head fs = Some (Some e)) ∨
                r = Ok (filter (λ a, acl_ServiceID a = i) (service_acls t))).
Proof.
  unfold ListServiceACLs, query, mbind, M_bind, driver, gets. cbn.
  destruct fs as [|[e|] fs]; cbn; intros [= <- <-]; eauto 6.
Qed.

(** The subjects a rule names, both without surrounding white space: everyone;
    a peer by its id; a subject equal to what follows [did:] (so never to the
    DID itself, which starts with [did:]); a wallet up to letter case; and any
    other text by that very text. *)
Inductive names : string → string → Prop :=
| names_public subject : names "public" subject
| names_peer id : names ("peer:" +:+ id) id
| names_did rest : names ("did:" +:+ rest) rest
| names_wallet w subject : ToLower subject = ToLower w → names ("wallet:" +:+ w) subject
| names_text x :
    (∀ r, x ≠ "peer:" +:+ r ∧ x ≠ "did:" +:+ r ∧ x ≠ "wallet:" +:+ r) → names x x.

(** The rule [a] of service [i] admits [subject]. *)
Definition admits (i subject : string) (a : ServiceACL) : Prop :=
  acl_ServiceID a = i ∧ (acl_Action a = "connect" ∨ acl_Action a = EmptyString) ∧
  names (TrimSpace (acl_Subject a)) (TrimSpace subject).

Lemma HasPrefix_false s p : HasPrefix s p = false ↔ ∀ r, s ≠ p +:+ r.
Proof.
  rewrite <- not_true_iff_false, HasPrefix_spec. split; [|by intros H [r ->]; by eapply H].
  intros H r ->. eauto.
Qed.

Lemma matchSubject_names rule subject :
  matchSubject rule subject = true ↔ names (TrimSpace rule) (TrimSpace subject).
Proof.
  unfold matchSubject. generalize (TrimSpace rule) (TrimSpace subject). clear. intros rule subject.
  split.
  - destruct (String.eqb_spec rule "public") as [->|Hp]; [intros _; constructor|].
    destruct (HasPrefix rule "peer:") eqn:E1.
    { apply HasPrefix_spec in E1 as [r ->]. rewrite TrimPrefix_app, String.eqb_eq. intros ->. constructor. }
    destruct (HasPrefix rule "did:") eqn:E2.
    { apply HasPrefix_spec in E2 as [r ->]. rewrite TrimPrefix_app, String.eqb_eq. intros ->. constructor. }
    destruct (HasPrefix rule "wallet:") eqn:E3.
    { apply HasPrefix_spec in E3 as [r ->]. rewrite TrimPrefix_app. unfold EqualFold.
      rewrite bool_decide_eq_true. by constructor. }
    rewrite String.eqb_eq. intros <-. rewrite HasPrefix_false in E1, E2, E3. by constructor.
  - intros [s|x|x|w x E|x H].
    + done.
    + destruct (String.eqb _ _); [done|]. rewrite TrimPrefix_app, String.eqb_refl.
      by rewrite (proj2 (HasPrefix_spec ("peer:" +:+ x) _) (ex_intro _ _ eq_refl)).
    + destruct (String.eqb _ _); [done|]. rewrite TrimPrefix_app, String.eqb_refl.
      by rewrite (proj2 (HasPrefix_spec ("did:" +:+ x) _) (ex_intro _ _ eq_refl)).
    + destruct (String.eqb _ _); [done|]. rewrite TrimPrefix_app.
      rewrite (proj2 (HasPrefix_spec ("wallet:" +:+ w) _) (ex_intro _ _ eq_refl)).
      change (HasPrefix ("wallet:" +:+ w) "peer:") with false.
      change (HasPrefix ("wallet:" +:+ w) "did:") with false. by apply bool_decide_eq_true.
    + rewrite !(proj2 (HasPrefix_false _ _)) by (intros r; apply (H r)).
      rewrite String.eqb_refl. by destruct (String.eqb _ _).
Qed.

Lemma existsb_admits i subject (l : list ServiceACL) :
  existsb (λ a, connect_action a && matchSubject (acl_Subject a) subject)
    (filter (λ a, acl_ServiceID a = i) l) = true ↔ ∃ a, a ∈ l ∧ admits i subject a.
Proof.
  rewrite existsb_exists. unfold admits, connect_action.
  split; intros (a & H); exists a.
  - destruct H as [Hin Hb]. apply list_elem_of_In, list_elem_of_filter in Hin as [-> Hin].
    apply andb_true_iff in Hb as [Ha Hm%matchSubject_names]. apply orb_true_iff in Ha.
    rewrite !String.eqb_eq in Ha. auto.
  - destruct H as (Hin & <- & Ha & Hm%matchSubject_names). split.
    + apply list_elem_of_In, list_elem_of_filter. auto.
    + rewrite Hm, andb_true_r. apply orb_true_iff. rewrite !String.eqb_eq. done.
Qed.

(** C37. A private service that VPN peers authenticate to admits exactly its
    owner and the subjects that one of its connect rules names: everyone for
    [public], the peer of a [peer:] rule, the wallet of a [wallet:] rule up to
    letter case, the very text of a rule without one of these forms, and for a
    [did:] rule the subject equal to what follows that prefix, hence never the
    holder of that DID.  The answer is computed from the stored rules, never
    changes them, and is an error, which admits nobody, only when the database
    failed.  An anonymous subject is never admitted. *)
Theorem private_access_exact t fs svc subject r s' :
  s_AuthMode svc = "vpn-peer" → s_Visibility svc = "private" →
  AllowConnect (Some svc) subject (mkDB t fs) = (r, s') →
  tbl s' = t ∧
  ((∃ e, r = Err e ∧ head fs = Some (Some e)) ∨
   ∃ b, r = Ok b ∧
     (b = true ↔ subject ≠ EmptyString ∧
        (s_OwnerPeerID svc = subject ∨ ∃ a, a ∈ service_acls t ∧ admits (s_ID svc) subject a))).
Proof.
  intros Hm Hv. unfold AllowConnect. rewrite Hm, Hv.
  change (String.eqb "vpn-peer" "public") with false.
  change (String.eqb "vpn-peer" "vpn-peer") with true. cbn iota.
  destruct (String.eqb_spec subject EmptyString) as [->|Hs].
  { intros [= <- <-]. split; [done|]. right. eexists; split; [done|].
    split; [done|]. intros [[] _]. done. }
  destruct (negb _ && _) eqn:Eo.
  { intros [= <- <-]. split; [done|]. right. eexists; split; [done|]. split; [|done].
    intros _. apply andb_true_iff in Eo as [_ Eo]. apply String.eqb_eq in Eo. auto. }
  intros H. apply bind_inv in H as [(acls & s1 & H1 & H)|(e & H1 & ->)];
    apply ListServiceACLs_inv in H1 as [Ht [(e' & E & Hf)|E]]; try discriminate E; injection E as ->.
  - pose proof (existsb_admits (s_ID svc) subject (service_acls t)) as Hex.
    change (String.eqb "private" "private") with true in H. cbn [negb orb] in H.
    destruct (existsb _ _) eqn:Eb; injection H as <- <-; (split; [done|]); right;
      eexists; (split; [done|]).
    + split; [|done]. intros _. split; [done|]. right. apply Hex. done.
    + rewrite String.eqb_eq. split; [auto|]. intros [_ [?|Ha]]; [done|].
      apply Hex in Ha. discriminate Ha.
  - split; [done|]. left. eauto.
Qed.

(** ** Granting *)

Lemma TrimSpace_cons c x : is_space c = false →
  TrimSpace (String c x) = String c (trim_right is_space x).
Proof.
  intros Hc. unfold TrimSpace. cbn. rewrite Hc. cbn.
  destruct (trim_right is_space x); [rewrite Hc|]; done.
Qed.

Lemma trim_right_cons c x : is_space c = false →
  trim_right is_space (String c x) = String c (trim_right is_space x).
Proof. intros Hc. cbn. destruct (trim_right is_space x); [rewrite Hc|]; done. Qed.

Lemma matchSubject_peer x subject : trim_right is_space x = x →
  matchSubject ("peer:" +:+ x) subject = String.eqb (TrimSpace subject) x.
Proof.
  intros Hx. unfold matchSubject.
  change ("peer:" +:+ x) with (String "p" (String "e" (String "e" (String "r" (String ":" x))))).
  rewrite TrimSpace_cons, !trim_right_cons, Hx by done. destruct x; done.
Qed.

(** A granted peer rule admits that peer and nobody else: after a
    successful Grant of [peer:x] on a private service, AllowConnect answers as
    before for every subject except [x], which it now admits. *)
Lemma Grant_peer_exact t svc x subject uuid now t' fs' :
  s_AuthMode svc = "vpn-peer" → s_Visibility svc = "private" →
  trim_right is_space x = x → subject ≠ EmptyString →
  Grant (s_ID svc) ("peer:" +:+ x) ActionConnect uuid now (mkDB t []) = (Ok tt, mkDB t' fs') →
  (AllowConnect (Some svc) subject (mkDB t' [])).1 =
  ((λ b, b || String.eqb (TrimSpace subject) x) <$> (AllowConnect (Some svc) subject (mkDB t [])).1).
Proof.
  intros Hm Hv Hx Hs HG.
  assert (Ha : ∃ a, service_acls t' = service_acls t ++ [a] ∧
            a = mkACL uuid (s_ID svc) ("peer:" +:+ x) ActionConnect now).
  { unfold Grant, InsertServiceACL, exec, mbind, M_bind, driver, run in HG. cbn in HG.
    destruct (taken acl_ID _ _); [discriminate HG|].
    destruct (negb _); [discriminate HG|]. injection HG as <- <-. eauto. }
  destruct Ha as (a & Hl & ->).
  unfold AllowConnect. rewrite Hm, Hv.
  change (String.eqb "vpn-peer" "public") with false.
  change (String.eqb "vpn-peer" "vpn-peer") with true. cbn iota.
  apply String.eqb_neq in Hs. rewrite Hs.
  destruct (negb _ && _); [done|].
  unfold ListServiceACLs, query, mbind, M_bind, driver, gets. cbn [faults tbl].
  rewrite Hl, filter_app, existsb_app. cbn [filter list_filter].
  rewrite decide_True by done. cbn [existsb]. unfold connect_action at 2. cbn [acl_Action].
  change (String.eqb ActionConnect ActionConnect) with true. cbn [orb andb acl_Subject].
  rewrite matchSubject_peer, orb_false_r by done.
  destruct (existsb _ _); [done|]. cbn.
  destruct (String.eqb (TrimSpace subject) x); [|rewrite orb_false_r; done].
  rewrite orb_true_r. done.
Qed.

(** A rule that names a full DID never admits the holder of that DID:
    the rule's prefix is cut before the comparison and the subject's is not,
    whatever follows the prefix. *)
Lemma did_rule_never_admits x : matchSubject ("did:" +:+ x) ("did:" +:+ x) = false.
Proof.
  unfold matchSubject.
  change ("did:" +:+ x) with (String "d" (String "i" (String "d" (String ":" x)))).
  rewrite TrimSpace_cons, !trim_right_cons by done.
  generalize (trim_right is_space x) as y. intros y.
  transitivity (String.eqb (String "d" (String "i" (String "d" (String ":" y)))) y);
    [destruct y; done|].
  apply String.eqb_neq. intros E. apply (f_equal String.length) in E. cbn in E. lia.
Qed.

(** ** Witnesses *)

Definition wit_svc : Service :=
  mkService "svc_1" "wiki" EmptyString EmptyString EmptyString 8080 "peer-owner" EmptyString
    EmptyString EmptyString (Some ["docs"; "a<b"]) 0 0.
Definition wit_svc_db : DB := (Publish wit_svc 10 "00000000" empty_db).2.

Lemma Publish_then_Get_witness :
  let s' := fill_service wit_svc 20 "11111111" in
  ∃ t', Publish wit_svc 20 "11111111" (mkDB (tbl wit_svc_db) []) = (Ok s', mkDB t' []) ∧ db_wf t' ∧
    Get (s_ID s') (mkDB t' [])
      = (Ok (published_as (the_service (s_ID s') (tbl wit_svc_db)) s'), mkDB t' []) ∧
    ∀ i, i ≠ s_ID s' → (Get i (mkDB t' [])).1 = (Get i (mkDB (tbl wit_svc_db) [])).1.
Proof.
  apply (Publish_then_Get (tbl wit_svc_db) wit_svc 20 "11111111"); [|done|done|].
  - unfold wit_svc_db, db_wf, peers_wf. cbn. repeat split; repeat constructor; set_solver.
  - repeat constructor.
Defined.

(** The update keeps the first creation time, which Publish does not return. *)
Example Publish_update_time :
  s_CreatedAt <$> (Publish wit_svc 20 "11111111" wit_svc_db).1 = Ok 20 ∧
  s_CreatedAt <$> (Get "svc_1" (Publish wit_svc 20 "11111111" wit_svc_db).2).1 = Ok 10.
Proof. split; vm_compute; reflexivity. Qed.

Definition wit_stored : Service := fill_service wit_svc 10 "00000000".

Lemma private_access_exact_witness :
  let run := AllowConnect (Some wit_stored) "peer-owner" (mkDB (tbl wit_svc_db) []) in
  tbl run.2 = tbl wit_svc_db ∧
  ((∃ e, run.1 = Err e ∧ head ([] : list (option error)) = Some (Some e)) ∨
   ∃ b, run.1 = Ok b ∧
     (b = true ↔ "peer-owner" ≠ EmptyString ∧
        (s_OwnerPeerID wit_stored = "peer-owner" ∨
         ∃ a, a ∈ service_acls (tbl wit_svc_db) ∧ admits (s_ID wit_stored) "peer-owner" a))).
Proof.
  apply (private_access_exact (tbl wit_svc_db) [] wit_stored "peer-owner");
    [reflexivity|reflexivity|apply surjective_pairing].
Defined.

Lemma Grant_peer_exact_witness :
  let db' := (Grant "svc_1" "peer:p2" ActionConnect "u" 11 (mkDB (tbl wit_svc_db) [])).2 in
  (AllowConnect (Some wit_stored) "p2" (mkDB (tbl db') [])).1 =
  ((λ b, b || String.eqb (TrimSpace "p2") "p2")
     <$> (AllowConnect (Some wit_stored) "p2" (mkDB (tbl wit_svc_db) [])).1).
Proof.
  apply (Grant_peer_exact (tbl wit_svc_db) wit_stored "p2" "p2" "u" 11 _ []);
    [reflexivity|reflexivity|reflexivity|discriminate|vm_compute; reflexivity].
Defined.
