(* ===== verification/Dns.v ===== *)
(** * The private resolver: internal/dns

    The DNS server that answers [<name>.<domain>] from the service registry
    and forwards the rest, and the plain forwarder of the Shield and Sentinel
    profiles.  Messages and their exchange belong to the miekg/dns library:
    [SetReply], [SetRcode] and [Exchange] are arguments, and the exchanges the
    node makes are recorded in the state. *)
From S2P Require Import Prelude GoStrings GoNet GoUrl StoreDB Store Services.

(** ** Messages *)

Definition TypeA : Z := 1.
Definition RcodeSuccess : Z := 0.
Definition RcodeServerFailure : Z := 2.
Definition RcodeNameError : Z := 3.

Record Question := mkQuestion { q_Name : string; q_Qtype : Z }.

(** An A record (class IN); records of other types occur in upstream replies. *)
Inductive RR :=
| RR_A (name : string) (ttl : Z) (a : IP)
| RR_other (name : string) (rrtype : Z) (data : string).

Record Msg := mkMsg {
  mg_Id : Z; mg_Question : list Question; mg_Authoritative : bool; mg_Rcode : Z;
  mg_Answer : list RR }.

Definition set_Authoritative (b : bool) (m : Msg) : Msg :=
  mkMsg (mg_Id m) (mg_Question m) b (mg_Rcode m) (mg_Answer m).
Definition set_Rcode (c : Z) (m : Msg) : Msg :=
  mkMsg (mg_Id m) (mg_Question m) (mg_Authoritative m) c (mg_Answer m).
Definition add_Answer (rr : RR) (m : Msg) : Msg :=
  mkMsg (mg_Id m) (mg_Question m) (mg_Authoritative m) (mg_Rcode m) (mg_Answer m ++ [rr]).

Record DnsConfig := mkDnsConfig {
  d_Enabled : bool; d_Domain : string; d_ListenAddr : string; d_Upstream : string }.

Record DnsState := mkDns { d_db : DB; d_sent : list (string * Msg) }.
Definition set_d_db (d : DB) (s : DnsState) : DnsState := mkDns d (d_sent s).
Definition on_registry {A} (m : M DB A) : M DnsState A := zoom d_db set_d_db m.

Definition with_port (up : string) : string :=
  if Contains up ":" then up else JoinHostPort up "53".

Section resolver.
Context (SetReply : Msg → Msg) (SetRcode : Msg → Z → Msg) (Exchange : Msg → string → result Msg).
Context (cfg : DnsConfig).

(** The service label a question asks for: A questions under the domain. *)
Definition private_label (q : Question) : option string :=
  if negb (q_Qtype q =? TypeA) then None else
  let name := TrimSuffix (ToLower (q_Name q)) "." in
  let suffix := "." +:+ ToLower (d_Domain cfg) in
  if negb (HasSuffix name suffix) then None else
  let svcName := TrimSuffix name suffix in
  Some (match cut "." svcName with Some (label, _) => label | None => svcName end).

(** The IPv4 address a service listens on. *)
Definition service_ip (svc : Service) : option IP :=
  let host := match SplitHostPort (s_InternalAddr svc) with
              | Some (host, _) => host
              | None => hd EmptyString (Split (s_InternalAddr svc) ":"%char)
              end in
  ip ← ParseIP host; To4 ip.

(** One round of the loop over the questions. *)
Definition answer_question (q : Question) (m : Msg) : M DnsState Msg :=
  match private_label q with
  | None => mret m
  | Some svcName =>
      found ← try (on_registry (FindByName svcName));
      match found with
      | Err _ => mret (set_Rcode RcodeNameError m)
      | Ok svc =>
          match service_ip svc with
          | None => mret (set_Rcode RcodeNameError m)
          | Some ip => mret (add_Answer (RR_A (q_Name q) 60 ip) m)
          end
      end
  end.

Fixpoint answer_questions (qs : list Question) (m : Msg) : M DnsState Msg :=
  match qs with
  | [] => mret m
  | q :: qs => m ← answer_question q m; answer_questions qs m
  end.

Definition forward (r : Msg) : M DnsState Msg :=
  let up := with_port (d_Upstream cfg) in
  run (λ s, (Exchange r up, mkDns (d_db s) (d_sent s ++ [(up, r)]))).

(** The message [handle] writes. *)
Definition handle (r : Msg) : M DnsState Msg :=
  m ← answer_questions (mg_Question r) (set_Authoritative true (SetReply r));
  if (length (mg_Answer m) =? 0)%nat && (0 <? length (mg_Question r))%nat then
    fwd ← try (forward r);
    match fwd with
    | Ok fwd => mret fwd
    | Err _ => mret m
    end
  else mret m.

Definition DefaultListenAddr (subnet override : string) : string :=
  if negb (String.eqb override EmptyString) then
    if Contains override ":" then override else JoinHostPort override "53"
  else match ParseCIDR subnet with
       | None => "127.0.0.1:53"
       | Some (ip, _) => JoinHostPort (ip_String ip) "53"
       end.

Definition Validate : result unit :=
  if negb (d_Enabled cfg) then Ok tt
  else if String.eqb (d_Domain cfg) EmptyString
  then Err (EMsg "PRIVATE_DNS_DOMAIN is required when private DNS is enabled")
  else if String.eqb (d_ListenAddr cfg) EmptyString
  then Err (EMsg "PRIVATE_DNS_ADDR is required when private DNS is enabled")
  else Ok tt.

(** Start; [listen]: how ListenAndServe on an address ends. *)
Definition dns_Start (listen : string → result unit) : result unit :=
  if negb (d_Enabled cfg) then Ok tt else listen (d_ListenAddr cfg).

(** ** forwarder.go *)

Record ForwarderConfig := mkForwarder { f_ListenAddr : string; f_Upstream : string }.

(** The checks Start makes before it listens. *)
Definition forwarder_check (f : ForwarderConfig) : result unit :=
  if String.eqb (f_ListenAddr f) EmptyString || String.eqb (TrimSpace (f_Upstream f)) EmptyString
  then Err (EMsg "forwarder listen and upstream are required") else Ok tt.

Definition forwarder_Start (f : ForwarderConfig) (listen : string → result unit) : result unit :=
  _ ← forwarder_check f; listen (f_ListenAddr f).

Definition forwarder_handle (f : ForwarderConfig) (r : Msg) : M DnsState Msg :=
  let up := with_port (f_Upstream f) in
  reply ← try (run (λ s, (Exchange r up, mkDns (d_db s) (d_sent s ++ [(up, r)]))));
  match reply with
  | Err _ => mret (SetRcode r RcodeServerFailure)
  | Ok msg => mret msg
  end.

(** ** What the resolver answers *)

(** The registered service a label names: the first row of that name. *)
Definition named (t : tables) (n : string) : option ServiceRow :=
  find_first (λ r, String.eqb (sr_Name r) n) (services t).

(** The record the registry [t] gives for [q]. *)
Definition local_answer (t : tables) (q : Question) : option RR :=
  n ← private_label q; row ← named t n; ip ← service_ip (rowToService row);
  Some (RR_A (q_Name q) 60 ip).

Definition is_private (q : Question) : bool :=
  match private_label q with Some _ => true | None => false end.
Definition unanswered (t : tables) (q : Question) : bool :=
  is_private q && match local_answer t q with Some _ => false | None => true end.

Lemma FindByName_free n t :
  FindByName n (mkDB t []) = (rowToService <$> service_result (named t n), mkDB t []).
Proof.
  unfold FindByName, GetServiceByName, named, query, mbind, M_bind, driver, gets, lift, mret, M_ret.
  cbn. destruct (find_first _ (services t)); reflexivity.
Qed.

Lemma answer_question_free t sent q m :
  answer_question q m (mkDns (mkDB t []) sent) =
  (Ok (match local_answer t q with
       | Some rr => add_Answer rr m
       | None => if is_private q then set_Rcode RcodeNameError m else m
       end), mkDns (mkDB t []) sent).
Proof.
  unfold answer_question, local_answer, is_private.
  destruct (private_label q) as [n|]; [|reflexivity].
  unfold try, on_registry, zoom, mbind at 1, M_bind. cbn [d_db]. rewrite FindByName_free.
  unfold mbind at 1, option_bind. destruct (named t n) as [row|]; [|reflexivity]. cbn.
  destruct (service_ip (rowToService row)); reflexivity.
Qed.

Lemma answer_questions_free t sent qs : ∀ m,
  answer_questions qs m (mkDns (mkDB t []) sent) =
  (Ok (mkMsg (mg_Id m) (mg_Question m) (mg_Authoritative m)
         (if existsb (unanswered t) qs then RcodeNameError else mg_Rcode m)
         (mg_Answer m ++ omap (local_answer t) qs)), mkDns (mkDB t []) sent).
Proof.
  induction qs as [|q qs IH]; intros m; [destruct m; cbn; rewrite app_nil_r; reflexivity|].
  cbn [answer_questions]. erewrite bind_Ok by apply answer_question_free. rewrite IH.
  cbn [existsb omap list_omap]. unfold unanswered at 2.
  destruct (local_answer t q) as [rr|] eqn:E.
  - assert (is_private q = true) as ->.
    { unfold is_private. unfold local_answer in E. destruct (private_label q); [done|discriminate E]. }
    cbn. rewrite <- app_assoc. done.
  - rewrite andb_true_r. destruct (is_private q); cbn; [|done]. destruct (existsb _ qs); done.
Qed.
End resolver.

Section answers.
Context (SetReply : Msg → Msg) (Exchange : Msg → string → result Msg) (cfg : DnsConfig).

(** The reply the resolver builds itself. *)
Definition own_reply (t : tables) (r : Msg) : Msg :=
  let m := SetReply r in
  mkMsg (mg_Id m) (mg_Question m) true
    (if existsb (unanswered cfg t) (mg_Question r) then RcodeNameError else mg_Rcode m)
    (omap (local_answer cfg t) (mg_Question r)).

Lemma handle_exact t sent r :
  mg_Answer (SetReply r) = [] →
  handle SetReply Exchange cfg r (mkDns (mkDB t []) sent) =
  match omap (local_answer cfg t) (mg_Question r), mg_Question r with
  | [], _ :: _ =>
      let up := with_port (d_Upstream cfg) in
      (Ok (match Exchange r up with Ok m => m | Err _ => own_reply t r end),
       mkDns (mkDB t []) (sent ++ [(up, r)]))
  | _, _ => (Ok (own_reply t r), mkDns (mkDB t []) sent)
  end.
Proof.
  intros Ha. unfold handle. erewrite bind_Ok by apply answer_questions_free.
  cbn [mg_Answer set_Authoritative]. rewrite Ha. cbn [app]. unfold own_reply.
  destruct (mg_Question r) as [|q qs]; [reflexivity|].
  destruct (omap (local_answer cfg t) (q :: qs)); [|reflexivity]. cbn [length Nat.eqb Nat.ltb Nat.leb andb].
  unfold try, forward, run, mbind, M_bind. cbn.
  destruct (Exchange r _); reflexivity.
Qed.
End answers.

(** ** Labels *)

Lemma cut_Some sub s a b : cut sub s = Some (a, b) → s = a +:+ sub +:+ b.
Proof.
  revert a b. induction s as [|c s IH]; intros a b; cbn;
    destruct (strip_prefix sub _) as [rest|] eqn:E.
  - intros [= <- <-]. apply strip_prefix_spec in E. done.
  - done.
  - intros [= <- <-]. apply strip_prefix_spec in E. done.
  - destruct (cut sub s) as [[a' b']|]; [|done]. cbn. intros [= <- <-].
    rewrite (IH a' b') by done. done.
Qed.

(** The part before the first cut has no occurrence, for a one-byte separator. *)
Lemma cut_before c s a b :
  cut (String c EmptyString) s = Some (a, b) → cut (String c EmptyString) a = None.
Proof.
  revert a b. induction s as [|d s IH]; intros a b; [done|]. cbn.
  destruct (Ascii.eqb c d) eqn:E.
  - intros [= <- <-]. done.
  - destruct (cut _ s) as [[a' b']|]; [|done]. cbn. intros [= <- <-].
    cbn. rewrite E, (IH a' b') by done. done.
Qed.

Definition lower (s : string) : Prop := ToLower s = s.

Lemma lower_spec s : lower s ↔ sforall (λ c, Ascii.eqb (to_lower c) c) s = true.
Proof.
  split; [|apply smap_id]. unfold lower, ToLower. induction s as [|c s IH]; [done|].
  cbn. intros [= E1 E2]. rewrite E1, Ascii.eqb_refl. auto.
Qed.

Lemma lower_app a b : lower (a +:+ b) ↔ lower a ∧ lower b.
Proof. rewrite !lower_spec, sforall_app, andb_true_iff. done. Qed.

Lemma lower_ToLower s : lower (ToLower s).
Proof. apply ToLower_idem. Qed.

Lemma lower_TrimSuffix s suf : lower s → lower (TrimSuffix s suf).
Proof.
  unfold TrimSuffix. destruct (strip_suffix suf s) as [r|] eqn:E; [|done].
  apply strip_suffix_Some in E as ->. intros [? _]%lower_app. done.
Qed.

(** Labels are in lower case and have no dot. *)
Lemma private_label_lower cfg q n :
  private_label cfg q = Some n → lower n ∧ Contains n "." = false.
Proof.
  unfold private_label. destruct (negb (q_Qtype q =? TypeA)); [done|].
  destruct (negb _); [done|]. set (x := TrimSuffix (TrimSuffix _ _) _).
  assert (Hx : lower x) by apply lower_TrimSuffix, lower_TrimSuffix, lower_ToLower.
  unfold Contains. destruct (cut "." x) as [[a b]|] eqn:E; intros [= <-].
  - rewrite (cut_before _ _ _ _ E). apply cut_Some in E. rewrite E in Hx.
    apply lower_app in Hx as [? _]. done.
  - rewrite E. done.
Qed.

Lemma local_answer_Some cfg t q rr :
  local_answer cfg t q = Some rr →
  ∃ n row ip, private_label cfg q = Some n ∧ named t n = Some row ∧
    service_ip (rowToService row) = Some ip ∧ rr = RR_A (q_Name q) 60 ip.
Proof.
  unfold local_answer, mbind, option_bind.
  destruct (private_label cfg q) as [n|]; [|done].
  destruct (named t n) as [row|] eqn:En; [|done].
  destruct (service_ip (rowToService row)) as [ip|] eqn:E; [|done]. intros [= <-].
  exists n, row, ip. done.
Qed.

Lemma cut_absent c s : sforall (λ d, negb (Ascii.eqb c d)) s = true →
  cut (String c EmptyString) s = None.
Proof.
  induction s as [|d s IH]; [done|]. cbn. intros [Hd Hs]%andb_true_iff.
  apply negb_true_iff in Hd. rewrite Hd, IH by done. done.
Qed.

(** The name under which a service is asked for. *)
Definition fqdn (n domain : string) : string := n +:+ "." +:+ domain +:+ ".".

Lemma private_label_fqdn cfg n :
  lower n → Contains n "." = false →
  private_label cfg (mkQuestion (fqdn n (d_Domain cfg)) TypeA) = Some n.
Proof.
  intros Hl Hn. unfold private_label, fqdn. cbn [q_Qtype q_Name].
  change (TypeA =? TypeA) with true. cbn [negb].
  assert (E : ToLower (n +:+ "." +:+ d_Domain cfg +:+ ".")
              = (n +:+ "." +:+ ToLower (d_Domain cfg)) +:+ ".").
  { unfold ToLower at 1. rewrite !smap_app. fold ToLower. unfold lower in Hl. rewrite Hl.
    rewrite <- !app_assoc_str. done. }
  rewrite E, TrimSuffix_app, TrimSuffix_app.
  assert (HasSuffix (n +:+ "." +:+ ToLower (d_Domain cfg)) ("." +:+ ToLower (d_Domain cfg)) = true) as ->.
  { apply HasSuffix_spec. eauto. }
  cbn [negb]. unfold Contains in Hn. destruct (cut "." n); [discriminate Hn|done].
Qed.

(** ** Properties *)

(** A query for a registered service is answered from the registry: when
    the first service of a lower-case, dot-free name has an IPv4 address, an
    A query for [name.domain.] is answered with exactly that address (TTL 60,
    authoritative), nothing is sent upstream, and the registry is unchanged. *)
Lemma registered_name_resolves SetReply Exchange cfg t sent r n row ip :
  lower n → Contains n "." = false →
  named t n = Some row → service_ip (rowToService row) = Some ip →
  mg_Question r = [mkQuestion (fqdn n (d_Domain cfg)) TypeA] →
  mg_Answer (SetReply r) = [] → mg_Rcode (SetReply r) = RcodeSuccess →
  ∃ m, handle SetReply Exchange cfg r (mkDns (mkDB t []) sent) = (Ok m, mkDns (mkDB t []) sent) ∧
    mg_Answer m = [RR_A (fqdn n (d_Domain cfg)) 60 ip] ∧
    mg_Authoritative m = true ∧ mg_Rcode m = RcodeSuccess.
Proof.
  intros Hl Hd Hrow Hip Hq Ha Hc.
  assert (E : local_answer cfg t (mkQuestion (fqdn n (d_Domain cfg)) TypeA)
              = Some (RR_A (fqdn n (d_Domain cfg)) 60 ip)).
  { unfold local_answer. rewrite private_label_fqdn by done. cbn. rewrite Hrow. cbn.
    rewrite Hip. done. }
  remember (mkQuestion (fqdn n (d_Domain cfg)) TypeA) as q eqn:Eq. clear Eq.
  rewrite handle_exact, Hq by done. cbn [omap list_omap]. rewrite E.
  eexists; split; [done|]. unfold own_reply. rewrite Hq. cbn.
  rewrite E. unfold unanswered. rewrite E, andb_false_r. cbn. auto.
Qed.

(** Names of the private domain leave the node: a request all of whose
    questions are A questions under the private domain, none of them answered
    by the registry, is sent verbatim to the upstream resolver, and the
    upstream's reply is what the client gets; the resolver's own NXDOMAIN is
    used only when the upstream fails. *)
Lemma unknown_private_name_forwarded SetReply Exchange cfg t sent r :
  mg_Question r ≠ [] →
  (∀ q, q ∈ mg_Question r → is_private cfg q = true ∧ local_answer cfg t q = None) →
  mg_Answer (SetReply r) = [] →
  let up := with_port (d_Upstream cfg) in
  ∃ m, handle SetReply Exchange cfg r (mkDns (mkDB t []) sent)
         = (Ok m, mkDns (mkDB t []) (sent ++ [(up, r)])) ∧
    match Exchange r up with
    | Ok reply => m = reply
    | Err _ => mg_Rcode m = RcodeNameError ∧ mg_Answer m = []
    end.
Proof.
  intros Hne Hq Ha up. rewrite handle_exact by done.
  assert (Hom : omap (local_answer cfg t) (mg_Question r) = []).
  { induction (mg_Question r) as [|q qs IH]; [done|]. cbn.
    destruct (Hq q ltac:(left)) as [_ ->].
    destruct qs as [|q' qs]; [done|]. apply IH; [done|]. intros x Hx. apply Hq. by right. }
  rewrite Hom. destruct (mg_Question r) as [|q qs] eqn:E; [done|].
  eexists; split; [reflexivity|]. fold up. destruct (Exchange r up); [done|].
  unfold own_reply. cbn [mg_Rcode mg_Answer]. rewrite E, Hom. split; [|done].
  cbn. unfold unanswered. destruct (Hq q ltac:(left)) as [-> ->]. done.
Qed.

(** Only services whose stored name is in lower case and has no dot can
    be resolved: every record of a reply the resolver gives without asking the
    upstream carries the IPv4 address of a registered service with such a
    name.  The resolver folds the question's case and keeps the first label,
    and the registry is then searched for exactly that text, so a service
    published as [Wiki] or [my.wiki] is never the answer. *)
Lemma answered_names_lower SetReply Exchange cfg t sent r m :
  mg_Answer (SetReply r) = [] →
  handle SetReply Exchange cfg r (mkDns (mkDB t []) sent) = (Ok m, mkDns (mkDB t []) sent) →
  ∀ rr, rr ∈ mg_Answer m →
  ∃ q row ip, q ∈ mg_Question r ∧ row ∈ services t ∧ rr = RR_A (q_Name q) 60 ip ∧
    service_ip (rowToService row) = Some ip ∧
    lower (sr_Name row) ∧ Contains (sr_Name row) "." = false.
Proof.
  intros Ha H rr Hrr. rewrite handle_exact in H by done.
  assert (m = own_reply SetReply cfg t r) as ->.
  { destruct (omap _ _), (mg_Question r); try congruence. cbv zeta in H.
    injection H as _ H. apply (f_equal length) in H. rewrite length_app in H. cbn in H. lia. }
  unfold own_reply in Hrr. cbn [mg_Answer] in Hrr.
  apply list_elem_of_omap in Hrr as (q & Hq & (n & row & ip & Hn & Hrow & Hip & ->)%local_answer_Some).
  apply private_label_lower in Hn as [Hl Hd].
  apply find_first_Some in Hrow as [Hin Hk]. apply String.eqb_eq in Hk as <-.
  exists q, row, ip. done.
Qed.

(** ** Witnesses *)

Definition wit_dns : DnsConfig := mkDnsConfig true "ere" "10.66.0.1:53" "1.1.1.1".
Definition wit_reply (r : Msg) : Msg := mkMsg (mg_Id r) (mg_Question r) false RcodeSuccess [].
Definition wit_exchange (r : Msg) (up : string) : result Msg :=
  if String.eqb up "1.1.1.1:53" then Ok (mkMsg (mg_Id r) (mg_Question r) false RcodeNameError [])
  else Err (EMsg "i/o timeout").
Definition wit_query (name : string) : Msg := mkMsg 7 [mkQuestion name TypeA] false 0 [].
Definition wit_wiki : ServiceRow := service_row wit_stored.

Lemma registered_name_resolves_witness :
  ∃ m, handle wit_reply wit_exchange wit_dns (wit_query "wiki.ere.") (mkDns (mkDB (tbl wit_svc_db) []) [])
       = (Ok m, mkDns (mkDB (tbl wit_svc_db) []) []) ∧
    mg_Answer m = [RR_A "wiki.ere." 60 [127; 0; 0; 1]] ∧
    mg_Authoritative m = true ∧ mg_Rcode m = RcodeSuccess.
Proof.
  apply (registered_name_resolves wit_reply wit_exchange wit_dns (tbl wit_svc_db) []
           (wit_query "wiki.ere.") "wiki" wit_wiki [127; 0; 0; 1]); vm_compute; reflexivity.
Defined.

Lemma unknown_private_name_forwarded_witness :
  let r := wit_query "payroll.ere." in
  ∃ m, handle wit_reply wit_exchange wit_dns r (mkDns (mkDB (tbl wit_svc_db) []) [])
         = (Ok m, mkDns (mkDB (tbl wit_svc_db) []) [("1.1.1.1:53", r)]) ∧
    match wit_exchange r "1.1.1.1:53" with
    | Ok reply => m = reply
    | Err _ => mg_Rcode m = RcodeNameError ∧ mg_Answer m = []
    end.
Proof.
  apply (unknown_private_name_forwarded wit_reply wit_exchange wit_dns (tbl wit_svc_db) []
           (wit_query "payroll.ere.")); [discriminate| |reflexivity].
  intros q Hq. apply list_elem_of_singleton in Hq as ->. split; vm_compute; reflexivity.
Defined.

Lemma answered_names_lower_witness :
  ∃ q row ip, q ∈ mg_Question (wit_query "Wiki.ERE.") ∧ row ∈ services (tbl wit_svc_db) ∧
    RR_A "Wiki.ERE." 60 [127; 0; 0; 1] = RR_A (q_Name q) 60 ip ∧
    service_ip (rowToService row) = Some ip ∧
    lower (sr_Name row) ∧ Contains (sr_Name row) "." = false.
Proof.
  apply (answered_names_lower wit_reply wit_exchange wit_dns (tbl wit_svc_db) [] (wit_query "Wiki.ERE.")
           (mkMsg 7 [mkQuestion "Wiki.ERE." TypeA] true RcodeSuccess [RR_A "Wiki.ERE." 60 [127; 0; 0; 1]]));
    [reflexivity|vm_compute; reflexivity|apply list_elem_of_singleton; reflexivity].
Defined.
