(* ===== verification/Auth.v ===== *)
(** * Gateway authentication: internal/gatewayauth and internal/api/middleware.go

    The check in front of the node's private API.  PASETO verification
    belongs to the pvx library: [Verify pk token] is the outcome of
    [pv4.Verify(token, pk).ScanClaims(&c)] and is an argument. *)
From S2P Require Import Prelude GoStrings ConfigData Config.

(** ** verify.go *)

Definition roleGatewayCall : string := "gateway_call".
Definition PublicKeySize : nat := 32.

Record Claims := mkClaims {
  cl_Role : string; cl_NodeID : string; cl_PeerID : string; cl_Purpose : string }.

(** The text of hex.DecodeString's own error, which names the offending byte,
    is abbreviated: nothing reads it. *)
Definition decode_key_err : error :=
  EWrap "decode gateway public key: " (EMsg "encoding/hex: invalid byte or length") EmptyString.

Section verify.
Context (Verify : list Z → string → result Claims).

Definition verifyGatewayCall (token gatewayPublicKeyHex : string) : result Claims :=
  match hex_decode (TrimPrefix gatewayPublicKeyHex "0x") with
  | None => Err decode_key_err
  | Some raw =>
      if negb (length raw =? PublicKeySize)%nat
      then Err (EMsg "gateway public key must be 32 bytes")
      else
        c ← Verify raw token;
        if negb (String.eqb (cl_Role c) roleGatewayCall)
        then Err (EMsg ("unexpected role " +:+ quote_q (cl_Role c)))
        else Ok c
  end.

Definition VerifyGatewayCall (token gatewayPublicKeyHex expectNodeID : string) : result Claims :=
  c ← verifyGatewayCall token gatewayPublicKeyHex;
  if negb (String.eqb expectNodeID EmptyString) && negb (String.eqb (cl_NodeID c) EmptyString)
     && negb (String.eqb (cl_NodeID c) expectNodeID)
  then Err (EMsg "node_id mismatch")
  else Ok c.

Definition validatePurposeClaims (c : Claims) (expectNodeID expectPurpose : string) : result unit :=
  let nodeID := if String.eqb (cl_NodeID c) EmptyString then cl_PeerID c else cl_NodeID c in
  if String.eqb expectNodeID EmptyString || negb (String.eqb nodeID expectNodeID)
  then Err (EMsg "node_id mismatch")
  else if String.eqb expectPurpose EmptyString || negb (String.eqb (cl_Purpose c) expectPurpose)
  then Err (EMsg "purpose mismatch")
  else Ok tt.

Definition VerifyGatewayCallPurpose (token gatewayPublicKeyHex expectNodeID expectPurpose : string)
  : result Claims :=
  c ← verifyGatewayCall token gatewayPublicKeyHex;
  _ ← validatePurposeClaims c expectNodeID expectPurpose;
  Ok c.

(** ** middleware.go *)

(** What the middleware does with a request: run the handler, or answer with
    a status and an error text. *)
Inductive AuthDecision :=
| Next
| AbortWithStatusJSON (status : Z) (msg : string).

Definition StatusUnauthorized : Z := 401.
Definition StatusServiceUnavailable : Z := 503.

(** What the middleware reads of the configuration when the routes are built,
    before any request; the node id it reads at every request. *)
Record AuthKeys := mkKeys { ak_nodeKey : string; ak_gwPub : string; ak_debug : bool }.

Definition capture (cfg : Config) : AuthKeys :=
  mkKeys (EffectiveNodeKey cfg) (c_GatewayPublicKey cfg) (String.eqb (c_RunType cfg) "debug").

(** [authorization] and [nodeKeyHeader] are the headers Authorization and
    X-Erebrus-Node-Key; [ConstantTimeCompare] is equality of the bytes. *)
Definition gatewayAuthForPurpose (k : AuthKeys) (nodeID purpose authorization nodeKeyHeader : string)
  : AuthDecision :=
  let nodeKey := ak_nodeKey k in
  let gwPub := ak_gwPub k in
  let debug := ak_debug k in
  if String.eqb nodeKey EmptyString then
    if debug && String.eqb purpose EmptyString then Next
    else AbortWithStatusJSON StatusServiceUnavailable "node API disabled: NODE_KEY not configured"
  else
    let bearer := TrimSpace (TrimPrefix authorization "Bearer ") in
    let headerKey := TrimSpace nodeKeyHeader in
    let verified :=
      negb (String.eqb gwPub EmptyString) && negb (String.eqb bearer EmptyString)
      && negb (String.eqb headerKey EmptyString)
      && is_ok (if String.eqb purpose EmptyString
                then VerifyGatewayCall bearer gwPub nodeID
                else VerifyGatewayCallPurpose bearer gwPub nodeID purpose)
      && String.eqb headerKey nodeKey in
    if verified then Next
    else if String.eqb purpose EmptyString && debug && negb (String.eqb bearer EmptyString)
            && String.eqb bearer nodeKey
    then Next
    else AbortWithStatusJSON StatusUnauthorized "unauthorized".

Definition gatewayAuth (k : AuthKeys) (nodeID : string) : string → string → AuthDecision :=
  gatewayAuthForPurpose k nodeID EmptyString.

(** ** Properties *)

(** The claims that a token carries for this node's gateway. *)
Definition gateway_claims (gwPub token : string) (c : Claims) : Prop :=
  ∃ raw, hex_decode (TrimPrefix gwPub "0x") = Some raw ∧
    length raw = PublicKeySize ∧ Verify raw token = Ok c ∧ cl_Role c = roleGatewayCall.

(** The node a purpose-bound token names. *)
Definition target (c : Claims) : string :=
  if String.eqb (cl_NodeID c) EmptyString then cl_PeerID c else cl_NodeID c.

(** Which tokens are for the node [nodeID].  A purpose-bound token names the
    node and the purpose.  A peer route also takes a token that names no node,
    and every token while the node has no id. *)
Definition claims_fit (nodeID purpose : string) (c : Claims) : Prop :=
  if String.eqb purpose EmptyString
  then nodeID = EmptyString ∨ cl_NodeID c = EmptyString ∨ cl_NodeID c = nodeID
  else nodeID ≠ EmptyString ∧ target c = nodeID ∧ cl_Purpose c = purpose.

Lemma verifyGatewayCall_iff gwPub token c :
  verifyGatewayCall token gwPub = Ok c ↔ gateway_claims gwPub token c.
Proof.
  unfold verifyGatewayCall, gateway_claims.
  destruct (hex_decode _) as [raw|]; [|split; [done|intros (? & [=] & _)]].
  destruct (Nat.eqb_spec (length raw) PublicKeySize) as [Hl|Hl]; cbn [negb].
  2:{ split; [done|]. intros (? & [= <-] & ? & _). done. }
  unfold mbind, result_bind. destruct (Verify raw token) as [c'|e] eqn:E.
  2:{ split; [done|]. intros (? & [= <-] & _ & ? & _). congruence. }
  destruct (String.eqb_spec (cl_Role c') roleGatewayCall) as [Hr|Hr]; cbn [negb]; split.
  - intros [= ->]. eauto.
  - intros (? & [= <-] & _ & ? & _). congruence.
  - done.
  - intros (? & [= <-] & _ & ? & ?). congruence.
Qed.

Lemma VerifyGatewayCall_iff gwPub nodeID token :
  is_ok (VerifyGatewayCall token gwPub nodeID) = true ↔
  ∃ c, gateway_claims gwPub token c ∧ claims_fit nodeID EmptyString c.
Proof.
  unfold VerifyGatewayCall, claims_fit. rewrite String.eqb_refl. setoid_rewrite <- verifyGatewayCall_iff.
  destruct (verifyGatewayCall _ _) as [c|e]; cbn; [|split; [done|intros (? & [=] & _)]].
  destruct (String.eqb_spec nodeID EmptyString); cbn.
  { split; [|done]. intros _. exists c. auto. }
  destruct (String.eqb_spec (cl_NodeID c) EmptyString); cbn.
  { split; [|done]. intros _. exists c. auto. }
  destruct (String.eqb_spec (cl_NodeID c) nodeID); cbn.
  { split; [|done]. intros _. exists c. auto. }
  split; [done|]. intros (? & [= <-] & [?|[?|?]]); done.
Qed.

Lemma VerifyGatewayCallPurpose_iff gwPub nodeID token purpose : purpose ≠ EmptyString →
  is_ok (VerifyGatewayCallPurpose token gwPub nodeID purpose) = true ↔
  ∃ c, gateway_claims gwPub token c ∧ claims_fit nodeID purpose c.
Proof.
  intros Hp. unfold VerifyGatewayCallPurpose, claims_fit, validatePurposeClaims.
  apply String.eqb_neq in Hp. rewrite Hp. setoid_rewrite <- verifyGatewayCall_iff.
  destruct (verifyGatewayCall _ _) as [c|e]; cbn; [|split; [done|intros (? & [=] & _)]].
  fold (target c).
  destruct (String.eqb_spec nodeID EmptyString); cbn.
  { split; [done|]. intros (? & [= <-] & ? & _). done. }
  destruct (String.eqb_spec (target c) nodeID); cbn.
  2:{ split; [done|]. intros (? & [= <-] & _ & ? & _). done. }
  destruct (String.eqb_spec (cl_Purpose c) purpose); cbn.
  - split; [|done]. intros _. exists c. auto.
  - split; [done|]. intros (? & [= <-] & _ & _ & ?). done.
Qed.
End verify.

(** The request carries the captured node key and a gateway token that fits. *)
Definition authenticated_by (Verify : list Z → string → result Claims) (k : AuthKeys)
    (nodeID purpose authorization nodeKeyHeader : string) : Prop :=
  let bearer := TrimSpace (TrimPrefix authorization "Bearer ") in
  ak_nodeKey k ≠ EmptyString ∧ TrimSpace nodeKeyHeader = ak_nodeKey k ∧
  ak_gwPub k ≠ EmptyString ∧ bearer ≠ EmptyString ∧
  ∃ c, gateway_claims Verify (ak_gwPub k) bearer c ∧ claims_fit nodeID purpose c.

(** The same with the keys of the configuration as it is. *)
Definition authenticated (Verify : list Z → string → result Claims) (cfg : Config) :
    string → string → string → Prop :=
  authenticated_by Verify (capture cfg) (c_NodeID cfg).

Lemma gatewayAuth_release_iff Verify k nodeID purpose authorization nodeKeyHeader :
  ak_debug k = false →
  gatewayAuthForPurpose Verify k nodeID purpose authorization nodeKeyHeader = Next ↔
  authenticated_by Verify k nodeID purpose authorization nodeKeyHeader.
Proof.
  intros Hrel. unfold gatewayAuthForPurpose, authenticated_by. set (bearer := TrimSpace (TrimPrefix _ _)).
  rewrite Hrel, andb_false_r. cbn [andb].
  destruct (String.eqb_spec (ak_nodeKey k) EmptyString) as [Hk|Hk].
  { split; [done|]. intros [? _]. done. }
  set (v := _ && String.eqb (TrimSpace nodeKeyHeader) (ak_nodeKey k)).
  transitivity (v = true); [destruct v; done|].
  unfold v. rewrite !andb_true_iff, !negb_true_iff, !String.eqb_neq, String.eqb_eq.
  destruct (String.eqb_spec purpose EmptyString) as [->|Hp].
  - rewrite VerifyGatewayCall_iff. intuition congruence.
  - rewrite VerifyGatewayCallPurpose_iff by done. intuition congruence.
Qed.

Lemma capture_release cfg : c_RunType cfg ≠ "debug" → ak_debug (capture cfg) = false.
Proof. apply String.eqb_neq. Qed.

(** C8. Outside debug mode the private API fails closed: a request reaches
    its handler exactly when a node key was configured when the routes were
    built, the X-Erebrus-Node-Key header is that key, and the Authorization
    header carries a token that the gateway key captured then (32 bytes)
    verifies with role [gateway_call] and whose claims fit: for a route with a
    purpose, this very purpose and this very node; for the peer routes, no
    other node, so that a token without a node id is accepted there, and every
    node's token is while this node has no id.  Every other request is answered
    401, or 503 when no node key was configured. *)
Theorem gatewayAuth_fails_closed Verify k nodeID purpose authorization nodeKeyHeader :
  ak_debug k = false →
  let d := gatewayAuthForPurpose Verify k nodeID purpose authorization nodeKeyHeader in
  (d = Next ↔ authenticated_by Verify k nodeID purpose authorization nodeKeyHeader) ∧
  (d ≠ Next →
     d = AbortWithStatusJSON (if String.eqb (ak_nodeKey k) EmptyString then 503 else 401)
           (if String.eqb (ak_nodeKey k) EmptyString
            then "node API disabled: NODE_KEY not configured" else "unauthorized")).
Proof.
  intros Hrel d. split; [apply gatewayAuth_release_iff; done|]. subst d.
  unfold gatewayAuthForPurpose. rewrite Hrel, andb_false_r.
  destruct (String.eqb (ak_nodeKey k) EmptyString); [done|].
  destruct (_ && String.eqb (TrimSpace nodeKeyHeader) (ak_nodeKey k)); done.
Qed.

(** The tokens of the peer routes are not bound to the node: one that names no
    node opens the peer routes of every node whose key the caller has. *)
Lemma unscoped_token_accepted Verify k nodeID token c :
  ak_debug k = false → ak_nodeKey k ≠ EmptyString → TrimSpace (ak_nodeKey k) = ak_nodeKey k →
  ak_gwPub k ≠ EmptyString → TrimSpace (TrimPrefix token "Bearer ") ≠ EmptyString →
  gateway_claims Verify (ak_gwPub k) (TrimSpace (TrimPrefix token "Bearer ")) c → cl_NodeID c = EmptyString →
  gatewayAuth Verify k nodeID token (ak_nodeKey k) = Next.
Proof.
  intros Hd Hk Ht Hg Hb Hc Hn. apply gatewayAuth_release_iff; [done|].
  split; [done|]. split; [done|]. split; [done|]. split; [done|]. exists c. split; [done|].
  right. by left.
Qed.

(** ** Witness *)

Definition wit_key_hex : string := "0x0102030405060708090a0b0c0d0e0f101112131415161718191a1b1c1d1e1f20".
Definition wit_auth_cfg : Config := Load (mkEnv (list_to_map
  [("NODE_KEY", "k-secret"); ("GATEWAY_PUBLIC_KEY", wit_key_hex); ("NODE_ID", "node-1")]) None).
Definition wit_Verify (pk : list Z) (token : string) : result Claims :=
  if String.eqb token "tok" then Ok (mkClaims "gateway_call" "node-1" EmptyString "drop_read")
  else Err (EMsg "invalid signature").

Lemma gatewayAuth_fails_closed_witness :
  let d := gatewayAuthForPurpose wit_Verify (capture wit_auth_cfg) "node-1" "drop_read" "Bearer tok" " k-secret" in
  d = Next ∧
  (d = Next ↔ authenticated_by wit_Verify (capture wit_auth_cfg) "node-1" "drop_read" "Bearer tok" " k-secret").
Proof.
  split; [vm_compute; reflexivity|].
  apply (gatewayAuth_fails_closed wit_Verify (capture wit_auth_cfg) "node-1" "drop_read" "Bearer tok" " k-secret").
  vm_compute. reflexivity.
Defined.
