(* ===== verification/DropClient.v ===== *)
(** * The Kubo adapter: internal/drop/client.go

    Streaming uploads and reads with byte limits, and the RPC calls around
    them.  Kubo itself is outside the program: [Do] answers an HTTP request,
    and [cid_Decode] is go-cid's [cid.Decode].  A body is the sequence of what
    its reads return; a JSON response body is given as the values it parses
    to. *)
From S2P Require Import Prelude GoStrings GoUrl GoDecode Sha256.

(** ** Readers *)

(** What successive reads of a body return: bytes, with an error or [EOF]
    alongside them.  A read into a short buffer leaves the rest of a chunk for
    the next one; past the end every read returns [EOF]. *)
Definition body : Type := list (list Z * option error).

Definition read_body (len : Z) (b : body) : (list Z * option error) * body :=
  match b with
  | [] => (([], Some (EVar EOF)), [])
  | (bs, e) :: b =>
      if Z.of_nat (length bs) <=? len then ((bs, e), b)
      else ((take (Z.to_nat len) bs, None), (drop (Z.to_nat len) bs, e) :: b)
  end.

Record boundedReader := mkBounded { br_r : body; br_max : Z; br_n : Z }.

Definition bounded_Read (len : Z) (r : boundedReader) : (list Z * option error) * boundedReader :=
  if br_n r =? br_max r then
    let '((bs, e), b) := read_body 1 (br_r r) in
    let r' := mkBounded b (br_max r) (br_n r) in
    if (0 <? length bs)%nat then (([], Some (EVar ErrByteLimit)), r') else (([], e), r')
  else
    let len := if br_max r - br_n r <? len then br_max r - br_n r else len in
    let '((bs, e), b) := read_body len (br_r r) in
    ((bs, e), mkBounded b (br_max r) (br_n r + Z.of_nat (length bs))).

Record limitReadCloser := mkLimit { lr_r : body; lr_remaining : Z }.

Definition limit_Read (len : Z) (r : limitReadCloser) : (list Z * option error) * limitReadCloser :=
  if lr_remaining r =? 0 then
    let '((bs, e), b) := read_body 1 (lr_r r) in
    let r' := mkLimit b (lr_remaining r) in
    if (0 <? length bs)%nat then (([], Some (EVar ErrByteLimit)), r') else (([], e), r')
  else
    let len := if lr_remaining r <? len then lr_remaining r else len in
    let '((bs, e), b) := read_body len (lr_r r) in
    ((bs, e), mkLimit b (lr_remaining r - Z.of_nat (length bs))).

(** [io.Copy]: reads of 32 KiB until an error; [EOF] is success.  The writer
    takes everything.  [None]: the fuel ran out. *)
Definition copyBuffer : Z := 32768.

Fixpoint Copy {R} (read : Z → R → (list Z * option error) * R) (fuel : nat) (r : R) (written : list Z)
  : option (list Z * option error * R) :=
  match fuel with
  | O => None
  | S fuel =>
      let '((bs, e), r) := read copyBuffer r in
      let written := written ++ bs in
      match e with
      | None => Copy read fuel r written
      | Some e => Some (written, if decide (e = EVar EOF) then None else Some e, r)
      end
  end.

(** Enough fuel for a body: every read takes a byte or ends a chunk. *)
Fixpoint body_fuel (b : body) : nat :=
  match b with
  | [] => 1
  | (bs, _) :: b => S (length bs + body_fuel b)
  end.

(** ** client.go: helpers *)

Definition maxRPCResponseBytes : Z := 2 ^ 20.

(** A response body: its length, an error while reading it, the JSON values
    its text parses to, and whether other text follows them. *)
Record RespBody := mkBody {
  b_len : Z; b_err : option error; b_values : list json; b_bad : option error }.

Record Response := mkResp { rs_StatusCode : Z; rs_ContentLength : Z; rs_Body : RespBody;
  (** the object's bytes, for [cat] *)
  rs_stream : body;
  (** the server read the request body to its end before it answered *)
  rs_drained : bool }.

Record Request := mkReq {
  rq_URL : string; rq_ContentType : string;
  (** the request body: what was written and the error it was closed with *)
  rq_stream : option (list Z * option error) }.

Definition json_err : error := EMsg "invalid character in JSON text".

Definition readBounded (b : RespBody) : result (list json * option error) :=
  match b_err b with
  | Some e => Err e
  | None =>
      if maxRPCResponseBytes <? b_len b
      then Err (EMsg ("Kubo RPC response exceeds " +:+ Itoa maxRPCResponseBytes +:+ " bytes"))
      else Ok (b_values b, b_bad b)
  end.

(** [json.Unmarshal] of a whole body: one value and nothing else. *)
Definition decodeBounded (b : RespBody) : result json :=
  '(values, bad) ← readBounded b;
  match values, bad with
  | [v], None => Ok v
  | _, Some e => Err e
  | _, None => Err json_err
  end.

Definition is_pin_char (c : Ascii.ascii) : bool :=
  is_lower c || is_upper c || is_digit c || (code c =? 45) || (code c =? 95) || (code c =? 46).

(** The loop of sanitizePinName with [n] bytes written so far. *)
Fixpoint pin_chars (n : Z) (s : string) : string :=
  match s with
  | EmptyString => EmptyString
  | String c s =>
      let keep := is_pin_char c in
      let n := if keep then n + 1 else n in
      let rest := if n =? 128 then EmptyString else pin_chars n s in
      if keep then String c rest else rest
  end.

Definition sanitizePinName (value : string) : string := pin_chars 0 (TrimSpace value).

Definition isNotPinnedError (err : error) : bool :=
  let message := ToLower (error_text err) in
  Contains message "not pinned" || Contains message "not pinned or pinned indirectly".

Record AddRequest := mkAdd {
  a_UploadID : string; a_Body : option body; a_DeclaredSize : Z; a_MaxBytes : Z; a_SHA256 : string }.
Record AddResult := mkAddResult { r_CID : string; r_Size : Z }.
Record RepoStat := mkRepoStat { rp_RepoSize : Z; rp_StorageMax : Z; rp_NumObjects : Z }.

(** ** client.go: calls *)

Definition closed_pipe : error := EMsg "io: read/write on closed pipe".

(** The upload goroutine: the bytes it wrote into the form's file part and the
    error it closed the pipe with. *)
Definition upload_stream (in_ : AddRequest) (b : body) : list Z * option error :=
  match Copy bounded_Read (body_fuel b) (mkBounded b (a_DeclaredSize in_) 0) [] with
  | None => ([], Some (EMsg "not reached: the fuel covers the body"))
  | Some (written, err, r) =>
      (written,
       match err with
       | Some e => Some e
       | None =>
           if negb (br_n r =? a_DeclaredSize in_) then Some (EVar ErrSizeMismatch)
           else if negb (String.eqb (a_SHA256 in_) EmptyString)
                   && negb (EqualFold (hex_encode (Sum256 written)) (TrimSpace (a_SHA256 in_)))
           then Some (EVar ErrHashMismatch)
           else None
       end)
  end.

Section client.
Context {srt : Sorting} (baseURL : string) (StatusText : Z → string).
Context (Do : Request → result Response) (cid_Decode : string → result unit).

Definition postAllowStatus (path : string) (query : list (string * string))
    (stream : option (list Z * option error)) (contentType : string) : result Response :=
  let endpoint := TrimRight_slash baseURL +:+ path in
  let endpoint := match query with [] => endpoint | _ => endpoint +:+ "?" +:+ Encode query end in
  match Do (mkReq endpoint contentType stream) with
  | Err e => Err (EWrap ("Kubo RPC " +:+ path +:+ ": ") e EmptyString)
  | Ok resp => Ok resp
  end.

Definition rpcStatusError (resp : Response) : error :=
  match readBounded (rs_Body resp) with
  | Err _ => EMsg ("Kubo RPC status " +:+ Itoa (rs_StatusCode resp))
  | Ok (values, bad) =>
      let msg := match values, bad with
                 | [v], None => match field_string "Message" v with Ok m => m | Err _ => EmptyString end
                 | _, _ => EmptyString
                 end in
      let msg := if String.eqb msg EmptyString then StatusText (rs_StatusCode resp) else msg in
      EMsg ("Kubo RPC status " +:+ Itoa (rs_StatusCode resp) +:+ ": " +:+ msg)
  end.

Definition post (path : string) (query : list (string * string))
    (stream : option (list Z * option error)) (contentType : string) : result Response :=
  resp ← postAllowStatus path query stream contentType;
  if negb (rs_StatusCode resp =? 200) then Err (rpcStatusError resp) else Ok resp.

Definition wrap {A} (pre : string) (r : result A) : result A :=
  match r with Ok a => Ok a | Err e => Err (EWrap pre e EmptyString) end.

Definition Version : result string :=
  resp ← post "/api/v0/version" [] None EmptyString;
  v ← wrap "decode Kubo version: " (j ← decodeBounded (rs_Body resp); field_string "Version" j);
  if String.eqb v EmptyString then Err (EMsg "Kubo version response is empty") else Ok v.

Definition RepoStats : result RepoStat :=
  resp ← post "/api/v0/repo/stat" [] None EmptyString;
  wrap "decode Kubo repo stat: "
    (j ← decodeBounded (rs_Body resp);
     size ← field_int "RepoSize" j; max ← field_int "StorageMax" j; n ← field_int "NumObjects" j;
     Ok (mkRepoStat size max n)).

Definition validateCID (value : string) : result unit :=
  wrap "invalid CID: " (cid_Decode (TrimSpace value)).

(** The decoder loop over the add response: the last item with a hash. *)
Fixpoint add_items (values : list json) (bad : option error) (final : string) : result string :=
  match values with
  | [] => match bad with
          | Some e => Err (EWrap "decode Kubo add response: " e EmptyString)
          | None => Ok final
          end
  | v :: values =>
      match (h ← field_string "Hash" v; _ ← field_string "Size" v; Ok h) with
      | Err e => Err (EWrap "decode Kubo add response: " e EmptyString)
      | Ok h => add_items values bad (if String.eqb h EmptyString then final else h)
      end
  end.

(** [boundary] is the multipart writer's random boundary.  A server that
    answers before it has read the whole form closes the pipe, which ends the
    upload goroutine with an error of its own. *)
Definition AddAndPin (boundary : string) (in_ : AddRequest) : result AddResult :=
  match a_Body in_ with
  | None => Err (EMsg "upload body is required")
  | Some b =>
      if (a_DeclaredSize in_ <? 0) || (a_MaxBytes in_ <? 0) || (a_MaxBytes in_ <? a_DeclaredSize in_)
      then Err (EVar ErrByteLimit)
      else
        let pinName := sanitizePinName (a_UploadID in_) in
        if String.eqb pinName EmptyString then Err (EMsg "upload ID is required")
        else
          let '(written, err) := upload_stream in_ b in
          let query := [("cid-version", "1"); ("pin", "true"); ("pin-name", pinName);
                        ("progress", "false"); ("raw-leaves", "true")] in
          resp ← post "/api/v0/add" query (Some (written, err))
                   ("multipart/form-data; boundary=" +:+ boundary);
          let writerErr := match err with
                           | Some e => Some e
                           | None => if rs_drained resp then None else Some closed_pipe
                           end in
          match writerErr with
          | Some e => Err e
          | None =>
              '(values, bad) ← wrap "read Kubo add response: " (readBounded (rs_Body resp));
              hash ← add_items values bad EmptyString;
              if String.eqb hash EmptyString
              then Err (EMsg "Kubo add response did not include a CID")
              else _ ← wrap "Kubo returned invalid CID: " (validateCID hash);
                   Ok (mkAddResult hash (a_DeclaredSize in_))
          end
  end.

Definition Cat (value : string) (maxBytes : Z) : result limitReadCloser :=
  _ ← validateCID value;
  resp ← post "/api/v0/cat" [("arg", value)] None EmptyString;
  if (maxBytes <? rs_ContentLength resp) && (0 <=? rs_ContentLength resp)
  then Err (EVar ErrByteLimit)
  else Ok (mkLimit (rs_stream resp) maxBytes).

Definition PinStatus (value : string) : result bool :=
  _ ← validateCID value;
  resp ← postAllowStatus "/api/v0/pin/ls" [("arg", value); ("type", "recursive")] None EmptyString;
  if negb (rs_StatusCode resp =? 200) then
    let err := rpcStatusError resp in
    if (rs_StatusCode resp =? 404) || ((rs_StatusCode resp =? 500) && isNotPinnedError err)
    then Ok false else Err err
  else
    j ← wrap "decode Kubo pin status: " (decodeBounded (rs_Body resp));
    match j with
    | JObj _ => match jget "Keys" j with
                | None | Some JNull => Ok false
                | Some (JObj keys) => Ok (existsb (λ kv, String.eqb kv.1 value) keys)
                | Some _ => Err (EWrap "decode Kubo pin status: " (type_err "Keys") EmptyString)
                end
    | JNull => Ok false
    | _ => Err (EWrap "decode Kubo pin status: " (type_err "Keys") EmptyString)
    end.

Definition Unpin (value : string) : result unit :=
  _ ← validateCID value;
  resp ← postAllowStatus "/api/v0/pin/rm" [("arg", value); ("recursive", "true")] None EmptyString;
  if (rs_StatusCode resp =? 200) || (rs_StatusCode resp =? 404) then Ok tt
  else
    let err := rpcStatusError resp in
    if (rs_StatusCode resp =? 500) && isNotPinnedError err then Ok tt else Err err.
End client.

(** ** What a bounded copy transfers *)

(** The bytes of a body up to its first error, and that error unless it is
    the end of the body. *)
Fixpoint content (b : body) : list Z * option error :=
  match b with
  | [] => ([], None)
  | (bs, None) :: b => (bs ++ (content b).1, (content b).2)
  | (bs, Some e) :: _ => (bs, if decide (e = EVar EOF) then None else Some e)
  end.

(** [rem] bytes of it: a longer body ends in ErrByteLimit. *)
Definition limited (rem : Z) (c : list Z * option error) : list Z * option error :=
  if rem <? Z.of_nat (length c.1) then (take (Z.to_nat rem) c.1, Some (EVar ErrByteLimit)) else c.

Lemma content_split k bs e b :
  content ((bs, e) :: b) = (take k bs ++ (content ((drop k bs, e) :: b)).1,
                            (content ((drop k bs, e) :: b)).2).
Proof. destruct e; cbn; rewrite ?app_assoc, take_drop; done. Qed.

Lemma limited_app rem bs c : Z.of_nat (length bs) <= rem →
  limited rem (bs ++ c.1, c.2) =
  (bs ++ (limited (rem - Z.of_nat (length bs)) c).1, (limited (rem - Z.of_nat (length bs)) c).2).
Proof.
  intros H. unfold limited. cbn [fst snd]. rewrite length_app, Nat2Z.inj_add.
  destruct (Z.ltb_spec (rem - Z.of_nat (length bs)) (Z.of_nat (length c.1))) as [Hl|Hl];
    destruct (Z.ltb_spec rem (Z.of_nat (length bs) + Z.of_nat (length c.1))); try lia.
  - cbn. rewrite take_app_ge by lia. repeat f_equal. lia.
  - done.
Qed.

Lemma limited_0_cons x d e : limited 0 (x :: d, e) = ([], Some (EVar ErrByteLimit)).
Proof.
  unfold limited. cbn [fst length].
  destruct (Z.ltb_spec 0 (Z.of_nat (S (length d)))); [done|lia].
Qed.

(** One read of a limited body: it either ends the copy with the limited
    content, or hands over bytes and leaves the rest. *)
Lemma limit_Read_step b rem bs e l' : 0 <= rem →
  limit_Read copyBuffer (mkLimit b rem) = ((bs, e), l') →
  lr_remaining l' = rem - Z.of_nat (length bs) ∧ 0 <= lr_remaining l' ∧
  match e with
  | Some e => limited rem (content b) = (bs, if decide (e = EVar EOF) then None else Some e)
  | None => limited rem (content b)
              = (bs ++ (limited (lr_remaining l') (content (lr_r l'))).1,
                 (limited (lr_remaining l') (content (lr_r l'))).2) ∧
            (body_fuel (lr_r l') < body_fuel b)%nat
  end.
Proof.
  intros Hrem. unfold limit_Read. cbn [lr_remaining lr_r].
  destruct (Z.eqb_spec rem 0) as [->|Hne].
  - destruct b as [|[cs ce] b]; cbn [read_body].
    + intros [= <- <- <-]. cbn. auto.
    + destruct cs as [|x cs].
      * cbn. intros [= <- <- <-]. cbn. split; [done|]. split; [done|].
        destruct ce; [done|]. split; [|lia].
        rewrite <- surjective_pairing. apply surjective_pairing.
      * intros H.
        assert (Hc : ∃ d e', content ((x :: cs, ce) :: b) = (x :: d, e')) by (destruct ce; cbn; eauto).
        destruct Hc as (d & e' & ->). rewrite limited_0_cons.
        destruct (Z.of_nat (length (x :: cs)) <=? 1); cbn in H; injection H as <- <- <-; cbn; auto.
  - set (len := if rem <? copyBuffer then rem else copyBuffer).
    assert (Hlen : 1 <= len <= rem) by (unfold len, copyBuffer; destruct (Z.ltb_spec rem 32768); lia).
    destruct b as [|[cs ce] b]; cbn [read_body].
    + intros [= <- <- <-]. cbn [lr_remaining length]. split; [lia|]. split; [lia|].
      unfold limited. cbn [content fst length]. destruct (Z.ltb_spec rem (Z.of_nat 0)); [lia|done].
    + destruct (Z.leb_spec (Z.of_nat (length cs)) len) as [Hl|Hl]; intros [= <- <- <-];
        cbn [lr_remaining lr_r].
      * split; [done|]. split; [lia|]. destruct ce as [e|].
        -- cbn [content]. unfold limited. cbn [fst].
           destruct (Z.ltb_spec rem (Z.of_nat (length cs))); [lia|done].
        -- cbn [content body_fuel]. rewrite limited_app by lia. split; [done|lia].
      * rewrite length_take, Nat.min_l by lia. split; [done|]. split; [lia|].
        rewrite (content_split (Z.to_nat len)), limited_app by (rewrite length_take; lia).
        rewrite length_take, Nat.min_l by lia. split; [done|].
        cbn [body_fuel]. rewrite length_drop. lia.
Qed.

(** A copy through any reader that behaves as a limited body. *)
Lemma Copy_limited {R} (read : Z → R → (list Z * option error) * R) (view : R → limitReadCloser) :
  (∀ len r, (limit_Read len (view r)) = ((read len r).1, view (read len r).2)) →
  ∀ fuel r acc, (body_fuel (lr_r (view r)) <= fuel)%nat → 0 <= lr_remaining (view r) →
  let c := limited (lr_remaining (view r)) (content (lr_r (view r))) in
  ∃ r', Copy read fuel r acc = Some (acc ++ c.1, c.2, r') ∧
    lr_remaining (view r') = lr_remaining (view r) - Z.of_nat (length c.1).
Proof.
  intros Hread. induction fuel as [|fuel IH]; intros r acc Hf Hr.
  { destruct (lr_r (view r)) as [|[]]; cbn in Hf; lia. }
  specialize (Hread copyBuffer r). cbn [Copy].
  destruct (read copyBuffer r) as [[bs e] r1]. cbn [fst snd] in Hread.
  destruct (view r) as [b rem]. cbn [lr_r lr_remaining] in *.
  destruct (limit_Read_step _ _ _ _ _ Hr Hread) as (Hrem & Hpos & Hstep).
  destruct e as [e|].
  - rewrite Hstep. cbn. eauto.
  - destruct Hstep as [-> Hlt]. destruct (IH r1 (acc ++ bs)) as (r' & -> & Hr'); [lia|done|].
    exists r'. cbn [fst snd]. rewrite <- app_assoc. split; [done|].
    rewrite Hr', Hrem, length_app. lia.
Qed.

Definition bounded_view (r : boundedReader) : limitReadCloser := mkLimit (br_r r) (br_max r - br_n r).

Lemma bounded_Read_view len r :
  limit_Read len (bounded_view r) = ((bounded_Read len r).1, bounded_view (bounded_Read len r).2).
Proof.
  unfold limit_Read, bounded_Read, bounded_view. cbn [lr_r lr_remaining].
  replace (br_max r - br_n r =? 0) with (br_n r =? br_max r) by lia.
  destruct (br_n r =? br_max r).
  - destruct (read_body 1 (br_r r)) as [[bs e] b]. destruct (0 <? length bs)%nat; done.
  - destruct (read_body _ (br_r r)) as [[bs e] b]. cbn. do 2 f_equal. lia.
Qed.

Lemma Copy_keeps {R} (read : Z → R → (list Z * option error) * R) (P : R → Prop) :
  (∀ len r, P r → P (read len r).2) →
  ∀ fuel r acc w e r', P r → Copy read fuel r acc = Some (w, e, r') → P r'.
Proof.
  intros Hread. induction fuel as [|fuel IH]; intros r acc w e r' Hr; [done|]. cbn.
  specialize (Hread copyBuffer r Hr). destruct (read copyBuffer r) as [[bs [e1|]] r1].
  - intros [= <- <- <-]. done.
  - apply IH. done.
Qed.

Lemma bounded_Read_max len r : br_max (bounded_Read len r).2 = br_max r.
Proof.
  unfold bounded_Read. destruct (br_n r =? br_max r).
  - destruct (read_body 1 (br_r r)) as [[bs e] b]. destruct (0 <? length bs)%nat; done.
  - destruct (read_body _ (br_r r)) as [[bs e] b]. done.
Qed.

(** The upload goroutine, for every way the body is cut into reads. *)
Lemma upload_stream_spec in_ b :
  0 <= a_DeclaredSize in_ →
  let c := limited (a_DeclaredSize in_) (content b) in
  upload_stream in_ b =
  (c.1, match c.2 with
        | Some e => Some e
        | None =>
            if negb (Z.of_nat (length c.1) =? a_DeclaredSize in_) then Some (EVar ErrSizeMismatch)
            else if negb (String.eqb (a_SHA256 in_) EmptyString)
                    && negb (EqualFold (hex_encode (Sum256 c.1)) (TrimSpace (a_SHA256 in_)))
            then Some (EVar ErrHashMismatch)
            else None
        end).
Proof.
  intros Hd c. unfold upload_stream.
  destruct (Copy_limited bounded_Read bounded_view bounded_Read_view (body_fuel b)
              (mkBounded b (a_DeclaredSize in_) 0) []) as (r' & E & Hr); [done|cbn; lia|].
  cbn [bounded_view br_r br_max br_n lr_r lr_remaining] in E, Hr.
  rewrite Z.sub_0_r in E, Hr. fold c in E, Hr. rewrite E. cbn [app].
  destruct c.2; [done|].
  assert (br_max r' = a_DeclaredSize in_) as Hm.
  { refine (Copy_keeps bounded_Read (λ r, br_max r = a_DeclaredSize in_) _ _ _ _ _ _ _ _ E); [|done].
    intros len r Hr'. rewrite bounded_Read_max. done. }
  replace (br_n r' =? a_DeclaredSize in_) with (Z.of_nat (length c.1) =? a_DeclaredSize in_) by lia.
  done.
Qed.

(** C40. Every stream ends: a copy through the upload's or the download's
    limiting reader finishes within one read per byte and chunk of the body,
    however the body is cut into reads and wherever it fails; both readers hand
    over the same bytes and end alike, with the body's own end or error when it
    fits the limit and with ErrByteLimit after exactly the limit when it is
    longer. *)
Theorem copies_terminate b limit :
  0 <= limit →
  let c := limited limit (content b) in
  (∃ r, Copy bounded_Read (body_fuel b) (mkBounded b limit 0) [] = Some (c.1, c.2, r) ∧
        br_max r - br_n r = limit - Z.of_nat (length c.1)) ∧
  (∃ r, Copy limit_Read (body_fuel b) (mkLimit b limit) [] = Some (c.1, c.2, r) ∧
        lr_remaining r = limit - Z.of_nat (length c.1)).
Proof.
  intros Hl c. split.
  - destruct (Copy_limited bounded_Read bounded_view bounded_Read_view (body_fuel b) (mkBounded b limit 0) [])
      as (r & E & Hr); [done|cbn; lia|].
    cbn [bounded_view br_r br_max br_n lr_r lr_remaining] in E, Hr. rewrite Z.sub_0_r in E, Hr.
    exists r. split; [exact E|exact Hr].
  - destruct (Copy_limited limit_Read (λ r, r) (λ len r, surjective_pairing _) (body_fuel b) (mkLimit b limit) [])
      as (r & E & Hr); [done|done|]. exists r. split; [exact E|exact Hr].
Qed.

(** Three bytes through a limit of two. *)
Lemma copies_terminate_witness :
  ∃ r, Copy limit_Read (body_fuel [([1], None); ([2; 3], None)]) (mkLimit [([1], None); ([2; 3], None)] 2) []
    = Some ([1; 2], Some (EVar ErrByteLimit), r).
Proof.
  destruct (copies_terminate [([1], None); ([2; 3], None)] 2) as [_ (r & E & _)]; [lia|].
  exists r. exact E.
Defined.

(** ** A successful upload *)

Definition digest_ok (sha : string) (d : list Z) : Prop :=
  sha = EmptyString ∨ EqualFold (hex_encode (Sum256 d)) (TrimSpace sha) = true.

(** [d] is the whole body, in the declared size and with the declared digest. *)
Definition verified (in_ : AddRequest) (d : list Z) : Prop :=
  (∃ b, a_Body in_ = Some b ∧ content b = (d, None)) ∧
  Z.of_nat (length d) = a_DeclaredSize in_ ∧ a_DeclaredSize in_ <= a_MaxBytes in_ ∧
  digest_ok (a_SHA256 in_) d.

Lemma upload_stream_ok in_ b d :
  0 <= a_DeclaredSize in_ → upload_stream in_ b = (d, None) →
  content b = (d, None) ∧ Z.of_nat (length d) = a_DeclaredSize in_ ∧ digest_ok (a_SHA256 in_) d.
Proof.
  intros Hd. rewrite upload_stream_spec by done. cbv zeta.
  destruct (limited _ _) as [w e] eqn:E. cbn [fst snd]. destruct e as [e|]; [done|].
  unfold limited in E. destruct (Z.ltb_spec (a_DeclaredSize in_) (Z.of_nat (length (content b).1)));
    [done|].
  destruct (Z.eqb_spec (Z.of_nat (length w)) (a_DeclaredSize in_)) as [Hl|]; [|done]. cbn [negb].
  destruct (negb _ && negb _) eqn:Eh; intros [= <-]. split; [done|]. split; [done|].
  unfold digest_ok. apply andb_false_iff in Eh. rewrite !negb_false_iff, String.eqb_eq in Eh.
  exact Eh.
Qed.

Lemma bind_result_ok {A B} (r : result A) (f : A → result B) b :
  (r ≫= f) = Ok b → ∃ a, r = Ok a ∧ f a = Ok b.
Proof. destruct r; [eauto|done]. Qed.

Section client_lemmas.
Context {srt : Sorting} (baseURL : string) (StatusText : Z → string).
Context (Do : Request → result Response) (cid_Decode : string → result unit).

Lemma AddAndPin_verified boundary in_ res :
  AddAndPin baseURL StatusText Do cid_Decode boundary in_ = Ok res →
  ∃ d url ct resp, verified in_ d ∧
    Do (mkReq url ct (Some (d, None))) = Ok resp ∧ rs_StatusCode resp = 200 ∧
    rs_drained resp = true ∧ r_Size res = a_DeclaredSize in_ ∧
    is_ok (cid_Decode (TrimSpace (r_CID res))) = true.
Proof.
  unfold AddAndPin. destruct (a_Body in_) as [b|] eqn:Eb; [|done].
  destruct (_ || _ || _) eqn:Eg; [done|].
  apply orb_false_iff in Eg as [Eg Hm]. apply orb_false_iff in Eg as [Hd _].
  destruct (String.eqb _ _); [done|]. destruct (upload_stream in_ b) as [d err] eqn:Es.
  intros (resp & Hp & H)%bind_result_ok.
  destruct err as [e|]; [done|]. destruct (rs_drained resp) eqn:Edr; [|done].
  apply bind_result_ok in H as ([values bad] & _ & H).
  apply bind_result_ok in H as (hash & _ & H).
  destruct (String.eqb hash EmptyString); [done|].
  apply bind_result_ok in H as ([] & Hcid & [= <-]).
  apply bind_result_ok in Hp as (resp' & Hp & H200).
  destruct (Z.eqb_spec (rs_StatusCode resp') 200) as [H2|]; [|done]. cbn in H200. injection H200 as ->.
  unfold postAllowStatus in Hp. destruct (Do _) as [resp'|] eqn:Edo; [|done]. injection Hp as ->.
  apply upload_stream_ok in Es as (Hc & Hl & Hh); [|lia].
  exists d. do 2 eexists. exists resp. split; [|split; [exact Edo|]].
  - split; [eauto|]. split; [done|]. split; [lia|done].
  - split; [done|]. split; [done|]. split; [done|]. cbn [r_CID].
    unfold validateCID in Hcid. destruct (cid_Decode _); done.
Qed.
End client_lemmas.

Example pin_name_example : sanitizePinName " a/b c-1.txt " = "abc-1.txt".
Proof. reflexivity. Qed.
