(* ===== verification/DropService.v ===== *)
(** * The Drop runtime: internal/drop/service.go and internal/drop/identity.go

    The health snapshot, the guards in front of the Kubo adapter of
    DropClient.v and the identity handoff to the Kubo sidecar.  The mutex
    makes each access to the snapshot atomic, so operations are steps on one
    state; Kubo's answers may differ from step to step.  Deriving the identity
    and parsing Kubo's own config file are arguments. *)
From S2P Require Import Prelude GoStrings GoUrl GoDecode ConfigData Config DropClient.

(** ** identity.go: files of the Kubo repository, by name *)

Definition identityPeerIDFile : string := ".erebrus-peer-id".
Definition identityPrivateKeyFile : string := ".erebrus-private-key".
Definition identityReadyFile : string := ".erebrus-identity-ready".
Definition identityConflictMarker : string := ".erebrus-identity-conflict".

(** The named files, the failures to come, and the values of which a temporary
    file, with all or part of the value, is left behind. *)
Record Repo := mkRepo {
  rf_files : gmap string string; rf_faults : list (option error); rf_left : list string }.

Definition repo_call : M Repo unit := fun s =>
  match rf_faults s with
  | Some e :: fs => (Err e, mkRepo (rf_files s) fs (rf_left s))
  | None :: fs => (Ok tt, mkRepo (rf_files s) fs (rf_left s))
  | [] => (Ok tt, s)
  end.

Definition wrapped (pre : string) : M Repo unit :=
  r ← try repo_call;
  match r with Ok _ => mret tt | Err e => fail (EWrap pre e EmptyString) end.

(** The value is written to a temporary file, which is renamed over the target,
    so a failed write leaves the target as it was.  The deferred os.Remove
    finds nothing after the rename; before it, the temporary file stays if the
    removal fails, which is ignored. *)
Definition install_temp (name value : string) : M Repo unit :=
  _ ← wrapped "secure identity handoff: ";
  _ ← wrapped "write identity handoff: ";
  _ ← wrapped "close identity handoff: ";
  _ ← wrapped "install identity handoff: ";
  run (λ s, (Ok tt, mkRepo (<[name := TrimSpace value +:+ newline]> (rf_files s)) (rf_faults s) (rf_left s))).

Definition remove_temp (value : string) (installed : bool) : M Repo unit :=
  rm ← try repo_call;
  if installed || is_ok rm then mret tt
  else run (λ s, (Ok tt, mkRepo (rf_files s) (rf_faults s) (value :: rf_left s))).

Definition atomicWrite (name value : string) : M Repo unit :=
  _ ← wrapped "create identity handoff: ";
  r ← try (install_temp name value);
  _ ← remove_temp value (is_ok r);
  lift r.

Definition repo_read (name : string) : M Repo string :=
  _ ← repo_call;
  run (λ s, (match rf_files s !! name with
             | Some d => Ok d
             | None => Err (EVar ErrNotExist)
             end, s)).

Definition repo_remove (name : string) : M Repo unit :=
  _ ← repo_call;
  run (λ s, match rf_files s !! name with
            | Some _ => (Ok tt, mkRepo (delete name (rf_files s)) (rf_faults s) (rf_left s))
            | None => (Err (EVar ErrNotExist), s)
            end).

Section identity.
Context (DeriveKuboIdentity : string → result (string * string)).
Context (config_PeerID : string → result string).

(** No Kubo config yet: hand the private key over. *)
Definition handoff_fresh (peerID privKey : string) : M Repo unit :=
  _ ← atomicWrite identityPrivateKeyFile (privKey +:+ newline);
  atomicWrite identityReadyFile (peerID +:+ newline).

(** Kubo is initialised: its identity must be ours, or unset. *)
Definition handoff_existing (peerID data : string) : M Repo unit :=
  match config_PeerID data with
  | Err e => fail (EWrap "parse Kubo config: " e EmptyString)
  | Ok have =>
      if negb (String.eqb have EmptyString) && negb (String.eqb have peerID) then
        _ ← atomicWrite identityReadyFile (peerID +:+ newline);
        fail (EVar ErrIdentityConflict)
      else
        rm ← try (repo_remove identityPrivateKeyFile);
        match rm with
        | Err e =>
            if errors_Is e ErrNotExist then atomicWrite identityReadyFile (peerID +:+ newline)
            else fail (EWrap "remove stale identity handoff: " e EmptyString)
        | Ok _ => atomicWrite identityReadyFile (peerID +:+ newline)
        end
  end.

Definition PrepareKuboIdentity (mnemonic : string) : M Repo unit :=
  '(peerID, privKey) ← lift (DeriveKuboIdentity mnemonic);
  _ ← wrapped "create Kubo repo path: ";
  stat ← try (repo_read identityConflictMarker);
  match stat with
  | Ok _ => fail (EVar ErrIdentityConflict)
  | Err e =>
      if negb (errors_Is e ErrNotExist) then fail (EWrap "check Kubo identity conflict: " e EmptyString)
      else
        _ ← atomicWrite identityPeerIDFile (peerID +:+ newline);
        data ← try (repo_read "config");
        match data with
        | Err e =>
            if errors_Is e ErrNotExist then handoff_fresh peerID privKey
            else fail (EWrap "read Kubo config: " e EmptyString)
        | Ok data => handoff_existing peerID data
        end
  end.
End identity.

(** ** service.go *)

Definition MaxObjectBytes : Z := 10 ^ 9.

Record Snapshot := mkSnapshot {
  sn_State : string; sn_KuboVersion : string; sn_RepoSizeBytes : Z;
  sn_StorageMaxBytes : Z; sn_NumObjects : Z }.

(** The counters a step increments, in order. *)
Inductive metric :=
| NodeOperation (op outcome : string)
| Uploads (outcome : string)
| UploadBytes (n : Z)
| DownloadBytes (n : Z).

Record DropState := mkDrop {
  d_snapshot : Snapshot; d_identityReady : bool; d_metrics : list metric; d_repo : Repo }.

Definition setSnapshot (x : Snapshot) (s : DropState) : DropState :=
  mkDrop x (d_identityReady s) (d_metrics s) (d_repo s).
Definition set_ready (s : DropState) : DropState :=
  mkDrop (d_snapshot s) true (d_metrics s) (d_repo s).
Definition set_repo (r : Repo) (s : DropState) : DropState :=
  mkDrop (d_snapshot s) (d_identityReady s) (d_metrics s) r.

Definition operational (s : DropState) : bool :=
  d_identityReady s &&
  (String.eqb (sn_State (d_snapshot s)) "active" || String.eqb (sn_State (d_snapshot s)) "degraded"
   || String.eqb (sn_State (d_snapshot s)) "full").

Definition writable (s : DropState) : bool :=
  d_identityReady s && String.eqb (sn_State (d_snapshot s)) "active".

Section service.
Context {srt : Sorting} (cfg : Config) (with_metrics : bool).

Definition NewService (repo : Repo) : DropState :=
  mkDrop (mkSnapshot (if c_DropEnabled cfg then "starting" else "disabled") EmptyString 0
            (c_DropStorageMaxBytes cfg) 0) false [] repo.

Definition count (l : list metric) : M DropState unit := run (λ s,
  (Ok tt, if with_metrics then mkDrop (d_snapshot s) (d_identityReady s) (d_metrics s ++ l) (d_repo s)
          else s)).

Definition observeOperation (op : string) (ok : bool) : M DropState unit :=
  count [NodeOperation op (if ok then "success" else "error")].

(** Start up to [go s.poll(ctx)]; the polling is the sequence of [refresh]
    steps. *)
Definition Start (Derive : string → result (string * string)) (config_PeerID : string → result string)
  : M DropState unit :=
  if negb (c_DropEnabled cfg) then mret tt
  else
    r ← try (zoom d_repo set_repo (PrepareKuboIdentity Derive config_PeerID (c_Mnemonic cfg)));
    match r with
    | Err e =>
        _ ← run (λ s, (Ok tt, setSnapshot
              (mkSnapshot "degraded" EmptyString 0 (c_DropStorageMaxBytes cfg) 0) s));
        fail e
    | Ok _ => run (λ s, (Ok tt, set_ready s))
    end.

Section kubo.
Context (baseURL : string) (StatusText : Z → string) (Do : Request → result Response)
  (cid_Decode : string → result unit).

Definition refresh : M DropState unit := run (λ s,
  let max := c_DropStorageMaxBytes cfg in
  (Ok tt, setSnapshot
    match Version baseURL StatusText Do with
    | Err _ => mkSnapshot "unreachable" EmptyString 0 max 0
    | Ok version =>
        match RepoStats baseURL StatusText Do with
        | Err _ => mkSnapshot "degraded" version 0 max 0
        | Ok stats =>
            mkSnapshot (if max <=? rp_RepoSize stats then "full" else "active") version
              (rp_RepoSize stats) max (rp_NumObjects stats)
        end
    end s)).

Definition bound_request (in_ : AddRequest) : AddRequest :=
  if (a_MaxBytes in_ <=? 0) || (MaxObjectBytes <? a_MaxBytes in_)
  then mkAdd (a_UploadID in_) (a_Body in_) (a_DeclaredSize in_) MaxObjectBytes (a_SHA256 in_)
  else in_.

(** Upload in two parts: what it checks before it reads the snapshot, under a
    lock of its own, and what it does with the snapshot; the health poll may
    change it in between.  The subtraction is on int64. *)
Definition upload_admit (in_ : AddRequest) : M DropState unit :=
  s ← get;
  if negb (c_DropEnabled cfg) then fail (EVar ErrDisabled)
  else if negb (writable s) then fail (EVar ErrUnavailable)
  else if MaxObjectBytes <? a_DeclaredSize in_ then fail (EVar ErrByteLimit)
  else mret tt.

Definition upload_store (boundary : string) (in_ : AddRequest) : M DropState AddResult :=
  s ← get;
  let snap := d_snapshot s in
  if (sn_StorageMaxBytes snap <=? sn_RepoSizeBytes snap)
     || (wrap_int64 (sn_StorageMaxBytes snap - sn_RepoSizeBytes snap) <? a_DeclaredSize in_)
  then fail (EVar ErrStorageFull)
  else
    let res := AddAndPin baseURL StatusText Do cid_Decode boundary (bound_request in_) in
    _ ← observeOperation "upload" (is_ok res);
    _ ← count (match res with
               | Ok r => [Uploads "success"; UploadBytes (r_Size r)]
               | Err _ => [Uploads "error"]
               end);
    lift res.

Definition Upload (boundary : string) (in_ : AddRequest) : M DropState AddResult :=
  _ ← upload_admit in_; upload_store boundary in_.

Definition guarded {A} (op : string) (call : result A) : M DropState A :=
  s ← get;
  if negb (c_DropEnabled cfg) then fail (EVar ErrDisabled)
  else if negb (operational s) then fail (EVar ErrUnavailable)
  else _ ← observeOperation op (is_ok call); lift call.

Definition Read (value : string) : M DropState limitReadCloser :=
  guarded "read" (Cat baseURL StatusText Do cid_Decode value MaxObjectBytes).
Definition PinStatus (value : string) : M DropState bool :=
  guarded "pin_check" (DropClient.PinStatus baseURL StatusText Do cid_Decode value).
Definition Unpin (value : string) : M DropState unit :=
  guarded "unpin" (DropClient.Unpin baseURL StatusText Do cid_Decode value).
End kubo.

(** The health poll: once, then once per tick, each with Kubo as it is then. *)
Definition poll (baseURL : string) (StatusText : Z → string) (first : Request → result Response)
    (ticks : list (Request → result Response)) : M DropState unit :=
  _ ← refresh baseURL StatusText first;
  for_each (refresh baseURL StatusText) ticks.

(** Only the last poll counts, and nothing but the snapshot changes. *)
Lemma poll_last baseURL StatusText first ticks Do s :
  poll baseURL StatusText first (ticks ++ [Do]) s = refresh baseURL StatusText Do s.
Proof.
  unfold poll. assert (∀ Do' s, ∃ x, refresh baseURL StatusText Do' s = (Ok tt, setSnapshot x s)) as Hr.
  { intros Do' s'. unfold refresh, run. eauto. }
  assert (∀ x s', refresh baseURL StatusText Do (setSnapshot x s') = refresh baseURL StatusText Do s') as Hover by done.
  destruct (Hr first s) as (x & E). rewrite (bind_Ok _ _ _ _ _ E), <- (Hover x s). clear E.
  generalize (setSnapshot x s). clear s x. induction ticks as [|d ticks IH]; intros s; cbn [for_each app].
  - destruct (Hr Do s) as (y & E). by rewrite (bind_Ok _ _ _ _ _ E), E.
  - destruct (Hr d s) as (y & E). rewrite (bind_Ok _ _ _ _ _ E), IH. apply Hover.
Qed.

Definition RecordDownload (size : Z) : M DropState unit :=
  if 0 <? size then count [DownloadBytes size] else mret tt.

Definition Enabled : bool := c_DropEnabled cfg.
Definition AcceptsPublicUploads : bool := DropAcceptsPublicUploads cfg.
Definition WebUIAvailable (s : DropState) : bool := DropWebUIAvailable cfg && operational s.

(** ** Reachable states *)

Inductive drop_op :=
| OpStart (Derive : string → result (string * string)) (config_PeerID : string → result string)
| OpRefresh (url : string) (st : Z → string) (Do : Request → result Response)
| OpUpload (url : string) (st : Z → string) (Do : Request → result Response)
    (cid : string → result unit) (boundary : string) (in_ : AddRequest)
| OpRead (url : string) (st : Z → string) (Do : Request → result Response)
    (cid : string → result unit) (value : string)
| OpPinStatus (url : string) (st : Z → string) (Do : Request → result Response)
    (cid : string → result unit) (value : string)
| OpUnpin (url : string) (st : Z → string) (Do : Request → result Response)
    (cid : string → result unit) (value : string)
| OpRecordDownload (size : Z).

Definition exec_drop (op : drop_op) (s : DropState) : DropState :=
  match op with
  | OpStart D c => (Start D c s).2
  | OpRefresh u st d => (refresh u st d s).2
  | OpUpload u st d c b i => (Upload u st d c b i s).2
  | OpRead u st d c v => (Read u st d c v s).2
  | OpPinStatus u st d c v => (PinStatus u st d c v s).2
  | OpUnpin u st d c v => (Unpin u st d c v s).2
  | OpRecordDownload n => (RecordDownload n s).2
  end.

Inductive drop_reach (repo : Repo) : DropState → Prop :=
| reach_new : drop_reach repo (NewService repo)
| reach_step s op : drop_reach repo s → drop_reach repo (exec_drop op s).
End service.

Section invariant.
Context {srt : Sorting} (cfg : Config) (wm : bool).

Definition drop_states : list string :=
  ["disabled"; "starting"; "unreachable"; "degraded"; "full"; "active"].

(** The snapshot reports the configured capacity, an active store has room
    and was reached, and the identity is only ready on an enabled node. *)
Definition drop_inv (s : DropState) : Prop :=
  let x := d_snapshot s in
  sn_State x ∈ drop_states ∧
  sn_StorageMaxBytes x = c_DropStorageMaxBytes cfg ∧
  min_int64 <= sn_RepoSizeBytes x <= max_int64 ∧
  (sn_State x = "active" → sn_RepoSizeBytes x < sn_StorageMaxBytes x ∧ sn_KuboVersion x ≠ EmptyString) ∧
  (d_identityReady s = true → c_DropEnabled cfg = true).

(** Only the metrics change. *)
Definition same_status (s s' : DropState) : Prop :=
  d_snapshot s' = d_snapshot s ∧ d_identityReady s' = d_identityReady s ∧ d_repo s' = d_repo s.

#[export] Instance same_status_preorder : PreOrder same_status.
Proof. split; [done|]. intros ??? (?&?&?) (?&?&?). repeat split; congruence. Qed.

Lemma keeps_count l : keeps same_status (count wm l).
Proof. intros s r s' [= <- <-]. destruct wm; done. Qed.

Lemma keeps_guarded {A} op (call : result A) : keeps same_status (guarded cfg wm op call).
Proof.
  apply keeps_bind; [apply _|by intros ??? [= <- <-]|]. intros s0.
  destruct (negb (c_DropEnabled cfg)); [apply keeps_fail, _|].
  destruct (negb (operational s0)); [apply keeps_fail, _|].
  apply keeps_bind; [apply _|apply keeps_count|]. intros. apply keeps_lift, _.
Qed.

Lemma upload_admit_inv i s r s' :
  upload_admit cfg i s = (r, s') →
  s' = s ∧ (r = Ok tt → c_DropEnabled cfg = true ∧ writable s = true ∧ a_DeclaredSize i <= MaxObjectBytes).
Proof.
  unfold upload_admit. rewrite (bind_Ok get _ s s s eq_refl).
  destruct (c_DropEnabled cfg); cbn [negb]; [|by intros [= <- <-]].
  destruct (writable s); cbn [negb]; [|by intros [= <- <-]].
  destruct (Z.ltb_spec MaxObjectBytes (a_DeclaredSize i)); by intros [= <- <-].
Qed.

Lemma keeps_upload_store u st d c b i : keeps same_status (upload_store wm u st d c b i).
Proof.
  apply keeps_bind; [apply _|by intros ??? [= <- <-]|]. intros s0.
  cbv zeta. destruct ((_ <=? _) || _); [apply keeps_fail, _|].
  apply keeps_bind; [apply _|apply keeps_count|]. intros _.
  apply keeps_bind; [apply _|apply keeps_count|]. intros. apply keeps_lift, _.
Qed.

Lemma keeps_Upload u st d c b i : keeps same_status (Upload cfg wm u st d c b i).
Proof.
  apply keeps_bind; [apply _| |intros _; apply keeps_upload_store].
  by intros s r s' [-> _]%upload_admit_inv.
Qed.

Lemma same_status_inv s s' : same_status s s' → drop_inv s → drop_inv s'.
Proof. intros (E1 & E2 & _). unfold drop_inv. rewrite E1, E2. done. Qed.

Lemma RepoStats_bounds u st d x :
  RepoStats u st d = Ok x → min_int64 <= rp_RepoSize x <= max_int64.
Proof.
  intros (resp & _ & H)%bind_result_ok. unfold wrap in H.
  destruct (_ ≫= _) as [y|] eqn:E in H; [|done]. injection H as ->.
  apply bind_result_ok in E as (j & _ & E). apply bind_result_ok in E as (size & Hs & E).
  apply bind_result_ok in E as (mx & _ & E). apply bind_result_ok in E as (n & _ & [= <-]). cbn.
  unfold field_int in Hs. destruct j; try discriminate Hs; [injection Hs as <-; done|].
  destruct (jget _ _) as [[]|]; try discriminate Hs; try (injection Hs as <-; done).
  destruct (_ && _) eqn:Eb; [|done]. injection Hs as <-. lia.
Qed.

Lemma Version_nonempty u st d v : Version u st d = Ok v → v ≠ EmptyString.
Proof.
  intros (resp & _ & H)%bind_result_ok. apply bind_result_ok in H as (w & _ & H).
  destruct (String.eqb_spec w EmptyString); [done|]. by injection H as <-.
Qed.

Lemma refresh_inv u st d s : drop_inv s → drop_inv (refresh cfg u st d s).2.
Proof.
  intros (_ & _ & _ & _ & Hr). unfold refresh, run, setSnapshot, drop_inv. cbn.
  destruct (Version u st d) as [v|] eqn:Ev; cbn.
  2:{ split; [set_solver|]. split; [done|]. split; [done|]. split; done. }
  destruct (RepoStats u st d) as [x|] eqn:Ex; cbn.
  2:{ split; [set_solver|]. split; [done|]. split; [done|]. split; done. }
  apply RepoStats_bounds in Ex. apply Version_nonempty in Ev.
  destruct (Z.leb_spec (c_DropStorageMaxBytes cfg) (rp_RepoSize x));
    (split; [set_solver|]); do 2 (split; [done|]); (split; [|done]); [done|auto].
Qed.

Lemma drop_Start_inv D c s : drop_inv s → drop_inv (Start cfg D c s).2.
Proof.
  intros H. unfold Start. destruct (c_DropEnabled cfg) eqn:En; cbn [negb]; [|exact H].
  unfold mbind, M_bind, try, zoom.
  destruct (PrepareKuboIdentity D c (c_Mnemonic cfg) (d_repo s)) as [[[]|e] rp]; cbn;
    unfold drop_inv in *; cbn; destruct H as (H1 & H2 & H3 & H4 & H5).
  - auto.
  - split; [set_solver|]. split; [done|]. split; [done|]. split; done.
Qed.

Lemma exec_drop_inv op s : drop_inv s → drop_inv (exec_drop cfg wm op s).
Proof.
  intros H. destruct op; cbn [exec_drop].
  - apply drop_Start_inv. done.
  - apply refresh_inv. done.
  - eapply same_status_inv; [eapply keeps_Upload, surjective_pairing|done].
  - eapply same_status_inv; [eapply keeps_guarded, surjective_pairing|done].
  - eapply same_status_inv; [eapply keeps_guarded, surjective_pairing|done].
  - eapply same_status_inv; [eapply keeps_guarded, surjective_pairing|done].
  - unfold RecordDownload. destruct (0 <? size); [|done].
    eapply same_status_inv; [eapply keeps_count, surjective_pairing|done].
Qed.

Lemma drop_reach_inv repo s :
  0 <= c_DropStorageMaxBytes cfg → drop_reach cfg wm repo s → drop_inv s.
Proof.
  intros Hm. induction 1; [|by apply exec_drop_inv].
  unfold drop_inv, NewService. cbn. split; [destruct (c_DropEnabled cfg); set_solver|].
  split; [done|]. split; [done|]. destruct (c_DropEnabled cfg); done.
Qed.

Lemma bound_request_same i :
  a_Body (bound_request i) = a_Body i ∧ a_DeclaredSize (bound_request i) = a_DeclaredSize i ∧
  a_SHA256 (bound_request i) = a_SHA256 i ∧ a_MaxBytes (bound_request i) <= MaxObjectBytes.
Proof.
  unfold bound_request. destruct (_ || _) eqn:E; [done|]. repeat split.
  apply orb_false_iff in E. lia.
Qed.

(** The room an upload needs is there when it reads the snapshot, in the state
    [s] it reads it in, whatever happened since the first checks. *)
Lemma upload_store_ok u st d c b i s res s' :
  upload_store wm u st d c b i s = (Ok res, s') →
  sn_RepoSizeBytes (d_snapshot s) < sn_StorageMaxBytes (d_snapshot s) ∧
  a_DeclaredSize i <=
    wrap_int64 (sn_StorageMaxBytes (d_snapshot s) - sn_RepoSizeBytes (d_snapshot s)) ∧
  AddAndPin u st d c b (bound_request i) = Ok res.
Proof.
  unfold upload_store. intros H. unfold get, mbind at 1, M_bind in H.
  destruct (_ || _) eqn:Eg in H; [done|]. apply orb_false_iff in Eg as [E1 E2].
  destruct (AddAndPin u st d c b (bound_request i)) as [r|e].
  - injection H as <- _. repeat split; lia.
  - discriminate H.
Qed.

Lemma Upload_ok_inv u st d c b i s res s' :
  Upload cfg wm u st d c b i s = (Ok res, s') →
  c_DropEnabled cfg = true ∧ writable s = true ∧ a_DeclaredSize i <= MaxObjectBytes ∧
  sn_RepoSizeBytes (d_snapshot s) < sn_StorageMaxBytes (d_snapshot s) ∧
  a_DeclaredSize i <=
    wrap_int64 (sn_StorageMaxBytes (d_snapshot s) - sn_RepoSizeBytes (d_snapshot s)) ∧
  AddAndPin u st d c b (bound_request i) = Ok res.
Proof.
  unfold Upload. intros ([] & s1 & [-> H1]%upload_admit_inv & H2%upload_store_ok)%bind_ok.
  destruct (H1 eq_refl) as (? & ? & ?). done.
Qed.
End invariant.

(** ** Files *)

Definition same_files (s s' : Repo) : Prop := rf_files s' = rf_files s.
#[export] Instance same_files_preorder : PreOrder same_files.
Proof. split; [done|]. unfold same_files. congruence. Qed.

Lemma keeps_repo_call : keeps same_files repo_call.
Proof. intros [f [|[e|] fs] left] r s'; cbn; intros [= <- <-]; done. Qed.

Lemma keeps_wrapped pre : keeps same_files (wrapped pre).
Proof.
  apply keeps_bind; [apply _|apply keeps_try, keeps_repo_call|].
  intros [[]|e]; [apply keeps_ret, _|apply keeps_fail, _].
Qed.

Lemma keeps_remove_temp v b : keeps same_files (remove_temp v b).
Proof.
  apply keeps_bind; [apply _|apply keeps_try, keeps_repo_call|]. intros rm.
  destruct (b || _); [apply keeps_ret, _|]. by intros s r s' [= <- <-].
Qed.

Lemma install_temp_inv n v s r s' :
  install_temp n v s = (r, s') →
  (r = Ok tt ∧ rf_files s' = <[n := TrimSpace v +:+ newline]> (rf_files s)) ∨
  ((∃ e, r = Err e) ∧ rf_files s' = rf_files s).
Proof.
  unfold install_temp. intros H.
  do 4 (apply bind_inv in H as [([] & ? & ?%keeps_wrapped & H)|(e & ?%keeps_wrapped & ->)];
        [|right; unfold same_files in *; split; [eauto|congruence]]).
  injection H as <- <-. left. unfold same_files in *. cbn. split; [done|]. congruence.
Qed.

Lemma atomicWrite_inv n v s r s' :
  atomicWrite n v s = (r, s') →
  (r = Ok tt ∧ rf_files s' = <[n := TrimSpace v +:+ newline]> (rf_files s)) ∨
  ((∃ e, r = Err e) ∧ rf_files s' = rf_files s).
Proof.
  unfold atomicWrite. intros [([] & s1 & H1%keeps_wrapped & H)|(e & H1%keeps_wrapped & ->)]%bind_inv;
    [|right; split; [eauto|exact H1]].
  apply try_inv in H as (x & s2 & H2 & H). apply install_temp_inv in H2.
  apply bind_inv in H as [([] & s3 & H3 & [= <- <-])|(e & H3 & ->)].
  - apply keeps_remove_temp in H3. unfold same_files in *. rewrite H3, <- H1. exact H2.
  - exfalso. clear -H3. unfold remove_temp in H3. apply try_inv in H3 as (y & s4 & _ & H).
    by destruct (_ || _).
Qed.

(** A temporary file is left behind only by a write that failed. *)
Lemma atomicWrite_left n v s s' : atomicWrite n v s = (Ok tt, s') → rf_left s' = rf_left s.
Proof.
  assert (∀ pre s r s', wrapped pre s = (r, s') → rf_left s' = rf_left s) as Hw.
  { intros pre [f [|[e|] fs] left] r s1; cbn; by intros [= <- <-]. }
  unfold atomicWrite. intros ([] & s1 & H1%Hw & H)%bind_ok. apply try_inv in H as (x & s2 & H2 & H).
  apply bind_ok in H as ([] & s3 & H3 & [= -> <-]).
  unfold install_temp in H2. do 4 (apply bind_ok in H2 as ([] & ? & ?%Hw & H2)). injection H2 as <-.
  unfold remove_temp in H3. apply try_inv in H3 as (y & s4 & Hr & H3). cbn in H3. injection H3 as <-.
  unfold repo_call in Hr. destruct (rf_faults _) as [|[]]; injection Hr as <- <-; cbn; congruence.
Qed.

Lemma repo_read_inv n s r s' :
  repo_read n s = (r, s') → rf_files s' = rf_files s ∧ (∀ d, r = Ok d → rf_files s !! n = Some d).
Proof.
  unfold repo_read. intros [([] & s1 & Hc%keeps_repo_call & H)|(e & Hc & ->)]%bind_inv.
  - injection H as <- <-. unfold same_files in Hc. rewrite Hc. split; [done|].
    destruct (rf_files s !! n); congruence.
  - apply keeps_repo_call in Hc. split; [done|]. discriminate.
Qed.

(** A database of files whose calls never fail with [ErrNotExist] of their
    own: the operating system reports it for absent files only. *)
Definition os_honest (fs : list (option error)) : Prop :=
  Forall (λ o, match o with Some e => errors_Is e ErrNotExist = false | None => True end) fs.

Definition honest_rel (s s' : Repo) : Prop := os_honest (rf_faults s) → os_honest (rf_faults s').
#[export] Instance honest_rel_preorder : PreOrder honest_rel.
Proof. split; unfold Reflexive, Transitive, honest_rel; auto. Qed.

Lemma honest_call : keeps honest_rel repo_call.
Proof.
  intros [f [|[e|] fs] left] r s'; cbn; intros [= <- <-]; unfold honest_rel, os_honest; cbn; [done| |];
    intros [_ ?]%Forall_cons; done.
Qed.

Lemma honest_wrapped pre : keeps honest_rel (wrapped pre).
Proof.
  apply keeps_bind; [apply _|apply keeps_try, honest_call|].
  intros [[]|e]; [apply keeps_ret, _|apply keeps_fail, _].
Qed.

Lemma honest_atomicWrite n v : keeps honest_rel (atomicWrite n v).
Proof.
  unfold atomicWrite. apply keeps_bind; [apply _|apply honest_wrapped|]; intros _.
  apply keeps_bind; [apply _|apply keeps_try|].
  - unfold install_temp. do 4 (apply keeps_bind; [apply _|apply honest_wrapped|]; intros _).
    intros s r s' [= <- <-]. unfold honest_rel. auto.
  - intros r. apply keeps_bind; [apply _| |intros _; apply keeps_lift, _]. unfold remove_temp.
    apply keeps_bind; [apply _|apply keeps_try, honest_call|]. intros rm.
    destruct (_ || _); [apply keeps_ret, _|]. intros s x s' [= <- <-]. unfold honest_rel. auto.
Qed.

Lemma repo_read_absent n s e s' :
  os_honest (rf_faults s) → repo_read n s = (Err e, s') → errors_Is e ErrNotExist = true →
  rf_files s !! n = None.
Proof.
  intros Hh. unfold repo_read. intros [([] & s1 & Hc%keeps_repo_call & H)|(e' & Hc & [= <-])]%bind_inv He.
  - injection H as H <-. unfold same_files in Hc. rewrite Hc in H. by destruct (rf_files s !! n).
  - destruct s as [f [|[e'|] fs] left]; cbn in Hc; try discriminate Hc.
    injection Hc as <- <-. apply Forall_cons in Hh as [Hh _]. congruence.
Qed.

Lemma honest_read n : keeps honest_rel (repo_read n).
Proof.
  apply keeps_bind; [apply _|apply honest_call|].
  intros _ s r s' [= <- <-]. unfold honest_rel. auto.
Qed.

Lemma repo_remove_inv n s r s' :
  os_honest (rf_faults s) → repo_remove n s = (r, s') →
  (r = Ok tt ∧ rf_files s' = delete n (rf_files s)) ∨
  (∃ e, r = Err e ∧ rf_files s' = rf_files s ∧
        (errors_Is e ErrNotExist = true → rf_files s !! n = None)).
Proof.
  intros Hh. unfold repo_remove. intros [([] & s1 & Hc%keeps_repo_call & H)|(e & Hc & ->)]%bind_inv.
  - unfold same_files in Hc. unfold run in H. rewrite Hc in H.
    destruct (rf_files s !! n) eqn:E; injection H as <- <-; [left; done|].
    right. eexists. split; [done|]. done.
  - right. destruct s as [f [|[e'|] fs] left]; cbn in Hc; try discriminate Hc.
    injection Hc as <- <-. apply Forall_cons in Hh as [Hh _]. eexists. split; [done|].
    split; [done|]. congruence.
Qed.

(** The line a value becomes in a handoff file. *)
Definition handoff_line (v : string) : string := TrimSpace (v +:+ newline) +:+ newline.

(** The ways a run of PrepareKuboIdentity can end, with the files it leaves. *)
Inductive handoff (cp : string → result string) (peerID privKey : string) (f : gmap string string)
  : result unit → gmap string string → Prop :=
| HEarly e : handoff cp peerID privKey f (Err e) f
| HPeerID e : handoff cp peerID privKey f (Err e) (<[identityPeerIDFile := handoff_line peerID]> f)
| HKeyOnly e : f !! "config" = None →
    handoff cp peerID privKey f (Err e)
      (<[identityPrivateKeyFile := handoff_line privKey]>
         (<[identityPeerIDFile := handoff_line peerID]> f))
| HFresh : f !! "config" = None →
    handoff cp peerID privKey f (Ok tt)
      (<[identityReadyFile := handoff_line peerID]>
         (<[identityPrivateKeyFile := handoff_line privKey]>
            (<[identityPeerIDFile := handoff_line peerID]> f)))
| HConflict e : handoff cp peerID privKey f (Err e)
    (<[identityReadyFile := handoff_line peerID]> (<[identityPeerIDFile := handoff_line peerID]> f))
| HRemoved data e : f !! "config" = Some data →
    cp data = Ok EmptyString ∨ cp data = Ok peerID →
    handoff cp peerID privKey f (Err e)
      (delete identityPrivateKeyFile (<[identityPeerIDFile := handoff_line peerID]> f))
| HMatch data : f !! "config" = Some data →
    cp data = Ok EmptyString ∨ cp data = Ok peerID →
    handoff cp peerID privKey f (Ok tt)
      (<[identityReadyFile := handoff_line peerID]>
         (delete identityPrivateKeyFile (<[identityPeerIDFile := handoff_line peerID]> f))).

Section handoffs.
Context (D : string → result (string * string)) (cp : string → result string).
Context (peerID privKey : string) (f : gmap string string).

Lemma handoff_existing_spec data s r s' :
  os_honest (rf_faults s) → f !! "config" = Some data →
  rf_files s = <[identityPeerIDFile := handoff_line peerID]> f →
  handoff_existing cp peerID data s = (r, s') → handoff cp peerID privKey f r (rf_files s').
Proof.
  intros Hh Hcfg Hs. unfold handoff_existing. destruct (cp data) as [have|e] eqn:Ecp; intros H.
  2:{ injection H as <- <-. rewrite Hs. apply HPeerID. }
  destruct (negb _ && negb _) eqn:Ec.
  - apply bind_inv in H as [([] & s4 & H4 & H)|(e & H4 & ->)];
      apply atomicWrite_inv in H4 as [[? H4]|[[? ?] H4]]; try discriminate; rewrite Hs in H4.
    + injection H as <- <-. rewrite H4. apply HConflict.
    + rewrite H4. apply HPeerID.
  - assert (Hk : cp data = Ok EmptyString ∨ cp data = Ok peerID).
    { rewrite Ecp. apply andb_false_iff in Ec. rewrite !negb_false_iff, !String.eqb_eq in Ec.
      destruct Ec as [->| ->]; auto. }
    unfold mbind at 1, M_bind at 1, try at 1 in H.
    destruct (repo_remove identityPrivateKeyFile s) as [rm s4] eqn:E4.
    apply repo_remove_inv in E4; [|done].
    assert (Hdone : rf_files s4 = delete identityPrivateKeyFile (rf_files s) →
      atomicWrite identityReadyFile (peerID +:+ newline) s4 = (r, s') →
      handoff cp peerID privKey f r (rf_files s')).
    { intros Hx [[-> Hw]|[[e ->] Hw]]%atomicWrite_inv; rewrite Hw, Hx, Hs;
        [eapply HMatch|eapply HRemoved]; eauto. }
    destruct E4 as [[-> E4]|(e & -> & E4 & Habs)]; [auto|].
    destruct (errors_Is e ErrNotExist).
    + apply Hdone; [|done]. rewrite E4, delete_id; [done|]. auto.
    + injection H as <- <-. rewrite E4, Hs. apply HPeerID.
Qed.

Lemma handoff_fresh_spec s r s' :
  f !! "config" = None → rf_files s = <[identityPeerIDFile := handoff_line peerID]> f →
  handoff_fresh peerID privKey s = (r, s') → handoff cp peerID privKey f r (rf_files s').
Proof.
  intros Habs Hs [([] & s4 & H4 & H)|(e & H4 & ->)]%bind_inv;
    apply atomicWrite_inv in H4 as [[? H4]|[[? ?] H4]]; try discriminate; rewrite Hs in H4.
  - apply atomicWrite_inv in H as [[-> Hw]|[[e ->] Hw]]; rewrite Hw, H4;
      [apply HFresh|apply HKeyOnly]; done.
  - rewrite H4. apply HPeerID.
Qed.
End handoffs.

Lemma PrepareKuboIdentity_handoff D cp mnemonic s r s' peerID privKey :
  os_honest (rf_faults s) → D mnemonic = Ok (peerID, privKey) →
  PrepareKuboIdentity D cp mnemonic s = (r, s') →
  handoff cp peerID privKey (rf_files s) r (rf_files s').
Proof.
  intros Hh HD. unfold PrepareKuboIdentity. rewrite HD. intros H.
  rewrite (bind_Ok _ _ s (peerID, privKey) s) in H by done.
  apply bind_inv in H as [([] & s1 & H1 & H)|(e & H1 & ->)].
  2:{ apply keeps_wrapped in H1. unfold same_files in H1. rewrite H1. apply HEarly. }
  pose proof (honest_wrapped _ _ _ _ H1 Hh) as Hh1. apply keeps_wrapped in H1. unfold same_files in H1.
  rewrite <- H1. clear s H1 Hh. rename s1 into s, Hh1 into Hh.
  unfold mbind at 1, M_bind at 1, try at 1 in H.
  destruct (repo_read identityConflictMarker s) as [stat s1] eqn:E1.
  pose proof (honest_read _ _ _ _ E1 Hh) as Hh1. apply repo_read_inv in E1 as [E1 _].
  destruct stat as [d|e]; [injection H as <- <-; rewrite E1; apply HEarly|].
  destruct (negb _); [injection H as <- <-; rewrite E1; apply HEarly|].
  apply bind_inv in H as [([] & s2 & H2 & H)|(e2 & H2 & ->)].
  2:{ apply atomicWrite_inv in H2 as [[[=] _]|[_ H2]]. rewrite H2, E1. apply HEarly. }
  pose proof (honest_atomicWrite _ _ _ _ _ H2 Hh1) as Hh2.
  apply atomicWrite_inv in H2 as [[_ H2]|[[? [=]] _]]. rewrite E1 in H2. fold (handoff_line peerID) in H2.
  unfold mbind at 1, M_bind at 1, try at 1 in H.
  destruct (repo_read "config" s2) as [data s3] eqn:E3.
  pose proof (honest_read _ _ _ _ E3 Hh2) as Hh3.
  assert (Hcfg : rf_files s2 !! "config" = rf_files s !! "config") by (rewrite H2; apply lookup_insert_ne; done).
  destruct data as [data|e3].
  - apply repo_read_inv in E3 as [E3 Ed]. specialize (Ed data eq_refl). rewrite Hcfg in Ed.
    rewrite H2 in E3. eapply handoff_existing_spec; eauto.
  - destruct (errors_Is e3 ErrNotExist) eqn:Ee.
    2:{ apply repo_read_inv in E3 as [E3 _]. injection H as <- <-. rewrite E3, H2. apply HPeerID. }
    pose proof (repo_read_absent _ _ _ _ Hh2 E3 Ee) as Habs. rewrite Hcfg in Habs.
    apply repo_read_inv in E3 as [E3 _]. rewrite H2 in E3.
    eapply handoff_fresh_spec; eauto.
Qed.

(** ** Properties *)

(** C9. An accepted upload fits and is what the client declared: in every
    reachable state, an upload that succeeds happened on an enabled node with
    a ready identity and an active store, its declared size is within the
    object limit and the room the last health report left, the one request
    sent to Kubo carried the client's whole body, of exactly the declared
    size and (when given) the declared SHA-256, and Kubo took all of it and
    answered 200 with a valid CID. *)
Theorem Upload_verified {srt : Sorting} cfg wm repo s url st Do cid boundary in_ res s' :
  0 <= c_DropStorageMaxBytes cfg <= max_int64 → drop_reach cfg wm repo s →
  Upload cfg wm url st Do cid boundary in_ s = (Ok res, s') →
  c_DropEnabled cfg = true ∧ d_identityReady s = true ∧ sn_State (d_snapshot s) = "active" ∧
  a_DeclaredSize in_ <= MaxObjectBytes ∧
  sn_RepoSizeBytes (d_snapshot s) + a_DeclaredSize in_ <= c_DropStorageMaxBytes cfg ∧
  ∃ d u ct resp, verified (bound_request in_) d ∧ Do (mkReq u ct (Some (d, None))) = Ok resp ∧
    rs_StatusCode resp = 200 ∧ rs_drained resp = true ∧
    r_Size res = Z.of_nat (length d) ∧ is_ok (cid (TrimSpace (r_CID res))) = true.
Proof.
  intros Hmax Hreach HU. apply drop_reach_inv in Hreach as (_ & Hm & Hb & _ & _); [|lia].
  apply Upload_ok_inv in HU as (He & Hw & Hs & Hr & Hf & HA).
  apply AddAndPin_verified in HA as (d & u & ct & resp & Hv & Hdo & H200 & Hdr & Hsz & Hcid).
  unfold writable in Hw. apply andb_true_iff in Hw as [Hi Hst]. apply String.eqb_eq in Hst.
  pose proof Hv as (_ & Hl & _). destruct (bound_request_same in_) as (_ & Hd & _).
  do 4 (split; [done|]). split.
  - rewrite Hd in Hl. rewrite Hm in Hf, Hr. unfold wrap_int64, max_int64, min_int64 in *.
    assert (0 <= a_DeclaredSize in_) by lia.
    destruct (Z_lt_ge_dec (c_DropStorageMaxBytes cfg - sn_RepoSizeBytes (d_snapshot s)) (2 ^ 63)).
    + rewrite Z.mod_small in Hf by lia. lia.
    + exfalso. rewrite <- (Z_mod_plus_full _ (-1)), Z.mod_small in Hf by lia. lia.
  - exists d, u, ct, resp. rewrite Hsz, Hl. done.
Qed.

Fixpoint upload_times {srt : Sorting} cfg wm url st Do cid boundary in_ (n : nat) (s : DropState)
  : list (result AddResult) :=
  match n with
  | O => []
  | S n => let '(r, s') := Upload cfg wm url st Do cid boundary in_ s in
           r :: upload_times cfg wm url st Do cid boundary in_ n s'
  end.

(** Uploads reserve nothing: the room check reads the last health
    report, which an upload does not change, so between two reports an
    accepted upload is accepted again any number of times, also when the
    objects together exceed the configured storage. *)
Lemma uploads_not_reserved {srt : Sorting} cfg wm url st Do cid boundary in_ s res s' n :
  Upload cfg wm url st Do cid boundary in_ s = (Ok res, s') →
  d_snapshot s' = d_snapshot s ∧
  upload_times cfg wm url st Do cid boundary in_ n s = replicate n (Ok res).
Proof.
  intros HU. split; [apply keeps_Upload in HU; apply HU|].
  assert (Hagain : ∀ s1, same_status s s1 →
    ∃ s2, Upload cfg wm url st Do cid boundary in_ s1 = (Ok res, s2) ∧ same_status s s2).
  { intros s1 Hs1. pose proof HU as (He & Hw & Hs & Hr & Hf & HA)%Upload_ok_inv.
    destruct Hs1 as (Es & Ei & Er).
    assert (∃ s2, Upload cfg wm url st Do cid boundary in_ s1 = (Ok res, s2)) as [s2 E2].
    { unfold Upload. rewrite (bind_Ok _ _ s1 tt s1).
      2:{ unfold upload_admit. rewrite (bind_Ok get _ s1 s1 s1 eq_refl), He. cbn [negb].
          unfold writable in *. rewrite Es, Ei, Hw. cbn [negb].
          by replace (MaxObjectBytes <? a_DeclaredSize in_) with false by lia. }
      unfold upload_store, get, mbind at 1, M_bind. rewrite HA, Es. cbv zeta.
      replace (_ || _) with false
        by (symmetry; apply orb_false_iff; split; [apply Z.leb_gt|apply Z.ltb_ge]; lia).
      eexists. reflexivity. }
    exists s2. split; [done|]. transitivity s1; [done|]. eapply keeps_Upload. exact E2. }
  assert (Hgen : ∀ s1, same_status s s1 →
    upload_times cfg wm url st Do cid boundary in_ n s1 = replicate n (Ok res)).
  { induction n as [|n IH]; intros s1 H1; [done|]. cbn.
    destruct (Hagain s1 H1) as (s2 & -> & H2). rewrite IH by done. done. }
  apply Hgen. done.
Qed.

(** Looks a file name up through writes and removals of other names. *)
Ltac file_lookups :=
  repeat first
    [ rewrite lookup_insert_eq | rewrite lookup_delete_eq
    | rewrite lookup_insert_ne by (vm_compute; discriminate)
    | rewrite lookup_delete_ne by (vm_compute; discriminate) ];
  try done.

(** C39. The identity handoff never replaces a Kubo identity: whatever file
    operations fail, Kubo's config is untouched; a config with another peer id
    makes it fail without writing the private key; and after a success the
    peer id and the ready marker are this node's, and the private key is on
    disk exactly when Kubo still has to be initialised with it. *)
Theorem identity_handoff_safe D cp mnemonic s r s' peerID privKey :
  os_honest (rf_faults s) → D mnemonic = Ok (peerID, privKey) →
  PrepareKuboIdentity D cp mnemonic s = (r, s') →
  let f := rf_files s in let f' := rf_files s' in
  f' !! "config" = f !! "config" ∧
  (∀ data have, f !! "config" = Some data → cp data = Ok have →
     have ≠ EmptyString → have ≠ peerID →
     r ≠ Ok tt ∧ f' !! identityPrivateKeyFile = f !! identityPrivateKeyFile) ∧
  (r = Ok tt →
     f' !! identityReadyFile = Some (handoff_line peerID) ∧
     f' !! identityPeerIDFile = Some (handoff_line peerID) ∧
     f' !! identityPrivateKeyFile =
       match f !! "config" with None => Some (handoff_line privKey) | Some _ => None end).
Proof.
  intros Hh HD H f f'. apply (PrepareKuboIdentity_handoff D cp mnemonic s r s' peerID privKey Hh HD) in H.
  fold f f' in H. clearbody f f'.
  inversion H; subst; (split; [file_lookups|split; [intros data' have Hc Hp Hne1 Hne2|intros Hr]]);
    try discriminate Hr; try (split; [discriminate|file_lookups]).
  - congruence.
  - congruence.
  - rewrite H0. split_and!; file_lookups.
  - destruct H1; congruence.
  - destruct H1; congruence.
  - rewrite H0. split_and!; file_lookups.
Qed.

(** ** Witnesses *)

Definition wit_drop_cfg : Config := set_DropStorageMaxBytes 10
  (Load (mkEnv (list_to_map [("DROP_ENABLED", "true"); ("MNEMONIC", "m")]) None)).
Definition wit_derive (m : string) : result (string * string) := Ok ("12D3Koo", "CAES").
Definition wit_cp (data : string) : result string := Ok data.
Definition wit_repo : Repo := mkRepo {[ "config" := "12D3Koo" ]} [] [].
Definition wit_text (z : Z) : string := "OK".
Definition wit_json (j : json) : result Response :=
  Ok (mkResp 200 (-1) (mkBody 64 None [j] None) [] true).
(** A Kubo that takes every upload and reports 4 bytes in use. *)
Definition wit_Do (r : Request) : result Response :=
  if Contains (rq_URL r) "/version" then wit_json (JObj [("Version", JStr "0.30")])
  else if Contains (rq_URL r) "/repo/stat"
  then wit_json (JObj [("RepoSize", JNum 4); ("StorageMax", JNum 10); ("NumObjects", JNum 1)])
  else wit_json (JObj [("Hash", JStr "bafy"); ("Size", JStr "5")]).
Definition wit_cid (c : string) : result unit := Ok tt.
Definition wit_add : AddRequest :=
  mkAdd "up-1" (Some [([1; 2], None); ([3; 4; 5], Some (EVar EOF))]) 5 5
    "74f81fe167d99b4cb41d6d0ccda82278caee9f3e2f25d5e5a3936ff3dcec60d0".
Definition wit_drop : DropState :=
  exec_drop wit_drop_cfg true (OpRefresh "http://kubo:5001" wit_text wit_Do)
    (exec_drop wit_drop_cfg true (OpStart wit_derive wit_cp) (NewService wit_drop_cfg wit_repo)).
Local Notation wit_upload :=
  (Upload wit_drop_cfg true "http://kubo:5001" wit_text wit_Do wit_cid "b" wit_add wit_drop).

Lemma wit_drop_reach : drop_reach wit_drop_cfg true wit_repo wit_drop.
Proof. do 2 apply reach_step. apply reach_new. Qed.

Lemma wit_upload_ok : wit_upload = (Ok (mkAddResult "bafy" 5), wit_upload.2).
Proof. vm_compute. reflexivity. Qed.

Lemma Upload_verified_witness :
  c_DropEnabled wit_drop_cfg = true ∧ d_identityReady wit_drop = true ∧
  sn_State (d_snapshot wit_drop) = "active" ∧ a_DeclaredSize wit_add <= MaxObjectBytes ∧
  sn_RepoSizeBytes (d_snapshot wit_drop) + a_DeclaredSize wit_add
    <= c_DropStorageMaxBytes wit_drop_cfg ∧
  ∃ d u ct resp, verified (bound_request wit_add) d ∧ wit_Do (mkReq u ct (Some (d, None))) = Ok resp ∧
    rs_StatusCode resp = 200 ∧ rs_drained resp = true ∧
    r_Size (mkAddResult "bafy" 5) = Z.of_nat (length d) ∧
    is_ok (wit_cid (TrimSpace (r_CID (mkAddResult "bafy" 5)))) = true.
Proof.
  apply (Upload_verified wit_drop_cfg true wit_repo wit_drop "http://kubo:5001" wit_text wit_Do wit_cid
           "b" wit_add (mkAddResult "bafy" 5) wit_upload.2);
    [vm_compute; split; discriminate|exact wit_drop_reach|exact wit_upload_ok].
Defined.

(** Twice five bytes into a store with six bytes of room. *)
Lemma uploads_not_reserved_witness :
  d_snapshot wit_upload.2 = d_snapshot wit_drop ∧
  upload_times wit_drop_cfg true "http://kubo:5001" wit_text wit_Do wit_cid "b" wit_add 2 wit_drop
    = replicate 2 (Ok (mkAddResult "bafy" 5)).
Proof.
  apply (uploads_not_reserved wit_drop_cfg true "http://kubo:5001" wit_text wit_Do wit_cid "b" wit_add
           wit_drop (mkAddResult "bafy" 5) wit_upload.2 2). exact wit_upload_ok.
Defined.

Lemma identity_handoff_safe_witness :
  let s := mkRepo {[ "config" := "12D3Other" ]} [] [] in
  let s' := (PrepareKuboIdentity wit_derive wit_cp "m" s).2 in
  let r := (PrepareKuboIdentity wit_derive wit_cp "m" s).1 in
  r ≠ Ok tt ∧ rf_files s' !! identityPrivateKeyFile = None.
Proof.
  destruct (identity_handoff_safe wit_derive wit_cp "m" (mkRepo {[ "config" := "12D3Other" ]} [] [])
    _ _ "12D3Koo" "CAES" ltac:(constructor) ltac:(reflexivity) ltac:(apply surjective_pairing))
    as (_ & Hc & _).
  exact (Hc "12D3Other" "12D3Other" ltac:(reflexivity) ltac:(reflexivity) ltac:(discriminate)
           ltac:(discriminate)).
Defined.
