(* ===== verification/Telemetry.v ===== *)
(** * Logging and metrics (internal/telemetry/telemetry.go)

    The default Prometheus registry is process-wide: NewMetrics registers the
    node's nine collectors with promauto, which panics when a name is taken.  A
    labelled collector panics when it is used with another number of label
    values than it was declared with.  [observe] is the use that the Drop service
    makes of each of its counters ([DropService.metric]) and [node_use] the use
    that the node service makes of its own. *)
From S2P Require Import Prelude GoStrings DropService.

(** ** Logging *)

Inductive Level := LevelDebug | LevelInfo | LevelWarn | LevelError.
Definition level_value (l : Level) : Z :=
  match l with LevelDebug => -4 | LevelInfo => 0 | LevelWarn => 4 | LevelError => 8 end.

(** The level of the handler that becomes the default. *)
Definition InitLogger (debug : bool) : Level := if debug then LevelDebug else LevelInfo.
Definition logs (handler l : Level) : bool := level_value handler <=? level_value l.

Lemma InitLogger_drops debug l : logs (InitLogger debug) l = false ↔ debug = false ∧ l = LevelDebug.
Proof. destruct debug, l; cbn; naive_solver. Qed.

(** ** The registry *)

Inductive Kind := Gauge | Counter.
Record Collector := mkCollector { co_Name : string; co_Help : string; co_Kind : Kind; co_Labels : list string }.

Definition Registry := list Collector.
Definition names (r : Registry) : list string := co_Name <$> r.

Definition registered_twice (c : Collector) : error :=
  EPanic ("duplicate metrics collector registration attempted: " +:+ co_Name c).

(** promauto.New...: MustRegister on the default registry. *)
Definition MustRegister (c : Collector) : M Registry Collector := run (λ r,
  if bool_decide (co_Name c ∈ names r) then (Err (registered_twice c), r) else (Ok c, r ++ [c])).

Definition NewGauge (name help : string) : M Registry Collector := MustRegister (mkCollector name help Gauge []).
Definition NewCounter (name help : string) : M Registry Collector := MustRegister (mkCollector name help Counter []).
Definition NewCounterVec (name help : string) (labels : list string) : M Registry Collector :=
  MustRegister (mkCollector name help Counter labels).

Record Metrics := mkMetrics {
  WGPeers : Collector; ProxySessions : Collector; SingboxRebuilds : Collector;
  PeerProvisioned : Collector; PeerDeprovisioned : Collector;
  DropUploads : Collector; DropUploadBytes : Collector; DropDownloadBytes : Collector;
  DropNodeOperations : Collector;
}.

Definition NewMetrics : M Registry Metrics :=
  wgPeers ← NewGauge "erebrus_wg_peers" "Number of configured WireGuard peers.";
  sessions ← NewGauge "erebrus_proxy_sessions" "Active sing-box proxy sessions.";
  rebuilds ← NewCounter "erebrus_singbox_rebuilds_total" "sing-box configuration rebuilds.";
  provisioned ← NewCounter "erebrus_peer_provisioned_total" "Peers provisioned.";
  deprovisioned ← NewCounter "erebrus_peer_deprovisioned_total" "Peers removed.";
  uploads ← NewCounterVec "drop_uploads_total" "Drop uploads by result and scope." ["result"; "scope"];
  uploadBytes ← NewCounterVec "drop_upload_bytes_total" "Drop upload bytes by scope." ["scope"];
  downloadBytes ← NewCounterVec "drop_download_bytes_total" "Drop download bytes by scope." ["scope"];
  operations ← NewCounterVec "drop_node_operations_total" "Drop node operations by operation and result."
                 ["operation"; "result"];
  mret (mkMetrics wgPeers sessions rebuilds provisioned deprovisioned uploads uploadBytes downloadBytes operations).

(** ** Samples *)

(** A use of a collector: its name, its label values and the amount. *)
Record Sample := mkSample { sa_Name : string; sa_Labels : list string; sa_Value : Z }.

Definition WithLabelValues (c : Collector) (vals : list string) (amount : Z) : result Sample :=
  if (length vals =? length (co_Labels c))%nat then Ok (mkSample (co_Name c) vals amount)
  else Err (EPanic "inconsistent label cardinality").

(** What observeOperation, Upload and RecordDownload do with the counters. *)
Definition observe (m : Metrics) (x : metric) : result Sample :=
  match x with
  | NodeOperation op outcome => WithLabelValues (DropNodeOperations m) [op; outcome] 1
  | Uploads outcome => WithLabelValues (DropUploads m) [outcome; "node"] 1
  | UploadBytes n => WithLabelValues (DropUploadBytes m) ["node"] n
  | DownloadBytes n => WithLabelValues (DropDownloadBytes m) ["node"] n
  end.

(** ** Properties *)

(** The names that NewMetrics registers, in order. *)
Definition metric_names : list string :=
  ["erebrus_wg_peers"; "erebrus_proxy_sessions"; "erebrus_singbox_rebuilds_total";
   "erebrus_peer_provisioned_total"; "erebrus_peer_deprovisioned_total"; "drop_uploads_total";
   "drop_upload_bytes_total"; "drop_download_bytes_total"; "drop_node_operations_total"].

Lemma register_bind {A} c (f : Collector → M Registry A) r a r' :
  (MustRegister c ≫= f) r = (Ok a, r') ↔ co_Name c ∉ names r ∧ f c (r ++ [c]) = (Ok a, r').
Proof.
  unfold MustRegister, run, mbind, M_bind. case_bool_decide; naive_solver.
Qed.

(** The fields of a [Metrics] in the order of registration. *)
Definition collectors (m : Metrics) : list Collector :=
  [WGPeers m; ProxySessions m; SingboxRebuilds m; PeerProvisioned m; PeerDeprovisioned m; DropUploads m;
   DropUploadBytes m; DropDownloadBytes m; DropNodeOperations m].

Lemma NewMetrics_ok r m r' :
  NewMetrics r = (Ok m, r') →
  (∀ n, n ∈ metric_names → n ∉ names r) ∧ r' = r ++ collectors m ∧ names (collectors m) = metric_names ∧
  ∀ x, is_ok (observe m x) = true.
Proof.
  unfold NewMetrics, NewGauge, NewCounter, NewCounterVec. intros H.
  do 9 (apply register_bind in H as [?Hn H]; rewrite <- ?app_assoc in H; cbn [app] in H).
  injection H as <- <-. split; [|split; [done|split; [done|by intros []]]].
  unfold names in *. rewrite ?fmap_app, ?elem_of_app in *. cbn in *. intros n Hin Hr. unfold metric_names in Hin.
  rewrite !elem_of_cons, elem_of_nil in Hin. naive_solver.
Qed.

Lemma free_snoc n r c : n ∉ names r → n ≠ co_Name c → n ∉ names (r ++ [c]).
Proof. unfold names. rewrite fmap_app, elem_of_app. cbn. rewrite list_elem_of_singleton. naive_solver. Qed.

Lemma NewMetrics_free r : (∀ n, n ∈ metric_names → n ∉ names r) → ∃ m r', NewMetrics r = (Ok m, r').
Proof.
  intros H. eexists _, _. unfold NewMetrics, NewGauge, NewCounter, NewCounterVec.
  do 9 (apply register_bind; split; [repeat (apply free_snoc; [|done]); apply H; unfold metric_names; set_solver|]).
  done.
Qed.

(** NewMetrics succeeds exactly when none of its names is taken, so once in a
    process and never a second time; every sample of the Drop service then has
    the number of labels its counter was declared with. *)
Lemma NewMetrics_once r :
  ((∃ m r', NewMetrics r = (Ok m, r')) ↔ ∀ n, n ∈ metric_names → n ∉ names r) ∧
  (∀ m r', NewMetrics r = (Ok m, r') → is_ok (NewMetrics r').1 = false ∧ ∀ x, is_ok (observe m x) = true).
Proof.
  split; [split; [by intros (m & r' & (H & _)%NewMetrics_ok)|apply NewMetrics_free]|].
  intros m r' (H1 & -> & H2 & H3)%NewMetrics_ok. split; [|done].
  destruct (NewMetrics (r ++ collectors m)) as [[m2|] r2] eqn:E; [|done].
  apply NewMetrics_ok in E as [H4 _]. exfalso. apply (H4 "erebrus_wg_peers"); [by left|].
  unfold names in *. rewrite fmap_app, H2. apply elem_of_app. right. by left.
Qed.

Example NewMetrics_empty : (names (NewMetrics []).2) = metric_names.
Proof. reflexivity. Qed.
