(* ===== verification/Wallet.v ===== *)
(** * Wallets: internal/wallet/wallet.go

    Chain names, the addresses and public keys derived from a mnemonic, and
    the signature of a gateway challenge.  The mnemonic, key-derivation, curve
    and hash packages are outside the program: they are the fields of
    [WalletLib].  The packages derive 65-byte uncompressed public keys,
    65-byte recoverable signatures and 32-byte Keccak digests, so the code's
    slices and indices are in range. *)
From S2P Require Import Prelude GoStrings GoUrl Sha256.

(** ** Chain names *)

Definition ChainEVM : string := "evm".
Definition ChainSOL : string := "sol".
Definition ChainSolana : string := "SOLANA".
Definition ChainEthereum : string := "ETHEREUM".

Definition ResolveChain (chain : string) : string :=
  let u := ToUpper (TrimSpace chain) in
  if bool_decide (u ∈ [EmptyString; "SOL"; "SOLANA"]) then ChainSOL
  else if bool_decide (u ∈ ["EVM"; "ETH"; "ETHEREUM"]) then ChainEVM
  else
    let l := ToLower (TrimSpace chain) in
    if bool_decide (l ∈ [ChainSOL; "solana"]) then ChainSOL
    else if bool_decide (l ∈ [ChainEVM; "ethereum"; "eth"]) then ChainEVM
    else ChainSOL.

Definition CanonicalChain (chain : string) : string :=
  if String.eqb (ResolveChain chain) ChainEVM then ChainEthereum else ChainSolana.

Definition ChainLabel (chain : string) : string :=
  let c := ResolveChain chain in
  if String.eqb c ChainEVM then "Ethereum"
  else if String.eqb c ChainSOL then "Solana" else "Solana".

(** ** The packages used *)

Record WalletLib (Account HDKey ECKey : Type) := mkLib {
  (* go-bip39 *)
  IsMnemonicValid : string → bool;
  NewSeed : string → string → list Z;
  (* solana hdwallet, types, ed25519, base58 *)
  hd_Derived : string → list Z → result (list Z);
  AccountFromSeed : list Z → result Account;
  ToBase58 : Account → string;
  ed25519_Sign : Account → list Z → list Z;
  base58_Encode : list Z → string;
  (* go-bip32, go-ethereum/crypto, sha3 *)
  NewMasterKey : list Z → result HDKey;
  NewChildKey : HDKey → Z → result HDKey;
  hd_Key : HDKey → list Z;
  ToECDSA : list Z → result ECKey;
  FromECDSAPub : ECKey → list Z;
  Keccak256 : list Z → list Z;
  eth_Sign : list Z → ECKey → result (list Z) }.
Arguments mkLib {_ _ _}.
Arguments IsMnemonicValid {_ _ _}.
Arguments NewSeed {_ _ _}.
Arguments hd_Derived {_ _ _}.
Arguments AccountFromSeed {_ _ _}.
Arguments ToBase58 {_ _ _}.
Arguments ed25519_Sign {_ _ _}.
Arguments base58_Encode {_ _ _}.
Arguments NewMasterKey {_ _ _}.
Arguments NewChildKey {_ _ _}.
Arguments hd_Key {_ _ _}.
Arguments ToECDSA {_ _ _}.
Arguments FromECDSAPub {_ _ _}.
Arguments Keccak256 {_ _ _}.
Arguments eth_Sign {_ _ _}.

Record WalletIdentity := mkIdentity { wi_Chain : string; wi_Address : string; wi_PubKey : string }.

Section wallet.
Context {Account HDKey ECKey : Type} (L : WalletLib Account HDKey ECKey).

(** [hash[i/2] >> (4*(1-i%2)) & 0xF] *)
Definition nibble (hash : list Z) (i : nat) : Z :=
  Z.land (Z.shiftr (nth (i / 2) hash 0) (4 * (1 - Z.of_nat i mod 2))) 15.

Fixpoint checksum_loop (hash : list Z) (i : nat) (address : string) : string :=
  match address with
  | EmptyString => EmptyString
  | String c rest =>
      let c' := if is_digit c then c
                else if 8 <=? nibble hash i then chr (code c - 97 + 65)
                else c in
      String c' (checksum_loop hash (S i) rest)
  end.

Definition toChecksumAddress (address : string) : string :=
  let address := ToLower address in
  let hash := Keccak256 L (bytes_of address) in
  "0x" +:+ checksum_loop hash 0 address.

Definition FirstHardenedChild : Z := 2 ^ 31.
Definition evm_path : list Z :=
  [FirstHardenedChild + 44; FirstHardenedChild + 60; FirstHardenedChild + 0; 0; 0].

Fixpoint child_keys (k : HDKey) (path : list Z) : result HDKey :=
  match path with
  | [] => Ok k
  | i :: path => k' ← NewChildKey L k i; child_keys k' path
  end.

Definition evmKeypair (mnemonic : string) : result (string * ECKey) :=
  let seed := NewSeed L mnemonic EmptyString in
  master ← NewMasterKey L seed;
  child ← child_keys master evm_path;
  key ← ToECDSA L (hd_Key L child);
  let pubBytes := FromECDSAPub L key in
  let addrBytes := drop 12 (Keccak256 L (drop 1 pubBytes)) in
  Ok (toChecksumAddress (hex_encode addrBytes), key).

Definition sol_path : string := "m/44'/501'/0'/0'".

Definition wrap_r {A} (pre : string) (r : result A) : result A :=
  match r with Ok a => Ok a | Err e => Err (EWrap pre e EmptyString) end.

Definition deriveSolana (mnemonic : string) : result WalletIdentity :=
  let seed := NewSeed L mnemonic EmptyString in
  derived ← wrap_r "derive solana key: " (hd_Derived L sol_path seed);
  account ← wrap_r "solana account: " (AccountFromSeed L derived);
  Ok (mkIdentity ChainSOL (ToBase58 L account) (ToBase58 L account)).

Definition deriveEVM (mnemonic : string) : result WalletIdentity :=
  p ← evmKeypair mnemonic; let '(addr, _) := p in Ok (mkIdentity ChainEVM addr EmptyString).

Definition Derive (mnemonic chain : string) : result WalletIdentity :=
  let chain := ResolveChain chain in
  if negb (IsMnemonicValid L mnemonic) then Err (EMsg "invalid mnemonic")
  else if String.eqb chain ChainSOL then deriveSolana mnemonic
  else if String.eqb chain ChainEVM then deriveEVM mnemonic
  else Err (EMsg ("unsupported wallet chain " +:+ quote_q chain +:+ " (use sol or evm)")).

Definition AddressFromMnemonic (mnemonic chain : string) : result string :=
  id ← Derive mnemonic chain; Ok (wi_Address id).

Definition PublicKeyFromMnemonic (mnemonic chain : string) : result string :=
  let c := ResolveChain chain in
  if String.eqb c ChainSOL then
    let seed := NewSeed L mnemonic EmptyString in
    derived ← hd_Derived L sol_path seed;
    account ← AccountFromSeed L derived;
    Ok (ToBase58 L account)
  else if String.eqb c ChainEVM then
    p ← evmKeypair mnemonic; let '(_, key) := p in
    Ok (hex_encode (FromECDSAPub L key))
  else Err (EMsg ("unsupported chain " +:+ quote_q chain)).

(** [sig[64] += 27] below 27, on a byte. *)
Definition recovery_byte (sig : list Z) : list Z :=
  match sig !! 64%nat with
  | Some v => if v <? 27 then <[64%nat := (v + 27) mod 256]> sig else sig
  | None => sig
  end.

Definition eth_prefixed (message : string) : string :=
  String (chr 25) ("Ethereum Signed Message:" +:+ newline +:+ Itoa (slen message) +:+ message).

Definition SignChallengeWithMnemonic (mnemonic chain message : string)
  : result (string * string * string) :=
  let c := ResolveChain chain in
  if String.eqb c ChainSOL then
    let seed := NewSeed L mnemonic EmptyString in
    derived ← hd_Derived L sol_path seed;
    account ← AccountFromSeed L derived;
    let sig := ed25519_Sign L account (bytes_of message) in
    Ok (ToBase58 L account, ToBase58 L account, base58_Encode L sig)
  else if String.eqb c ChainEVM then
    p ← evmKeypair mnemonic; let '(addr, key) := p in
    let hash := Keccak256 L (bytes_of (eth_prefixed message)) in
    sig ← eth_Sign L hash key;
    let sig := recovery_byte sig in
    Ok (addr, hex_encode (FromECDSAPub L key), "0x" +:+ hex_encode sig)
  else Err (EMsg ("unsupported chain " +:+ quote_q chain)).

(** ** Chain names are stable *)

Lemma ResolveChain_cases chain : ResolveChain chain = ChainSOL ∨ ResolveChain chain = ChainEVM.
Proof. unfold ResolveChain. cbv zeta. repeat case_match; auto. Qed.

(** The label sent to the gateway names the chain that signs. *)
Lemma CanonicalChain_resolves chain : ResolveChain (CanonicalChain chain) = ResolveChain chain.
Proof. unfold CanonicalChain. by destruct (ResolveChain_cases chain) as [-> | ->]. Qed.

(** ** One key behind address, public key and signature *)

(** The signature names the wallet that AddressFromMnemonic and
    PublicKeyFromMnemonic report. *)
Lemma sign_same_wallet mnemonic chain message addr pub a p s :
  AddressFromMnemonic mnemonic chain = Ok addr →
  PublicKeyFromMnemonic mnemonic chain = Ok pub →
  SignChallengeWithMnemonic mnemonic chain message = Ok (a, p, s) → a = addr ∧ p = pub.
Proof.
  unfold AddressFromMnemonic, Derive, PublicKeyFromMnemonic, SignChallengeWithMnemonic. cbv zeta.
  destruct (negb _); [discriminate|].
  destruct (ResolveChain_cases chain) as [-> | ->]; cbn [String.eqb].
  - change (String.eqb ChainSOL ChainSOL) with true. cbv iota. unfold deriveSolana. cbv zeta.
    destruct (hd_Derived L sol_path _) as [d|e]; [|discriminate]. cbn.
    destruct (AccountFromSeed L d) as [acc|e]; [|discriminate]. cbn.
    intros [= <-] [= <-] [= <- <- _]. done.
  - change (String.eqb ChainEVM ChainSOL) with false. change (String.eqb ChainEVM ChainEVM) with true.
    cbv iota. unfold deriveEVM. destruct (evmKeypair mnemonic) as [[ad key]|e]; [|discriminate]. cbn.
    intros [= <-] [= <-]. destruct (eth_Sign L _ key) as [sg|e]; [|discriminate].
    intros [= <- <- _]. done.
Qed.

(** ** The address checksum *)

Definition is_hex (c : Ascii.ascii) : bool := is_digit c || in_range 97 102 c || in_range 65 70 c.

(** A hex digit keeps its value, and a letter gets the chosen case. *)
Lemma check_char (up : bool) c :
  is_hex c = true →
  let c' := if is_digit (to_lower c) then to_lower c
            else if up then chr (code (to_lower c) - 97 + 65) else to_lower c in
  to_lower c' = to_lower c ∧ (is_digit c' = false → is_upper c' = up).
Proof.
  intros Hc. cbv zeta.
  set (c' := if is_digit (to_lower c) then _ else _).
  assert (H : negb (is_hex c) || (Ascii.eqb (to_lower c') (to_lower c) &&
                (is_digit c' || Bool.eqb (is_upper c') up)) = true).
  { subst c'. clear Hc. destruct up; revert c;
      [apply (byte_cases (λ c, negb (is_hex c) || (Ascii.eqb (to_lower
          (if is_digit (to_lower c) then to_lower c else chr (code (to_lower c) - 97 + 65))) (to_lower c) &&
          (is_digit (if is_digit (to_lower c) then to_lower c else chr (code (to_lower c) - 97 + 65)) ||
           Bool.eqb (is_upper (if is_digit (to_lower c) then to_lower c
                               else chr (code (to_lower c) - 97 + 65))) true))))
      |apply (byte_cases (λ c, negb (is_hex c) || (Ascii.eqb (to_lower
          (if is_digit (to_lower c) then to_lower c else to_lower c)) (to_lower c) &&
          (is_digit (if is_digit (to_lower c) then to_lower c else to_lower c) ||
           Bool.eqb (is_upper (if is_digit (to_lower c) then to_lower c else to_lower c)) false))))];
      vm_compute; reflexivity. }
  rewrite Hc in H. cbn [negb orb] in H. apply andb_true_iff in H as [H1%Ascii.eqb_eq H2].
  split; [done|]. intros Hd. rewrite Hd in H2. by apply eqb_prop in H2.
Qed.

Lemma checksum_loop_spec hash a : ∀ i,
  sforall is_hex a = true →
  ToLower (checksum_loop hash i (ToLower a)) = ToLower a ∧
  ∀ n c, String.get n (checksum_loop hash i (ToLower a)) = Some c → is_digit c = false →
    is_upper c = (8 <=? nibble hash (i + n)).
Proof.
  induction a as [|c a IH]; intros i; [done|]. cbn [sforall].
  intros [Hc Ha]%andb_true_iff. destruct (IH (S i) Ha) as [IH1 IH2].
  destruct (check_char (8 <=? nibble hash i) c Hc) as [H1 H2]. cbv zeta in *.
  unfold ToLower in *. cbn [smap checksum_loop]. cbv zeta. split.
  - by rewrite IH1, H1.
  - intros [|n] d; cbn [String.get].
    + intros [= <-]. rewrite Nat.add_0_r. apply H2.
    + replace (i + S n)%nat with (S i + n)%nat by lia. apply IH2.
Qed.

(** The checksummed form of a hex address is the address up to case behind
    [0x], its letters are upper case exactly where the digest of the
    lower-case address has a nibble of at least 8, and it is its own
    checksummed form. *)
Lemma checksum_exact a :
  sforall is_hex a = true →
  ∃ body, toChecksumAddress a = "0x" +:+ body ∧ EqualFold body a = true ∧
    toChecksumAddress body = "0x" +:+ body ∧
    ∀ n c, String.get n body = Some c → is_digit c = false →
      is_upper c = (8 <=? nibble (Keccak256 L (bytes_of (ToLower a))) n).
Proof.
  intros Ha. unfold toChecksumAddress. cbv zeta.
  destruct (checksum_loop_spec (Keccak256 L (bytes_of (ToLower a))) a 0 Ha) as [H1 H2].
  eexists. split; [done|]. rewrite H1. split; [|by auto].
  unfold EqualFold. rewrite H1. by apply bool_decide_eq_true.
Qed.
End wallet.
