(* ===== verification/ServiceAgent.v ===== *)
(** * The service agent: internal/serviceagent/agent.go

    Polls the firewall sidecar and keeps a map of service states for status
    reports and heartbeats.  What a GET request yields is an argument of each
    check: it may differ from check to check. *)
From S2P Require Import Prelude GoStrings ConfigData Config.

(** Building the request fails, the request fails, or an answer arrives. *)
Inductive Probe := BadRequest | NoAnswer | Answer (status : Z).

Record Agent := mkAgent { ag_snapshot : gmap string string }.

Section agent.
Context (cfg : Config).

Definition NewAgent : Agent := mkAgent {[ "vpn" := "active" ]}.

Definition probeHTTP (Get : string → Probe) (url : string) : string :=
  let url := TrimSpace url in
  if String.eqb url EmptyString then "unknown"
  else match Get url with
       | BadRequest => "error"
       | NoAnswer => "unreachable"
       | Answer status => if Z.quot status 100 =? 2 then "active" else "degraded"
       end.

Definition probeAll (Get : string → Probe) : gmap string string :=
  let out : gmap string string := {[ "vpn" := "active" ]} in
  if negb (HasFirewallService cfg) then out
  else
    let provider := c_FirewallProvider cfg in
    if String.eqb provider FirewallAdGuardHome then
      <["community_firewall" := probeHTTP Get (c_ShieldAdminURL cfg +:+ "/")]> out
    else if String.eqb provider FirewallUnboundErebrus then
      let state := probeHTTP Get (c_SentinelAPIURL cfg +:+ "/health") in
      if negb (c_SentinelLicensed cfg) then <["erebrus_firewall" := "unlicensed"]> out
      else <["erebrus_firewall" := state]> out
    else out.

Definition check (Get : string → Probe) (a : Agent) : Agent := mkAgent (probeAll Get).

(** The loop: one check at the start and one per tick until the context
    ends; [gets] are the answers of the checks made. *)
Definition agent_loop (gets : list (string → Probe)) (a : Agent) : Agent :=
  foldl (λ a Get, check Get a) a gets.

Definition AgentSnapshot (a : Agent) : gmap string string := ag_snapshot a.

Definition FirewallOK (a : Agent) : bool * string :=
  if negb (HasFirewallService cfg) then (true, "not configured")
  else
    let snap := AgentSnapshot a in
    let provider := c_FirewallProvider cfg in
    if String.eqb provider FirewallAdGuardHome then
      let st := default EmptyString (snap !! "community_firewall") in (String.eqb st "active", st)
    else if String.eqb provider FirewallUnboundErebrus then
      if negb (c_SentinelLicensed cfg) then (false, "unlicensed")
      else let st := default EmptyString (snap !! "erebrus_firewall") in (String.eqb st "active", st)
    else (true, "unknown provider").

(** The URL the configured sidecar is probed at. *)
Definition sidecar_url : string :=
  if String.eqb (c_FirewallProvider cfg) FirewallAdGuardHome then c_ShieldAdminURL cfg +:+ "/"
  else c_SentinelAPIURL cfg +:+ "/health".

Definition known_provider : Prop :=
  c_FirewallProvider cfg = FirewallAdGuardHome ∨ c_FirewallProvider cfg = FirewallUnboundErebrus.

Lemma probeHTTP_active Get url :
  probeHTTP Get url = "active" ↔
  TrimSpace url ≠ EmptyString ∧ ∃ st, Get (TrimSpace url) = Answer st ∧ Z.quot st 100 = 2.
Proof.
  unfold probeHTTP. cbv zeta. destruct (String.eqb_spec (TrimSpace url) EmptyString) as [->|Hne].
  { split; [done|]. by intros []. }
  destruct (Get (TrimSpace url)) as [| |st].
  1,2: split; [done|]; intros (_ & ? & ? & _); done.
  destruct (Z.eqb_spec (Z.quot st 100) 2).
  - split; [|done]. intros _. eauto.
  - split; [done|]. intros (_ & ? & [= <-] & ?). done.
Qed.

(** With a known provider the verdict is that of the last check: healthy
    exactly when the sidecar is licensed (where it needs to be) and answered
    the last probe with a 2xx status. *)
Lemma FirewallOK_last gets Get a :
  known_provider →
  let a' := agent_loop (gets ++ [Get]) a in
  (FirewallOK a').1 = true ↔
  (c_FirewallProvider cfg = FirewallUnboundErebrus → c_SentinelLicensed cfg = true) ∧
  probeHTTP Get sidecar_url = "active".
Proof.
  intros Hp. cbv zeta. unfold agent_loop. rewrite foldl_app. cbn [foldl].
  assert (Hf : HasFirewallService cfg = true) by (unfold HasFirewallService; by destruct Hp as [-> | ->]).
  unfold FirewallOK, check, AgentSnapshot, probeAll, sidecar_url. rewrite Hf. cbn [negb ag_snapshot]. cbv zeta.
  destruct Hp as [Hp|Hp]; rewrite Hp, ?String.eqb_refl.
  - change (String.eqb FirewallAdGuardHome FirewallUnboundErebrus) with false.
    rewrite lookup_insert_eq. cbn [default fst]. rewrite String.eqb_eq. split; [|by intros []]. done.
  - change (String.eqb FirewallUnboundErebrus FirewallAdGuardHome) with false. cbv iota.
    destruct (c_SentinelLicensed cfg); cbn [negb fst].
    + rewrite lookup_insert_eq. cbn [default fst]. rewrite String.eqb_eq. split; [|by intros []]. done.
    + split; [done|]. intros [H _]. by specialize (H eq_refl).
Qed.

(** Before the first check the sidecar's state is the empty text. *)
Lemma FirewallOK_initial :
  known_provider → c_SentinelLicensed cfg = true → FirewallOK NewAgent = (false, EmptyString).
Proof.
  intros Hp Hl. assert (Hf : HasFirewallService cfg = true) by (unfold HasFirewallService; by destruct Hp as [-> | ->]).
  unfold FirewallOK. rewrite Hf. cbn [negb]. cbv zeta. rewrite Hl. by destruct Hp as [-> | ->].
Qed.
End agent.
