(* ===== verification/Readiness.v ===== *)
(** * Readiness: internal/readiness

    The readiness report of a node: eight checks computed from the
    configuration and live signals, the configuration-only report before the
    start, the summary line, and the labels of the status page. *)
From S2P Require Import Prelude GoStrings ConfigData Config ServiceAgent.

Record Check := mkCheck { ck_ID : string; ck_OK : bool; ck_Detail : string; ck_Optional : bool }.
Record Report := mkReadiness { rp_OK : bool; rp_Checks : list Check; rp_Warnings : list string }.

(** Input, without the configuration, which is an argument. *)
Record ReadinessInput := mkInput {
  in_IdentityConfigured : bool; in_GatewayRegistered : bool; in_GatewayConnected : bool;
  in_WireGuardOK : bool; in_StealthListening : bool; in_FirewallOK : bool;
  in_FirewallDetail : string; in_DropState : string }.

Definition nonempty (s : string) : bool := negb (String.eqb s EmptyString).

Definition identityDetail (configured hasMnemonic : bool) : string :=
  if configured && hasMnemonic then "node identity configured"
  else if negb hasMnemonic then "node identity (recovery phrase) not set"
  else "node identity pending".

Definition apiKeyDetail (ok : bool) : string := if ok then "configured" else "required in release mode".

Definition apiKeyCheck (cfg : Config) : Check :=
  if String.eqb (c_RunType cfg) "debug" && String.eqb (EffectiveNodeKey cfg) EmptyString
  then mkCheck "node_api_key" true "not set — peer API open in debug mode" true
  else mkCheck "node_api_key" (nonempty (EffectiveNodeKey cfg))
         (apiKeyDetail (nonempty (EffectiveNodeKey cfg))) false.

Definition wireguardDetail (ok : bool) : string :=
  if ok then "interface ready" else "interface not up — check NET_ADMIN and wireguard-tools".

Definition stealthDetail (listening : bool) : string :=
  if listening then "vless-reality and hysteria2 listening" else "carriers enabled but not listening".

Definition stealthCheck (cfg : Config) (listening : bool) : Check :=
  if negb (c_EnableStealth cfg) then mkCheck "stealth" true "disabled" true
  else mkCheck "stealth" listening (stealthDetail listening) false.

Definition firewallCheck (cfg : Config) (ok : bool) (detail : string) : Check :=
  if negb (HasFirewallService cfg) then mkCheck "firewall" true "not configured" true
  else
    let detail := if String.eqb detail EmptyString then "sidecar healthy" else detail in
    if negb ok then mkCheck "firewall" false detail false else mkCheck "firewall" true detail false.

Definition dropCheck (cfg : Config) (state : string) : Check :=
  if negb (c_DropEnabled cfg) then mkCheck "drop" true "disabled" true
  else
    let state := if String.eqb state EmptyString then "starting" else state in
    mkCheck "drop" (String.eqb state "active" || String.eqb state "full") state true.

Definition controlPlaneCheck (cfg : Config) (registered connected : bool) : Check :=
  if negb (GatewayEnabled cfg) then mkCheck "control_plane" true "gateway URL not configured" true
  else if negb registered then mkCheck "control_plane" false "not registered with gateway" false
  else if connected then mkCheck "control_plane" true "registered, control channel connected" false
  else mkCheck "control_plane" true "registered, control channel reconnecting" false.

(** The loops over the checks: the first required check that fails decides. *)
Fixpoint all_required (l : list Check) : bool :=
  match l with
  | [] => true
  | c :: l => if ck_Optional c then all_required l
              else if negb (ck_OK c) then false else all_required l
  end.

Definition no_config : Report :=
  mkReadiness false [mkCheck "config" false "configuration not loaded" false] [].

Definition checks_of (cfg : Config) (i : ReadinessInput) : list Check :=
  [mkCheck "identity" (in_IdentityConfigured i && nonempty (c_Mnemonic cfg))
     (identityDetail (in_IdentityConfigured i) (nonempty (c_Mnemonic cfg))) false;
   mkCheck "public_address" (nonempty (c_WGEndpointHost cfg)) (c_WGEndpointHost cfg) false;
   apiKeyCheck cfg;
   mkCheck "wireguard" (in_WireGuardOK i) (wireguardDetail (in_WireGuardOK i)) false;
   stealthCheck cfg (in_StealthListening i);
   firewallCheck cfg (in_FirewallOK i) (in_FirewallDetail i);
   dropCheck cfg (in_DropState i);
   controlPlaneCheck cfg (in_GatewayRegistered i) (in_GatewayConnected i)].

Definition Evaluate (cfg : option Config) (i : ReadinessInput) : Report :=
  match cfg with
  | None => no_config
  | Some cfg =>
      let checks := checks_of cfg i in
      mkReadiness (all_required checks) checks (m_Warnings (c_Mode cfg))
  end.

Definition after_start (id : string) : Check := mkCheck id true "checked after node start" true.

Definition Preboot (cfg : option Config) : Report :=
  match cfg with
  | None => no_config
  | Some cfg =>
      let m := nonempty (c_Mnemonic cfg) in
      let checks :=
        [mkCheck "identity" m (identityDetail m m) false;
         mkCheck "public_address" (nonempty (c_WGEndpointHost cfg)) (c_WGEndpointHost cfg) false;
         apiKeyCheck cfg; after_start "wireguard"] ++
        (if c_EnableStealth cfg then [after_start "stealth"] else []) ++
        [after_start "drop"; after_start "control_plane"] in
      mkReadiness (all_required checks) checks (m_Warnings (c_Mode cfg))
  end.

Definition AccessModeLabel (mode : string) : string :=
  if String.eqb mode ModePrivate then "Private" else if String.eqb mode ModePublic then "Public" else mode.

Definition AccessModeHint (mode : string) : string :=
  if String.eqb mode ModePrivate then "Only your org and devices can use this node."
  else if String.eqb mode ModePublic then "Listed on the network for users to connect."
  else EmptyString.

Definition regionNames : list (string * string) :=
  [("AD", "Andorra"); ("AE", "United Arab Emirates"); ("AF", "Afghanistan"); ("AL", "Albania");
   ("AM", "Armenia"); ("AR", "Argentina"); ("AT", "Austria"); ("AU", "Australia");
   ("AZ", "Azerbaijan"); ("BA", "Bosnia and Herzegovina"); ("BD", "Bangladesh");
   ("BE", "Belgium"); ("BG", "Bulgaria"); ("BR", "Brazil"); ("BY", "Belarus"); ("CA", "Canada");
   ("CH", "Switzerland"); ("CL", "Chile"); ("CN", "China"); ("CO", "Colombia"); ("CY", "Cyprus");
   ("CZ", "Czechia"); ("DE", "Germany"); ("DK", "Denmark"); ("EE", "Estonia"); ("EG", "Egypt");
   ("ES", "Spain"); ("FI", "Finland"); ("FR", "France"); ("GB", "United Kingdom");
   ("GE", "Georgia"); ("GR", "Greece"); ("HK", "Hong Kong"); ("HR", "Croatia");
   ("HU", "Hungary"); ("ID", "Indonesia"); ("IE", "Ireland"); ("IL", "Israel"); ("IN", "India");
   ("IS", "Iceland"); ("IT", "Italy"); ("JP", "Japan"); ("KR", "South Korea");
   ("KZ", "Kazakhstan"); ("LT", "Lithuania"); ("LU", "Luxembourg"); ("LV", "Latvia");
   ("MD", "Moldova"); ("MX", "Mexico"); ("MY", "Malaysia"); ("NG", "Nigeria");
   ("NL", "Netherlands"); ("NO", "Norway"); ("NZ", "New Zealand"); ("PH", "Philippines");
   ("PK", "Pakistan"); ("PL", "Poland"); ("PT", "Portugal"); ("RO", "Romania"); ("RS", "Serbia");
   ("RU", "Russia"); ("SE", "Sweden"); ("SG", "Singapore"); ("SI", "Slovenia");
   ("SK", "Slovakia"); ("TH", "Thailand"); ("TR", "Turkey"); ("TW", "Taiwan"); ("UA", "Ukraine");
   ("US", "United States"); ("VN", "Vietnam"); ("ZA", "South Africa")].

Definition RegionLabel (code : string) : string :=
  let code := TrimSpace code in
  if String.eqb code EmptyString || EqualFold code "unknown" then "Not set"
  else match find_first (λ kv, String.eqb kv.1 (ToUpper code)) regionNames with
       | Some (_, name) => name
       | None =>
           if (2 <? slen code) || Contains code "-" || Contains code "_" then code
           else code +:+ " (country code)"
       end.

Definition ZoneLabel (zone : string) : string :=
  let zone := TrimSpace zone in
  if String.eqb zone EmptyString then EmptyString
  else
    let z := ToLower (ReplaceAll1 zone "_"%char "-"%char) in
    if bool_decide (z ∈ ["east"; "us-east"; "useast"]) then "US East"
    else if bool_decide (z ∈ ["west"; "us-west"; "uswest"]) then "US West"
    else if bool_decide (z ∈ ["central"; "us-central"; "uscentral"]) then "US Central"
    else zone.

Definition PublicAPIURL (cfg : option Config) : string :=
  match cfg with None => EmptyString | Some cfg => PublicAPIBaseURL cfg end.

(** The required check that fails first. *)
Definition first_failing (l : list Check) : option Check :=
  find_first (λ c, negb (ck_Optional c) && negb (ck_OK c)) l.

Definition SummaryLine (r : Report) : string :=
  if rp_OK r then "ready"
  else match first_failing (rp_Checks r) with
       | Some c => "not ready: " +:+ ck_ID c
       | None => "not ready"
       end.

(** ** What a report says *)

Lemma all_required_forall l :
  all_required l = true ↔ Forall (λ c, ck_Optional c = true ∨ ck_OK c = true) l.
Proof.
  induction l as [|c l IH]; [done|]. cbn [all_required]. rewrite Forall_cons, <- IH.
  destruct (ck_Optional c), (ck_OK c); cbn; naive_solver.
Qed.

Lemma first_failing_required l : first_failing l = None ↔ all_required l = true.
Proof.
  unfold first_failing. induction l as [|c l IH]; [done|]. cbn [find_first all_required].
  destruct (ck_Optional c), (ck_OK c); cbn; try done; apply IH.
Qed.

Lemma nonempty_true s : nonempty s = true ↔ s ≠ EmptyString.
Proof. unfold nonempty. by rewrite negb_true_iff, String.eqb_neq. Qed.

(** What the node needs, from the configuration and from its parts. *)
Definition config_ready (cfg : Config) : Prop :=
  c_Mnemonic cfg ≠ EmptyString ∧ c_WGEndpointHost cfg ≠ EmptyString ∧
  (EffectiveNodeKey cfg ≠ EmptyString ∨ c_RunType cfg = "debug").
Definition runtime_ready (cfg : Config) (i : ReadinessInput) : Prop :=
  in_IdentityConfigured i = true ∧ in_WireGuardOK i = true ∧
  (c_EnableStealth cfg = true → in_StealthListening i = true) ∧
  (HasFirewallService cfg = true → in_FirewallOK i = true) ∧
  (GatewayEnabled cfg = true → in_GatewayRegistered i = true).

Definition passes (c : Check) : Prop := ck_Optional c = true ∨ ck_OK c = true.

Lemma apiKeyCheck_passes cfg :
  passes (apiKeyCheck cfg) ↔ EffectiveNodeKey cfg ≠ EmptyString ∨ c_RunType cfg = "debug".
Proof.
  unfold passes, apiKeyCheck, nonempty. destruct (String.eqb_spec (EffectiveNodeKey cfg) EmptyString) as [->|H];
    destruct (String.eqb_spec (c_RunType cfg) "debug"); cbn; naive_solver.
Qed.

Lemma stealthCheck_passes cfg b : passes (stealthCheck cfg b) ↔ (c_EnableStealth cfg = true → b = true).
Proof. unfold passes, stealthCheck. destruct (c_EnableStealth cfg); cbn; naive_solver. Qed.

Lemma firewallCheck_passes cfg b d : passes (firewallCheck cfg b d) ↔ (HasFirewallService cfg = true → b = true).
Proof. unfold passes, firewallCheck. destruct (HasFirewallService cfg), b; cbn; naive_solver. Qed.

Lemma dropCheck_passes cfg s : passes (dropCheck cfg s).
Proof. unfold passes, dropCheck. destruct (c_DropEnabled cfg); cbn; auto. Qed.

Lemma controlPlaneCheck_passes cfg r c : passes (controlPlaneCheck cfg r c) ↔ (GatewayEnabled cfg = true → r = true).
Proof. unfold passes, controlPlaneCheck. destruct (GatewayEnabled cfg), r, c; cbn; naive_solver. Qed.

Lemma Evaluate_ok cfg i : rp_OK (Evaluate (Some cfg) i) = true ↔ config_ready cfg ∧ runtime_ready cfg i.
Proof.
  cbn [Evaluate rp_OK]. rewrite all_required_forall. fold passes. unfold checks_of.
  rewrite !Forall_cons, Forall_nil.
  rewrite apiKeyCheck_passes, stealthCheck_passes, firewallCheck_passes, controlPlaneCheck_passes.
  unfold passes at 1 2 3; cbn [ck_Optional ck_OK]. rewrite andb_true_iff, !nonempty_true.
  pose proof (dropCheck_passes cfg (in_DropState i)). unfold config_ready, runtime_ready. naive_solver.
Qed.

Lemma Preboot_ok cfg : rp_OK (Preboot (Some cfg)) = true ↔ config_ready cfg.
Proof.
  cbn [Preboot rp_OK]. rewrite all_required_forall. fold passes. rewrite !Forall_app, !Forall_cons, !Forall_nil.
  rewrite apiKeyCheck_passes. assert (Hs : Forall passes (if c_EnableStealth cfg then [after_start "stealth"] else [])).
  { destruct (c_EnableStealth cfg); repeat constructor. }
  unfold passes at 1 2 3 5 6; cbn [ck_Optional ck_OK after_start]. rewrite !nonempty_true. unfold config_ready. naive_solver.
Qed.

(** C22. The readiness report is exact: a node reports ready exactly when its
    configuration has a recovery phrase, a public address and an API key (or
    runs in debug mode), its identity and WireGuard interface are up, the
    carriers listen if enabled, the firewall sidecar is healthy if configured,
    and it is registered if it has a gateway; neither Drop nor the state of
    the control channel matters.  The summary line then says so; otherwise it
    names the first required check that fails.  A node that becomes ready
    passed the check before its start. *)
Theorem readiness_exact cfg i :
  let r := Evaluate (Some cfg) i in
  (rp_OK r = true ↔ config_ready cfg ∧ runtime_ready cfg i) ∧
  (rp_OK r = true → SummaryLine r = "ready" ∧ rp_OK (Preboot (Some cfg)) = true) ∧
  (rp_OK r = false → ∃ c, first_failing (rp_Checks r) = Some c ∧ c ∈ rp_Checks r ∧
     ck_Optional c = false ∧ ck_OK c = false ∧ SummaryLine r = "not ready: " +:+ ck_ID c).
Proof.
  cbv zeta. split; [apply Evaluate_ok|]. split.
  - intros H. split; [unfold SummaryLine; by rewrite H|].
    apply Evaluate_ok in H as [H _]. by apply Preboot_ok.
  - intros H. destruct (first_failing (rp_Checks (Evaluate (Some cfg) i))) as [c|] eqn:E.
    + exists c. unfold SummaryLine. rewrite H, E. apply find_first_Some in E as [Hin [H1 H2]%andb_true_iff].
      apply negb_true_iff in H1, H2. done.
    + apply first_failing_required in E. change (rp_OK (Evaluate (Some cfg) i) = true) in E. congruence.
Qed.

(** The input of a node whose firewall signals come from its agent. *)
Definition with_agent (cfg : Config) (a : Agent) (i : ReadinessInput) : ReadinessInput :=
  mkInput (in_IdentityConfigured i) (in_GatewayRegistered i) (in_GatewayConnected i) (in_WireGuardOK i)
    (in_StealthListening i) (FirewallOK cfg a).1 (FirewallOK cfg a).2 (in_DropState i).

(** On a node with a firewall sidecar, readiness follows the last probe:
    after any number of checks it can only be ready when the last one found
    the sidecar answering with a 2xx status.  Before the first check it is not
    ready, and the failing firewall check is reported with the detail "sidecar
    healthy". *)
Lemma firewall_readiness cfg gets Get i :
  known_provider cfg → c_SentinelLicensed cfg = true →
  (rp_OK (Evaluate (Some cfg) (with_agent cfg (agent_loop cfg (gets ++ [Get]) NewAgent) i)) = true →
     probeHTTP Get (sidecar_url cfg) = "active") ∧
  rp_OK (Evaluate (Some cfg) (with_agent cfg NewAgent i)) = false ∧
  mkCheck "firewall" false "sidecar healthy" false ∈ rp_Checks (Evaluate (Some cfg) (with_agent cfg NewAgent i)).
Proof.
  intros Hk Hl. assert (Hf : HasFirewallService cfg = true) by (unfold HasFirewallService; by destruct Hk as [-> | ->]).
  split; [|split].
  - intros [_ (_ & _ & _ & H & _)]%Evaluate_ok. specialize (H Hf).
    by apply (FirewallOK_last cfg gets Get NewAgent Hk) in H as [_ H].
  - apply not_true_iff_false. intros [_ (_ & _ & _ & H & _)]%Evaluate_ok. specialize (H Hf).
    unfold with_agent in H. cbn [in_FirewallOK] in H. by rewrite FirewallOK_initial in H.
  - cbn [Evaluate rp_Checks]. unfold checks_of, firewallCheck. rewrite Hf. unfold with_agent.
    cbn [in_FirewallOK in_FirewallDetail]. rewrite FirewallOK_initial by done. cbn [fst snd negb].
    do 5 right. left.
Qed.

Definition ready_cfg : Config :=
  set_SentinelLicensed true (set_ShieldAdminURL "http://adguard:3000"
    (set_FirewallProvider FirewallAdGuardHome (Config.Load (mkEnv ∅ None)))).

Lemma firewall_readiness_witness :
  FirewallOK ready_cfg (check ready_cfg (λ _, Answer 200) NewAgent) = (true, "active") ∧
  rp_OK (Evaluate (Some ready_cfg) (with_agent ready_cfg NewAgent (mkInput true true true true true true "" ""))) = false.
Proof.
  split; [vm_compute; reflexivity|].
  apply (firewall_readiness ready_cfg [] (λ _, Answer 200) (mkInput true true true true true true "" "")).
  - left. vm_compute. reflexivity.
  - vm_compute. reflexivity.
Defined.

(** Known regions are named, and a zone is recognised in any spelling. *)
Example labels :
  RegionLabel " de " = "Germany" ∧ RegionLabel "EU-WEST" = "EU-WEST" ∧ RegionLabel "qq" = "qq (country code)" ∧
  ZoneLabel "US_East" = "US East" ∧ RegionLabel "Unknown" = "Not set".
Proof. vm_compute. split_and!; reflexivity. Qed.
