(* ===== verification/Api.v ===== *)
(** * The HTTP API: internal/api/server.go, peers.go and drop.go

    The handlers behind the middleware of Auth.v.  They are written against
    the [Provisioner] interface, as in the code; [node_provisioner] shows that
    the node service of Node.v implements it.  Routing and JSON binding belong
    to gin: a request arrives with its route, its path parameter and its bound
    body. *)
From S2P Require Import Prelude GoStrings GoUrl StoreDB Store ConfigData Config Wg Stealth Node Bridge Wallet DropClient DropService Auth ServiceAgent Readiness.

(** ** The Provisioner interface *)

(** What the handlers call, and what they rely on: the reading operations
    leave the stored peers as they are. *)
Class Provisioner (P : Type) := {
  pv_UpsertPeer : string → PeerRequest → M P CredentialBundle;
  pv_DeletePeer : string → M P unit;
  pv_Credentials : string → M P CredentialBundle;
  pv_ListPeers : M P (list PeerInfo);
  pv_Stats : M P NodeStats;
  pv_peers : P → gmap string Peer;
  pv_Credentials_reads : ∀ i, keeps (λ s s', pv_peers s' = pv_peers s) (pv_Credentials i);
  pv_ListPeers_reads : keeps (λ s s', pv_peers s' = pv_peers s) pv_ListPeers;
  pv_Stats_reads : keeps (λ s s', pv_peers s' = pv_peers s) pv_Stats;
}.

(** ** types.go: the status report *)

Record WireGuardEndpointStatus := mkWGStatus { ws_Port : Z; ws_PublicKey : string; ws_Endpoint : string }.
Record EndpointsStatus := mkEndpoints { es_WireGuard : WireGuardEndpointStatus }.
Record IdentityStatus := mkIdStatus {
  is_Configured : bool; is_PeerID : string; is_DID : string;
  is_WalletChain : string; is_WalletLabel : string; is_WalletAddress : string }.
Record StatusResponse := mkStatusResponse {
  sr_Version : string; sr_NodeName : string; sr_Region : string; sr_Zone : string; sr_Status : string;
  sr_AccessMode : string; sr_PeerID : string; sr_DID : string; sr_Identity : IdentityStatus;
  sr_Endpoints : EndpointsStatus; sr_Capabilities : list (string * json); sr_Protocols : list string;
  sr_Readiness : Report }.

(** What the server was given for its status: the node's identifiers, the
    providers that are set with what they return now, and the wallet address
    of a mnemonic (AddressFromMnemonic of Wallet.v). *)
Record StatusEnv := mkStatusEnv {
  sx_PeerID : string; sx_DID : string; sx_readiness : option ReadinessInput;
  sx_wgPublicKey : option string; sx_services : option (gmap string string);
  sx_address : string → string → result string }.

(** ** Requests, responses and the server *)

Inductive Body :=
| BNone
| BOk
| BError (msg : string)
| BBundle (b : CredentialBundle)
| BPeers (l : list PeerInfo)
| BStats (s : NodeStats)
| BDropStatus (s : Snapshot)
| BUploaded (cid : string) (size : Z)
| BPin (cid : string) (pinned : bool)
| BStream (data : list Z) (err : option error)
| BProxied (path : string) (headers : gmap string string)
| BStatus (r : StatusResponse)
| BPage
| BMetrics.

Record HttpResponse := mkResponse { h_status : Z; h_body : Body }.

Inductive Route :=
| GetIndex
| GetMetrics
| GetStatus
| GetHealthz
| GetStats
| GetPeers
| PutPeer (id : string) (req : option PeerRequest)
| DeletePeerRoute (id : string)
| GetCredentials (id : string)
| GetDropStatus
| PutDropUpload (upload_id : string) (data : body)
| GetDropObject (cid : string)
| GetDropPin (cid : string)
| DeleteDropPin (cid : string)
| AnyDropWebUI (path : string).

(** The header and length fields of a request that the handlers read. *)
Record HttpRequest := mkRequest { h_headers : gmap string string; h_ContentLength : Z }.
Definition GetHeader (r : HttpRequest) (name : string) : string := default EmptyString (h_headers r !! name).

Record Server (P : Type) := mkServer { sv_prov : P; sv_status : string; sv_drop : option DropState }.
Arguments mkServer {P}. Arguments sv_prov {P}. Arguments sv_status {P}. Arguments sv_drop {P}.

Definition NewServer {P} (prov : P) : Server P := mkServer prov "online" None.
Definition SetDropService {P} (service : DropState) (s : Server P) : Server P :=
  mkServer (sv_prov s) (sv_status s) (Some service).

Section server.
Context {srt : Sorting} {P : Type} {PV : Provisioner P}.
Context (Verify : list Z → string → result Claims) (cfg : Config) (metrics : bool).
Context (StatusText : Z → string) (Do : Request → result Response) (cid_Decode : string → result unit)
  (boundary : string).

Definition set_sv_prov (p : P) (s : Server P) : Server P := mkServer p (sv_status s) (sv_drop s).
Definition on_prov {A} (m : M P A) : M (Server P) A := zoom sv_prov set_sv_prov m.

Definition reply (status : Z) (b : Body) : M (Server P) HttpResponse := mret (mkResponse status b).

Definition SetStatus (status : string) : M (Server P) unit := run (λ s,
  (Ok tt, mkServer (sv_prov s) (if String.eqb status EmptyString then "online" else status) (sv_drop s))).

(** ** server.go: the status report *)

Definition servicesSnapshot (services : option (gmap string string)) (drop : option DropState)
  : gmap string string :=
  let out := default ({[ "vpn" := "active" ]} : gmap string string) services in
  match drop with Some d => <["drop" := sn_State (d_snapshot d)]> out | None => out end.

Definition publicDropCapability (drop : option DropState) : json :=
  match drop with
  | None => JObj [("enabled", JBool false); ("accepts_public_uploads", JBool false);
                  ("webui_available", JBool false)]
  | Some d => JObj [("enabled", JBool (Enabled cfg)); ("accepts_public_uploads", JBool (AcceptsPublicUploads cfg));
                    ("webui_available", JBool (WebUIAvailable cfg d))]
  end.

(** The signals the report is computed from. *)
Definition status_input (env : StatusEnv) : ReadinessInput :=
  let here := negb (String.eqb (sx_PeerID env) EmptyString) in
  match sx_readiness env with
  | None => mkInput here false false false false false EmptyString EmptyString
  | Some i =>
      mkInput (in_IdentityConfigured i || here) (in_GatewayRegistered i) (in_GatewayConnected i)
        (in_WireGuardOK i) (in_StealthListening i) (in_FirewallOK i) (in_FirewallDetail i) (in_DropState i)
  end.

Definition status_identity (env : StatusEnv) : IdentityStatus :=
  let chain := CanonicalChain (c_WalletChain cfg) in
  let mnemonic := c_Mnemonic cfg in
  mkIdStatus (in_IdentityConfigured (status_input env) && nonempty mnemonic)
    (sx_PeerID env) (sx_DID env) chain (ChainLabel chain)
    (if nonempty mnemonic then match sx_address env mnemonic chain with Ok a => a | Err _ => EmptyString end
     else EmptyString).

Definition status_response (env : StatusEnv) (status : string) (drop : option DropState) : StatusResponse :=
  let protocols := "wireguard" :: (if c_EnableStealth cfg then ["vless-reality"; "hysteria2"] else []) in
  let wgPort := let p := Atoi_or_0 (c_WGEndpointPort cfg) in if p =? 0 then 51820 else p in
  let wgPub := default EmptyString (sx_wgPublicKey env) in
  let mode := m_RuntimeMode (c_Mode cfg) in
  mkStatusResponse (c_Version cfg) (c_NodeName cfg) (c_Region cfg) (c_Zone cfg) status mode
    (sx_PeerID env) (sx_DID env) (status_identity env)
    (mkEndpoints (mkWGStatus wgPort wgPub (c_WGEndpointHost cfg +:+ ":" +:+ Itoa wgPort)))
    [("access_mode", JStr mode); ("access_label", JStr (AccessModeLabel mode));
     ("access_hint", JStr (AccessModeHint mode)); ("region_label", JStr (RegionLabel (c_Region cfg)));
     ("zone_label", JStr (ZoneLabel (c_Zone cfg)));
     ("network_profile", JStr (m_NetworkProfile (c_Mode cfg)));
     ("deployment_profile", JStr (c_ErebrusProfile cfg));
     ("firewall_provider", JStr (c_FirewallProvider cfg)); ("stealth", JBool (c_EnableStealth cfg));
     ("public_api_url", JStr (PublicAPIURL (Some cfg)));
     ("services", JObj (prod_map id JStr <$> map_to_list (servicesSnapshot (sx_services env) drop)));
     ("drop", publicDropCapability drop)]
    protocols (Evaluate (Some cfg) (status_input env)).

Definition handleStatus (env : StatusEnv) : M (Server P) HttpResponse :=
  s ← get;
  reply 200 (BStatus (status_response env (sv_status s) (sv_drop s))).

(** ** peers.go *)

Definition handlePutPeer (id : string) (bound : option PeerRequest) : M (Server P) HttpResponse :=
  match bound with
  | None => reply 400 (BError "invalid JSON body")
  | Some req =>
      if String.eqb (rq_Name req) EmptyString || String.eqb (rq_WGPublicKey req) EmptyString
      then reply 400 (BError "name and wg_public_key are required")
      else
        s ← get;
        if String.eqb (sv_status s) "draining" then reply 409 (BError "node is draining")
        else
          r ← try (on_prov (pv_UpsertPeer id req));
          match r with
          | Err e =>
              if errors_Is e ErrSubnetExhausted then reply 409 (BError "address pool exhausted")
              else reply 400 (BError "could not provision peer")
          | Ok bundle => reply 200 (BBundle bundle)
          end
  end.

(** The same handler in two parts, between which the goroutine may wait: what
    it checks, the status included, and the call of the provisioner. *)
Definition put_admit (bound : option PeerRequest) : M (Server P) (HttpResponse + PeerRequest) :=
  match bound with
  | None => r ← reply 400 (BError "invalid JSON body"); mret (inl r)
  | Some req =>
      if String.eqb (rq_Name req) EmptyString || String.eqb (rq_WGPublicKey req) EmptyString
      then r ← reply 400 (BError "name and wg_public_key are required"); mret (inl r)
      else
        s ← get;
        if String.eqb (sv_status s) "draining"
        then r ← reply 409 (BError "node is draining"); mret (inl r)
        else mret (inr req)
  end.

Definition put_provision (id : string) (req : PeerRequest) : M (Server P) HttpResponse :=
  r ← try (on_prov (pv_UpsertPeer id req));
  match r with
  | Err e =>
      if errors_Is e ErrSubnetExhausted then reply 409 (BError "address pool exhausted")
      else reply 400 (BError "could not provision peer")
  | Ok bundle => reply 200 (BBundle bundle)
  end.

Lemma handlePutPeer_split id bound s :
  handlePutPeer id bound s =
  (r ← put_admit bound; match r with inl resp => mret resp | inr req => put_provision id req end) s.
Proof.
  unfold handlePutPeer, put_admit, put_provision. destruct bound as [req|]; [|done].
  destruct (_ || _); [done|]. unfold mbind, M_bind, get. by destruct (String.eqb _ _).
Qed.

Definition handleDeletePeer (id : string) : M (Server P) HttpResponse :=
  r ← try (on_prov (pv_DeletePeer id));
  match r with
  | Err _ => reply 500 (BError "internal error")
  | Ok _ => reply 204 BNone
  end.

Definition handleCredentials (id : string) : M (Server P) HttpResponse :=
  r ← try (on_prov (pv_Credentials id));
  match r with
  | Err e =>
      if errors_Is e ErrNotFound then reply 404 (BError "unknown peer")
      else reply 500 (BError "internal error")
  | Ok bundle => reply 200 (BBundle bundle)
  end.

Definition handleListPeers : M (Server P) HttpResponse :=
  r ← try (on_prov pv_ListPeers);
  match r with
  | Err _ => reply 500 (BError "internal error")
  | Ok peers => reply 200 (BPeers peers)
  end.

Definition handleStats : M (Server P) HttpResponse :=
  r ← try (on_prov pv_Stats);
  match r with
  | Err _ => reply 500 (BError "failed to read stats")
  | Ok stats => reply 200 (BStats stats)
  end.

(** ** drop.go *)

Definition writeDropError (err : error) : HttpResponse :=
  if errors_Is err ErrDisabled then mkResponse 503 (BError "Drop disabled")
  else if errors_Is err ErrUnavailable then mkResponse 503 (BError "Drop unavailable")
  else if errors_Is err ErrByteLimit then mkResponse 413 (BError "stream exceeded byte limit")
  else if errors_Is err ErrStorageFull then mkResponse 507 (BError "Drop storage is full")
  else if errors_Is err ErrSizeMismatch || errors_Is err ErrHashMismatch
  then mkResponse 422 (BError "upload verification failed")
  else if Contains (error_text err) "invalid CID" then mkResponse 400 (BError "invalid CID")
  else mkResponse 502 (BError "Drop operation failed").

(** Runs [m] on the Drop service; the routes exist only when there is one. *)
Definition on_drop {A} (m : M DropState A) : M (Server P) (result A) := run (λ s,
  match sv_drop s with
  | None => (Ok (Err (EVar ErrUnavailable)), s)
  | Some d => let '(r, d') := m d in (Ok r, mkServer (sv_prov s) (sv_status s) (Some d'))
  end).

Definition DefaultKuboRPCURL : string := "http://kubo:5001".

Definition handleDropStatus : M (Server P) HttpResponse :=
  s ← get;
  match sv_drop s with
  | None => reply 503 (BError "Drop unavailable")
  | Some d => reply 200 (BDropStatus (d_snapshot d))
  end.

Definition declared_size (r : HttpRequest) : option Z :=
  match ParseInt (TrimSpace (GetHeader r "X-Erebrus-Declared-Size")) with
  | Some n => if n <? 0 then None else Some n
  | None => None
  end.

Definition digest_header_ok (digest : string) : bool :=
  String.eqb digest EmptyString ||
  match hex_decode digest with Some raw => (length raw =? 32)%nat | None => false end.

Definition handleDropUpload (r : HttpRequest) (upload_id : string) (data : body)
  : M (Server P) HttpResponse :=
  s ← get;
  if negb (match sv_drop s with Some _ => Enabled cfg | None => false end)
  then reply 503 (BError "Drop disabled")
  else
    let contentType := GetHeader r "Content-Type" in
    if negb (String.eqb contentType EmptyString) && negb (HasPrefix contentType "application/octet-stream")
    then reply 415 (BError "content type must be application/octet-stream")
    else match declared_size r with
    | None => reply 400 (BError "invalid declared size")
    | Some declaredSize =>
        let maxUpload := Z.min (c_DropStorageMaxBytes cfg) MaxObjectBytes in
        if (maxUpload <? declaredSize)
           || ((0 <=? h_ContentLength r) && (declaredSize <? h_ContentLength r))
        then reply 413 (BError "upload exceeds reserved size")
        else
          let digest := TrimSpace (GetHeader r "X-Erebrus-SHA256") in
          if negb (digest_header_ok digest) then reply 400 (BError "invalid SHA-256")
          else
            res ← on_drop (Upload cfg metrics DefaultKuboRPCURL StatusText Do cid_Decode boundary
                     (mkAdd upload_id (Some data) declaredSize declaredSize digest));
            match res with
            | Err e => mret (writeDropError e)
            | Ok a => reply 200 (BUploaded (r_CID a) (r_Size a))
            end
    end.

Definition handleDropRead (cid : string) : M (Server P) HttpResponse :=
  res ← on_drop (Read cfg metrics DefaultKuboRPCURL StatusText Do cid_Decode cid);
  match res with
  | Err e => mret (writeDropError e)
  | Ok rd =>
      match Copy limit_Read (body_fuel (lr_r rd)) rd [] with
      | None => reply 200 (BStream [] None)
      | Some (written, err, _) =>
          _ ← (if (0 <? length written)%nat
               then on_drop (RecordDownload metrics (Z.of_nat (length written)))
               else mret (Ok tt));
          reply 200 (BStream written err)
      end
  end.

Definition handleDropPinStatus (cid : string) : M (Server P) HttpResponse :=
  res ← on_drop (DropService.PinStatus cfg metrics DefaultKuboRPCURL StatusText Do cid_Decode cid);
  match res with
  | Err e => mret (writeDropError e)
  | Ok pinned => reply 200 (BPin cid pinned)
  end.

Definition handleDropUnpin (cid : string) : M (Server P) HttpResponse :=
  res ← on_drop (DropService.Unpin cfg metrics DefaultKuboRPCURL StatusText Do cid_Decode cid);
  match res with
  | Err e => mret (writeDropError e)
  | Ok _ => reply 204 BNone
  end.

(** The headers the proxied request keeps. *)
Definition webui_headers (h : gmap string string) : gmap string string :=
  delete "Referer" (delete "Origin" (delete "X-Erebrus-Node-Key" (delete "Authorization" h))).

(** A parsed URL; [u_Rest] is its query and fragment. *)
Record URL := mkURL { u_Scheme : string; u_Host : string; u_Path : string; u_Rest : string }.

(** ModifyResponse: the Location header of Kubo's answer.  [url_Parse] and
    [url_String] are the functions of net/url. *)
Definition webui_location (url_Parse : string → result URL) (url_String : URL → string) (target_host location : string)
  : string :=
  if String.eqb location EmptyString then location
  else match url_Parse location with
       | Err _ => location
       | Ok u =>
           if negb (String.eqb (u_Scheme u) EmptyString) && negb (String.eqb (u_Host u) target_host)
           then location
           else url_String (mkURL EmptyString EmptyString
                  ("/api/v2/drop/webui/" +:+ TrimPrefix (u_Path u) "/") (u_Rest u))
       end.

(** The proxied request; what Kubo answers to it is outside the model. *)
Definition handleDropWebUI (r : HttpRequest) (path : string) : M (Server P) HttpResponse :=
  s ← get;
  match sv_drop s with
  | Some d => if WebUIAvailable cfg d
              then reply 200 (BProxied ("/" +:+ TrimPrefix path "/") (webui_headers (h_headers r)))
              else reply 404 (BError "Drop WebUI unavailable")
  | None => reply 404 (BError "Drop WebUI unavailable")
  end.

(** ** server.go: Router *)

(** The purpose a route's token must name; [None] for the open routes. *)
Definition route_purpose (r : Route) : option string :=
  match r with
  | GetIndex | GetMetrics | GetStatus | GetHealthz | GetStats => None
  | GetPeers | PutPeer _ _ | DeletePeerRoute _ | GetCredentials _ => Some EmptyString
  | GetDropStatus => Some "drop_status"
  | PutDropUpload _ _ => Some "drop_upload"
  | GetDropObject _ => Some "drop_read"
  | GetDropPin _ => Some "drop_pin_check"
  | DeleteDropPin _ => Some "drop_unpin"
  | AnyDropWebUI _ => Some "drop_webui"
  end.

Definition is_drop_route (r : Route) : bool :=
  match r with
  | GetDropStatus | PutDropUpload _ _ | GetDropObject _ | GetDropPin _ | DeleteDropPin _
  | AnyDropWebUI _ => true
  | _ => false
  end.

Definition handler (env : StatusEnv) (rq : HttpRequest) (r : Route) : M (Server P) HttpResponse :=
  match r with
  | GetIndex => reply 200 BPage
  | GetMetrics => reply 200 BMetrics
  | GetStatus => handleStatus env
  | GetHealthz => reply 200 BOk
  | GetStats => handleStats
  | GetPeers => handleListPeers
  | PutPeer id req => handlePutPeer id req
  | DeletePeerRoute id => handleDeletePeer id
  | GetCredentials id => handleCredentials id
  | GetDropStatus => handleDropStatus
  | PutDropUpload id data => handleDropUpload rq id data
  | GetDropObject cid => handleDropRead cid
  | GetDropPin cid => handleDropPinStatus cid
  | DeleteDropPin cid => handleDropUnpin cid
  | AnyDropWebUI path => handleDropWebUI rq path
  end.

(** The middleware in front of a route, with the keys [k] captured when the
    routes were built. *)
Definition guard (k : AuthKeys) (rq : HttpRequest) (r : Route) : AuthDecision :=
  match route_purpose r with
  | None => Next
  | Some purpose =>
      gatewayAuthForPurpose Verify k (c_NodeID cfg) purpose (GetHeader rq "Authorization")
        (GetHeader rq "X-Erebrus-Node-Key")
  end.

Definition Router (k : AuthKeys) (env : StatusEnv) (rq : HttpRequest) (r : Route)
    : M (Server P) HttpResponse :=
  s ← get;
  if is_drop_route r && negb (match sv_drop s with Some _ => true | None => false end)
  then reply 404 (BError "404 page not found")
  else match guard k rq r with
       | AbortWithStatusJSON status msg => reply status (BError msg)
       | Next => handler env rq r
       end.
End server.

(** ** The node service as a Provisioner *)

Section node.
Context {srt : Sorting} (ParseKey : string → result (list Z)) (cfg : Config)
  (stealth : option (option Secrets)) (metrics : bool) (d : Draw) (live : DeviceStats) (uptime : Z).

(** The relation of states with the same stored peers. *)
Definition same_peers (n n' : NodeState) : Prop := abs (nt n') = abs (nt n).
#[export] Instance same_peers_preorder : PreOrder same_peers.
Proof. split; [done|]. unfold same_peers, Transitive. congruence. Qed.

Lemma on_store_reads {A} (m : M DB A) :
  (∀ s r s', m s = (r, s') → tbl s' = tbl s) → keeps same_peers (on_store m).
Proof.
  intros H n r n' (x & E & Hn)%on_store_inv. unfold same_peers, nt, wt. rewrite Hn. cbn.
  by rewrite (H _ _ _ E).
Qed.

Lemma get_reads : keeps same_peers get.
Proof. by intros n r n' [= <- <-]. Qed.

Lemma txGetPeer_reads i s r s' : txGetPeer i s = (r, s') → tbl s' = tbl s.
Proof.
  intros [(o & s1 & E & H)|(e & E & _)]%bind_inv; apply query_inv in E as [E _]; [|done].
  by injection H as _ <-.
Qed.

Lemma GetPeer_reads i s r s' : GetPeer i s = (r, s') → tbl s' = tbl s.
Proof.
  unfold GetPeer, try, mbind, M_bind. destruct (txGetPeer i s) as [[p|e] s1] eqn:E;
    apply txGetPeer_reads in E; [by intros [= _ <-]|].
  destruct (errors_Is e ErrNoRows); by intros [= _ <-].
Qed.

Lemma node_Credentials_reads i : keeps same_peers (Credentials cfg stealth i (dr_issued d)).
Proof.
  apply keeps_bind; [apply _|apply on_store_reads, GetPeer_reads|]. intros p.
  apply keeps_bind; [apply _|apply get_reads|]. intros n0. apply keeps_ret, _.
Qed.

Lemma node_ListPeers_reads {A} (f : list Peer → A) :
  keeps same_peers (peers ← on_store Store.ListPeers; mret (f peers)).
Proof.
  apply keeps_bind; [apply _| |intros; apply keeps_ret, _].
  apply on_store_reads. intros s r s' E. by apply query_inv in E as [E _].
Qed.

#[export] Instance node_provisioner : Provisioner NodeState := {|
  pv_UpsertPeer := λ i req, UpsertPeer ParseKey cfg stealth metrics i req d;
  pv_DeletePeer := DeletePeer ParseKey cfg metrics;
  pv_Credentials := λ i, Credentials cfg stealth i (dr_issued d);
  pv_ListPeers := ListPeers;
  pv_Stats := Stats cfg live uptime;
  pv_peers := λ n, abs (nt n);
  pv_Credentials_reads := node_Credentials_reads;
  pv_ListPeers_reads := node_ListPeers_reads _;
  pv_Stats_reads := node_ListPeers_reads _;
|}.
End node.

(** ** What a request may change *)

Section requests.
Context {srt : Sorting} {P : Type} {PV : Provisioner P}.
Context (Verify : list Z → string → result Claims) (cfg : Config) (metrics : bool).
Context (StatusText : Z → string) (Do : Request → result Response) (cid_Decode : string → result unit)
  (boundary : string).

Definition keeps_peers (s s' : Server P) : Prop := pv_peers (sv_prov s') = pv_peers (sv_prov s).
#[export] Instance keeps_peers_preorder : PreOrder keeps_peers.
Proof. split; [done|]. unfold keeps_peers, Transitive. congruence. Qed.

(** A handler always answers. *)
Definition answers (m : M (Server P) HttpResponse) : Prop := ∀ s, ∃ resp, (m s).1 = Ok resp.

Lemma keeps_reply st b : keeps keeps_peers (reply (P := P) st b).
Proof. by intros s r s' [= <- <-]. Qed.
Lemma keeps_server_get : keeps keeps_peers get.
Proof. by intros s r s' [= <- <-]. Qed.

Lemma keeps_on_drop {A} (m : M DropState A) : keeps keeps_peers (on_drop m).
Proof.
  intros s r s'. unfold on_drop, run. destruct (sv_drop s) as [dr|]; [|by intros [= <- <-]].
  destruct (m dr). by intros [= <- <-].
Qed.

Lemma keeps_on_prov {A} (m : M P A) :
  keeps (λ s s', pv_peers s' = pv_peers s) m → keeps keeps_peers (on_prov m).
Proof. intros H s r s' (t & E & ->)%zoom_inv. exact (H _ _ _ E). Qed.

(** The routes that may write peers. *)
Definition writes_peers (s : Server P) (r : Route) : Prop :=
  (∃ id req, r = PutPeer id (Some req) ∧ rq_Name req ≠ EmptyString ∧
     rq_WGPublicKey req ≠ EmptyString ∧ sv_status s ≠ "draining") ∨
  (∃ id, r = DeletePeerRoute id).

Ltac keep := repeat first
  [ apply keeps_reply | apply keeps_server_get | apply keeps_on_drop | apply keeps_ret, _
  | apply keeps_on_prov, pv_Credentials_reads | apply keeps_on_prov, pv_ListPeers_reads
  | apply keeps_on_prov, pv_Stats_reads | apply keeps_try
  | apply keeps_bind; [apply _| |intros ?]
  | case_match ].


Lemma handler_keeps env rq r s x s' :
  handler cfg metrics StatusText Do cid_Decode boundary env rq r s = (x, s') →
  keeps_peers s s' ∨ writes_peers s r.
Proof.
  destruct r as [| | | | | |id req|id|id| |uid data|c|c|c|path]; cbn [handler]; intros H.
  8:{ right. right. eauto. }
  7:{ unfold handlePutPeer in H. destruct req as [req|]; [|left; revert H; apply keeps_reply].
      destruct (_ || _) eqn:E1; [left; revert H; apply keeps_reply|].
      unfold get, mbind at 1, M_bind at 1 in H.
      destruct (String.eqb_spec (sv_status s) "draining"); [left; revert H; apply keeps_reply|].
      right. left. apply orb_false_iff in E1 as [E1%String.eqb_neq E2%String.eqb_neq]. eauto 10. }
  all: left; revert H;
    apply (λ K : keeps keeps_peers _, K s x s'); unfold handleStatus, handleStats, handleListPeers, handleCredentials,
      handleDropStatus, handleDropUpload, handleDropRead, handleDropPinStatus, handleDropUnpin,
      handleDropWebUI; keep.
Qed.

(** No request changes the status. *)
Definition keeps_status (s s' : Server P) : Prop := sv_status s' = sv_status s.
#[local] Instance keeps_status_preorder : PreOrder keeps_status.
Proof. split; [done|]. unfold keeps_status, Transitive. congruence. Qed.

Lemma status_on_prov {A} (m : M P A) : keeps keeps_status (on_prov m).
Proof. by intros s r s' (t & _ & ->)%zoom_inv. Qed.
Lemma status_on_drop {A} (m : M DropState A) : keeps keeps_status (on_drop m).
Proof.
  intros s r s'. unfold on_drop, run. destruct (sv_drop s) as [dr|]; [|by intros [= <- <-]].
  destruct (m dr). by intros [= <- <-].
Qed.

Lemma Router_status k env rq r :
  keeps keeps_status (Router Verify cfg metrics StatusText Do cid_Decode boundary k env rq r).
Proof.
  assert (∀ st b, keeps keeps_status (reply (P := P) st b)) as Hr by (by intros st b s x s' [= <- <-]).
  assert (keeps keeps_status get) as Hg by (by intros s x s' [= <- <-]).
  unfold Router. destruct r; cbn [handler]; unfold handlePutPeer, handleDeletePeer, handleStatus, handleStats,
    handleListPeers, handleCredentials, handleDropStatus, handleDropUpload, handleDropRead,
    handleDropPinStatus, handleDropUnpin, handleDropWebUI;
  repeat first [ apply Hr | apply Hg | apply status_on_drop | apply status_on_prov | apply keeps_ret, _
    | apply keeps_try | apply keeps_bind; [apply _| |intros ?] | case_match ].
Qed.

Lemma handler_answers env rq r s :
  ∃ resp s', handler cfg metrics StatusText Do cid_Decode boundary env rq r s = (Ok resp, s').
Proof.
  assert (Ht : ∀ A (m : M (Server P) A) (k : result A → M (Server P) HttpResponse),
    (∀ y s, ∃ resp s', k y s = (Ok resp, s')) → ∃ resp s', (y ← try m; k y) s = (Ok resp, s')).
  { intros A m k Hk. unfold try, mbind, M_bind. destruct (m s) as [y s1]. apply Hk. }
  assert (Hd : ∀ A (m : M DropState A) (k : result A → M (Server P) HttpResponse),
    (∀ y s, ∃ resp s', k y s = (Ok resp, s')) → ∃ resp s', (y ← on_drop m; k y) s = (Ok resp, s')).
  { intros A m k Hk. unfold on_drop, run, mbind, M_bind. destruct (sv_drop s); [destruct (m d)|]; apply Hk. }
  destruct r as [| | | | | |id req|id|id| |uid data|c|c|c|path]; cbn [handler].
  1,2,3,4: eexists _, _; reflexivity.
  - apply Ht. intros [y|e] s1; eexists _, _; reflexivity.
  - apply Ht. intros [y|e] s1; eexists _, _; reflexivity.
  - unfold handlePutPeer. destruct req as [req|]; [|eexists _, _; reflexivity].
    destruct (_ || _); [eexists _, _; reflexivity|]. unfold get, mbind at 1, M_bind at 1.
    destruct (String.eqb _ _); [eexists _, _; reflexivity|]. apply Ht.
    intros [y|e] s1; [|destruct (errors_Is e ErrSubnetExhausted)]; eexists _, _; reflexivity.
  - apply Ht. intros [y|e] s1; eexists _, _; reflexivity.
  - apply Ht. intros [y|e] s1; [|destruct (errors_Is e ErrNotFound)]; eexists _, _; reflexivity.
  - unfold handleDropStatus, get, mbind, M_bind. destruct (sv_drop s); eexists _, _; reflexivity.
  - unfold handleDropUpload, get, mbind at 1, M_bind at 1.
    destruct (negb _); [eexists _, _; reflexivity|]. cbv zeta.
    destruct (negb _ && negb _); [eexists _, _; reflexivity|].
    destruct (declared_size rq); [|eexists _, _; reflexivity].
    destruct (_ || _); [eexists _, _; reflexivity|].
    destruct (negb _); [eexists _, _; reflexivity|].
    apply Hd. intros [y|e] s1; eexists _, _; reflexivity.
  - apply Hd. intros [y|e] s1; [|eexists _, _; reflexivity].
    destruct (Copy _ _ _ _) as [[[w er] r']|]; [|eexists _, _; reflexivity].
    destruct (0 <? length w)%nat; [|eexists _, _; reflexivity].
    unfold on_drop, run, mbind, M_bind. destruct (sv_drop s1); [destruct (RecordDownload _ _ _)|];
      eexists _, _; reflexivity.
  - apply Hd. intros [y|e] s1; eexists _, _; reflexivity.
  - apply Hd. intros [y|e] s1; eexists _, _; reflexivity.
  - unfold handleDropWebUI, get, mbind, M_bind. destruct (sv_drop s) as [d|]; [|eexists _, _; reflexivity].
    destruct (WebUIAvailable cfg d); eexists _, _; reflexivity.
Qed.
End requests.

(** ** Properties *)

(** A request that changed peers asked for it and was authenticated. *)
Lemma Router_protected {srt : Sorting} {P : Type} {PV : Provisioner P}
    Verify k cfg metrics st Do cid boundary env rq r (s : Server P) x s' :
  ak_debug k = false →
  Router Verify cfg metrics st Do cid boundary k env rq r s = (x, s') →
  (∃ resp, x = Ok resp) ∧
  (pv_peers (sv_prov s') ≠ pv_peers (sv_prov s) →
   writes_peers s r ∧
   authenticated_by Verify k (c_NodeID cfg) EmptyString (GetHeader rq "Authorization")
     (GetHeader rq "X-Erebrus-Node-Key")).
Proof.
  intros Hrel. unfold Router. rewrite (bind_Ok _ _ s s s) by done.
  destruct (is_drop_route r && _); [intros [= <- <-]; split; [eauto|done]|].
  destruct (guard Verify cfg k rq r) as [|code msg] eqn:Eg; intros H; [|injection H as <- <-; split; [eauto|done]].
  split.
  { destruct (handler_answers cfg metrics st Do cid boundary env rq r s) as (resp & s1 & E). exists resp. congruence. }
  apply handler_keeps in H as [H|H]; [done|]. intros _. split; [done|].
  apply gatewayAuth_release_iff; [done|]. unfold guard in Eg.
  destruct H as [(id & req & -> & _)|(id & ->)]; exact Eg.
Qed.

(** C10. With keys captured outside debug mode the stored peers are only changed by an
    authenticated request that asks for it: every request is answered, and if
    the peers differ afterwards, the request was a PUT with a name and a key
    on a node that is not draining, or a DELETE, and carried the node key and
    a token of this node's gateway.  Proved for every Provisioner. *)
Theorem api_peers_protected {srt : Sorting} {P : Type} {PV : Provisioner P}
    Verify k cfg metrics st Do cid boundary env rq r (s : Server P) x s' :
  ak_debug k = false →
  Router Verify cfg metrics st Do cid boundary k env rq r s = (x, s') →
  (∃ resp, x = Ok resp) ∧
  (pv_peers (sv_prov s') ≠ pv_peers (sv_prov s) →
   writes_peers s r ∧
   authenticated_by Verify k (c_NodeID cfg) EmptyString (GetHeader rq "Authorization")
     (GetHeader rq "X-Erebrus-Node-Key")).
Proof. apply Router_protected. Qed.

(** Draining stops provisioning end to end: after the gateway's drain
    command, with the status hook of the API server installed, no PUT of a
    peer reaches the provisioner, whatever its credentials: it is answered
    with an error status and the server is unchanged. *)
Lemma drain_stops_provisioning {srt : Sorting} {F P : Type} {PV : Provisioner P}
    ParseKey cfg fw metrics shortID cmd (g : Bridge F) Verify k st Do cid boundary env rq id req (s : Server P) :
  cmd_Action cmd = ActionDrain →
  let g' := (HandleCommand ParseKey cfg fw true metrics shortID cmd g).2 in
  let s1 := (SetStatus (g_api_status g') s).2 in
  ∃ resp, Router Verify cfg metrics st Do cid boundary k env rq (PutPeer id req) s1 = (Ok resp, s1) ∧
    h_status resp ∈ [400; 401; 409; 503].
Proof.
  intros Ha g' s1.
  assert (Hs : sv_status s1 = "draining").
  { unfold s1, g', HandleCommand. rewrite Ha. reflexivity. }
  clearbody s1. unfold Router. rewrite (bind_Ok _ _ s1 s1 s1) by done. cbn [is_drop_route andb].
  unfold guard. cbn [route_purpose].
  destruct (gatewayAuthForPurpose _ _ _ _ _ _) as [|code msg] eqn:Eg.
  - cbn [handler]. unfold handlePutPeer. destruct req as [req|].
    2:{ eexists; split; [reflexivity|]. set_solver. }
    destruct (_ || _); [eexists; split; [reflexivity|]; set_solver|].
    rewrite (bind_Ok _ _ s1 s1 s1), Hs by done. eexists; split; [reflexivity|]. set_solver.
  - eexists; split; [reflexivity|]. cbn [h_status].
    unfold gatewayAuthForPurpose in Eg.
    destruct (String.eqb _ _); [destruct (_ && _); [done|injection Eg as <- <-; set_solver]|].
    destruct (_ && _); [done|]. destruct (_ && _); [done|]. injection Eg as <- <-. set_solver.
Qed.

(** A configuration with other secrets: node key, API token, gateway token,
    gateway key, admin password. *)
Definition with_secrets (key token nodeToken gwKey password : string) (cfg : Config) : Config :=
  set_NodeKey key (set_NodeAPIToken token (set_NodeToken nodeToken
    (set_GatewayPublicKey gwKey (set_ShieldAdminPassword password cfg)))).

Lemma checks_hide_secrets cfg cfg' key token nodeToken gwKey password i :
  cfg' = with_secrets key token nodeToken gwKey password cfg →
  nonempty (EffectiveNodeKey cfg') = nonempty (EffectiveNodeKey cfg) →
  checks_of cfg' i = checks_of cfg i.
Proof.
  intros E Hk. unfold checks_of, apiKeyCheck. rewrite !Hk.
  assert (Hk' : String.eqb (EffectiveNodeKey cfg') EmptyString = String.eqb (EffectiveNodeKey cfg) EmptyString).
  { unfold nonempty in Hk. by destruct (String.eqb (EffectiveNodeKey cfg') _), (String.eqb (EffectiveNodeKey cfg) _). }
  rewrite Hk'. by subst cfg'.
Qed.

(** C26. The open status route gives no secret away: the answer to a status
    request, in any state of the server, is the same for any two sets of
    secrets (node key, API token, gateway token, gateway key, admin password)
    that agree on whether there is a node key, whatever keys the routes were
    built with.  Asking changes nothing, and
    the report carries the server's status and the readiness of this
    configuration. *)
Theorem status_hides_secrets {srt : Sorting} {P : Type} {PV : Provisioner P}
    Verify cfg metrics st Do cid boundary k k' env rq key token nodeToken gwKey password (s : Server P) :
  let cfg' := with_secrets key token nodeToken gwKey password cfg in
  nonempty (EffectiveNodeKey cfg') = nonempty (EffectiveNodeKey cfg) →
  Router Verify cfg' metrics st Do cid boundary k' env rq GetStatus s =
    Router Verify cfg metrics st Do cid boundary k env rq GetStatus s ∧
  ∃ resp, Router Verify cfg metrics st Do cid boundary k env rq GetStatus s =
      (Ok (mkResponse 200 (BStatus resp)), s) ∧
    sr_Status resp = sv_status s ∧ sr_Readiness resp = Evaluate (Some cfg) (status_input env).
Proof.
  intros cfg' Hk. split; [|eexists; split; [reflexivity|done]].
  change (handleStatus cfg' env s = handleStatus cfg env s).
  unfold handleStatus, reply, mbind, M_bind, get, mret, M_ret. do 4 f_equal.
  unfold status_response, Evaluate.
  rewrite (checks_hide_secrets cfg cfg' key token nodeToken gwKey password _ eq_refl Hk). reflexivity.
Qed.

(** ** Witnesses *)

Definition wit_prov : Provisioner NodeState :=
  node_provisioner wit_ParseKey wit_cfg None true wit_draw (mkStats 0 0 0) 0.
Definition wit_server : Server NodeState := mkServer wit_node "online" None.
Definition wit_env_status : StatusEnv := mkStatusEnv "12D3" "did:erebrus:12D3" None None None (λ m c, Ok c).
Definition wit_http : HttpRequest := mkRequest (list_to_map
  [("Authorization", "Bearer tok"); ("X-Erebrus-Node-Key", "k-secret")]) (-1).

Lemma api_peers_protected_witness :
  let run := Router (PV := wit_prov) wit_Verify wit_auth_cfg true wit_text wit_Do wit_cid "b" (capture wit_auth_cfg) wit_env_status wit_http
               (PutPeer "p9" (Some (wit_req "k9"))) wit_server in
  (∃ resp, run.1 = Ok resp) ∧
  (pv_peers (Provisioner := wit_prov) (sv_prov run.2) ≠ pv_peers (Provisioner := wit_prov) (sv_prov wit_server) →
   writes_peers wit_server (PutPeer "p9" (Some (wit_req "k9"))) ∧
   authenticated_by wit_Verify (capture wit_auth_cfg) (c_NodeID wit_auth_cfg) EmptyString (GetHeader wit_http "Authorization")
     (GetHeader wit_http "X-Erebrus-Node-Key")).
Proof.
  apply (api_peers_protected (PV := wit_prov) wit_Verify (capture wit_auth_cfg) wit_auth_cfg true wit_text wit_Do wit_cid "b"
           wit_env_status wit_http (PutPeer "p9" (Some (wit_req "k9"))) wit_server);
    [vm_compute; reflexivity|apply surjective_pairing].
Defined.

(** The witness request does add a peer. *)
Example put_peer_adds :
  let run := Router (PV := wit_prov) wit_Verify wit_auth_cfg true wit_text wit_Do wit_cid "b" (capture wit_auth_cfg) wit_env_status wit_http
               (PutPeer "p9" (Some (wit_req "k9"))) wit_server in
  h_status <$> run.1 = Ok 200 ∧
  p_WGPublicKey <$> pv_peers (Provisioner := wit_prov) (sv_prov run.2) !! "p9" = Some "k9".
Proof. vm_compute. split; reflexivity. Qed.

Definition wit_drain : Command := mkCommand ActionDrain "r1" EmptyString (Ok []) (Err (EMsg "no args")).

Lemma drain_stops_provisioning_witness :
  let g' := (HandleCommand wit_ParseKey wit_auth_cfg None true true EmptyString wit_drain wit_bridge).2 in
  let s1 := (SetStatus (g_api_status g') wit_server).2 in
  ∃ resp, Router (PV := wit_prov) wit_Verify wit_auth_cfg true wit_text wit_Do wit_cid "b" (capture wit_auth_cfg) wit_env_status wit_http
            (PutPeer "p9" (Some (wit_req "k9"))) s1 = (Ok resp, s1) ∧
    h_status resp ∈ [400; 401; 409; 503].
Proof.
  apply (drain_stops_provisioning (PV := wit_prov) wit_ParseKey wit_auth_cfg None true EmptyString wit_drain
           wit_bridge wit_Verify (capture wit_auth_cfg) wit_text wit_Do wit_cid "b" wit_env_status wit_http "p9" (Some (wit_req "k9")) wit_server).
  reflexivity.
Defined.

Lemma status_hides_secrets_witness :
  Router (PV := wit_prov) wit_Verify (with_secrets "other-key" "" "" "" "pw" wit_auth_cfg) true wit_text wit_Do wit_cid "b"
    (capture (with_secrets "other-key" "" "" "" "pw" wit_auth_cfg)) wit_env_status wit_http GetStatus wit_server =
  Router (PV := wit_prov) wit_Verify wit_auth_cfg true wit_text wit_Do wit_cid "b" (capture wit_auth_cfg) wit_env_status wit_http GetStatus
    wit_server.
Proof.
  apply (status_hides_secrets (PV := wit_prov) wit_Verify wit_auth_cfg true wit_text wit_Do wit_cid "b"
           (capture wit_auth_cfg) (capture (with_secrets "other-key" "" "" "" "pw" wit_auth_cfg)) wit_env_status wit_http "other-key" "" "" "" "pw" wit_server).
  vm_compute. reflexivity.
Defined.
