(* ===== verification/Transport.v ===== *)
(** * The transport ladder: internal/transport and internal/transport/probe

    Scoring, selection and ordering of transports, and the node's local
    prober.  A float64 packet loss is the rational it denotes: doubling it is
    exact, and [int(x)] drops the fraction. *)
From Stdlib Require Import QArith.
From S2P Require Import Prelude GoStrings.
#[local] Open Scope Z_scope.

Definition KindDirectWG : string := "direct_wireguard_udp".
Definition KindHysteria2 : string := "hysteria2_quic_udp".
Definition KindVLESSReality : string := "vless_reality_tcp".
Definition KindWebSocketTLS : string := "websocket_tls_tcp".
Definition KindHTTPSConnect : string := "https_connect_tcp".

Definition DefaultLadder : list string :=
  [KindDirectWG; KindHysteria2; KindVLESSReality; KindWebSocketTLS; KindHTTPSConnect].

Definition ImplementedLadder (stealthEnabled : bool) : list string :=
  if negb stealthEnabled then [KindDirectWG] else [KindDirectWG; KindHysteria2; KindVLESSReality].

Record ProbeResult := mkProbe {
  pb_Kind : string; pb_Success : bool; pb_LatencyMs : Z; pb_PacketLossPct : Q;
  pb_Error : string; pb_Score : Z }.

(** [int(x * 2)] *)
Definition twice_int (x : Q) : Z := Z.quot (2 * Qnum x) (Zpos (Qden x)).

Definition Score (r : ProbeResult) (survived60s wasLastSuccess : bool) : Z :=
  if negb (pb_Success r) then 0 else
  let s := wrap_int64 (wrap_int64 (100 - Z.quot (pb_LatencyMs r) 10) - twice_int (pb_PacketLossPct r)) in
  let s := if survived60s then wrap_int64 (s + 20) else s in
  let s := if wasLastSuccess then wrap_int64 (s + 10) else s in
  if s <? 0 then 0 else s.

Definition set_Score (z : Z) (r : ProbeResult) : ProbeResult :=
  mkProbe (pb_Kind r) (pb_Success r) (pb_LatencyMs r) (pb_PacketLossPct r) (pb_Error r) z.

(** The loop of SelectBest with the best probe so far, its score inside. *)
Fixpoint select_loop (best : option ProbeResult) (results : list ProbeResult) : option ProbeResult :=
  match results with
  | [] => best
  | r :: results =>
      if negb (pb_Success r) then select_loop best results
      else
        let s := Score r false false in
        match best with
        | Some b => select_loop (if pb_Score b <? s then Some (set_Score s r) else best) results
        | None => select_loop (Some (set_Score s r)) results
        end
  end.

Definition SelectBest (results : list ProbeResult) : option ProbeResult := select_loop None results.

Definition ladder_rank (k : string) : Z :=
  let fix go (i : Z) (l : list string) : Z :=
    match l with
    | [] => i
    | x :: l => if String.eqb x k then i else go (i + 1) l
    end in go 0 DefaultLadder.

Definition SortByLadder {srt : Sorting} (kinds : list string) : list string :=
  sort_by (λ a b, ladder_rank a <? ladder_rank b) kinds.

Definition IsImplemented (k : string) (stealthEnabled : bool) : bool :=
  existsb (λ x, String.eqb x k) (ImplementedLadder stealthEnabled).

(** ** probe.go *)

Record LocalProber := mkProber {
  lp_StealthEnabled : bool; lp_WGPort : Z; lp_VLESSPort : Z; lp_Hysteria2Port : Z }.

Definition probe_one (p : LocalProber) (k : string) : ProbeResult :=
  let ok := mkProbe k true 1 0%Q EmptyString 0 in
  let no msg := mkProbe k false 1 0%Q msg 0 in
  if String.eqb k KindDirectWG then
    if 0 <? lp_WGPort p then ok else no "wireguard port not configured"
  else if String.eqb k KindHysteria2 then
    if lp_StealthEnabled p && (0 <? lp_Hysteria2Port p) then ok else no "hysteria2 not enabled"
  else if String.eqb k KindVLESSReality then
    if lp_StealthEnabled p && (0 <? lp_VLESSPort p) then ok else no "vless+reality not enabled"
  else no "not implemented".

Definition Probe (p : LocalProber) (kinds : list string) : list ProbeResult := probe_one p <$> kinds.

(** [probe] is any Prober. *)
Definition Select (probe : list string → list ProbeResult) (stealthEnabled : bool) : option ProbeResult :=
  SelectBest (probe (ImplementedLadder stealthEnabled)).

(** ** Properties *)

Lemma select_loop_spec results : ∀ best,
  match select_loop best results with
  | Some b =>
      (best = Some b ∨ ∃ l r k, results = l ++ r :: k ∧ pb_Success r = true ∧
         b = set_Score (Score r false false) r ∧
         Forall (λ x, pb_Success x = true → Score x false false < pb_Score b) l ∧
         (∀ b0, best = Some b0 → pb_Score b0 < pb_Score b)) ∧
      Forall (λ x, pb_Success x = true → Score x false false <= pb_Score b) results ∧
      (∀ b0, best = Some b0 → pb_Score b0 <= pb_Score b)
  | None => best = None ∧ Forall (λ x, pb_Success x = false) results
  end.
Proof.
  induction results as [|r results IH]; intros best; cbn [select_loop].
  { destruct best; [|done]. split; [auto|]. split; [done|]. by intros b0 [= ->]. }
  destruct (pb_Success r) eqn:Es; cbn [negb].
  2:{ specialize (IH best). destruct (select_loop best results) as [b|].
      - destruct IH as ([->|(l & x & k & -> & H1 & H2 & H3 & H4)] & Hall & Hb).
        + split; [auto|]. split; [|done]. constructor; [congruence|done].
        + split; [|split; [constructor; [congruence|done]|done]].
          right. exists (r :: l), x, k. do 3 (split; [done|]). split; [|done].
          constructor; [congruence|done].
      - destruct IH. split; [done|]. constructor; done. }
  set (s := Score r false false).
  set (best' := match best with
                | Some b => if pb_Score b <? s then Some (set_Score s r) else best
                | None => Some (set_Score s r) end).
  assert (match best with
          | Some b => select_loop (if pb_Score b <? s then Some (set_Score s r) else best) results
          | None => select_loop (Some (set_Score s r)) results end = select_loop best' results) as ->
    by (unfold best'; destruct best; done).
  specialize (IH best'). destruct (select_loop best' results) as [b|].
  2:{ destruct IH as [H _]. unfold best' in H. destruct best as [b|]; [|done].
      destruct (pb_Score b <? s); done. }
  assert (Hcase : best' = Some (set_Score s r) ∧ (∀ b0, best = Some b0 → pb_Score b0 < s) ∨
                  best' = best ∧ ∃ b0, best = Some b0 ∧ s <= pb_Score b0).
  { unfold best'. destruct best as [b0|]; [|left; split; [done|discriminate]].
    destruct (Z.ltb_spec (pb_Score b0) s); [left|right]; (split; [done|]); [|eauto].
    by intros b1 [= <-]. }
  destruct IH as (Hwhich & Hall & Hb).
  destruct Hcase as [[Ebest Hlt]|[Ebest (b0 & Eb0 & Hle)]].
  - assert (Hs : s <= pb_Score b) by (apply (Hb (set_Score s r)); done).
    split; [|split].
    + right. destruct Hwhich as [E|(l & x & k & -> & H1 & H2 & H3 & H4)].
      * exists [], r, results. assert (b = set_Score s r) as -> by congruence. split; [done|].
        split; [done|]. split; [done|]. split; [constructor|]. exact Hlt.
      * exists (r :: l), x, k. do 3 (split; [done|]). split.
        -- constructor; [|done]. intros _. specialize (H4 _ Ebest). exact H4.
        -- intros b0 Eb0. specialize (H4 _ Ebest). specialize (Hlt _ Eb0). cbn in H4. lia.
    + constructor; [intros _; exact Hs|done].
    + intros b0 Eb0. specialize (Hlt _ Eb0). lia.
  - rewrite Ebest in *. specialize (Hb b0 Eb0) as Hb0. split; [|split].
    + destruct Hwhich as [E|(l & x & k & -> & H1 & H2 & H3 & H4)]; [auto|].
      right. exists (r :: l), x, k. do 3 (split; [done|]). split; [|done].
      constructor; [|done]. intros _. specialize (H4 _ Eb0). fold s. lia.
    + constructor; [intros _; fold s; lia|done].
    + done.
Qed.

Lemma Score_nonneg r a b : 0 <= Score r a b.
Proof.
  unfold Score. destruct (negb (pb_Success r)); [done|]. cbv zeta.
  set (s := if b then _ else _). destruct (Z.ltb_spec s 0); lia.
Qed.

(** SelectBest returns the first of the successful probes with the
    highest score, with that score filled in, and nothing exactly when no
    probe succeeded; scores are never negative.  On the node's own probes it
    is therefore the first transport of the ladder that is configured. *)
Lemma SelectBest_first_max :
  (∀ results,
     match SelectBest results with
     | Some b => ∃ l r k, results = l ++ r :: k ∧ pb_Success r = true ∧
         b = set_Score (Score r false false) r ∧ 0 <= pb_Score b ∧
         Forall (λ x, pb_Success x = true → Score x false false < pb_Score b) l ∧
         Forall (λ x, pb_Success x = true → Score x false false <= pb_Score b) results
     | None => Forall (λ x, pb_Success x = false) results
     end) ∧
  (∀ p stealth, pb_Kind <$> Select (Probe p) stealth =
     find_first (λ k, pb_Success (probe_one p k)) (ImplementedLadder stealth)).
Proof.
  split.
  - intros results. pose proof (select_loop_spec results None) as H. unfold SelectBest.
    destruct (select_loop None results) as [b|]; [|apply H].
    destruct H as ([[=]|(l & r & k & H1 & H2 & H3 & H4 & _)] & Hall & _).
    exists l, r, k. do 3 (split; [done|]). split; [|done].
    rewrite H3. cbn [set_Score pb_Score]. apply Score_nonneg.
  - intros [st wg vl hy] stealth. unfold Select, Probe, SelectBest, ImplementedLadder, probe_one.
    destruct stealth; cbn; destruct (0 <? wg); destruct st; try reflexivity;
      cbn; destruct (0 <? hy); try reflexivity; cbn; destruct (0 <? vl); reflexivity.
Qed.

Lemma Sorted_imp {A} (R R' : A → A → Prop) l :
  (∀ x y, R x y → R' x y) → Sorted R l → Sorted R' l.
Proof.
  intros H. induction 1 as [|x l Hs IH Hd]; constructor; [done|]. destruct Hd; constructor; auto.
Qed.

(** The ladder order permutes what it is given into ladder order. *)
Lemma SortByLadder_ordered {srt : Sorting} kinds :
  SortByLadder kinds ≡ₚ kinds ∧
  Sorted (λ a b, ladder_rank a <= ladder_rank b) (SortByLadder kinds).
Proof.
  split; [apply sort_by_perm|]. eapply Sorted_imp; [|apply sort_by_sorted]; cbn; intros x y; lia.
Qed.
