(* ===== verification/Sentinel.v ===== *)
(** * The Sentinel sidecar: internal/sentinel/policy and internal/sentinel/api

    The policy writer that turns gateway rules into Unbound fragments, and the
    HTTP API that applies policies, tracks the licence and reloads Unbound.
    The configuration directory is a map from file name to content; a call to
    the file system may fail, and a failed write may leave a prefix of the new
    content behind.  The order in which Apply visits its map of files is an
    argument.  What the commands unbound-control and killall answer is a
    function of the commands run so far. *)
From S2P Require Import Prelude GoStrings GoLines GoUrl GoDecode.

(** ** policy.go *)

Record Rule := mkRule {
  rl_RuleType : string; rl_Target : string; rl_Action : string; rl_Value : string;
  rl_Enabled : bool }.
Record Policy := mkPolicy {
  po_OrgID : string; po_NodeID : string; po_Rules : list Rule; po_Upstreams : list string }.

Definition dnsZone (host : string) : string :=
  let host := TrimSpace (ToLower host) in
  let host := TrimSuffix host "." in
  host +:+ ".".

(** The four fragments, as the loop over the rules accumulates them. *)
Record Fragments := mkFragments {
  fr_blocks : string; fr_allows : string; fr_rewrites : string; fr_upstreams : string }.

Definition block_actions : list string := ["block"; "domain_block"; "wildcard_domain_block"].
Definition allow_actions : list string := ["allow"; "domain_allow"].
Definition rewrite_actions : list string := ["rewrite"; "dns_rewrite"].

(** The address of a rewrite rule: its value, else its action. *)
Definition rewrite_value (r : Rule) : string :=
  let val := TrimSpace (rl_Value r) in
  if String.eqb val EmptyString then TrimSpace (rl_Action r) else val.

(** One round of the loop over the rules. *)
Definition render_rule (f : Fragments) (r : Rule) : Fragments :=
  let '(mkFragments blocks allows rewrites upstreams) := f in
  if negb (rl_Enabled r) then f
  else
    let target := dnsZone (rl_Target r) in
    let action := ToLower (TrimSpace (rl_Action r)) in
    if bool_decide (action ∈ block_actions) then
      let zone :=
        if HasPrefix (TrimSpace (rl_Target r)) "*." then
          dnsZone (TrimPrefix (TrimSpace (rl_Target r)) "*.")
        else target in
      mkFragments (blocks +:+ "local-zone: " +:+ quote_q zone +:+ " always_nxdomain" +:+ newline)
        allows rewrites upstreams
    else if bool_decide (action ∈ allow_actions) then
      mkFragments blocks (allows +:+ "local-zone: " +:+ quote_q target +:+ " transparent" +:+ newline)
        rewrites upstreams
    else if bool_decide (action ∈ rewrite_actions) then
      let val := rewrite_value r in
      if bool_decide (val ∈ [EmptyString; "rewrite"; "dns_rewrite"]) then f
      else
        mkFragments blocks allows
          (rewrites +:+ "local-zone: " +:+ quote_q target +:+ " static" +:+ newline
             +:+ "local-data: " +:+ quote_q target +:+ " 60 IN A " +:+ val +:+ newline) upstreams
    else f.

Definition forward_addr (u : string) : string :=
  let addr := TrimPrefix (TrimPrefix u "tls://") "https://" in
  if Contains addr "@" then "  forward-addr: " +:+ addr +:+ newline
  else "  forward-addr: " +:+ addr +:+ "@853" +:+ newline.

Definition render_upstreams (us : list string) : string :=
  match us with
  | [] => EmptyString
  | _ =>
      foldl (λ acc u, acc +:+ forward_addr u)
        ("forward-zone:" +:+ newline +:+ "  name: " +:+ quote_q "." +:+ newline
           +:+ "  forward-tls-upstream: yes" +:+ newline) us
  end.

Definition render (p : Policy) : Fragments :=
  let f := foldl render_rule (mkFragments EmptyString EmptyString EmptyString EmptyString) (po_Rules p) in
  mkFragments (fr_blocks f) (fr_allows f) (fr_rewrites f) (render_upstreams (po_Upstreams p)).

(** ** The configuration directory *)

(** A call that fails with [e]; a failed write leaves the file as it was, or
    the first [n] bytes of the new content. *)
Record ConfDir := mkConf {
  cf_files : gmap string string; cf_faults : list (option (error * option nat)) }.

Definition fs_call : M ConfDir unit := fun s =>
  match cf_faults s with
  | Some (e, _) :: fs => (Err e, mkConf (cf_files s) fs)
  | None :: fs => (Ok tt, mkConf (cf_files s) fs)
  | [] => (Ok tt, s)
  end.

Definition WriteFile (name content : string) : M ConfDir unit := fun s =>
  match cf_faults s with
  | Some (e, None) :: fs => (Err e, mkConf (cf_files s) fs)
  | Some (e, Some n) :: fs =>
      (Err e, mkConf (<[name := String.substring 0 n content]> (cf_files s)) fs)
  | None :: fs => (Ok tt, mkConf (<[name := content]> (cf_files s)) fs)
  | [] => (Ok tt, mkConf (<[name := content]> (cf_files s)) [])
  end.

Definition policy_files (p : Policy) : list (string * string) :=
  let f := render p in
  [("blocklist.conf", fr_blocks f); ("allowlist.conf", fr_allows f); ("rewrites.conf", fr_rewrites f);
   ("upstreams.conf", fr_upstreams f);
   ("base.conf", "# generated by erebrus-sentinel" +:+ newline)].

(** [visit]: the order of the range over the map of files. *)
Definition Apply (visit : list (string * string) → list (string * string)) (p : Policy) : M ConfDir unit :=
  _ ← fs_call;
  for_each (λ nb, WriteFile nb.1 nb.2) (visit (policy_files p)).

(** ** The wire format of a policy *)

Definition decode_rule (j : json) : result Rule :=
  rt ← field_string "rule_type" j; target ← field_string "target" j;
  action ← field_string "action" j; value ← field_string "value" j;
  enabled ← field_bool "enabled" j; Ok (mkRule rt target action value enabled).

Definition decode_policy (j : json) : result Policy :=
  org ← field_string "org_id" j; node ← field_string "node_id" j;
  rules ← field_list "rules" decode_rule j;
  upstreams ← field_list "upstreams" string_elem j;
  Ok (mkPolicy org node rules upstreams).

(** ParsePolicy: an empty text is the empty policy. *)
Definition ParsePolicy (raw : option (result json)) : result Policy :=
  match raw with
  | None => Ok (mkPolicy EmptyString EmptyString [] [])
  | Some r => j ← r; decode_policy j
  end.

Definition encode_rule (r : Rule) : json :=
  JObj ([("rule_type", JStr (rl_RuleType r)); ("target", JStr (rl_Target r));
         ("action", JStr (rl_Action r))] ++
        (if String.eqb (rl_Value r) EmptyString then [] else [("value", JStr (rl_Value r))]) ++
        [("enabled", JBool (rl_Enabled r))]).

Definition encode_policy (p : Policy) : json :=
  JObj [("org_id", JStr (po_OrgID p)); ("node_id", JStr (po_NodeID p));
        ("rules", encode_list encode_rule (po_Rules p));
        ("upstreams", encode_list JStr (po_Upstreams p))].

(** ** api/server.go *)

(** [se_commands]: the commands run so far, each with the generated files as
    they were when it ran. *)
Record SentinelServer := mkSentinel {
  se_addr : string; se_confDir : string; se_licensed : bool;
  se_lastApply : option Z; se_rules : Z;
  se_dir : ConfDir; se_commands : list (list string * gmap string string) }.

(** New; [env] is the process environment. *)
Definition NewSentinel (env : gmap string string) (addr confDir : string) (dir : ConfDir) : SentinelServer :=
  mkSentinel (if String.eqb addr EmptyString then ":8788" else addr)
    (if String.eqb confDir EmptyString then "/etc/unbound/conf.d/generated" else confDir)
    (negb (bool_decide (env !! "SENTINEL_LICENSED" = Some "false"))) None 0 dir [].

(** ConfigDir *)
Definition ConfigDir (env : gmap string string) : string :=
  match env !! "SENTINEL_CONF_DIR" with
  | Some d => if String.eqb d EmptyString then "/etc/unbound/conf.d/generated" else d
  | None => "/etc/unbound/conf.d/generated"
  end.

(** A request as the mux hands it over, and the reply. *)
Record SReq := mkSReq { sq_Method : string; sq_Path : string; sq_Body : result json }.
Record SReply := mkSReply { sy_Status : Z; sy_Text : string; sy_JSON : result json }.

Definition writeJSON (j : json) : SReply := mkSReply 200 EmptyString (Ok j).
Definition http_Error (msg : string) (status : Z) : SReply :=
  mkSReply status (msg +:+ newline) (Err (EMsg "invalid character in JSON text")).

Section server.
Context (visit : list (string * string) → list (string * string)) (now : Z).
(** The outcome of the last of the commands run so far. *)
Context (exec_Run : list (list string) → result unit).

Definition set_licensed (b : bool) (s : SentinelServer) : SentinelServer :=
  mkSentinel (se_addr s) (se_confDir s) b (se_lastApply s) (se_rules s) (se_dir s) (se_commands s).
Definition set_dir (d : ConfDir) (s : SentinelServer) : SentinelServer :=
  mkSentinel (se_addr s) (se_confDir s) (se_licensed s) (se_lastApply s) (se_rules s) d (se_commands s).
Definition on_dir {A} (m : M ConfDir A) : M SentinelServer A := zoom se_dir set_dir m.

Definition exec_Command (args : list string) : M SentinelServer unit := run (λ s,
  let cmds := se_commands s ++ [(args, cf_files (se_dir s))] in
  (exec_Run cmds.*1, mkSentinel (se_addr s) (se_confDir s) (se_licensed s) (se_lastApply s) (se_rules s)
                    (se_dir s) cmds)).

Definition apply (p : Policy) : M SentinelServer unit :=
  s ← get;
  if negb (se_licensed s) then fail (EMsg "sentinel unlicensed")
  else
    _ ← on_dir (Apply visit p);
    run (λ s, (Ok tt, mkSentinel (se_addr s) (se_confDir s) (se_licensed s) (Some now)
                        (Z.of_nat (length (po_Rules p))) (se_dir s) (se_commands s))).

Definition reloadUnbound : M SentinelServer unit :=
  r ← try (exec_Command ["unbound-control"; "reload"]);
  match r with
  | Ok _ => mret tt
  | Err _ =>
      _ ← exec_Command ["unbound-control"; "status"];
      exec_Command ["killall"; "-HUP"; "unbound"]
  end.

Definition not_post : SReply := http_Error "method not allowed" 405.

Definition handleHealth : M SentinelServer SReply :=
  mret (writeJSON (JObj [("status", JStr "ok")])).

(** The time of the last application stands for its text. *)
Definition handleSentinelStatus : M SentinelServer SReply :=
  s ← get;
  mret (writeJSON (JObj [("licensed", JBool (se_licensed s)); ("rules", JNum (se_rules s));
          ("last_apply", match se_lastApply s with Some t => JNum t | None => JNull end);
          ("conf_dir", JStr (se_confDir s))])).

Definition handleLicenseCheck (r : SReq) : M SentinelServer SReply :=
  if negb (String.eqb (sq_Method r) "POST") then mret not_post
  else
    let licensed := match (j ← sq_Body r; field_bool_ptr "licensed" j) with
                    | Ok b => b | Err _ => None end in
    _ ← run (λ s, (Ok tt, match licensed with Some b => set_licensed b s | None => s end));
    s ← get;
    mret (writeJSON (JObj [("licensed", JBool (se_licensed s))])).

Definition handlePolicyApply (r : SReq) : M SentinelServer SReply :=
  if negb (String.eqb (sq_Method r) "POST") then mret not_post
  else
    match (j ← sq_Body r; decode_policy j) with
    | Err _ => mret (http_Error "invalid body" 400)
    | Ok p =>
        res ← try (apply p);
        match res with
        | Err e => mret (http_Error (error_text e) 500)
        | Ok _ => mret (writeJSON (JObj [("status", JStr "applied")]))
        end
    end.

Definition handleRulesSync (r : SReq) : M SentinelServer SReply := handlePolicyApply r.

Definition handleReload (r : SReq) : M SentinelServer SReply :=
  if negb (String.eqb (sq_Method r) "POST") then mret not_post
  else
    res ← try reloadUnbound;
    match res with
    | Err e => mret (http_Error (error_text e) 500)
    | Ok _ => mret (writeJSON (JObj [("status", JStr "reloaded")]))
    end.

Definition handleMetrics : M SentinelServer SReply :=
  s ← get;
  mret (writeJSON (JObj [("rules_active", JNum (se_rules s)); ("licensed", JBool (se_licensed s))])).

(** The mux of ListenAndServe. *)
Definition sentinel_serve (r : SReq) : M SentinelServer SReply :=
  let path := sq_Path r in
  if String.eqb path "/health" then handleHealth
  else if String.eqb path "/status" then handleSentinelStatus
  else if String.eqb path "/license/check" then handleLicenseCheck r
  else if String.eqb path "/policy/apply" then handlePolicyApply r
  else if String.eqb path "/rules/sync" then handleRulesSync r
  else if String.eqb path "/reload" then handleReload r
  else if String.eqb path "/metrics" then handleMetrics
  else mret (http_Error "404 page not found" 404).
End server.

(** ** cmd/erebrus-sentinel *)

(** What main prints, the server it starts, and the exit status. *)
Record SentinelMain := mkSentinelMain { sm_out : list string; sm_server : option SentinelServer; sm_exit : Z }.

(** [listen]: how ListenAndServe on an address ends. *)
Definition sentinel_main (args : list string) (env : gmap string string) (dir : ConfDir)
    (listen : string → result unit) : SentinelMain :=
  let start :=
    let addr := default EmptyString (env !! "SENTINEL_LISTEN_ADDR") in
    let addr := if String.eqb addr EmptyString then ":8788" else addr in
    let srv := NewSentinel env addr (ConfigDir env) dir in
    mkSentinelMain [] (Some srv) (match listen (se_addr srv) with Ok _ => 0 | Err _ => 1 end) in
  match args with
  | _ :: a :: _ =>
      if bool_decide (a ∈ ["version"; "--version"; "-v"])
      then mkSentinelMain ["erebrus-sentinel/0.1.0"] None 0 else start
  | _ => start
  end.

(** Without a version flag main starts a server with an address and a directory,
    licensed unless the environment says "false", and fails when it cannot
    listen. *)
Lemma sentinel_main_starts args env dir listen srv :
  sm_server (sentinel_main args env dir listen) = Some srv →
  se_addr srv ≠ EmptyString ∧ se_confDir srv ≠ EmptyString ∧
  (se_licensed srv = false ↔ env !! "SENTINEL_LICENSED" = Some "false") ∧
  (sm_exit (sentinel_main args env dir listen) = 0 ↔ is_ok (listen (se_addr srv)) = true).
Proof.
  intros H. assert (∃ addr, addr ≠ EmptyString ∧ srv = NewSentinel env addr (ConfigDir env) dir ∧
    sm_exit (sentinel_main args env dir listen) = match listen (se_addr srv) with Ok _ => 0 | Err _ => 1 end)
    as (addr & Ha & -> & He).
  { exists (if String.eqb (default EmptyString (env !! "SENTINEL_LISTEN_ADDR")) EmptyString then ":8788"
            else default EmptyString (env !! "SENTINEL_LISTEN_ADDR")).
    split; [by destruct (String.eqb_spec (default EmptyString (env !! "SENTINEL_LISTEN_ADDR")) EmptyString)|].
    unfold sentinel_main in *. destruct args as [|x [|a l]]; [..|destruct (bool_decide _); [done|]];
      cbn [sm_server] in H; injection H as <-; split; reflexivity. }
  rewrite He. cbn. rewrite (proj2 (String.eqb_neq addr EmptyString)) by done. split; [done|].
  split; [by destruct (String.eqb_spec (ConfigDir env) EmptyString)|]. split.
  - rewrite negb_false_iff, bool_decide_eq_true. done.
  - by destruct (listen addr).
Qed.

(** ** The lines of the fragments *)

(** Text of lines, each ended by a newline. *)
Definition lines_text (l : list string) : string := foldr (λ x acc, x +:+ newline +:+ acc) EmptyString l.

Definition has_action (actions : list string) (r : Rule) : bool :=
  rl_Enabled r && bool_decide (ToLower (TrimSpace (rl_Action r)) ∈ actions).

(** The zone a block rule names; the wildcard label is cut off. *)
Definition block_zone (r : Rule) : string :=
  dnsZone (TrimPrefix (TrimSpace (rl_Target r)) "*.").

Definition rule_blocks (r : Rule) : list string :=
  if has_action block_actions r
  then ["local-zone: " +:+ quote_q (block_zone r) +:+ " always_nxdomain"] else [].
Definition rule_allows (r : Rule) : list string :=
  if has_action allow_actions r
  then ["local-zone: " +:+ quote_q (dnsZone (rl_Target r)) +:+ " transparent"] else [].
Definition rule_rewrites (r : Rule) : list string :=
  if has_action rewrite_actions r
     && negb (bool_decide (rewrite_value r ∈ [EmptyString; "rewrite"; "dns_rewrite"]))
  then ["local-zone: " +:+ quote_q (dnsZone (rl_Target r)) +:+ " static";
        "local-data: " +:+ quote_q (dnsZone (rl_Target r)) +:+ " 60 IN A " +:+ rewrite_value r]
  else [].
Definition upstream_line (u : string) : string :=
  let addr := TrimPrefix (TrimPrefix u "tls://") "https://" in
  "  forward-addr: " +:+ addr +:+ (if Contains addr "@" then EmptyString else "@853").
Definition upstream_lines (us : list string) : list string :=
  match us with
  | [] => []
  | _ => ["forward-zone:"; "  name: " +:+ quote_q "."; "  forward-tls-upstream: yes"] ++ (upstream_line <$> us)
  end.

Lemma lines_text_app a b : lines_text (a ++ b) = lines_text a +:+ lines_text b.
Proof. induction a as [|x a IH]; [done|]. cbn [app lines_text foldr].
  fold (lines_text (a ++ b)) (lines_text a). by rewrite IH, !app_assoc_str. Qed.

(** The lines of such a text, whatever the lines contain. *)
Lemma Split_lines_text l : Split (lines_text l) nl = concat ((λ x, Split x nl) <$> l) ++ [EmptyString].
Proof.
  induction l as [|x l IH]; [done|]. rewrite fmap_cons. cbn [lines_text foldr concat].
  fold (lines_text l). by rewrite Split_app_nl, IH, app_assoc.
Qed.

Lemma concat_Split_no_nl l : Forall no_nl l → concat ((λ x, Split x nl) <$> l) = l.
Proof. induction 1 as [|x l Hx _ IH]; [done|]. rewrite fmap_cons. cbn [concat].
  by rewrite Split_no_nl, IH. Qed.

Lemma no_nl_cons c s : no_nl (String c s) ↔ c ≠ nl ∧ no_nl s.
Proof. unfold no_nl. cbn [sforall]. rewrite andb_true_iff, negb_true_iff, Ascii.eqb_neq. done. Qed.

Lemma hex_char_no_nl n : 0 <= n < 16 → hex_char n ≠ nl.
Proof.
  intros H. unfold hex_char, nl, chr. intros E%(f_equal Ascii.N_of_ascii).
  destruct (Z.ltb_spec n 10); rewrite !Ascii.N_ascii_embedding in E by lia; lia.
Qed.

(** Quoted text never starts a line of its own. *)
Lemma escape_q_no_nl s : no_nl (escape_q s).
Proof.
  induction s as [|c s IH]; [done|]. cbn [escape_q].
  destruct (short_escape (code c)) as [e|] eqn:E.
  - rewrite !no_nl_cons. split; [done|]. split; [|done]. intros ->.
    revert E. unfold short_escape. by repeat case_match.
  - pose proof (Ascii.N_ascii_bounded c). unfold code in *.
    destruct (_ || _) eqn:Ec; rewrite !no_nl_cons.
    + split_and!; try done; apply hex_char_no_nl.
      * split; [apply Z.div_pos; lia|]. apply Z.div_lt_upper_bound; [lia|].
        apply orb_true_iff in Ec as [?%Z.ltb_lt|?%Z.eqb_eq]; lia.
      * apply Z.mod_pos_bound. lia.
    + split; [|done]. intros ->. done.
Qed.

Lemma quote_q_no_nl s : no_nl (quote_q s).
Proof. unfold quote_q. rewrite !no_nl_app. split_and!; [done|apply escape_q_no_nl|done]. Qed.

(** The three groups of actions do not overlap. *)
Lemma actions_disjoint a :
  (a ∈ block_actions → bool_decide (a ∈ allow_actions) = false ∧ bool_decide (a ∈ rewrite_actions) = false) ∧
  (a ∈ allow_actions → bool_decide (a ∈ rewrite_actions) = false).
Proof.
  split.
  - intros H. repeat (apply elem_of_cons in H as [->|H]; [done|]). by apply not_elem_of_nil in H.
  - intros H. repeat (apply elem_of_cons in H as [->|H]; [done|]). by apply not_elem_of_nil in H.
Qed.

Lemma HasPrefix_strip s p : HasPrefix s p = match strip_prefix p s with Some _ => true | None => false end.
Proof.
  unfold HasPrefix. revert s. induction p as [|a p IH]; intros s; [by destruct s|].
  destruct s as [|b s]; [done|]. cbn. destruct (Ascii.eqb_spec a b) as [->|Hne].
  - destruct (Ascii.ascii_dec b b); [apply IH|done].
  - by destruct (Ascii.ascii_dec a b).
Qed.

Lemma dnsZone_trim h : dnsZone (TrimSpace h) = dnsZone h.
Proof. unfold dnsZone. by rewrite !TrimSpace_ToLower, TrimSpace_idem. Qed.

Lemma block_zone_eq r :
  (if HasPrefix (TrimSpace (rl_Target r)) "*." then dnsZone (TrimPrefix (TrimSpace (rl_Target r)) "*.")
   else dnsZone (rl_Target r)) = block_zone r.
Proof.
  unfold block_zone. rewrite HasPrefix_strip. unfold TrimPrefix.
  destruct (strip_prefix _ _); [done|]. symmetry. apply dnsZone_trim.
Qed.

(** One round appends the lines of its rule. *)
Lemma render_rule_lines f r :
  render_rule f r =
    mkFragments (fr_blocks f +:+ lines_text (rule_blocks r)) (fr_allows f +:+ lines_text (rule_allows r))
      (fr_rewrites f +:+ lines_text (rule_rewrites r)) (fr_upstreams f).
Proof.
  destruct f as [b a w u]. unfold render_rule, rule_blocks, rule_allows, rule_rewrites, has_action.
  cbn [fr_blocks fr_allows fr_rewrites fr_upstreams]. cbv zeta.
  destruct (rl_Enabled r); cbn [negb andb]; [|by rewrite !app_nil_str].
  set (act := ToLower _). destruct (actions_disjoint act) as [H1 H2]. rewrite block_zone_eq.
  destruct (bool_decide (act ∈ block_actions)) eqn:Eb.
  { apply bool_decide_eq_true in Eb. destruct (H1 Eb) as [-> ->]. cbn [lines_text foldr andb].
    by rewrite <- !app_assoc_str, !app_nil_str. }
  destruct (bool_decide (act ∈ allow_actions)) eqn:Ea.
  { apply bool_decide_eq_true in Ea. rewrite (H2 Ea). cbn [lines_text foldr andb].
    by rewrite <- !app_assoc_str, !app_nil_str. }
  destruct (bool_decide (act ∈ rewrite_actions)); cbn [andb]; [|by rewrite !app_nil_str].
  destruct (bool_decide (rewrite_value r ∈ _)); cbn [negb]; [by rewrite !app_nil_str|].
  cbn [lines_text foldr]. by rewrite <- !app_assoc_str, !app_nil_str.
Qed.

Lemma render_rules_lines rules : ∀ f,
  foldl render_rule f rules =
    mkFragments (fr_blocks f +:+ lines_text (concat (rule_blocks <$> rules)))
      (fr_allows f +:+ lines_text (concat (rule_allows <$> rules)))
      (fr_rewrites f +:+ lines_text (concat (rule_rewrites <$> rules))) (fr_upstreams f).
Proof.
  induction rules as [|r rules IH]; intros f.
  { cbn. rewrite !app_nil_str. by destruct f. }
  cbn [foldl]. rewrite IH, render_rule_lines, !fmap_cons. cbn [concat fr_blocks fr_allows fr_rewrites fr_upstreams].
  by rewrite !lines_text_app, !app_assoc_str.
Qed.

Lemma forward_addr_line u : forward_addr u = upstream_line u +:+ newline.
Proof.
  unfold forward_addr, upstream_line. cbv zeta. destruct (Contains _ _);
    by rewrite ?app_nil_str, <- !app_assoc_str, ?app_nil_str.
Qed.

Lemma render_upstreams_lines us : render_upstreams us = lines_text (upstream_lines us).
Proof.
  assert (H : ∀ l acc, foldl (λ acc u, acc +:+ forward_addr u) acc l = acc +:+ lines_text (upstream_line <$> l)).
  { induction l as [|u l IH]; intros acc; cbn [foldl]; [by rewrite app_nil_str|].
    rewrite IH, forward_addr_line, fmap_cons. cbn [lines_text foldr]. by rewrite <- !app_assoc_str. }
  unfold render_upstreams, upstream_lines. destruct us as [|u us]; [done|]. rewrite H, lines_text_app.
  cbn [lines_text foldr]. by rewrite <- !app_assoc_str.
Qed.

Lemma render_lines p :
  render p = mkFragments (lines_text (concat (rule_blocks <$> po_Rules p)))
    (lines_text (concat (rule_allows <$> po_Rules p))) (lines_text (concat (rule_rewrites <$> po_Rules p)))
    (lines_text (upstream_lines (po_Upstreams p))).
Proof. unfold render. by rewrite render_rules_lines, render_upstreams_lines. Qed.

(** Block and allow lines hold nothing but quoted text. *)
Lemma zone_lines_no_nl rules :
  Forall no_nl (concat (rule_blocks <$> rules)) ∧ Forall no_nl (concat (rule_allows <$> rules)).
Proof.
  split; apply Forall_concat, Forall_fmap, Forall_true; intros r; cbn;
    unfold rule_blocks, rule_allows; case_match; try done; apply Forall_singleton;
    rewrite !no_nl_app; split_and!; try done; apply quote_q_no_nl.
Qed.

(** ** Applying a policy *)

Lemma substring_full s : String.substring 0 (String.length s) s = s.
Proof. induction s as [|c s IH]; [done|]. cbn. by rewrite IH. Qed.

(** What a write leaves of a file. *)
Definition written (old : option string) (c : string) (now : option string) : Prop :=
  now = old ∨ ∃ n, now = Some (String.substring 0 n c).

Lemma WriteFile_inv n c s r s' :
  WriteFile n c s = (r, s') →
  (∀ m, m ≠ n → cf_files s' !! m = cf_files s !! m) ∧
  (r = Ok tt → cf_files s' !! n = Some c) ∧
  written (cf_files s !! n) c (cf_files s' !! n) ∧
  (cf_faults s = [] → r = Ok tt ∧ cf_faults s' = []).
Proof.
  unfold WriteFile. destruct (cf_faults s) as [|[[e [k|]]|] fs]; intros [= <- <-]; cbn;
    (split; [intros m Hm; by rewrite ?lookup_insert_ne by congruence|]);
    rewrite ?lookup_insert_eq; split_and!; try done; unfold written;
    eauto using eq_sym, substring_full; right; exists (String.length c); by rewrite substring_full.
Qed.

Lemma write_all l : ∀ s r s',
  NoDup l.*1 → for_each (λ nb, WriteFile nb.1 nb.2) l s = (r, s') →
  (∀ m, m ∉ l.*1 → cf_files s' !! m = cf_files s !! m) ∧
  (∀ n c, (n, c) ∈ l → (r = Ok tt → cf_files s' !! n = Some c) ∧
     written (cf_files s !! n) c (cf_files s' !! n)) ∧
  (cf_faults s = [] → r = Ok tt).
Proof.
  induction l as [|[n c] l IH]; intros s r s' Hnd.
  { intros [= <- <-]. split_and!; try done. intros ? ? []%not_elem_of_nil. }
  rewrite fmap_cons in *. apply NoDup_cons in Hnd as [Hn Hnd].
  intros [(u & s1 & H1 & H2)|(e & H1 & ->)]%bind_inv;
    apply WriteFile_inv in H1 as (Hother & Hfull & Hw & Hq); cbn in Hother, Hfull, Hw, Hn.
  - destruct u. destruct (IH _ _ _ Hnd H2) as (IH1 & IH2 & IH3). split_and!.
    + intros m Hm. rewrite not_elem_of_cons in Hm. destruct Hm as [Hm1 Hm2]. cbn in Hm1.
      rewrite IH1 by done. by apply Hother.
    + intros n' c' [[= -> ->]|Hin]%elem_of_cons.
      * rewrite (IH1 n) by done. by auto.
      * destruct (IH2 _ _ Hin) as [Ha Hb]. split; [done|].
        rewrite <- (Hother n'); [done|]. intros ->. apply Hn, list_elem_of_fmap. by exists (n, c').
    + intros Hf. apply IH3, (Hq Hf).
  - split_and!.
    + intros m [Hm _]%not_elem_of_cons. by apply Hother.
    + intros n' c' [[= -> ->]|Hin]%elem_of_cons; [done|]. split; [done|]. left. apply Hother.
      intros ->. apply Hn, list_elem_of_fmap. by exists (n, c').
    + intros Hf. by destruct (Hq Hf).
Qed.

Lemma policy_files_names p : (policy_files p).*1 =
  ["blocklist.conf"; "allowlist.conf"; "rewrites.conf"; "upstreams.conf"; "base.conf"].
Proof. done. Qed.

Lemma policy_Apply_inv visit p s r s' :
  (∀ l, visit l ≡ₚ l) → Apply visit p s = (r, s') →
  (∀ m, m ∉ (policy_files p).*1 → cf_files s' !! m = cf_files s !! m) ∧
  (∀ n c, (n, c) ∈ policy_files p → (r = Ok tt → cf_files s' !! n = Some c) ∧
     written (cf_files s !! n) c (cf_files s' !! n)) ∧
  (cf_faults s = [] → r = Ok tt).
Proof.
  intros Hv H. assert (Hcall : ∀ r1 s1, fs_call s = (r1, s1) → cf_files s1 = cf_files s ∧
    (cf_faults s = [] → r1 = Ok tt ∧ cf_faults s1 = [])).
  { unfold fs_call. intros r1 s1. by destruct (cf_faults s) as [|[[]|]] eqn:E; intros [= <- <-]. }
  apply bind_inv in H as [(u & s1 & H1 & H2)|(e & H1 & ->)]; apply Hcall in H1 as [E1 Hq].
  - assert (Hnd : NoDup (visit (policy_files p)).*1).
    { rewrite (Hv (policy_files p)), policy_files_names. apply (bool_decide_unpack _). by vm_compute. }
    apply write_all in H2 as (W1 & W2 & W3); [|done]. rewrite <- E1. split_and!.
    + intros m Hm. apply W1. by rewrite (Hv (policy_files p)).
    + intros n c Hin. apply W2. by rewrite (Hv (policy_files p)).
    + intros Hf. apply W3, (Hq Hf).
  - rewrite E1. split_and!; try done.
    + intros n c _. split; [done|]. by left.
    + intros Hf. by destruct (Hq Hf).
Qed.

(** What a policy leaves in the directory. *)
Definition in_force (p : Policy) (files : gmap string string) : Prop :=
  ∀ n c, (n, c) ∈ policy_files p → files !! n = Some c.

Definition sentinel_files (s : SentinelServer) : gmap string string := cf_files (se_dir s).

Section apply.
Context (visit : list (string * string) → list (string * string)) (now : Z).
Hypothesis visit_perm : ∀ l, visit l ≡ₚ l.

(** The outcome of [apply]: everything but the directory, the count and the
    time stays. *)
Lemma apply_inv p s r s' :
  apply visit now p s = (r, s') →
  se_licensed s' = se_licensed s ∧ se_commands s' = se_commands s ∧
  (se_licensed s = false → s' = s ∧ r ≠ Ok tt) ∧
  (∀ m, m ∉ (policy_files p).*1 → sentinel_files s' !! m = sentinel_files s !! m) ∧
  (r = Ok tt → se_licensed s = true ∧ in_force p (sentinel_files s') ∧
     se_rules s' = Z.of_nat (length (po_Rules p)) ∧ se_lastApply s' = Some now) ∧
  (r ≠ Ok tt → se_rules s' = se_rules s ∧ se_lastApply s' = se_lastApply s ∧
     ∀ n c, (n, c) ∈ policy_files p → written (sentinel_files s !! n) c (sentinel_files s' !! n)) ∧
  (se_licensed s = true → cf_faults (se_dir s) = [] → r = Ok tt).
Proof.
  unfold apply. intros H. apply bind_inv in H.
  destruct H as [(s0 & s1 & Hg & H)|(e & Hg & ->)]; [|discriminate]. injection Hg as <- <-.
  destruct (se_licensed s) eqn:El; cbn [negb] in H.
  2:{ injection H as <- <-. split_and!; try done. intros _. split_and!; try done. intros. by left. }
  apply bind_inv in H as [(u & s1 & H1 & H2)|(e & H1 & ->)];
    apply zoom_inv in H1 as (d & H1 & ->); apply (policy_Apply_inv _ _ _ _ _ visit_perm) in H1 as (A1 & A2 & A3).
  - injection H2 as <- <-. destruct u. split_and!; try done.
    intros _. split_and!; try done. intros n c Hin. by apply A2.
  - split_and!; try done. intros _. split_and!; try done. intros n c Hin. by apply A2.
Qed.

Definition policy_of (r : SReq) : result Policy := j ← sq_Body r; decode_policy j.

End apply.

(** C21. The generated fragments are, line by line, what the rules say: one
    [local-zone] line per enabled block or allow rule, in order, whatever the
    targets contain, since a target is quoted; a static zone and an address
    record per enabled rewrite rule with a value; and the forwarders in order,
    with port 853 unless one is given.  The values of rewrite rules and the
    upstreams are written as they are: each appears as the lines it has. *)
Theorem policy_fragments_exact p :
  let f := render p in
  Split (fr_blocks f) nl = concat (rule_blocks <$> po_Rules p) ++ [EmptyString] ∧
  Split (fr_allows f) nl = concat (rule_allows <$> po_Rules p) ++ [EmptyString] ∧
  Split (fr_rewrites f) nl =
    concat ((λ x, Split x nl) <$> concat (rule_rewrites <$> po_Rules p)) ++ [EmptyString] ∧
  Split (fr_upstreams f) nl =
    concat ((λ x, Split x nl) <$> upstream_lines (po_Upstreams p)) ++ [EmptyString].
Proof.
  cbv zeta. rewrite render_lines. cbn [fr_blocks fr_allows fr_rewrites fr_upstreams].
  rewrite !Split_lines_text. destruct (zone_lines_no_nl (po_Rules p)) as [H1 H2].
  by rewrite !(concat_Split_no_nl _ H1), !(concat_Split_no_nl _ H2).
Qed.

Lemma has_nl_not_word v a b (words : list string) :
  Forall no_nl words → v = a +:+ newline +:+ b → v ∉ words.
Proof.
  intros Hw -> Hin. rewrite Forall_forall in Hw. apply Hw in Hin.
  apply no_nl_app in Hin as [_ [Hin _]%no_nl_app]. done.
Qed.

(** A rewrite value with a newline adds a configuration line of the
    sender's choice: for an enabled rewrite rule whose value is [pre], a
    newline and [line], the file rewrites.conf has [line] as a line of its
    own. *)
Lemma rewrite_value_injects_line p r pre line :
  r ∈ po_Rules p → has_action rewrite_actions r = true →
  rewrite_value r = pre +:+ newline +:+ line → no_nl line →
  line ∈ Split (fr_rewrites (render p)) nl.
Proof.
  intros Hr Ha Hv Hl. rewrite render_lines. cbn [fr_rewrites]. rewrite Split_lines_text.
  apply elem_of_app. left. apply list_elem_of_In, in_concat.
  exists (Split ("local-data: " +:+ quote_q (dnsZone (rl_Target r)) +:+ " 60 IN A " +:+ rewrite_value r) nl).
  split.
  - apply list_elem_of_In, list_elem_of_fmap. eexists. split; [reflexivity|].
    apply list_elem_of_In, in_concat. exists (rule_rewrites r). split.
    + apply list_elem_of_In, list_elem_of_fmap. by exists r.
    + unfold rule_rewrites. rewrite Ha, bool_decide_eq_false_2; [cbn; auto|].
      by apply (has_nl_not_word _ pre line); [repeat constructor|].
  - apply list_elem_of_In. rewrite Hv, !app_assoc_str, <- (app_assoc_str _ newline line), Split_app_nl.
    apply elem_of_app. right. rewrite Split_no_nl by done. by apply list_elem_of_singleton.
Qed.

(** A rewrite rule without a value gives no line exactly when its action is
    spelled in lower case; in any other spelling the action becomes the
    address. *)
Lemma rewrite_keyword_as_address r :
  has_action rewrite_actions r = true → TrimSpace (rl_Value r) = EmptyString →
  rule_rewrites r = [] ↔ TrimSpace (rl_Action r) = ToLower (TrimSpace (rl_Action r)).
Proof.
  intros Ha Hv. unfold rule_rewrites. rewrite Ha. unfold rewrite_value. rewrite Hv. cbn [String.eqb].
  unfold has_action in Ha. apply andb_true_iff in Ha as [_ Ha%bool_decide_eq_true].
  set (a := TrimSpace (rl_Action r)) in *. destruct (bool_decide _) eqn:E; cbn; split; try done.
  - apply bool_decide_eq_true in E. intros _.
    repeat (apply elem_of_cons in E as [->|E]; [done|]). by apply not_elem_of_nil in E.
  - intros Hl. apply bool_decide_eq_false in E. exfalso. apply E. rewrite Hl.
    repeat (apply elem_of_cons in Ha as [->|Ha]; [repeat constructor|]). by apply not_elem_of_nil in Ha.
Qed.

(** ** The wire format *)

Lemma decode_encode_rule r : decode_rule (encode_rule r) = Ok r.
Proof.
  destruct r as [rt t a v e]. unfold decode_rule, encode_rule. cbn.
  destruct (String.eqb_spec v EmptyString) as [->|Hv]; done.
Qed.

(** A policy is read back as it was sent. *)
Lemma decode_encode_policy p : decode_policy (encode_policy p) = Ok p.
Proof.
  destruct p as [o n rs us]. unfold decode_policy, encode_policy. cbn -[encode_list].
  assert (Hr : decode_all decode_rule (encode_rule <$> rs) = Ok rs)
    by (apply decode_all_encode; intros; apply decode_encode_rule).
  assert (Hu : decode_all string_elem (JStr <$> us) = Ok us) by by apply decode_all_encode.
  destruct rs as [|r rs], us as [|u us]; cbn [encode_list]; rewrite ?Hr; cbn [mbind result_bind];
    rewrite ?Hu; reflexivity.
Qed.

(** ** Witnesses *)

Definition policy_example : Policy :=
  mkPolicy "org" "12D3"
    [mkRule "domain" " *.Ads.example " "Block" "" true; mkRule "domain" "ok.example." "allow" "" true;
     mkRule "domain" "nas.example" "rewrite" ("10.0.0.9" +:+ newline +:+ "forward-zone:") true;
     mkRule "domain" "off.example" "block" "" false]
    ["tls://1.1.1.1"; "9.9.9.9@853"].

Definition sentinel_example : SentinelServer :=
  NewSentinel ∅ EmptyString EmptyString (mkConf {[ "other.conf" := "x" ]} []).

Definition apply_request (p : Policy) : SReq := mkSReq "POST" "/policy/apply" (Ok (encode_policy p)).


Lemma rewrite_value_injects_line_witness :
  "forward-zone:" ∈ Split (fr_rewrites (render policy_example)) nl.
Proof.
  apply (rewrite_value_injects_line policy_example
           (mkRule "domain" "nas.example" "rewrite" ("10.0.0.9" +:+ newline +:+ "forward-zone:") true)
           "10.0.0.9").
  - apply list_elem_of_In. cbn. auto.
  - vm_compute. reflexivity.
  - vm_compute. reflexivity.
  - vm_compute. reflexivity.
Defined.
