(* ===== verification/Firewall.v ===== *)
(** * The firewall client: internal/firewall/client.go

    Applies gateway policy to the local sidecar: Sentinel (the server of
    Sentinel.v) or AdGuard Home (Shield).  The sidecar is reached by HTTP:
    [Do] answers a request and changes the state [W] of the world behind it,
    and every request is recorded in the client.  [Unmarshal] is the JSON
    reader of the standard library on texts.  The configuration is the node's
    own: the client changes the admin credentials in it. *)
From S2P Require Import Prelude GoStrings GoLines GoUrl GoDecode ConfigData Config StoreDB Store Wg Stealth Node Bridge Sentinel.

Record SyncPayload := mkSync {
  sp_OrgID : string; sp_NodeID : string; sp_ServiceKind : string; sp_Rules : list Rule;
  sp_Upstreams : list string; sp_Licensed : bool; sp_ShieldAdmin : string }.

Definition zero_sync : SyncPayload := mkSync EmptyString EmptyString EmptyString [] [] false EmptyString.

Definition decode_sync (j : json) : result SyncPayload :=
  org ← field_string "org_id" j; node ← field_string "node_id" j;
  kind ← field_string "service_kind" j; rules ← field_list "rules" decode_rule j;
  upstreams ← field_list "upstreams" string_elem j; licensed ← field_bool "licensed" j;
  admin ← field_string "shield_admin_url" j;
  Ok (mkSync org node kind rules upstreams licensed admin).

Record FwRequest := mkFwReq {
  fq_Method : string; fq_URL : string; fq_Auth : option (string * string); fq_Body : option json }.
Record FwReply := mkFwReply { fy_Status : Z; fy_Text : string; fy_JSON : result json }.

Record FwClient (W : Type) := mkFwClient {
  fc_cfg : Config; fc_licensed : bool; fc_sent : list FwRequest; fc_world : W }.
Arguments mkFwClient {W}. Arguments fc_cfg {W}. Arguments fc_licensed {W}.
Arguments fc_sent {W}. Arguments fc_world {W}.

Definition defaultShieldUpstreams : list string := ["1.1.1.1"; "1.0.0.1"].

(** isStockUpstreams, on the value of the key or nothing. *)
Definition isStockUpstreams (v : option json) : bool :=
  match v with
  | Some (JArr []) => true
  | Some (JArr l) =>
      forallb (λ item, Contains (match item with JStr s => s | _ => EmptyString end) "dns10.quad9.net") l
  | _ => true
  end.

(** [m[k] = v] on the decoded map. *)
Fixpoint jset (k : string) (v : json) (l : list (string * json)) : list (string * json) :=
  match l with
  | [] => [(k, v)]
  | (k', v') :: l => if String.eqb k' k then (k, v) :: l else (k', v') :: jset k v l
  end.

Section client.
Context {W : Type} (Do : FwRequest → M W FwReply) (Unmarshal : string → result json).

Definition New (cfg : Config) (w : W) : FwClient W := mkFwClient cfg true [] w.

Definition SetLicensed (ok : bool) : M (FwClient W) unit := run (λ c,
  (Ok tt, mkFwClient (fc_cfg c) ok (fc_sent c) (fc_world c))).
Definition set_cfg (cfg : Config) : M (FwClient W) unit := run (λ c,
  (Ok tt, mkFwClient cfg (fc_licensed c) (fc_sent c) (fc_world c))).

(** Building the request and [c.http.Do]. *)
Definition send (rq : FwRequest) : M (FwClient W) FwReply := run (λ c,
  let '(r, w) := Do rq (fc_world c) in
  (r, mkFwClient (fc_cfg c) (fc_licensed c) (fc_sent c ++ [rq]) w)).

Definition adminUser (cfg : Config) : string :=
  if String.eqb (c_ShieldAdminUser cfg) EmptyString then "admin" else c_ShieldAdminUser cfg.

Definition AdminCredentials (cfg : Config) : string * string * string :=
  (adminUser cfg, c_ShieldAdminPassword cfg, TrimRight_slash (c_ShieldAdminURL cfg)).

Definition basic_auth (cfg : Config) : string * string := (adminUser cfg, c_ShieldAdminPassword cfg).

Definition status_error (limit : nat) (url : string) (r : FwReply) : error :=
  EMsg (url +:+ ": " +:+ Itoa (fy_Status r) +:+ " "
        +:+ TrimSpace (String.substring 0 limit (fy_Text r))).

Definition is_2xx (r : FwReply) : bool := Z.quot (fy_Status r) 100 =? 2.

Definition post_auth (auth : option (string * string)) (url : string) (body : option json)
  : M (FwClient W) unit :=
  let url := TrimSpace url in
  if String.eqb url EmptyString then fail (EMsg "empty URL")
  else
    r ← send (mkFwReq "POST" url auth body);
    if negb (is_2xx r) then fail (status_error 512 url r) else mret tt.

Definition post (url : string) (body : option json) : M (FwClient W) unit := post_auth None url body.

Definition postAuth (url : string) (body : option json) : M (FwClient W) unit :=
  c ← get; post_auth (Some (basic_auth (fc_cfg c))) url body.

(** getAuth: the parsed body. *)
Definition getAuth (url : string) : M (FwClient W) (result json) :=
  let url := TrimSpace url in
  if String.eqb url EmptyString then fail (EMsg "empty URL")
  else
    c ← get;
    r ← send (mkFwReq "GET" url (Some (basic_auth (fc_cfg c))) None);
    if negb (is_2xx r) then fail (status_error (Pos.to_nat (2 ^ 20)) url r) else mret (fy_JSON r).

Definition sync_policy (p : SyncPayload) : Policy :=
  mkPolicy (sp_OrgID p) (sp_NodeID p) (sp_Rules p) (sp_Upstreams p).

Definition syncSentinel (p : SyncPayload) : M (FwClient W) unit :=
  c ← get;
  if negb (fc_licensed c) then fail (EMsg "sentinel unlicensed")
  else
    let api := c_SentinelAPIURL (fc_cfg c) in
    let body := encode_policy (sync_policy p) in
    _ ← try (post (api +:+ "/license/check") (Some (JObj [("licensed", JBool (fc_licensed c))])));
    c ← get;
    if negb (fc_licensed c) then fail (EMsg "sentinel unlicensed")
    else
      _ ← post (api +:+ "/policy/apply") (Some body);
      post (api +:+ "/reload") None.

Definition syncShield (p : SyncPayload) : M (FwClient W) unit :=
  c ← get;
  let base := TrimRight_slash (c_ShieldAdminURL (fc_cfg c)) in
  if String.eqb base EmptyString then mret tt
  else postAuth (base +:+ "/control/cache_clear") (Some (JObj [])).

Definition sync_args (raw : string) : result SyncPayload :=
  if String.eqb raw EmptyString then Ok zero_sync
  else match (j ← Unmarshal raw; decode_sync j) with
       | Ok p => Ok p
       | Err e => Err (EWrap "invalid sync args: " e EmptyString)
       end.

Definition Sync (raw : string) : M (FwClient W) unit :=
  c ← get;
  if negb (HasFirewallService (fc_cfg c)) then fail (EMsg "firewall service not configured")
  else
    p ← lift (sync_args raw);
    _ ← SetLicensed (sp_Licensed p);
    let provider := c_FirewallProvider (fc_cfg c) in
    if String.eqb provider FirewallUnboundErebrus then syncSentinel p
    else if String.eqb provider FirewallAdGuardHome then syncShield p
    else fail (EMsg ("unsupported firewall provider " +:+ quote_q provider)).

Definition Restart : M (FwClient W) unit :=
  c ← get;
  let provider := c_FirewallProvider (fc_cfg c) in
  if String.eqb provider FirewallUnboundErebrus
  then post (c_SentinelAPIURL (fc_cfg c) +:+ "/reload") None
  else if String.eqb provider FirewallAdGuardHome then
    let base := TrimRight_slash (c_ShieldAdminURL (fc_cfg c)) in
    if String.eqb base EmptyString then mret tt
    else post (base +:+ "/control/restart") (Some (JObj []))
  else fail (EMsg "firewall not configured").

Definition configureBody (user password : string) : json :=
  JObj [("web", JObj [("ip", JStr "0.0.0.0"); ("port", JNum 3000)]);
        ("dns", JObj [("ip", JStr "0.0.0.0"); ("port", JNum 53)]);
        ("username", JStr user); ("password", JStr password)].

Definition shieldUpstreams (cfg : Config) : list string :=
  let raw := TrimSpace (c_ShieldUpstreamDNS cfg) in
  if String.eqb raw EmptyString then defaultShieldUpstreams
  else
    let out := filter (λ u, u ≠ EmptyString) (TrimSpace <$> Split raw ","%char) in
    match out with [] => defaultShieldUpstreams | _ => out end.

(** A JSON null decodes to a nil map, and storing into a nil map panics. *)
Definition ensureShieldUpstreams : M (FwClient W) unit :=
  c ← get;
  let base := TrimRight_slash (c_ShieldAdminURL (fc_cfg c)) in
  if String.eqb base EmptyString then mret tt
  else
    raw ← getAuth (base +:+ "/control/dns_info");
    match raw with
    | Err e => fail (EWrap "parse adguard dns_info: " e EmptyString)
    | Ok (JObj l) =>
        if negb (isStockUpstreams (jget "upstream_dns" (JObj l))) then mret tt
        else
          let dnsCfg := jset "upstream_dns" (JArr (JStr <$> shieldUpstreams (fc_cfg c))) l in
          postAuth (base +:+ "/control/dns_config") (Some (JObj dnsCfg))
    | Ok JNull => fail (EPanic "assignment to entry in nil map")
    | Ok _ => fail (EWrap "parse adguard dns_info: " (type_err "map") EmptyString)
    end.

Definition ConfigureAdmin : M (FwClient W) unit :=
  c ← get;
  if negb (String.eqb (c_FirewallProvider (fc_cfg c)) FirewallAdGuardHome)
     || String.eqb (c_ShieldAdminPassword (fc_cfg c)) EmptyString
  then mret tt
  else
    let base := TrimRight_slash (c_ShieldAdminURL (fc_cfg c)) in
    if String.eqb base EmptyString then mret tt
    else
      _ ← try (post (base +:+ "/control/install/configure")
                 (Some (configureBody (adminUser (fc_cfg c)) (c_ShieldAdminPassword (fc_cfg c)))));
      ensureShieldUpstreams.

Definition SetAdminPassword (user password : string) : M (FwClient W) unit :=
  c ← get;
  if negb (String.eqb (c_FirewallProvider (fc_cfg c)) FirewallAdGuardHome)
     || String.eqb password EmptyString
  then mret tt
  else
    let base := TrimRight_slash (c_ShieldAdminURL (fc_cfg c)) in
    if String.eqb base EmptyString then mret tt
    else
      let user := if String.eqb user EmptyString then adminUser (fc_cfg c) else user in
      _ ← set_cfg (set_ShieldAdminPassword password (set_ShieldAdminUser user (fc_cfg c)));
      post (base +:+ "/control/install/configure") (Some (configureBody user password)).

Definition ResetCredentials : M (FwClient W) unit :=
  c ← get;
  if negb (String.eqb (c_FirewallProvider (fc_cfg c)) FirewallAdGuardHome) then mret tt
  else
    let base := TrimRight_slash (c_ShieldAdminURL (fc_cfg c)) in
    if String.eqb base EmptyString then mret tt
    else
      _ ← try (post (base +:+ "/control/cache_clear") (Some (JObj [])));
      mret tt.

(** CheckLicense does not look at the error of decoding the answer. *)
Definition CheckLicense : M (FwClient W) bool :=
  c ← get;
  if negb (String.eqb (c_FirewallProvider (fc_cfg c)) FirewallUnboundErebrus) then mret true
  else
    let base := TrimRight_slash (c_SentinelAPIURL (fc_cfg c)) in
    r ← send (mkFwReq "POST" (base +:+ "/license/check") None (Some (JObj [])));
    if negb (is_2xx r) then fail (EMsg ("license check: " +:+ Itoa (fy_Status r)))
    else
      let licensed := match (j ← fy_JSON r; field_bool "licensed" j) with Ok b => b | Err _ => false end in
      _ ← SetLicensed licensed;
      mret licensed.

(** The operations the gateway bridge calls. *)
Definition firewall_ops : FirewallOps (FwClient W) :=
  mkFw _ Sync Restart ResetCredentials SetAdminPassword.
End client.

(** ** Requests *)

Section requests.
Context {W : Type} (Do : FwRequest → M W FwReply).

Lemma send_eq rq (c : FwClient W) r w :
  Do rq (fc_world c) = (r, w) →
  send Do rq c = (r, mkFwClient (fc_cfg c) (fc_licensed c) (fc_sent c ++ [rq]) w).
Proof. unfold send, run. by intros ->. Qed.

(** A POST sends one request; it succeeds exactly on a 2xx answer. *)
Lemma post_auth_eq auth url body (c : FwClient W) r w :
  TrimSpace url = url → url ≠ EmptyString →
  Do (mkFwReq "POST" url auth body) (fc_world c) = (r, w) →
  post_auth Do auth url body c =
    (match r with
     | Ok rep => if is_2xx rep then Ok tt else Err (status_error 512 url rep)
     | Err e => Err e
     end, mkFwClient (fc_cfg c) (fc_licensed c) (fc_sent c ++ [mkFwReq "POST" url auth body]) w).
Proof.
  intros Ht Hne HD. unfold post_auth. rewrite Ht, (proj2 (String.eqb_neq _ _) Hne).
  unfold mbind, M_bind. rewrite (send_eq _ _ _ _ HD). destruct r as [rep|e]; [|done].
  by destruct (is_2xx rep).
Qed.

(** Whatever the answer, a request leaves the configuration and the licence
    flag of the client alone. *)
Definition same_client (c c' : FwClient W) : Prop :=
  fc_cfg c' = fc_cfg c ∧ fc_licensed c' = fc_licensed c.
#[export] Instance same_client_preorder : PreOrder same_client.
Proof. split; unfold Reflexive, Transitive, same_client; naive_solver congruence. Qed.

Lemma send_same rq : keeps same_client (send Do rq).
Proof. intros c r c'. unfold send, run. destruct (Do rq (fc_world c)). by intros [= <- <-]. Qed.

Lemma get_same {S} (R : S → S → Prop) `{!Reflexive R} : keeps R get.
Proof. by intros s r s' [= <- <-]. Qed.

Lemma post_auth_same auth url body : keeps same_client (post_auth Do auth url body).
Proof.
  unfold post_auth. case_match; [apply keeps_fail, _|]. apply keeps_bind; [apply _|apply send_same|].
  intros rep. case_match; [apply keeps_fail, _|apply keeps_ret, _].
Qed.
End requests.

(** ** Client and Sentinel together *)

(** The body as the sidecar decodes it. *)
Definition wire (b : option json) : result json :=
  match b with Some j => Ok j | None => Err (EVar EOF) end.

(** The client's requests to the sidecar at [base]. *)
Definition sentinel_do (base : string) visit now exec (rq : FwRequest) : M SentinelServer FwReply :=
  match strip_prefix base (fq_URL rq) with
  | None => fail (EMsg "dial tcp: lookup: no such host")
  | Some path =>
      r ← sentinel_serve visit now exec
            (mkSReq (fq_Method rq) path (wire (fq_Body rq)));
      mret (mkFwReply (sy_Status r) (sy_Text r) (sy_JSON r))
  end.

(** A base URL as configured: no leading space. *)
Definition base_ok (base : string) : bool :=
  match base with EmptyString => false | String c _ => negb (is_space c) end.

Lemma base_url base path c :
  base_ok base = true → is_space (last_byte c path) = false →
  TrimSpace (base +:+ String c path) = base +:+ String c path ∧ base +:+ String c path ≠ EmptyString.
Proof.
  destruct base as [|b base]; [done|]. cbn [base_ok String.append]. intros Hb%negb_true_iff Hl. split; [|done].
  apply TrimSpace_id; [done|]. by rewrite last_byte_app.
Qed.

Lemma strip_prefix_app a b : strip_prefix a (a +:+ b) = Some b.
Proof. by apply strip_prefix_spec. Qed.

Section with_sentinel.
Context (base : string) (visit : list (string * string) → list (string * string)) (now : Z)
  (exec : list (list string) → result unit).
Hypothesis base_clean : base_ok base = true.
Hypothesis visit_perm : ∀ l, visit l ≡ₚ l.

Local Notation D := (sentinel_do base visit now exec).
Local Notation client := (FwClient SentinelServer).

(** A POST of the client runs the handler of its path. *)
Lemma post_sentinel path0 path body (c : client) rep w :
  is_space (last_byte path0 path) = false →
  sentinel_serve visit now exec
    (mkSReq "POST" (String path0 path) (wire body))
    (fc_world c) = (Ok rep, w) →
  ∃ e sent, post D (base +:+ String path0 path) body c =
    (if Z.quot (sy_Status rep) 100 =? 2 then Ok tt else Err e,
     mkFwClient (fc_cfg c) (fc_licensed c) (fc_sent c ++ sent) w).
Proof.
  intros Hl HS. destruct (base_url base path path0 base_clean Hl) as [Ht Hne]. unfold post.
  assert (HD : D (mkFwReq "POST" (base +:+ String path0 path) None body) (fc_world c) =
    (Ok (mkFwReply (sy_Status rep) (sy_Text rep) (sy_JSON rep)), w)).
  { unfold sentinel_do. cbn [fq_URL fq_Method fq_Body]. rewrite strip_prefix_app. by rewrite (bind_Ok _ _ _ _ _ HS). }
  rewrite (post_auth_eq D _ _ _ _ _ _ Ht Hne HD). unfold is_2xx. cbn [fy_Status]. eauto.
Qed.

(** The licence request of a sync sets the sidecar's licence. *)
Lemma serve_license b s :
  sentinel_serve visit now exec
    (mkSReq "POST" "/license/check" (Ok (JObj [("licensed", JBool b)]))) s =
  (Ok (writeJSON (JObj [("licensed", JBool b)])), set_licensed b s).
Proof. done. Qed.

Lemma serve_apply p s :
  sentinel_serve visit now exec (mkSReq "POST" "/policy/apply" (Ok (encode_policy p))) s =
  let '(r, s') := apply visit now p s in
  (Ok (match r with Ok _ => writeJSON (JObj [("status", JStr "applied")])
       | Err e => http_Error (error_text e) 500 end), s').
Proof.
  change (sentinel_serve visit now exec (mkSReq "POST" "/policy/apply" (Ok (encode_policy p))) s)
    with (handlePolicyApply visit now (mkSReq "POST" "/policy/apply" (Ok (encode_policy p))) s).
  unfold handlePolicyApply. cbn [sq_Method sq_Body]. rewrite String.eqb_refl. cbn [negb mbind result_bind].
  rewrite decode_encode_policy. destruct (apply visit now p s) as [r s'] eqn:E.
  rewrite (try_bind _ _ _ _ _ E). by destruct r.
Qed.

Lemma serve_reload s :
  sentinel_serve visit now exec (mkSReq "POST" "/reload" (Err (EVar EOF))) s =
  let '(r, s') := reloadUnbound exec s in
  (Ok (match r with Ok _ => writeJSON (JObj [("status", JStr "reloaded")])
       | Err e => http_Error (error_text e) 500 end), s').
Proof.
  change (sentinel_serve visit now exec (mkSReq "POST" "/reload" (Err (EVar EOF))) s)
    with (handleReload exec (mkSReq "POST" "/reload" (Err (EVar EOF))) s).
  unfold handleReload. cbn [sq_Method]. rewrite String.eqb_refl. cbn [negb].
  destruct (reloadUnbound exec s) as [r s'] eqn:E. rewrite (try_bind _ _ _ _ _ E). by destruct r.
Qed.

Definition same_but_commands (s s' : SentinelServer) : Prop :=
  se_licensed s' = se_licensed s ∧ se_dir s' = se_dir s ∧ se_rules s' = se_rules s ∧
  se_lastApply s' = se_lastApply s.

Lemma exec_Command_eq args s : ∃ s',
  exec_Command exec args s = (exec ((se_commands s).*1 ++ [args]), s') ∧
  se_commands s' = se_commands s ++ [(args, sentinel_files s)] ∧ same_but_commands s s'.
Proof. eexists. split; [unfold exec_Command, run; by rewrite fmap_app|]. done. Qed.

(** The last command told Unbound to load its configuration, and ran on the
    files as they are now. *)
Definition reloaded (s : SentinelServer) : Prop :=
  ∃ l args, se_commands s = l ++ [(args, sentinel_files s)] ∧
    args ∈ [["unbound-control"; "reload"]; ["killall"; "-HUP"; "unbound"]].

(** A reload succeeds when its last command does. *)
Lemma reload_inv s r s' :
  reloadUnbound exec s = (r, s') →
  same_but_commands s s' ∧ (r = Ok tt → reloaded s' ∧ exec (se_commands s').*1 = Ok tt) ∧
  (exec ((se_commands s).*1 ++ [["unbound-control"; "reload"]]) = Ok tt → r = Ok tt).
Proof.
  destruct (exec_Command_eq ["unbound-control"; "reload"] s) as (s1 & E1 & C1 & S1).
  intros H. unfold reloadUnbound in H. rewrite (try_bind _ _ _ _ _ E1) in H.
  assert (Hlast : ∀ t t' args, se_commands t' = se_commands t ++ [(args, sentinel_files t)] → same_but_commands t t' →
    args ∈ [["unbound-control"; "reload"]; ["killall"; "-HUP"; "unbound"]] → reloaded t').
  { intros t t' args Hc (_ & Hd & _) Ha. exists (se_commands t), args. unfold sentinel_files in *. by rewrite Hd. }
  destruct (exec ((se_commands s).*1 ++ _)) as [[]|e] eqn:Ex.
  { injection H as <- <-. split; [done|]. split; [|done]. intros _. rewrite C1, fmap_app.
    split; [eapply Hlast; [exact C1|done|left]|done]. }
  destruct (exec_Command_eq ["unbound-control"; "status"] s1) as (s2 & E2 & C2 & S2).
  assert (Htrans : ∀ t, same_but_commands s1 t → same_but_commands s t)
    by (unfold same_but_commands in *; intuition congruence).
  unfold mbind, M_bind in H. rewrite E2 in H.
  destruct (exec ((se_commands s1).*1 ++ _)) as [[]|e2] eqn:Ex2.
  - destruct (exec_Command_eq ["killall"; "-HUP"; "unbound"] s2) as (s3 & E3 & C3 & S3).
    rewrite E3 in H. injection H as <- <-. split; [|split; [|done]].
    2:{ rewrite C3, fmap_app. split; [|done]. eapply Hlast; [exact C3|done|right; left]. }
    apply Htrans. unfold same_but_commands in *. intuition congruence.
  - injection H as <- <-. split; [by apply Htrans|]. done.
Qed.

Lemma syncSentinel_inv p (c : client) r c' :
  c_SentinelAPIURL (fc_cfg c) = base → fc_licensed c = true →
  syncSentinel D p c = (r, c') →
  se_licensed (fc_world c') = true ∧
  (r = Ok tt → in_force (sync_policy p) (sentinel_files (fc_world c')) ∧
     se_rules (fc_world c') = Z.of_nat (length (sp_Rules p)) ∧
     reloaded (fc_world c') ∧ exec (se_commands (fc_world c')).*1 = Ok tt) ∧
  (cf_faults (se_dir (fc_world c)) = [] →
   exec ((se_commands (fc_world c)).*1 ++ [["unbound-control"; "reload"]]) = Ok tt → r = Ok tt).
Proof.
  intros Hb Hl H. unfold syncSentinel in H. rewrite (bind_Ok _ _ _ c c) in H by done.
  rewrite Hl, Hb in H. cbn [negb] in H. cbv zeta in H.
  destruct (post_sentinel "/" "license/check" (Some (JObj [("licensed", JBool true)])) c _ _ eq_refl
              (serve_license true (fc_world c))) as (e1 & q1 & E1).
  change (Z.quot (sy_Status (writeJSON _)) 100 =? 2) with true in E1. cbv iota in E1.
  rewrite (try_bind _ _ _ _ _ E1) in H. set (c1 := mkFwClient _ _ _ _) in *.
  rewrite (bind_Ok _ _ _ c1 c1) in H by done. rewrite (Hl : fc_licensed c1 = true) in H. cbn [negb] in H.
  pose proof (serve_apply (sync_policy p) (fc_world c1)) as SA.
  destruct (apply visit now (sync_policy p) (fc_world c1)) as [ra w2] eqn:EA.
  destruct (post_sentinel "/" "policy/apply" (Some (encode_policy (sync_policy p))) c1 _ _ eq_refl SA)
    as (e2 & q2 & E2). clear SA.
  apply (apply_inv _ _ visit_perm) in EA as (L2 & C2 & _ & _ & A3 & A4 & A5).
  destruct ra as [[]|ea].
  2:{ change (Z.quot (sy_Status (http_Error _ 500)) 100 =? 2) with false in E2. cbv iota in E2.
      rewrite (bind_Err _ _ _ _ _ E2) in H. injection H as <- <-. split; [done|]. split; [done|].
      intros Hf _. by specialize (A5 eq_refl Hf). }
  change (Z.quot (sy_Status (writeJSON _)) 100 =? 2) with true in E2. cbv iota in E2.
  rewrite (bind_Ok _ _ _ _ _ E2) in H. set (c2 := mkFwClient (fc_cfg c1) (fc_licensed c1) (fc_sent c1 ++ q2) w2) in *.
  pose proof (serve_reload (fc_world c2)) as SR.
  destruct (reloadUnbound exec (fc_world c2)) as [rr w3] eqn:ER.
  destruct (post_sentinel "/" "reload" None c2 _ _ eq_refl SR) as (e3 & q3 & E3). clear SR.
  rewrite E3 in H. injection H as <- <-. cbn [fc_world].
  apply reload_inv in ER as ((S1 & S2 & S3 & S4) & R1 & R2). cbn [fc_world c2 c1] in *.
  destruct (A3 eq_refl) as (_ & F1 & F2 & F3). rewrite S1, L2. split; [done|]. split.
  - intros Hr. unfold sentinel_files in *. rewrite S2, S3. split; [done|]. split; [done|].
    apply R1. destruct rr as [[]|er]; [done|]. done.
  - intros Hf Hx. rewrite C2 in R2. by rewrite (R2 Hx).
Qed.
End with_sentinel.

Lemma sentinel_provider cfg :
  c_FirewallProvider cfg = FirewallUnboundErebrus → HasFirewallService cfg = true.
Proof. unfold HasFirewallService. by intros ->. Qed.
Lemma shield_provider cfg :
  c_FirewallProvider cfg = FirewallAdGuardHome → HasFirewallService cfg = true.
Proof. unfold HasFirewallService. by intros ->. Qed.

Definition with_licence {W} (b : bool) (c : FwClient W) : FwClient W :=
  mkFwClient (fc_cfg c) b (fc_sent c) (fc_world c).

(** A sync with readable arguments sets the licence flag and serves the
    provider. *)
Lemma Sync_eq {W} (Do : FwRequest → M W FwReply) Unmarshal raw p (c : FwClient W) :
  HasFirewallService (fc_cfg c) = true → sync_args Unmarshal raw = Ok p →
  Sync Do Unmarshal raw c =
    (let provider := c_FirewallProvider (fc_cfg c) in
     if String.eqb provider FirewallUnboundErebrus then syncSentinel Do p
     else if String.eqb provider FirewallAdGuardHome then syncShield Do p
     else fail (EMsg ("unsupported firewall provider " +:+ quote_q provider)))
      (with_licence (sp_Licensed p) c).
Proof.
  intros Hf Hp. unfold Sync. rewrite (bind_Ok _ _ _ c c) by done. rewrite Hf, Hp. done.
Qed.

Lemma Sync_bad_args {W} (Do : FwRequest → M W FwReply) Unmarshal raw e (c : FwClient W) :
  sync_args Unmarshal raw = Err e → ∃ e', Sync Do Unmarshal raw c = (Err e', c).
Proof.
  intros Hp. unfold Sync. rewrite (bind_Ok _ _ _ c c) by done. rewrite Hp.
  destruct (HasFirewallService (fc_cfg c)); cbn; eauto.
Qed.

Lemma syncSentinel_unlicensed {W} (Do : FwRequest → M W FwReply) p (c : FwClient W) :
  fc_licensed c = false → syncSentinel Do p c = (Err (EMsg "sentinel unlicensed"), c).
Proof. intros H. unfold syncSentinel. rewrite (bind_Ok _ _ _ c c) by done. by rewrite H. Qed.

(** The client of a Sentinel node over its sidecar. *)
Definition on_sentinel (base : string) (c : FwClient SentinelServer) : Prop :=
  c_FirewallProvider (fc_cfg c) = FirewallUnboundErebrus ∧ c_SentinelAPIURL (fc_cfg c) = base.


(** ** The licence *)

Inductive FwOp :=
| OpSync (raw : string)
| OpRestart
| OpResetCredentials
| OpSetAdminPassword (user password : string)
| OpConfigureAdmin
| OpCheckLicense.

Definition run_fw {W} (Do : FwRequest → M W FwReply) Unmarshal (op : FwOp) (c : FwClient W) : FwClient W :=
  match op with
  | OpSync raw => snd (Sync Do Unmarshal raw c)
  | OpRestart => snd (Restart Do c)
  | OpResetCredentials => snd (ResetCredentials Do c)
  | OpSetAdminPassword u p => snd (SetAdminPassword Do u p c)
  | OpConfigureAdmin => snd (ConfigureAdmin Do c)
  | OpCheckLicense => snd (CheckLicense Do c)
  end.

Definition run_fws {W} (Do : FwRequest → M W FwReply) Unmarshal (ops : list FwOp) (c : FwClient W) : FwClient W :=
  foldl (λ c op, run_fw Do Unmarshal op c) c ops.

Definition revokes (b : result json) : bool :=
  match (j ← b; field_bool_ptr "licensed" j) with Ok (Some false) => true | _ => false end.

Definition licence_kept (s s' : SentinelServer) : Prop := se_licensed s = true → se_licensed s' = true.
#[export] Instance licence_kept_preorder : PreOrder licence_kept.
Proof. split; unfold Reflexive, Transitive, licence_kept; auto. Qed.

Section licence.
Context (visit : list (string * string) → list (string * string)) (now : Z)
  (exec : list (list string) → result unit).
Hypothesis visit_perm : ∀ l, visit l ≡ₚ l.

Lemma apply_licence p : keeps licence_kept (apply visit now p).
Proof. intros s r s' H. apply (apply_inv _ _ visit_perm) in H as [H _]. unfold licence_kept. congruence. Qed.

Lemma reload_licence : keeps licence_kept (reloadUnbound exec).
Proof. intros s r s' H. apply reload_inv in H as [[H _] _]. unfold licence_kept. congruence. Qed.

(** Only a licence request that says so takes the licence away. *)
Lemma serve_licence m path (b : result json) :
  revokes b = false → keeps licence_kept (sentinel_serve visit now exec (mkSReq m path b)).
Proof.
  intros Hb. unfold sentinel_serve. cbn [sq_Path]. repeat case_match; try by eauto with erebrus typeclass_instances.
  all: try (apply keeps_ret, _).
  all: try (apply keeps_bind; [apply _|by apply get_same, _|]; intros; apply keeps_ret, _).
  - unfold handleLicenseCheck. case_match; [apply keeps_ret, _|]. cbv zeta. apply keeps_bind; [apply _| |].
    + intros s r s' [= <- <-]. unfold licence_kept. cbn [sq_Body]. revert Hb. unfold revokes.
      by destruct (b ≫= field_bool_ptr "licensed") as [[[]|]|].
    + intros _. apply keeps_bind; [apply _|by apply get_same, _|]. intros; apply keeps_ret, _.
  - unfold handlePolicyApply. case_match; [apply keeps_ret, _|]. case_match; [|apply keeps_ret, _].
    apply keeps_bind; [apply _|apply keeps_try, apply_licence|]. intros []; apply keeps_ret, _.
  - unfold handleRulesSync, handlePolicyApply. case_match; [apply keeps_ret, _|]. case_match; [|apply keeps_ret, _].
    apply keeps_bind; [apply _|apply keeps_try, apply_licence|]. intros []; apply keeps_ret, _.
  - unfold handleReload. case_match; [apply keeps_ret, _|].
    apply keeps_bind; [apply _|apply keeps_try, reload_licence|]. intros []; apply keeps_ret, _.
Qed.

Context (base : string).
Local Notation D := (sentinel_do base visit now exec).

(** The configuration stays, and so does the sidecar's licence. *)
Definition licence_stays (c c' : FwClient SentinelServer) : Prop :=
  fc_cfg c' = fc_cfg c ∧ licence_kept (fc_world c) (fc_world c').
#[local] Instance licence_stays_preorder : PreOrder licence_stays.
Proof.
  split; unfold Reflexive, Transitive, licence_stays, licence_kept; [by auto|]. intuition congruence.
Qed.

Lemma send_licence rq : revokes (wire (fq_Body rq)) = false → keeps licence_stays (send D rq).
Proof.
  intros Hb c r c'. unfold send, run. destruct (D rq (fc_world c)) as [r1 w] eqn:E.
  intros [= <- <-]. split; [done|]. cbn [fc_world]. unfold sentinel_do in E.
  destruct (strip_prefix base (fq_URL rq)) as [path|]; [|by injection E as <- <-].
  revert E. apply keeps_bind; [apply _|by apply serve_licence|]. intros. apply keeps_ret, _.
Qed.

Lemma post_licence auth url body : revokes (wire body) = false → keeps licence_stays (post_auth D auth url body).
Proof.
  intros Hb. unfold post_auth. cbv zeta. case_match; [apply keeps_fail, _|].
  apply keeps_bind; [apply _|by apply send_licence|]. intros rep.
  case_match; [apply keeps_fail, _|apply keeps_ret, _].
Qed.

Lemma SetLicensed_licence (b : bool) : keeps licence_stays (SetLicensed b).
Proof. intros c r c' [= <- <-]. done. Qed.

Lemma syncSentinel_licence p : keeps licence_stays (syncSentinel D p).
Proof.
  unfold syncSentinel. apply keeps_bind; [apply _|by apply get_same, _|]. intros c.
  destruct (fc_licensed c); [|apply keeps_fail, _]. cbn [negb]. cbv zeta.
  apply keeps_bind; [apply _|by apply keeps_try, post_licence|]. intros _.
  apply keeps_bind; [apply _|by apply get_same, _|]. intros c'.
  case_match; [apply keeps_fail, _|].
  apply keeps_bind; [apply _|by apply post_licence|]. intros _. by apply post_licence.
Qed.

Lemma CheckLicense_licence : keeps licence_stays (CheckLicense D).
Proof.
  unfold CheckLicense. apply keeps_bind; [apply _|by apply get_same, _|]. intros c.
  case_match; [apply keeps_ret, _|]. cbv zeta. apply keeps_bind; [apply _|by apply send_licence|]. intros r.
  case_match; [apply keeps_fail, _|]. apply keeps_bind; [apply _|apply SetLicensed_licence|].
  intros _. apply keeps_ret, _.
Qed.

Lemma snd_keeps {A} (m : M (FwClient SentinelServer) A) c : keeps licence_stays m → licence_stays c (snd (m c)).
Proof. intros H. destruct (m c) as [r c'] eqn:E. by apply (H c r). Qed.

(** Operations for the other sidecar do nothing on a Sentinel node. *)
Lemma shield_noop (c : FwClient SentinelServer) u pw :
  c_FirewallProvider (fc_cfg c) = FirewallUnboundErebrus →
  snd (ResetCredentials D c) = c ∧ snd (SetAdminPassword D u pw c) = c ∧ snd (ConfigureAdmin D c) = c.
Proof.
  intros H. unfold ResetCredentials, SetAdminPassword, ConfigureAdmin.
  rewrite !(bind_Ok _ _ _ c c) by done. by rewrite H.
Qed.

Lemma run_fw_licence Unmarshal op (c : FwClient SentinelServer) :
  on_sentinel base c → licence_stays c (run_fw D Unmarshal op c).
Proof.
  intros [Hp Hu]. destruct (shield_noop c) with (u := EmptyString) (pw := EmptyString) as (N1 & _ & N3); [done|].
  destruct op as [raw| | |u pw| |]; cbn [run_fw].
  - destruct (sync_args Unmarshal raw) as [p|e] eqn:E.
    + rewrite (Sync_eq _ _ _ p) by auto using sentinel_provider. rewrite Hp. cbv zeta. rewrite String.eqb_refl.
      destruct (snd_keeps _ (with_licence (sp_Licensed p) c) (syncSentinel_licence p)). done.
    + destruct (Sync_bad_args D Unmarshal raw e c E) as [e' ->]. done.
  - apply snd_keeps. unfold Restart. apply keeps_bind; [apply _|by apply get_same, _|]. intros c'.
    cbv zeta. repeat case_match; try apply keeps_ret, _; try apply keeps_fail, _; by apply post_licence.
  - by rewrite N1.
  - by destruct (shield_noop c u pw Hp) as (_ & -> & _).
  - by rewrite N3.
  - apply snd_keeps, CheckLicense_licence.
Qed.
End licence.

(** A licence is never taken back: once the sidecar of a Sentinel node is
    licensed, no sequence of operations of the client, whatever the gateway
    sends, makes it unlicensed.  A payload that revokes the licence makes Sync
    fail before it says so to the sidecar, which keeps enforcing the policy it
    has and accepting new ones. *)
Lemma licence_never_revoked base visit now exec Unmarshal ops c :
  (∀ l, visit l ≡ₚ l) → on_sentinel base c → se_licensed (fc_world c) = true →
  se_licensed (fc_world (run_fws (sentinel_do base visit now exec) Unmarshal ops c)) = true.
Proof.
  intros Hv. revert c. induction ops as [|op ops IH]; intros c Hc Hl; [done|]. cbn [run_fws foldl].
  destruct (run_fw_licence visit now exec Hv base Unmarshal op c Hc) as [Hcfg Hk].
  apply IH; [|by apply Hk]. unfold on_sentinel in *. by rewrite Hcfg.
Qed.

(** ** Shield: upstream resolvers *)

Lemma jget_jset_eq k v l : jget k (JObj (jset k v l)) = Some v.
Proof.
  induction l as [|[k' v'] l IH]; cbn; [by rewrite String.eqb_refl|].
  destruct (String.eqb k' k) eqn:E; cbn; [by rewrite String.eqb_refl|]. by rewrite E.
Qed.

Lemma jget_jset_ne k k' v l : k' ≠ k → jget k' (JObj (jset k v l)) = jget k' (JObj l).
Proof.
  intros Hne. apply String.eqb_neq in Hne. induction l as [|[k1 v1] l IH]; cbn.
  { by rewrite String.eqb_sym, Hne. }
  destruct (String.eqb_spec k1 k) as [->|H1]; cbn.
  - by rewrite String.eqb_sym, Hne.
  - by destruct (String.eqb k1 k').
Qed.

(** The configuration and the upstreams AdGuard reports. *)
Definition dns_info_url (cfg : Config) : string := TrimRight_slash (c_ShieldAdminURL cfg) +:+ "/control/dns_info".
Definition dns_config_url (cfg : Config) : string := TrimRight_slash (c_ShieldAdminURL cfg) +:+ "/control/dns_config".
Definition dns_info_request (cfg : Config) : FwRequest :=
  mkFwReq "GET" (dns_info_url cfg) (Some (basic_auth cfg)) None.

(** An upstream the operator chose: anything but the shipped resolver. *)
Definition chosen_upstream (v : option json) : Prop :=
  ∃ l s, v = Some (JArr l) ∧ s ∈ l ∧
    Contains (match s with JStr t => t | _ => EmptyString end) "dns10.quad9.net" = false.

Lemma isStockUpstreams_spec v : isStockUpstreams v = false ↔ chosen_upstream v.
Proof.
  unfold chosen_upstream, isStockUpstreams. split.
  - destruct v as [[| | | |[|x l]|]|]; try done. intros H. apply not_true_iff_false in H.
    rewrite forallb_forall in H. exists (x :: l).
    destruct (list_find_None (λ i, Contains (match i with JStr t => t | _ => EmptyString end) "dns10.quad9.net" = false)
                (x :: l)) as [HN _].
    destruct (list_find _ (x :: l)) as [[n y]|] eqn:E.
    + apply list_find_Some in E as (Hy & Hc & _). exists y. split; [done|].
      split; [by apply list_elem_of_lookup_2 in Hy|done].
    + exfalso. apply H. intros y Hy%list_elem_of_In. specialize (HN eq_refl). rewrite Forall_forall in HN.
      specialize (HN y Hy). by apply not_false_is_true.
  - intros (l & s & -> & Hs & Hc). destruct l as [|x l]; [by apply not_elem_of_nil in Hs|].
    apply not_true_iff_false. rewrite forallb_forall. intros H. apply list_elem_of_In in Hs.
    rewrite (H s Hs) in Hc. done.
Qed.

Section shield.
Context {W : Type} (Do : FwRequest → M W FwReply).

Lemma shield_url cfg p0 path :
  base_ok (TrimRight_slash (c_ShieldAdminURL cfg)) = true → is_space (last_byte p0 path) = false →
  let url := TrimRight_slash (c_ShieldAdminURL cfg) +:+ String p0 path in
  TrimSpace url = url ∧ String.eqb url EmptyString = false ∧
  String.eqb (TrimRight_slash (c_ShieldAdminURL cfg)) EmptyString = false.
Proof.
  intros Hb Hl. destruct (base_url _ path p0 Hb Hl) as [H1 H2]. cbv zeta. split; [done|].
  split; [by apply String.eqb_neq|]. by destruct (TrimRight_slash _).
Qed.

(** What the check does after AdGuard's answer [rep] to the first request. *)
Lemma ensure_eq (c : FwClient W) rep w :
  base_ok (TrimRight_slash (c_ShieldAdminURL (fc_cfg c))) = true →
  Do (dns_info_request (fc_cfg c)) (fc_world c) = (Ok rep, w) →
  is_2xx rep = true →
  let c1 := mkFwClient (fc_cfg c) (fc_licensed c) (fc_sent c ++ [dns_info_request (fc_cfg c)]) w in
  ensureShieldUpstreams Do c =
    match fy_JSON rep with
    | Err e => (Err (EWrap "parse adguard dns_info: " e EmptyString), c1)
    | Ok (JObj l) =>
        if isStockUpstreams (jget "upstream_dns" (JObj l)) then
          post_auth Do (Some (basic_auth (fc_cfg c))) (dns_config_url (fc_cfg c))
            (Some (JObj (jset "upstream_dns" (JArr (JStr <$> shieldUpstreams (fc_cfg c))) l))) c1
        else (Ok tt, c1)
    | Ok JNull => (Err (EPanic "assignment to entry in nil map"), c1)
    | Ok _ => (Err (EWrap "parse adguard dns_info: " (type_err "map") EmptyString), c1)
    end.
Proof.
  intros Hb HD H2 c1. destruct (shield_url (fc_cfg c) "/" "control/dns_info" Hb eq_refl) as (T & N & B).
  unfold ensureShieldUpstreams. rewrite (bind_Ok _ _ _ c c) by done. cbv zeta. rewrite B.
  assert (HG : getAuth Do (dns_info_url (fc_cfg c)) c = (Ok (fy_JSON rep), c1)).
  { unfold getAuth, dns_info_url. rewrite T, N, (bind_Ok _ _ _ c c) by done.
    rewrite (bind_Ok _ _ _ _ _ (send_eq Do _ _ _ _ HD)). by rewrite H2. }
  unfold dns_info_url in HG. rewrite (bind_Ok _ _ _ _ _ HG).
  destruct (fy_JSON rep) as [[| | | | |l]|e]; try done.
  destruct (isStockUpstreams _); [|done]. cbn [negb]. unfold postAuth.
  by rewrite (bind_Ok _ _ _ c1 c1).
Qed.
End shield.

(** Resolvers an operator chose are left alone: when AdGuard answers with
    a configuration in which some upstream is not its shipped one, the check
    sends nothing but its reading request and succeeds.  Otherwise it sends
    one more request, which carries AdGuard's own configuration with the
    upstreams replaced by the node's and every other setting as it was. *)
Lemma operator_upstreams_kept {W} (Do : FwRequest → M W FwReply) (c : FwClient W) rep w l r c' :
  base_ok (TrimRight_slash (c_ShieldAdminURL (fc_cfg c))) = true →
  Do (dns_info_request (fc_cfg c)) (fc_world c) = (Ok rep, w) →
  is_2xx rep = true → fy_JSON rep = Ok (JObj l) →
  ensureShieldUpstreams Do c = (r, c') →
  (chosen_upstream (jget "upstream_dns" (JObj l)) →
     r = Ok tt ∧ fc_world c' = w ∧ fc_sent c' = fc_sent c ++ [dns_info_request (fc_cfg c)]) ∧
  (¬ chosen_upstream (jget "upstream_dns" (JObj l)) → ∃ cfg',
     fc_sent c' = fc_sent c ++ [dns_info_request (fc_cfg c);
       mkFwReq "POST" (dns_config_url (fc_cfg c)) (Some (basic_auth (fc_cfg c))) (Some cfg')] ∧
     jget "upstream_dns" cfg' = Some (JArr (JStr <$> shieldUpstreams (fc_cfg c))) ∧
     (∀ k, k ≠ "upstream_dns" → jget k cfg' = jget k (JObj l))).
Proof.
  intros Hb HD H2 HJ H. rewrite (ensure_eq Do c rep w Hb HD H2), HJ in H. cbv zeta in H.
  rewrite <- isStockUpstreams_spec. destruct (isStockUpstreams _).
  - split; [done|]. intros _. eexists. split; [|split; [apply jget_jset_eq|intros; by apply jget_jset_ne]].
    destruct (shield_url (fc_cfg c) "/" "control/dns_config" Hb eq_refl) as (T & N%String.eqb_neq & _).
    set (rq := mkFwReq "POST" _ _ _). destruct (Do rq w) as [r2 w2] eqn:E2.
    unfold dns_config_url in H. erewrite (post_auth_eq Do _ _ _ _ r2 w2 T N) in H by done.
    injection H as _ <-. cbn [fc_sent]. by rewrite <- app_assoc.
  - split; [|done]. intros _. by injection H as <- <-.
Qed.

(** ** Shield: the admin password *)

Definition new_user (cfg : Config) (user : string) : string :=
  if String.eqb user EmptyString then adminUser cfg else user.

Lemma new_user_nonempty cfg user : String.eqb (new_user cfg user) EmptyString = false.
Proof.
  unfold new_user, adminUser. destruct (String.eqb user EmptyString) eqn:E; [|done].
  by destruct (String.eqb (c_ShieldAdminUser cfg) EmptyString) eqn:E2.
Qed.

Section password.
Context {W : Type} (Do : FwRequest → M W FwReply).

Lemma SetAdminPassword_cfg user pw (c : FwClient W) r c' :
  c_FirewallProvider (fc_cfg c) = FirewallAdGuardHome → pw ≠ EmptyString →
  base_ok (TrimRight_slash (c_ShieldAdminURL (fc_cfg c))) = true →
  SetAdminPassword Do user pw c = (r, c') →
  fc_cfg c' = set_ShieldAdminPassword pw (set_ShieldAdminUser (new_user (fc_cfg c) user) (fc_cfg c)).
Proof.
  intros Hp Hpw Hb H. unfold SetAdminPassword in H. rewrite (bind_Ok _ _ _ c c) in H by done.
  rewrite Hp, (proj2 (String.eqb_neq _ _) Hpw), String.eqb_refl in H. cbn [negb orb] in H. cbv zeta in H.
  destruct (shield_url (fc_cfg c) "/" "control/install/configure" Hb eq_refl) as (_ & _ & B).
  rewrite B in H. fold (new_user (fc_cfg c) user) in H.
  unfold mbind, M_bind, set_cfg, run in H. cbn [fst] in H.
  by apply post_auth_same in H as [H _].
Qed.

Lemma syncShield_sent p (c : FwClient W) r c' :
  base_ok (TrimRight_slash (c_ShieldAdminURL (fc_cfg c))) = true → syncShield Do p c = (r, c') →
  fc_sent c' = fc_sent c ++
    [mkFwReq "POST" (TrimRight_slash (c_ShieldAdminURL (fc_cfg c)) +:+ "/control/cache_clear")
       (Some (basic_auth (fc_cfg c))) (Some (JObj []))].
Proof.
  intros Hb H. unfold syncShield in H. rewrite (bind_Ok _ _ _ c c) in H by done. cbv zeta in H.
  destruct (shield_url (fc_cfg c) "/" "control/cache_clear" Hb eq_refl) as (T & N%String.eqb_neq & B).
  rewrite B in H. unfold postAuth in H. rewrite (bind_Ok _ _ _ c c) in H by done.
  set (rq := mkFwReq "POST" _ _ _). destruct (Do rq (fc_world c)) as [r2 w2] eqn:E.
  rewrite (post_auth_eq Do _ _ _ _ r2 w2 T N E) in H. by injection H as _ <-.
Qed.
End password.

(** A password change AdGuard refuses is used all the same: after a
    SetAdminPassword that returned an error, the next sync of the node signs
    in to AdGuard with the new name and password, although AdGuard still has
    the old ones. *)
Lemma refused_password_used {W} (Do : FwRequest → M W FwReply) Unmarshal user pw e raw p
    (c c1 c2 : FwClient W) r :
  c_FirewallProvider (fc_cfg c) = FirewallAdGuardHome → pw ≠ EmptyString →
  base_ok (TrimRight_slash (c_ShieldAdminURL (fc_cfg c))) = true →
  SetAdminPassword Do user pw c = (Err e, c1) →
  sync_args Unmarshal raw = Ok p → Sync Do Unmarshal raw c1 = (r, c2) →
  fc_sent c2 = fc_sent c1 ++
    [mkFwReq "POST" (TrimRight_slash (c_ShieldAdminURL (fc_cfg c)) +:+ "/control/cache_clear")
       (Some (new_user (fc_cfg c) user, pw)) (Some (JObj []))].
Proof.
  intros Hp Hpw Hb H1 Ha H2. apply SetAdminPassword_cfg in H1; [|done..].
  assert (Hp1 : c_FirewallProvider (fc_cfg c1) = FirewallAdGuardHome) by by rewrite H1.
  rewrite (Sync_eq _ _ _ p) in H2 by auto using shield_provider. rewrite Hp1 in H2. cbv zeta in H2.
  change (String.eqb FirewallAdGuardHome FirewallUnboundErebrus) with false in H2.
  rewrite String.eqb_refl in H2. apply syncShield_sent in H2; [|cbn; by rewrite H1].
  cbn [with_licence fc_cfg fc_sent] in H2. rewrite H2, H1.
  unfold basic_auth, adminUser. cbn. by rewrite new_user_nonempty.
Qed.

(** Restarting Shield and resetting its credentials send no credentials. *)
Lemma restart_unauthenticated {W} (Do : FwRequest → M W FwReply) (c : FwClient W) r c' :
  c_FirewallProvider (fc_cfg c) = FirewallAdGuardHome →
  base_ok (TrimRight_slash (c_ShieldAdminURL (fc_cfg c))) = true → Restart Do c = (r, c') →
  fc_sent c' = fc_sent c ++
    [mkFwReq "POST" (TrimRight_slash (c_ShieldAdminURL (fc_cfg c)) +:+ "/control/restart") None (Some (JObj []))].
Proof.
  intros Hp Hb H. unfold Restart in H. rewrite (bind_Ok _ _ _ c c) in H by done. rewrite Hp in H. cbv zeta in H.
  change (String.eqb FirewallAdGuardHome FirewallUnboundErebrus) with false in H. rewrite String.eqb_refl in H.
  destruct (shield_url (fc_cfg c) "/" "control/restart" Hb eq_refl) as (T & N%String.eqb_neq & B).
  rewrite B in H. unfold post in H. set (rq := mkFwReq "POST" _ _ _).
  destruct (Do rq (fc_world c)) as [r2 w2] eqn:E. rewrite (post_auth_eq Do _ _ _ _ r2 w2 T N E) in H.
  by injection H as _ <-.
Qed.

(** ** Witnesses *)

Definition sentinel_cfg : Config :=
  set_SentinelAPIURL "http://sentinel:8788"
    (set_FirewallProvider FirewallUnboundErebrus (Config.Load (mkEnv ∅ None))).
Definition shield_cfg : Config :=
  set_ShieldAdminURL "http://adguard:3000/"
    (set_FirewallProvider FirewallAdGuardHome (Config.Load (mkEnv ∅ None))).

(** A JSON reader that knows two payloads. *)
Definition unmarshal_example (raw : string) : result json :=
  if String.eqb raw "licensed" then
    Ok (JObj [("org_id", JStr "org"); ("licensed", JBool true);
              ("rules", JArr [JObj [("target", JStr "ads.example"); ("action", JStr "block"); ("enabled", JBool true)]])])
  else Ok (JObj [("org_id", JStr "org"); ("licensed", JBool false)]).

Definition payload_example : SyncPayload :=
  mkSync "org" EmptyString EmptyString [mkRule "" "ads.example" "block" "" true] [] true EmptyString.

Definition exec_fine (cmds : list (list string)) : result unit := Ok tt.

Local Notation sentinel_world := (sentinel_do "http://sentinel:8788" reverse 7 exec_fine).
Local Notation sentinel_client := (New sentinel_cfg sentinel_example).


Lemma licence_never_revoked_witness :
  fst (Sync sentinel_world unmarshal_example "revoked" sentinel_client) = Err (EMsg "sentinel unlicensed") ∧
  se_licensed (fc_world (run_fws sentinel_world unmarshal_example [OpSync "revoked"; OpRestart] sentinel_client)) = true.
Proof.
  split; [vm_compute; reflexivity|].
  apply (licence_never_revoked "http://sentinel:8788" reverse 7 exec_fine unmarshal_example).
  - intros l. apply reverse_Permutation.
  - split; vm_compute; reflexivity.
  - vm_compute. reflexivity.
Defined.

(** AdGuard with an upstream of the operator's. *)
Definition adguard_example (rq : FwRequest) : M nat FwReply := λ n,
  (Ok (mkFwReply 200 "" (Ok (JObj [("upstream_dns", JArr [JStr "8.8.8.8"]); ("cache", JNum 4)]))), S n).

Lemma operator_upstreams_kept_witness :
  fst (ensureShieldUpstreams adguard_example (New shield_cfg 0%nat)) = Ok tt ∧
  fc_sent (snd (ensureShieldUpstreams adguard_example (New shield_cfg 0%nat))) = [dns_info_request shield_cfg].
Proof.
  destruct (operator_upstreams_kept adguard_example (New shield_cfg 0%nat)
    (mkFwReply 200 "" (Ok (JObj [("upstream_dns", JArr [JStr "8.8.8.8"]); ("cache", JNum 4)]))) 1%nat
    [("upstream_dns", JArr [JStr "8.8.8.8"]); ("cache", JNum 4)] _ _
    eq_refl eq_refl eq_refl eq_refl (surjective_pairing _)) as [H _].
  destruct H as (H1 & _ & H2); [|split; [exact H1|exact H2]].
  exists [JStr "8.8.8.8"], (JStr "8.8.8.8"). split; [reflexivity|].
  split; [by apply list_elem_of_singleton|reflexivity].
Defined.

(** AdGuard that is set up already and refuses another setup. *)
Definition adguard_configured (rq : FwRequest) : M nat FwReply := λ n,
  (Ok (mkFwReply (if Contains (fq_URL rq) "install" then 403 else 200) "" (Ok (JObj []))), S n).

Lemma refused_password_used_witness :
  fc_sent (snd (Sync adguard_configured unmarshal_example "revoked"
                  (snd (SetAdminPassword adguard_configured "" "n3w" (New shield_cfg 0%nat))))) =
  fc_sent (snd (SetAdminPassword adguard_configured "" "n3w" (New shield_cfg 0%nat))) ++
    [mkFwReq "POST" "http://adguard:3000/control/cache_clear" (Some ("admin", "n3w")) (Some (JObj []))].
Proof.
  refine (refused_password_used adguard_configured unmarshal_example "" "n3w"
    (EMsg "http://adguard:3000/control/install/configure: 403 ") "revoked"
    (mkSync "org" "" "" [] [] false "") (New shield_cfg 0%nat) _ _ _ eq_refl _ eq_refl _ eq_refl (surjective_pairing _)).
  - discriminate.
  - vm_compute. reflexivity.
Defined.
