(* ===== verification/GatewayClient.v ===== *)
(** * The gateway client: internal/gatewayclient

    Registration with the gateway, the credentials it yields, the refresh of
    the control-plane token, the report of the firewall's credentials and
    the reconnect loop.  The gateway is outside the program: it is a function of
    the requests sent so far, and the requests are recorded in the state. *)
From S2P Require Import Prelude GoStrings GoUrl GoDecode Sha256 Stealth Bridge DropClient Wallet.

(** ** register.go: stored credentials, over the SettingsStore interface *)

Definition settingNodeID : string := "gateway_node_id".
Definition settingNodeToken : string := "gateway_node_token".
Definition settingNodeKey : string := "gateway_node_key".
Definition settingGatewayPublicKey : string := "gateway_public_key".

Record GwCredentials := mkCred {
  gc_NodeID : string; gc_NodeToken : string; gc_NodeKey : string; gc_GatewayPublicKey : string }.

Section credentials.
Context {St : Type} {ST : SettingsStore St}.

Definition ok_or_empty (r : result string) : string := match r with Ok v => v | Err _ => EmptyString end.

Definition LoadCredentials : M St GwCredentials :=
  nodeID ← ss_Get settingNodeID;
  nodeToken ← ss_Get settingNodeToken;
  nodeKey ← try (ss_Get settingNodeKey);
  gwPub ← try (ss_Get settingGatewayPublicKey);
  mret (mkCred nodeID nodeToken (ok_or_empty nodeKey) (ok_or_empty gwPub)).

Definition SaveCredentials (cred : option GwCredentials) : M St unit :=
  match cred with
  | None => fail (EMsg "nil credentials")
  | Some c =>
      _ ← ss_Set settingNodeID (gc_NodeID c);
      _ ← ss_Set settingNodeToken (gc_NodeToken c);
      _ ← (if String.eqb (gc_NodeKey c) EmptyString then mret tt
           else ss_Set settingNodeKey (gc_NodeKey c));
      if String.eqb (gc_GatewayPublicKey c) EmptyString then mret tt
      else ss_Set settingGatewayPublicKey (gc_GatewayPublicKey c)
  end.
End credentials.

(** ** register.go: registration *)

Record RegistrationInput := mkReg {
  ri_GatewayURL : string; ri_RegistrationToken : string; ri_OrgEnrollmentSecret : string;
  ri_WalletChain : string; ri_Mnemonic : string; ri_PeerID : string; ri_DID : string;
  ri_Name : string; ri_Region : string; ri_Zone : string; ri_APIBaseURL : string;
  ri_NodeKey : string; ri_AccessMode : string; ri_DeploymentProfile : string }.

Definition registrationToken (i : RegistrationInput) : string :=
  let t := TrimSpace (ri_RegistrationToken i) in
  if negb (String.eqb t EmptyString) then t else TrimSpace (ri_OrgEnrollmentSecret i).

(** A POST the node sends, and the gateway's answer: status, the text read of
    it (at most 1 MiB), and the JSON value that text parses to. *)
Record GwRequest := mkGwReq { gq_url : string; gq_auth : string; gq_body : list (string * string) }.
Record GwReply := mkGwReply { gr_status : Z; gr_text : string; gr_json : result json }.

Definition truncate (b : string) : string := String.substring 0 200 b.

Definition trim_base (url : string) : string := TrimRight_slash (TrimSpace url).

Section gateway.
Context {Account HDKey ECKey : Type} (L : WalletLib Account HDKey ECKey).
(** The gateway answers the last of the requests sent so far. *)
Context (gateway : list GwRequest → result GwReply).

Definition postJSON (url auth : string) (body : list (string * string)) : M (list GwRequest) GwReply :=
  run (λ sent, let sent := sent ++ [mkGwReq url auth body] in (gateway sent, sent)).

Definition wrap_m {A} (pre : string) (r : result A) : M (list GwRequest) A :=
  match r with Ok a => mret a | Err e => fail (EWrap pre e EmptyString) end.

Definition status_err (pre : string) (r : GwReply) : error :=
  EMsg (pre +:+ Itoa (gr_status r) +:+ ": " +:+ truncate (gr_text r)).

Definition step1_body (i : RegistrationInput) : list (string * string) :=
  [("registration_token", registrationToken i); ("peer_id", ri_PeerID i)].

Definition step2_body (i : RegistrationInput) (flow signature pubKey addr : string)
  : list (string * string) :=
  [("flow_id", flow); ("registration_token", registrationToken i); ("signature", signature);
   ("public_key", pubKey); ("wallet_address", addr); ("chain", CanonicalChain (ri_WalletChain i));
   ("peer_id", ri_PeerID i); ("did", ri_DID i); ("name", ri_Name i); ("region", ri_Region i);
   ("zone", ri_Zone i); ("api_base_url", ri_APIBaseURL i); ("node_key", ri_NodeKey i);
   ("access_mode", if String.eqb (ri_AccessMode i) "private" then "private" else "public");
   ("deployment_profile", TrimSpace (ri_DeploymentProfile i))].

(** The answers, decoded. *)
Definition parse_challenge (j : json) : result (string * string * string) :=
  flow ← field_string "flow_id" j; msg ← field_string "message" j;
  pub ← field_string "gateway_public_key" j; Ok (flow, msg, pub).
Definition parse_registration (j : json) : result (string * string * string * string * string) :=
  nid ← field_string "node_id" j; pid ← field_string "peer_id" j;
  tok ← field_string "node_token" j; key ← field_string "node_key" j;
  pub ← field_string "gateway_public_key" j; Ok (nid, pid, tok, key, pub).

Definition Register (i : RegistrationInput) : M (list GwRequest) GwCredentials :=
  let base := trim_base (ri_GatewayURL i) in
  let token := registrationToken i in
  if String.eqb base EmptyString then fail (EMsg "gateway URL is empty")
  else if String.eqb token EmptyString then fail (EMsg "node registration token is empty")
  else if String.eqb (ri_PeerID i) EmptyString then fail (EMsg "peer_id is empty")
  else
    addr ← wrap_m "wallet address: " (AddressFromMnemonic L (ri_Mnemonic i) (ri_WalletChain i));
    pubKey ← wrap_m "wallet public key: " (PublicKeyFromMnemonic L (ri_Mnemonic i) (ri_WalletChain i));
    let url := base +:+ "/api/v2/nodes/register" in
    r1 ← postJSON url EmptyString (step1_body i);
    if negb (gr_status r1 =? 200) then fail (status_err "register step1: " r1)
    else
      c ← wrap_m "parse challenge: " (j ← gr_json r1; parse_challenge j);
      let '(flow, msg, pub1) := c in
      if String.eqb flow EmptyString || String.eqb msg EmptyString
      then fail (EMsg "gateway returned empty challenge")
      else
        signed ← wrap_m "sign challenge: "
          (SignChallengeWithMnemonic L (ri_Mnemonic i) (ri_WalletChain i) msg);
        let '(_, _, signature) := signed in
        r2 ← postJSON url EmptyString (step2_body i flow signature pubKey addr);
        if negb (gr_status r2 =? 200) then fail (status_err "register step2: " r2)
        else
          o ← wrap_m "parse registration response: " (j ← gr_json r2; parse_registration j);
          let '(nid, pid, tok, key, pub2) := o in
          let nodeID := if negb (String.eqb pid EmptyString) then pid else nid in
          if String.eqb nodeID EmptyString || String.eqb tok EmptyString || String.eqb key EmptyString
          then fail (EMsg "gateway returned incomplete registration response")
          else if negb (String.eqb nodeID (ri_PeerID i))
          then fail (EMsg ("gateway node_id " +:+ quote_q nodeID +:+ " does not match local peer_id "
                           +:+ quote_q (ri_PeerID i)))
          else mret (mkCred nodeID tok key (if String.eqb pub2 EmptyString then pub1 else pub2)).

Definition RefreshNodeToken (gatewayURL peerID nodeKey : string) : M (list GwRequest) string :=
  let base := trim_base gatewayURL in
  let peerID := TrimSpace peerID in
  let nodeKey := TrimSpace nodeKey in
  if String.eqb base EmptyString || String.eqb peerID EmptyString || String.eqb nodeKey EmptyString
  then fail (EMsg "gateway URL, peer_id and node_key are required")
  else
    r ← postJSON (base +:+ "/api/v2/nodes/token/refresh") ("Bearer " +:+ nodeKey) [("peer_id", peerID)];
    if negb (gr_status r =? 200) then fail (status_err "token refresh: " r)
    else
      tok ← wrap_m "parse refresh response: " (j ← gr_json r; field_string "node_token" j);
      if String.eqb tok EmptyString then fail (EMsg "gateway returned empty node_token") else mret tok.

(** credentials.go *)
Definition PostFirewallCredentials (gatewayURL peerID nodeToken adminUser adminPassword adminURL : string)
  : M (list GwRequest) unit :=
  let base := trim_base gatewayURL in
  if String.eqb base EmptyString || String.eqb peerID EmptyString
     || String.eqb (TrimSpace nodeToken) EmptyString || String.eqb adminPassword EmptyString
  then mret tt
  else
    r ← postJSON (base +:+ "/api/v2/nodes/" +:+ peerID +:+ "/firewall/credentials")
          ("Bearer " +:+ nodeToken)
          [("admin_user", adminUser); ("admin_password", adminPassword); ("admin_url", adminURL)];
    if negb (Z.quot (gr_status r) 100 =? 2)
    then fail (EMsg ("report firewall credentials: " +:+ Itoa (gr_status r) +:+ " "
                     +:+ TrimSpace (String.substring 0 512 (gr_text r))))
    else mret tt.
End gateway.

(** ** client.go: the reconnect loop *)

Definition second : Z := 10 ^ 9.

Definition isAuthDialError (err : option error) : bool :=
  match err with
  | None => false
  | Some e =>
      let msg := ToLower (error_text e) in
      Contains msg "bad handshake" || Contains msg "401" || Contains msg "unauthorized"
  end.

Record RunState := mkRun { rn_token : string; rn_backoff : Z }.

(** One round of Run: how the session ended, what the token refresher answers
    ([None] without one), the jitter drawn, and whether the context is
    cancelled after the session or during the wait. *)
Record Round := mkRound {
  ro_err : option error; ro_refresh : option (result string); ro_jitter : Z;
  ro_cancelled : bool; ro_cancelled_in_wait : bool }.

Inductive RoundResult :=
| Stopped
| Again (s : RunState) (waited : option Z).

Definition run_round (s : RunState) (r : Round) : RoundResult :=
  if ro_cancelled r then Stopped
  else
    let wait :=
      let sleep := rn_backoff s + ro_jitter r - Z.quot (rn_backoff s) 10 in
      if ro_cancelled_in_wait r then Stopped
      else Again (mkRun (rn_token s)
                    (if rn_backoff s <? 60 * second then rn_backoff s * 2 else rn_backoff s)) (Some sleep) in
    match ro_refresh r with
    | Some (Ok tok) =>
        if isAuthDialError (ro_err r) && negb (String.eqb tok EmptyString)
        then Again (mkRun tok second) None
        else wait
    | _ => wait
    end.

(** The waits of a run over a sequence of rounds. *)
Fixpoint Run (s : RunState) (rounds : list Round) : list (option Z) * option RunState :=
  match rounds with
  | [] => ([], Some s)
  | r :: rounds =>
      match run_round s r with
      | Stopped => ([], None)
      | Again s' w => let '(ws, e) := Run s' rounds in (w :: ws, e)
      end
  end.

Definition run_start (token : string) : RunState := mkRun token second.

(** [rand.Int63n(backoff/5)] *)
Definition jitter_ok (s : RunState) (r : Round) : Prop :=
  0 <= ro_jitter r < Z.quot (rn_backoff s) 5.

(** The jitters of a run are drawn from the range of the backoff at that
    round. *)
Fixpoint jitters_ok (s : RunState) (rounds : list Round) : Prop :=
  match rounds with
  | [] => True
  | r :: rounds =>
      jitter_ok s r ∧
      match run_round s r with Stopped => True | Again s' _ => jitters_ok s' rounds end
  end.

(** ** Stored credentials *)

Section stored.
Context {St : Type} {ST : SettingsStore St}.

Definition kept (new old : string) : string := if String.eqb new EmptyString then old else new.

Lemma set_if_inv k v (s : St) s' :
  (if String.eqb v EmptyString then mret tt else ss_Set k v) s = (Ok tt, s') →
  (∀ k', setting s' k' = if String.eqb k' k then kept v (setting s k) else setting s k').
Proof.
  unfold kept. destruct (String.eqb_spec v EmptyString) as [->|Hv]; intros H k'.
  - injection H as <-. destruct (String.eqb_spec k' k) as [->|]; done.
  - apply ss_set_any in H. unfold setting. rewrite H.
    destruct (String.eqb_spec k' k) as [->|Hne]; [by rewrite lookup_insert_eq|].
    by rewrite lookup_insert_ne by congruence.
Qed.

Lemma set_inv k v (s : St) s' :
  ss_Set k v s = (Ok tt, s') →
  ∀ k', setting s' k' = if String.eqb k' k then v else setting s k'.
Proof.
  intros H k'. apply ss_set_any in H. unfold setting. rewrite H.
  destruct (String.eqb_spec k' k) as [->|Hne]; [by rewrite lookup_insert_eq|].
  by rewrite lookup_insert_ne by congruence.
Qed.

Lemma try_Ok {S A} (m : M S A) s a s' : m s = (Ok a, s') → try m s = (Ok (Ok a), s').
Proof. unfold try. by intros ->. Qed.

(** Saved credentials are loaded back; an empty node key or gateway key keeps
    the one stored before. *)
Lemma credentials_roundtrip c (s s1 : St) :
  SaveCredentials (Some c) s = (Ok tt, s1) → ss_quiet s1 →
  LoadCredentials s1 =
    (Ok (mkCred (gc_NodeID c) (gc_NodeToken c) (kept (gc_NodeKey c) (setting s settingNodeKey))
           (kept (gc_GatewayPublicKey c) (setting s settingGatewayPublicKey))), s1).
Proof.
  intros H Hq. unfold SaveCredentials in H.
  apply bind_ok in H as ([] & s2 & H1 & H). apply bind_ok in H as ([] & s3 & H2 & H).
  apply bind_ok in H as ([] & s4 & H3 & H4).
  pose proof (set_inv _ _ _ _ H1) as E1. pose proof (set_inv _ _ _ _ H2) as E2.
  pose proof (set_if_inv _ _ _ _ H3) as E3. pose proof (set_if_inv _ _ _ _ H4) as E4.
  unfold LoadCredentials.
  rewrite (bind_Ok _ _ _ _ _ (ss_get_quiet settingNodeID s1 Hq)).
  rewrite (bind_Ok _ _ _ _ _ (ss_get_quiet settingNodeToken s1 Hq)).
  rewrite (bind_Ok _ _ _ _ _ (try_Ok _ _ _ _ (ss_get_quiet settingNodeKey s1 Hq))).
  rewrite (bind_Ok _ _ _ _ _ (try_Ok _ _ _ _ (ss_get_quiet settingGatewayPublicKey s1 Hq))).
  repeat change (default EmptyString (ss_view s1 !! ?k)) with (setting s1 k).
  cbn [ok_or_empty]. unfold mret, M_ret.
  rewrite !E4, !E3, !E2, !E1. reflexivity.
Qed.
End stored.

(** ** Registration *)

Section registration.
Context {Account HDKey ECKey : Type} (L : WalletLib Account HDKey ECKey)
  (gateway : list GwRequest → result GwReply) (i : RegistrationInput).

Definition register_url : string := trim_base (ri_GatewayURL i) +:+ "/api/v2/nodes/register".
Definition step1_request : GwRequest := mkGwReq register_url EmptyString (step1_body i).
Definition step2_request (flow sig pub addr : string) : GwRequest :=
  mkGwReq register_url EmptyString (step2_body i flow sig pub addr).

Lemma wrap_m_inv {A} pre (r : result A) sent x sent' :
  wrap_m pre r sent = (x, sent') → sent' = sent ∧
    ((∃ a, r = Ok a ∧ x = Ok a) ∨ (∃ e, x = Err e)).
Proof. destruct r; intros [= <- <-]; eauto. Qed.

Lemma postJSON_inv url auth body sent x sent' :
  postJSON gateway url auth body sent = (x, sent') →
  sent' = sent ++ [mkGwReq url auth body] ∧ x = gateway (sent ++ [mkGwReq url auth body]).
Proof. intros [= <- <-]. done. Qed.

(** The exchange behind a registration. *)
Definition registered (sent sent' : list GwRequest) (c : GwCredentials) : Prop :=
  ∃ flow msg pub1 sig pub addr r1 r2 j1 j2,
    sent' = sent ++ [step1_request; step2_request flow sig pub addr] ∧
    AddressFromMnemonic L (ri_Mnemonic i) (ri_WalletChain i) = Ok addr ∧
    PublicKeyFromMnemonic L (ri_Mnemonic i) (ri_WalletChain i) = Ok pub ∧
    gateway (sent ++ [step1_request]) = Ok r1 ∧ gr_status r1 = 200 ∧ gr_json r1 = Ok j1 ∧
    parse_challenge j1 = Ok (flow, msg, pub1) ∧ flow ≠ EmptyString ∧ msg ≠ EmptyString ∧
    SignChallengeWithMnemonic L (ri_Mnemonic i) (ri_WalletChain i) msg = Ok (addr, pub, sig) ∧
    gateway sent' = Ok r2 ∧ gr_status r2 = 200 ∧ gr_json r2 = Ok j2 ∧
    field_string "node_token" j2 = Ok (gc_NodeToken c) ∧ gc_NodeToken c ≠ EmptyString ∧
    field_string "node_key" j2 = Ok (gc_NodeKey c) ∧ gc_NodeKey c ≠ EmptyString ∧
    gc_NodeID c = ri_PeerID i.

Lemma parse_registration_ok j x :
  parse_registration j = Ok x →
  field_string "node_token" j = Ok x.1.1.2 ∧ field_string "node_key" j = Ok x.1.2.
Proof.
  intros (nid & _ & H)%bind_result_ok. apply bind_result_ok in H as (pid & _ & H).
  apply bind_result_ok in H as (tok & Ht & H). apply bind_result_ok in H as (key & Hk & H).
  apply bind_result_ok in H as (pub & _ & [= <-]). done.
Qed.

(** The second step, after a challenge. *)
Lemma register_step2 sent flow sig pub addr pub1 (x : result GwCredentials) sent' :
  (r2 ← postJSON gateway register_url EmptyString (step2_body i flow sig pub addr);
   if negb (gr_status r2 =? 200) then fail (status_err "register step2: " r2)
   else
     o ← wrap_m "parse registration response: " (j ← gr_json r2; parse_registration j);
     let '(nid, pid, tok, key, pub2) := o in
     let nodeID := if negb (String.eqb pid EmptyString) then pid else nid in
     if String.eqb nodeID EmptyString || String.eqb tok EmptyString || String.eqb key EmptyString
     then fail (EMsg "gateway returned incomplete registration response")
     else if negb (String.eqb nodeID (ri_PeerID i))
     then fail (EMsg ("gateway node_id " +:+ quote_q nodeID +:+ " does not match local peer_id "
                      +:+ quote_q (ri_PeerID i)))
     else mret (mkCred nodeID tok key (if String.eqb pub2 EmptyString then pub1 else pub2)))
    sent = (x, sent') →
  sent' = sent ++ [step2_request flow sig pub addr] ∧
  ∀ c, x = Ok c → ∃ r2 j2, gateway sent' = Ok r2 ∧ gr_status r2 = 200 ∧ gr_json r2 = Ok j2 ∧
    field_string "node_token" j2 = Ok (gc_NodeToken c) ∧ gc_NodeToken c ≠ EmptyString ∧
    field_string "node_key" j2 = Ok (gc_NodeKey c) ∧ gc_NodeKey c ≠ EmptyString ∧
    gc_NodeID c = ri_PeerID i.
Proof.
  intros H. apply bind_inv in H as [(r2 & s1 & H1 & H)|(e & H1 & ->)];
    apply postJSON_inv in H1 as [-> Hg]; [|done].
  destruct (Z.eqb_spec (gr_status r2) 200) as [H200|]; cbn [negb] in H; [|by injection H as <- <-].
  apply bind_inv in H as [(o & s2 & H1 & H)|(e & H1 & ->)];
    apply wrap_m_inv in H1 as [-> [(a & Ha & Hx)|[? Hx]]]; try done.
  injection Hx as <-. apply bind_result_ok in Ha as (j2 & Hj & Hp). apply parse_registration_ok in Hp.
  destruct o as [[[[nid pid] tok] key] pub2]. cbn in Hp. destruct Hp as [Ht Hk].
  set (nodeID := if negb _ then pid else nid) in H.
  destruct (_ || _ || _) eqn:E1; [by injection H as <- <-|].
  destruct (String.eqb_spec nodeID (ri_PeerID i)) as [En|]; cbn [negb] in H; [|by injection H as <- <-].
  injection H as <- <-. split; [done|]. intros c [= <-].
  apply orb_false_iff in E1 as [[_ E1]%orb_false_iff E2].
  apply String.eqb_neq in E1, E2. exists r2, j2. cbn. done.
Qed.

(** An exit with an error. *)
Local Ltac no_credentials := split; [by auto|by intros ? ?].

(** What Register has sent when it returns, and what its success means. *)
Lemma Register_exchange sent x sent' :
  Register L gateway i sent = (x, sent') →
  (sent' = sent ∨ sent' = sent ++ [step1_request] ∨
   ∃ flow sig pub addr, sent' = sent ++ [step1_request; step2_request flow sig pub addr]) ∧
  ∀ c, x = Ok c → registered sent sent' c ∧ ri_PeerID i ≠ EmptyString.
Proof.
  unfold Register. cbv zeta.
  destruct (String.eqb (trim_base (ri_GatewayURL i)) EmptyString); [intros H; injection H as <- <-; no_credentials|].
  destruct (String.eqb (registrationToken i) EmptyString); [intros H; injection H as <- <-; no_credentials|].
  destruct (String.eqb_spec (ri_PeerID i) EmptyString) as [|Hpeer]; [intros H; injection H as <- <-; no_credentials|].
  intros H. apply bind_inv in H as [(addr & s1 & H1 & H)|(e & H1 & ->)];
    apply wrap_m_inv in H1 as [-> [(a & Ha & Hx)|[? Hx]]]; try discriminate Hx; try no_credentials.
  injection Hx as <-. apply bind_inv in H as [(pub & s1 & H1 & H)|(e & H1 & ->)];
    apply wrap_m_inv in H1 as [-> [(b & Hb & Hx)|[? Hx]]]; try discriminate Hx; try no_credentials.
  injection Hx as <-. fold register_url in H.
  apply bind_inv in H as [(r1 & s1 & H1 & H)|(e & H1 & ->)];
    apply postJSON_inv in H1 as [-> Hg1]; [|no_credentials]. fold step1_request in H, Hg1.
  destruct (Z.eqb_spec (gr_status r1) 200) as [H200|]; cbn [negb] in H; [|injection H as <- <-; no_credentials].
  apply bind_inv in H as [(c & s1 & H1 & H)|(e & H1 & ->)];
    apply wrap_m_inv in H1 as [-> [(d & Hc & Hx)|[? Hx]]]; try discriminate Hx; try no_credentials.
  injection Hx as <-. apply bind_result_ok in Hc as (j1 & Hj1 & Hc). destruct c as [[flow msg] pub1].
  destruct (_ || _) eqn:Ee; [injection H as <- <-; no_credentials|].
  apply orb_false_iff in Ee as [Ef%String.eqb_neq Em%String.eqb_neq].
  apply bind_inv in H as [(signed & s1 & H1 & H)|(e & H1 & ->)];
    apply wrap_m_inv in H1 as [-> [(d & Hs & Hx)|[? Hx]]]; try discriminate Hx; try no_credentials.
  injection Hx as <-. destruct signed as [[a' p'] sig].
  pose proof (sign_same_wallet L _ _ _ _ _ _ _ _ Ha Hb Hs) as [-> ->].
  apply register_step2 in H as [-> H].
  rewrite <- app_assoc in *. cbn [app] in *. split; [eauto 10|].
  intros c Hx. split; [|done]. destruct (H c Hx) as (r2 & j2 & G & ?).
  exists flow, msg, pub1, sig, pub, addr, r1, r2, j1, j2. done.
Qed.
End registration.


(** A gateway that issues a challenge and then accepts. *)
Definition gw_example (sent : list GwRequest) : result GwReply :=
  Ok (mkGwReply 200 "{}" (Ok
    match sent with
    | [_] => JObj [("flow_id", JStr "f1"); ("message", JStr "prove it")]
    | _ => JObj [("node_id", JStr "12D3"); ("node_token", JStr "tok"); ("node_key", JStr "key")]
    end)).

Definition reg_example : RegistrationInput :=
  mkReg " https://gw.example/ " "" "enroll" "sol" "abandon" "12D3" "did:x" "n" "eu" "" "" "" "private" "edge".

(** Packages with the identity for every primitive. *)
Definition lib_example : WalletLib (list Z) (list Z) (list Z) :=
  mkLib (λ m, negb (String.eqb m EmptyString)) (λ m p, bytes_of m) (λ path s, Ok s) (λ s, Ok s) hex_encode
    (λ k m, k ++ m) hex_encode (λ s, Ok s) (λ k i, Ok (i :: k)) id (λ k, Ok k) id id (λ h k, Ok (k ++ h)).

Local Notation example_register := (Register lib_example gw_example reg_example []).


(** ** The reconnect loop *)

Definition refreshed (r : Round) : bool :=
  isAuthDialError (ro_err r) &&
  match ro_refresh r with Some (Ok tok) => negb (String.eqb tok EmptyString) | _ => false end.

(** The [k]-th wait after the start or after a refresh is within a tenth of
    [2^k] seconds, [k] capped at 6. *)
Fixpoint paced (k : nat) (ws : list (option Z)) : Prop :=
  match ws with
  | [] => True
  | None :: ws => paced 0 ws
  | Some w :: ws =>
      9 * second * 2 ^ Z.of_nat (k `min` 6) <= 10 * w < 11 * second * 2 ^ Z.of_nat (k `min` 6) ∧
      paced (S k) ws
  end.

Definition backoff_at (k : nat) : Z := second * 2 ^ Z.of_nat (k `min` 6).

Lemma backoff_next k :
  (if backoff_at k <? 60 * second then backoff_at k * 2 else backoff_at k) = backoff_at (S k).
Proof.
  destruct (decide (6 <= k)%nat) as [H|H].
  - unfold backoff_at. rewrite !Nat.min_r by lia. reflexivity.
  - do 6 (destruct k as [|k]; [reflexivity|]). lia.
Qed.

Lemma backoff_tenth k :
  Z.quot (backoff_at k) 10 * 10 = backoff_at k ∧ Z.quot (backoff_at k) 5 * 5 = backoff_at k.
Proof.
  destruct (decide (6 <= k)%nat) as [H|H].
  - unfold backoff_at. rewrite !Nat.min_r by lia. done.
  - do 6 (destruct k as [|k]; [done|]). lia.
Qed.

(** A round that is not cancelled refreshes or waits. *)
Lemma run_round_spec s r :
  run_round s r =
    if ro_cancelled r then Stopped
    else if refreshed r then
      Again (mkRun (match ro_refresh r with Some (Ok t) => t | _ => EmptyString end) second) None
    else if ro_cancelled_in_wait r then Stopped
    else Again (mkRun (rn_token s)
                  (if rn_backoff s <? 60 * second then rn_backoff s * 2 else rn_backoff s))
           (Some (rn_backoff s + ro_jitter r - Z.quot (rn_backoff s) 10)).
Proof.
  unfold run_round, refreshed. destruct (ro_cancelled r); [done|].
  destruct (ro_refresh r) as [[tok|e]|]; rewrite ?andb_false_r; [|done|done].
  by destruct (_ && _).
Qed.

Lemma wait_range k j :
  0 <= j < Z.quot (backoff_at k) 5 →
  9 * backoff_at k <= 10 * (backoff_at k + j - Z.quot (backoff_at k) 10) < 11 * backoff_at k.
Proof. pose proof (backoff_tenth k) as [H1 H2]. lia. Qed.

Lemma Run_paced rounds : ∀ k tok ws e,
  jitters_ok (mkRun tok (backoff_at k)) rounds →
  Run (mkRun tok (backoff_at k)) rounds = (ws, e) → paced k ws.
Proof.
  induction rounds as [|r rounds IH]; intros k tok ws e; cbn [jitters_ok Run].
  { by intros _ [= <- _]. }
  intros [Hj Hr]. rewrite run_round_spec in *. cbn [rn_backoff rn_token] in *.
  unfold jitter_ok in Hj. cbn [rn_backoff] in Hj.
  destruct (ro_cancelled r); [by intros [= <- _]|].
  destruct (refreshed r).
  - destruct (Run _ rounds) as [ws' e'] eqn:E. intros [= <- _]. by eapply (IH 0%nat).
  - destruct (ro_cancelled_in_wait r); [by intros [= <- _]|].
    rewrite backoff_next in *. destruct (Run _ rounds) as [ws' e'] eqn:E. intros [= <- _].
    split; [|by eapply IH]. pose proof (wait_range k _ Hj). unfold backoff_at in *. lia.
Qed.

Lemma Run_rounds rounds : ∀ s ws e,
  Run s rounds = (ws, e) →
  (∀ n r w, rounds !! n = Some r → ws !! n = Some w → (w = None ↔ refreshed r = true)) ∧
  (Forall (λ r, ro_cancelled r = false ∧ ro_cancelled_in_wait r = false) rounds →
   length ws = length rounds ∧ is_Some e).
Proof.
  induction rounds as [|r rounds IH]; intros s ws e; cbn [Run].
  { intros [= <- <-]. split; [|by eauto]. intros n r w. by rewrite lookup_nil. }
  rewrite run_round_spec.
  assert (Hstop : ([], None) = (ws, e) → ro_cancelled r = true ∨ ro_cancelled_in_wait r = true → 
    (∀ n r0 w, (r :: rounds) !! n = Some r0 → ws !! n = Some w → (w = None ↔ refreshed r0 = true)) ∧
    (Forall (λ r0, ro_cancelled r0 = false ∧ ro_cancelled_in_wait r0 = false) (r :: rounds) →
     length ws = length (r :: rounds) ∧ is_Some e)).
  { intros [= <- <-] Hc. split; [done|]. intros [[] _]%Forall_cons. destruct Hc; congruence. }
  destruct (ro_cancelled r); [by auto|].
  assert (Hgo : ∀ s' w0, (w0 = None ↔ refreshed r = true) →
    (let '(ws0, e0) := Run s' rounds in (w0 :: ws0, e0)) = (ws, e) →
    (∀ n r0 w, (r :: rounds) !! n = Some r0 → ws !! n = Some w → (w = None ↔ refreshed r0 = true)) ∧
    (Forall (λ r0, ro_cancelled r0 = false ∧ ro_cancelled_in_wait r0 = false) (r :: rounds) →
     length ws = length (r :: rounds) ∧ is_Some e)).
  { intros s' w0 Hw. destruct (Run s' rounds) as [ws' e'] eqn:E. intros [= <- <-].
    destruct (IH _ _ _ E) as [IH1 IH2]. split.
    - intros [|n] r0 w; cbn; [by intros [= <-] [= <-]|]. by apply IH1.
    - intros [_ Hf]%Forall_cons. destruct (IH2 Hf). split; [cbn; lia|done]. }
  destruct (refreshed r); [by apply Hgo|].
  destruct (ro_cancelled_in_wait r); [by auto|]. by apply Hgo.
Qed.

(** The reconnect loop is paced: after the start or a token refresh its
    waits are 1, 2, 4, ... seconds up to 64, each within a tenth of its
    target, and only cancellation ends it.  A round that ends in an
    authentication error and a successful refresh is followed by the next
    dial with no wait at all, however many such rounds came before it; and a
    session that was established does not shorten the next wait. *)
Lemma reconnect_pacing tok rounds ws e :
  jitters_ok (run_start tok) rounds → Run (run_start tok) rounds = (ws, e) →
  paced 0 ws ∧
  (∀ n r w, rounds !! n = Some r → ws !! n = Some w → (w = None ↔ refreshed r = true)) ∧
  (Forall (λ r, ro_cancelled r = false ∧ ro_cancelled_in_wait r = false) rounds →
   length ws = length rounds ∧ is_Some e).
Proof.
  intros Hj HR. split; [by eapply (Run_paced rounds 0)|by eapply Run_rounds].
Qed.

Definition rounds_example : list Round :=
  [mkRound (Some (EMsg "eof")) None 0 false false;
   mkRound None None 399999999 false false;
   mkRound (Some (EMsg "websocket: Bad Handshake")) (Some (Ok "t2")) 0 false false;
   mkRound (Some (EMsg "401")) (Some (Ok "t3")) 0 false false;
   mkRound (Some (EMsg "401")) (Some (Err (EMsg "refused"))) 5 false false].

Lemma reconnect_pacing_witness :
  fst (Run (run_start "t1") rounds_example) =
    [Some 900000000; Some 2199999999; None; None; Some 900000005] ∧
  paced 0 (fst (Run (run_start "t1") rounds_example)).
Proof.
  split; [vm_compute; reflexivity|].
  refine (proj1 (reconnect_pacing "t1" rounds_example _ _ _ (surjective_pairing _))).
  vm_compute. repeat split; discriminate.
Defined.
