(* ===== verification/Threads.v ===== *)
(** * Goroutines

    A goroutine is a program that other goroutines may interrupt between its
    calls.  [thread S A] is a resumption: it has finished, or makes one call on
    the shared state and goes on.  [alone] runs a thread without interruption,
    which gives back the program of [M] it was cut from.  A pool of threads runs
    under a schedule, the list of the threads that make the next call.

    [safe] is a rely-guarantee judgement: what a thread guarantees at each of
    its calls, in any state the others may have left, and what its result is.
    The set of the states visited so far is part of it, so that a result can
    speak about a moment of the run. *)
From S2P Require Import Prelude.

Inductive thread (S A : Type) : Type :=
| Finished (r : result A)
| Next (effect : S → S) (rest : S → thread S A).
Arguments Finished {S A}. Arguments Next {S A}.

Section threads.
Context {S : Type}.

Definition atom {A} (m : M S A) : thread S A := Next (λ s, (m s).2) (λ s, Finished (m s).1).

Fixpoint alone {A} (t : thread S A) (s : S) : result A * S :=
  match t with
  | Finished r => (r, s)
  | Next u k => alone (k s) (u s)
  end.

#[export] Instance thread_ret : MRet (thread S) := λ A a, Finished (Ok a).
#[export] Instance thread_bind : MBind (thread S) := λ A B f, fix bind t :=
  match t with
  | Finished (Ok a) => f a
  | Finished (Err e) => Finished (Err e)
  | Next u k => Next u (λ s, bind (k s))
  end.

(** The error of a part does not end the thread. *)
Fixpoint attempt {A} (t : thread S A) : thread S (result A) :=
  match t with
  | Finished r => Finished (Ok r)
  | Next u k => Next u (λ s, attempt (k s))
  end.

Fixpoint t_for_each {A} (f : A → thread S unit) (l : list A) : thread S unit :=
  match l with [] => mret tt | x :: l => _ ← f x; t_for_each f l end.

(** ** Running alone *)

Lemma alone_atom {A} (m : M S A) s : alone (atom m) s = m s.
Proof. cbn. by destruct (m s). Qed.

Lemma alone_bind {A B} (t : thread S A) (f : A → thread S B) s :
  alone (t ≫= f) s = (alone t ≫= (λ a, alone (f a)) : M S B) s.
Proof. revert s. induction t as [[a|e]|u k IH]; intros s; [done..|]. apply (IH s (u s)). Qed.

Lemma alone_attempt {A} (t : thread S A) s : alone (attempt t) s = try (alone t) s.
Proof. revert s. induction t as [r|u k IH]; intros s; [done|]. apply (IH s (u s)). Qed.

(** Two programs that agree on every state. *)
Lemma bind_ext {A B} (m m' : M S A) (f f' : A → M S B) s :
  m s = m' s → (∀ a s, f a s = f' a s) → (m ≫= f) s = (m' ≫= f') s.
Proof. intros Hm Hf. unfold mbind, M_bind. rewrite Hm. destruct (m' s) as [[]]; [apply Hf|done]. Qed.

Lemma alone_for_each {A} (f : A → thread S unit) (g : A → M S unit) l s :
  (∀ x s, alone (f x) s = g x s) → alone (t_for_each f l) s = for_each g l s.
Proof.
  intros H. revert s. induction l as [|x l IH]; intros s; [done|].
  cbn [t_for_each for_each]. rewrite alone_bind. apply bind_ext; [apply H|]. intros _. apply IH.
Qed.

(** ** Pools *)

Notation pool A := (list (thread S A)).

(** The thread [i] makes its next call; a thread that has finished does not run. *)
Definition pool_step {A} (i : nat) (c : pool A * S) : option (pool A * S) :=
  match c.1 !! i with
  | Some (Next u k) => Some (<[i := k c.2]> c.1, u c.2)
  | _ => None
  end.

Fixpoint schedule {A} (l : list nat) (c : pool A * S) : option (pool A * S) :=
  match l with [] => Some c | i :: l => c ← pool_step i c; schedule l c end.

(** The states of a run, the first one included. *)
Inductive visits {A} : pool A * S → list nat → S → Prop :=
| visits_here c : visits c [] c.2
| visits_start c i l : visits c (i :: l) c.2
| visits_later c i c1 l s : pool_step i c = Some c1 → visits c1 l s → visits c (i :: l) s.

(** One thread runs for a while. *)
Inductive runs {A} : thread S A → S → thread S A → S → Prop :=
| runs_refl t s : runs t s t s
| runs_next u k s t s' : runs (k s) (u s) t s' → runs (Next u k) s t s'.

Lemma runs_trans {A} (t1 t2 t3 : thread S A) s1 s2 s3 :
  runs t1 s1 t2 s2 → runs t2 s2 t3 s3 → runs t1 s1 t3 s3.
Proof. induction 1; [done|]. intros H2. constructor. auto. Qed.

Lemma runs_bind {A B} (t t' : thread S A) (f : A → thread S B) s s' :
  runs t s t' s' → runs (t ≫= f) s (t' ≫= f) s'.
Proof. induction 1; [constructor|]. by apply runs_next. Qed.

Lemma runs_alone {A} (t : thread S A) s r s' : alone t s = (r, s') → runs t s (Finished r) s'.
Proof.
  revert s. induction t as [r0|u k IH]; intros s; cbn; [intros [= -> ->]; constructor|].
  intros H. constructor. by apply IH.
Qed.

(** The first part of a thread runs to its end. *)
Lemma runs_first {A B} (t : thread S A) (f : A → thread S B) s a s' :
  alone t s = (Ok a, s') → runs (t ≫= f) s (f a) s'.
Proof. intros H%runs_alone. exact (runs_bind _ _ f _ _ H). Qed.

Lemma schedule_app {A} l1 l2 (c c1 : pool A * S) :
  schedule l1 c = Some c1 → schedule (l1 ++ l2) c = schedule l2 c1.
Proof.
  revert c. induction l1 as [|i l1 IH]; intros c; cbn; [by intros [= ->]|].
  destruct (pool_step i c) as [c2|]; [|done]. apply IH.
Qed.

Lemma schedule_runs {A} i (t t' : thread S A) s s' (p : pool A) :
  runs t s t' s' → p !! i = Some t → ∃ l, schedule l (p, s) = Some (<[i := t']> p, s').
Proof.
  intros H. revert p. induction H as [t s|u k s t s' _ IH]; intros p Hp.
  - exists []. cbn. by rewrite list_insert_id.
  - destruct (IH (<[i := k s]> p)) as (l & Hl).
    { rewrite list_lookup_insert_eq; [done|]. by eapply lookup_lt_Some. }
    exists (i :: l). cbn. unfold pool_step. cbn. rewrite Hp. cbn. by rewrite Hl, list_insert_insert_eq.
Qed.

(** ** What a thread guarantees *)

(** [I H s]: an invariant of the state [s], [H] being the states visited;
    [G]: what each call may do; [Q H r]: what is known of the result. *)
Section safe.
Context (I : (S → Prop) → S → Prop) (G : S → S → Prop).
Context {A : Type} (Q : (S → Prop) → result A → Prop).

Fixpoint safe (H : S → Prop) (t : thread S A) : Prop :=
  match t with
  | Finished r => Q H r
  | Next u k => ∀ (H' : S → Prop) s, (∀ x, H x → H' x) → H' s → I H' s →
      let H2 := λ x, H' x ∨ x = u s in
      I H2 (u s) ∧ G s (u s) ∧ safe H2 (k s)
  end.
End safe.

Definition monotone {X} (P : (S → Prop) → X → Prop) : Prop :=
  ∀ (H H' : S → Prop) x, (∀ y, H y → H' y) → P H x → P H' x.

Lemma safe_mono I G {A} (Q : (S → Prop) → result A → Prop) H H' t :
  monotone Q → (∀ x, H x → H' x) → safe I G Q H t → safe I G Q H' t.
Proof.
  intros HQ HH. destruct t as [r|u k]; [by apply HQ|]. cbn. intros Hs H2 s Hi. apply Hs. auto.
Qed.

Lemma safe_bind I G {A B} (Q : (S → Prop) → result B → Prop) (R : (S → Prop) → result A → Prop) H
    (t : thread S A) (f : A → thread S B) :
  (∀ H e, R H (Err e) → Q H (Err e)) → (∀ H a, R H (Ok a) → safe I G Q H (f a)) →
  safe I G R H t → safe I G Q H (t ≫= f).
Proof.
  intros He Hf. revert H. induction t as [[a|e]|u k IH]; intros H; cbn; [by apply Hf|by apply He|].
  intros Hs H2 s Hi Hh HI. destruct (Hs H2 s Hi Hh HI) as (H3 & H4 & H5). split; [done|]. split; [done|].
  by apply IH.
Qed.

Lemma safe_attempt I G {A} (Q : (S → Prop) → result (result A) → Prop) (R : (S → Prop) → result A → Prop) H
    (t : thread S A) :
  (∀ H r, R H r → Q H (Ok r)) → safe I G R H t → safe I G Q H (attempt t).
Proof.
  intros Hr. revert H. induction t as [r|u k IH]; intros H; cbn; [apply Hr|].
  intros Hs H2 s Hi Hh HI. destruct (Hs H2 s Hi Hh HI) as (H3 & H4 & H5). split; [done|]. split; [done|].
  by apply IH.
Qed.

Lemma safe_weaken I G {A} (Q R : (S → Prop) → result A → Prop) H (t : thread S A) :
  (∀ H r, R H r → Q H r) → safe I G R H t → safe I G Q H t.
Proof.
  intros Hr. revert H. induction t as [r|u k IH]; intros H; cbn; [apply Hr|].
  intros Hs H2 s Hi Hh HI. destruct (Hs H2 s Hi Hh HI) as (H3 & H4 & H5). split; [done|]. split; [done|].
  by apply IH.
Qed.

(** What is known of the moments so far stays known while a thread runs. *)
Lemma safe_frame I G {A} (Q : (S → Prop) → result A → Prop) (K : (S → Prop) → Prop) H (t : thread S A) :
  (∀ H H' : S → Prop, (∀ x, H x → H' x) → K H → K H') → K H → safe I G Q H t →
  safe I G (λ H r, Q H r ∧ K H) H t.
Proof.
  intros HK. revert H. induction t as [r|u k IH]; intros H Hk; cbn; [done|].
  intros Hs H2 s Hi Hh HI. destruct (Hs H2 s Hi Hh HI) as (H3 & H4 & H5). split; [done|]. split; [done|].
  apply IH; [|done]. eapply HK; [|exact Hk]. auto.
Qed.

Lemma safe_atom I G {A} (Q : (S → Prop) → result A → Prop) H (m : M S A) :
  (∀ (H' : S → Prop) s r s', (∀ x, H x → H' x) → H' s → I H' s → m s = (r, s') →
     let H2 := λ x, H' x ∨ x = s' in I H2 s' ∧ G s s' ∧ Q H2 r) →
  safe I G Q H (atom m).
Proof. intros Hm H' s Hi Hh HI. apply (Hm H' s (m s).1 (m s).2); [done..|]. apply surjective_pairing. Qed.

(** In every state of a run the invariant holds, the calls made so far satisfy
    [G], and the threads that have finished have results that satisfy [Q]. *)
Lemma pool_safe I G {A} (Q : nat → (S → Prop) → result A → Prop) `{!PreOrder G} l (c c' : pool A * S)
    (H : S → Prop) :
  (∀ i, monotone (Q i)) →
  H c.2 → I H c.2 → (∀ i t, c.1 !! i = Some t → safe I G (Q i) H t) →
  schedule l c = Some c' →
  ∃ H', (∀ x, H' x → H x ∨ visits c l x) ∧ H' c'.2 ∧ I H' c'.2 ∧ G c.2 c'.2 ∧
    ∀ i t, c'.1 !! i = Some t → safe I G (Q i) H' t.
Proof.
  intros HQ. revert c H. induction l as [|i l IH]; intros c H Hc HI Ht E.
  { injection E as <-. exists H. split; [by left|]. done. }
  cbn in E. destruct (pool_step i c) as [c1|] eqn:E1; [|done]. pose proof E1 as E2. unfold pool_step in E1.
  destruct (c.1 !! i) as [[|u k]|] eqn:Ei; try done. injection E1 as <-.
  destruct (Ht i _ Ei H c.2 (λ x Hx, Hx) Hc HI) as (H1 & H2 & H3).
  destruct (IH (<[i := k c.2]> c.1, u c.2) _ (or_intror eq_refl) H1) as (H' & A1 & A2 & A3 & A4 & A5).
  2:{ exact E. }
  { intros j t. cbn. destruct (decide (i = j)) as [->|Hne].
    - rewrite list_lookup_insert_eq by (by eapply lookup_lt_Some). intros [= <-]. exact H3.
    - rewrite list_lookup_insert_ne by done. intros Hj. eapply safe_mono; [apply HQ| |by apply Ht]. auto. }
  exists H'. split; [|split; [done|split; [done|split; [by etransitivity|done]]]].
  intros x Hx. destruct (A1 x Hx) as [[Hh| ->]|Hv]; [by left| |].
  - right. eapply visits_later; [exact E2|]. destruct l; [apply visits_here|apply visits_start].
  - right. by eapply visits_later.
Qed.
End threads.
