(* ===== verification/Provenance.v ===== *)
(** * Which store operations a program runs

    The components reach the database through different layers (the host, the
    node service, the carriers, the gateway's credentials).  This file relates
    their programs to the operations of the store: [reaches Q t t'] says that
    the tables [t'] come from [t] by store operations that all satisfy [Q].
    What the store guarantees of its operations then holds of the programs. *)
From S2P Require Import Prelude GoNet StoreDB IPAlloc Store ConfigData Config Wg Stealth Node GatewayClient.

(** ** Sequences of permitted operations *)

Definition reaches (Q : store_op → Prop) (t t' : tables) : Prop :=
  ∃ ops, Forall Q ops ∧ steps t ops t'.

Lemma steps_app t1 ops1 t2 ops2 t3 : steps t1 ops1 t2 → steps t2 ops2 t3 → steps t1 (ops1 ++ ops2) t3.
Proof. induction 1; [done|]. intros H2. econstructor; eauto. Qed.

#[export] Instance reaches_preorder Q : PreOrder (reaches Q).
Proof.
  split.
  - intros t. exists []. split; [done|constructor].
  - intros t1 t2 t3 (o1 & Q1 & H1) (o2 & Q2 & H2). exists (o1 ++ o2).
    split; [by apply Forall_app|by eapply steps_app].
Qed.

Lemma reaches_mono (Q Q' : store_op → Prop) t t' : (∀ op, Q op → Q' op) → reaches Q t t' → reaches Q' t t'.
Proof. intros H (ops & HQ & Hs). exists ops. split; [by eapply Forall_impl|done]. Qed.

Lemma reaches_one (Q : store_op → Prop) op s r s' : Q op → exec_op op s = (r, s') → reaches Q (tbl s) (tbl s').
Proof.
  intros HQ E. exists [op]. split; [by apply Forall_singleton|]. destruct s as [t fs].
  econstructor; [exact E|constructor].
Qed.

(** Every reachable database satisfies the constraints. *)
Lemma reaches_wf Q t t' : reaches Q t t' → db_wf t → db_wf t'.
Proof.
  intros (ops & _ & H). induction H as [t|t op fs r s ops t' E _ IH]; [done|].
  intros Hwf. apply IH. by apply (exec_op_wf op _ _ _ E).
Qed.

(** ** The peers an operation touches *)

Definition keyed (t : tables) (key i : string) : Prop :=
  ∃ p, abs t !! i = Some p ∧ p_WGPublicKey p = key.

Definition touched (op : store_op) (t : tables) (i : string) : Prop :=
  match op with
  | OpUpsertPeer inp _ _ _ => i = p_ID inp ∨ keyed t (p_WGPublicKey inp) i
  | OpDeletePeer j => i = j
  | _ => False
  end.

Lemma abs_update_other t p i :
  i ≠ p_ID p → abs (set_peers (update_row p <$> peers t) t) !! i = abs t !! i.
Proof.
  intros Hne. rewrite !abs_lookup. cbn [peers set_peers].
  rewrite (find_first_fmap _ (λ r, String.eqb (pr_id r) i)).
  2:{ intros x. unfold update_row. by destruct (String.eqb (pr_id x) (p_ID p)). }
  destruct (find_first (λ r, String.eqb (pr_id r) i) (peers t)) as [x|] eqn:Ex; [|done].
  apply find_first_Some in Ex as [_ Ex%String.eqb_eq]. cbn. unfold update_row.
  by rewrite (proj2 (String.eqb_neq (pr_id x) (p_ID p))) by congruence.
Qed.

Lemma abs_insert_other t p i :
  i ≠ p_ID p → abs (set_peers (peers t ++ [insert_row p]) t) !! i = abs t !! i.
Proof.
  intros Hne. rewrite !abs_lookup. cbn [peers set_peers]. rewrite find_first_app.
  destruct (find_first _ (peers t)); [done|]. cbn. by rewrite (proj2 (String.eqb_neq (p_ID p) i)) by done.
Qed.

Lemma exec_update_other p s r s' i :
  exec_update_peer p s = (r, s') → i ≠ p_ID p → abs (tbl s') !! i = abs (tbl s) !! i.
Proof.
  intros [(a & t & E & _ & ->)|(e & _ & ->)]%exec_inv Hi; [|done].
  case_match; simplify_eq. by apply abs_update_other.
Qed.

Lemma exec_insert_other p s r s' i :
  exec_insert_peer p s = (r, s') → i ≠ p_ID p → abs (tbl s') !! i = abs (tbl s) !! i.
Proof.
  intros [(a & t & E & _ & ->)|(e & _ & ->)]%exec_inv Hi; [|done].
  repeat case_match; simplify_eq. by apply abs_insert_other.
Qed.

(** A lookup that found a peer found a row of the table. *)
Lemma optional_row (o : tables → option PeerRow) s x s' :
  optional (row ← query o; lift (scanPeer <$> row_or_ErrNoRows row)) s = (Ok x, s') →
  tbl s' = tbl s ∧ ∀ p, x = Some p → ∃ r, o (tbl s) = Some r ∧ p = scanPeer r.
Proof.
  unfold optional, try, mbind, M_bind, lift. destruct (query o s) as [y s1] eqn:E.
  apply query_inv in E as [Es [->|[e ->]]].
  - destruct (o (tbl s)) as [r|]; intros H; injection H as <- <-; (split; [exact Es|]); intros p Hp; [|done].
    injection Hp as <-. eauto.
  - unfold fail, mret, M_ret. destruct (errors_Is e ErrNoRows); intros H; [|discriminate H]. by injection H as <- <-.
Qed.

Lemma select_by_id_abs t i r : select_peer_by_id i t = Some r → pr_id r = i.
Proof. by intros [_ H%String.eqb_eq]%find_first_Some. Qed.

(** What a successful UpsertPeer did: it updated a peer that it found under its
    id or its key, or inserted a new one. *)
Lemma UpsertPeer_ok_inv inp subnet gen now s p s' :
  Store.UpsertPeer inp subnet gen now s = (Ok p, s') → db_wf (tbl s) →
  ∃ s1 s2, tbl s1 = tbl s ∧ tbl s' = tbl s2 ∧
    ((∃ q row, row ∈ peers (tbl s) ∧ q = scanPeer row ∧
        (p_ID q = p_ID inp ∨ keyed (tbl s) (p_WGPublicKey inp) (p_ID q)) ∧
        p = refresh_peer q inp now ∧ exec_update_peer p s1 = (Ok tt, s2)) ∨
     (∃ ip, p = new_peer inp ip gen now ∧ exec_insert_peer p s1 = (Ok tt, s2))).
Proof.
  intros H Hwf. apply in_tx_ok in H as (s1 & s2 & E1 & H & E2). rewrite <- E1, E2 in *.
  apply bind_ok in H as (byId & s3 & E3 & H). apply optional_row in E3 as [T3 B3].
  apply bind_ok in H as (existing & s4 & E4 & H).
  assert (tbl s4 = tbl s1 ∧ ∀ q, existing = Some q → ∃ row, row ∈ peers (tbl s1) ∧ q = scanPeer row ∧
    (p_ID q = p_ID inp ∨ keyed (tbl s1) (p_WGPublicKey inp) (p_ID q))) as [T4 B4].
  { destruct byId as [q|].
    - injection E4 as <- <-. split; [done|]. intros ? [= <-].
      destruct (B3 q eq_refl) as (row & Hrow & ->). exists row. pose proof (select_by_id_abs _ _ _ Hrow).
      apply find_first_Some in Hrow as [Hrow _]. auto.
    - destruct (String.eqb _ _); [by injection E4 as <- <-|].
      apply optional_row in E4 as [T4 B4]. split; [congruence|]. intros q Hq.
      destruct (B4 q Hq) as (row & Hrow & ->). rewrite T3 in Hrow.
      apply find_first_Some in Hrow as [Hrow Hk%String.eqb_eq]. exists row. split; [done|]. split; [done|]. right.
      exists (scanPeer row). split; [by apply row_abs|exact Hk]. }
  destruct existing as [q|].
  - apply bind_ok in H as ([] & s5 & E5 & H). injection H as <- <-.
    destruct (B4 q eq_refl) as (row & Hr1 & Hr2 & Hr3). exists s4, s5. split; [done|]. split; [done|]. left. eauto 10.
  - apply bind_ok in H as (ip & s5 & E5 & H). apply bind_ok in H as ([] & s6 & E6 & H). injection H as <- <-.
    exists s5, s6. split; [|split; [done|right; eauto]].
    unfold txAllocateIP in E5. destruct (ParseCIDR subnet) as [[]|]; [|done].
    apply bind_ok in E5 as (x & s7 & E7 & E5). apply query_inv in E7 as [E7 _]. injection E5 as _ <-. congruence.
Qed.

(** UpsertPeer writes the peer it names or the one that has the key. *)
Lemma UpsertPeer_touched inp subnet gen now s r s' i :
  Store.UpsertPeer inp subnet gen now s = (r, s') → abs (tbl s') !! i ≠ abs (tbl s) !! i →
  db_wf (tbl s) → i = p_ID inp ∨ keyed (tbl s) (p_WGPublicKey inp) i.
Proof.
  intros H Hne Hwf. destruct r as [p|e]; [|by rewrite (in_tx_err _ _ _ _ H) in Hne].
  apply UpsertPeer_ok_inv in H as (s1 & s2 & T1 & T2 & H); [|done]. rewrite T2, <- T1 in Hne.
  destruct H as [(q & row & _ & _ & Hq & -> & E)|(ip & -> & E)].
  - destruct (decide (i = p_ID q)) as [->|Hi]; [done|]. by rewrite (exec_update_other _ _ _ _ _ E) in Hne.
  - destruct (decide (i = p_ID inp)) as [->|Hi]; [by left|]. by rewrite (exec_insert_other _ _ _ _ _ E) in Hne.
Qed.

(** The peer returned is stored, with the key that was asked for. *)
Lemma UpsertPeer_returned inp subnet gen now s p s' :
  Store.UpsertPeer inp subnet gen now s = (Ok p, s') → db_wf (tbl s) →
  abs (tbl s') !! p_ID p = Some p ∧ p_WGPublicKey p = p_WGPublicKey inp.
Proof.
  intros H Hwf. apply UpsertPeer_ok_inv in H as (s1 & s2 & T1 & T2 & H); [|done]. rewrite T2.
  destruct H as [(q & row & Hrow & -> & _ & -> & E)|(ip & -> & E)]; (split; [|done]);
    apply exec_inv in E as [(a & t & E & _ & ->)|(e & [=] & _)]; rewrite T1 in E.
  - destruct (_ && _); [done|]. injection E as <- <-. rewrite (abs_update _ _ row), lookup_insert_eq.
    + by rewrite scan_update.
    + destruct Hwf as ((Hi & _) & _).
      by apply (find_first_unique pr_id _ _ row Hi (λ y, String.eqb_eq (pr_id y) _)).
  - destruct (taken pr_id _ _) eqn:Et; [done|]. repeat (case_match; [done|]). injection E as <- <-.
    rewrite abs_insert by (by apply taken_id_abs). by rewrite lookup_insert_eq, scan_insert.
Qed.

(** Every peer that an upsert leaves was there before or has the key that was
    asked for. *)
Lemma UpsertPeer_writes inp subnet gen now s r s' i q :
  Store.UpsertPeer inp subnet gen now s = (r, s') → db_wf (tbl s) → abs (tbl s') !! i = Some q →
  abs (tbl s) !! i = Some q ∨ p_WGPublicKey q = p_WGPublicKey inp.
Proof.
  intros H Hwf Hq. destruct r as [p|e]; [|left; by rewrite (in_tx_err _ _ _ _ H) in Hq].
  pose proof (UpsertPeer_returned _ _ _ _ _ _ _ H Hwf) as [Hp Hk].
  apply UpsertPeer_ok_inv in H as (s1 & s2 & T1 & T2 & H); [|done].
  destruct (decide (i = p_ID p)) as [->|Hi]; [right; congruence|left].
  rewrite T2 in Hq. rewrite <- T1. destruct H as [(q' & row & _ & _ & _ & _ & E)|(ip & _ & E)].
  - by rewrite (exec_update_other _ _ _ _ _ E) in Hq.
  - by rewrite (exec_insert_other _ _ _ _ _ E) in Hq.
Qed.

(** The operations on the other tables. *)
Definition leaves_peers (op : store_op) : bool :=
  match op with OpUpsertPeer _ _ _ _ | OpDeletePeer _ => false | _ => true end.

Lemma leaves_peers_rows op s r s' :
  leaves_peers op = true → exec_op op s = (r, s') → peers (tbl s') = peers (tbl s).
Proof.
  assert (∀ A (f : tables → result (A * tables)) s r s', (∀ t a t', f t = Ok (a, t') → peers t' = peers t) →
    exec f s = (r, s') → peers (tbl s') = peers (tbl s)) as Hx.
  { intros A f s0 r0 s0' Hf [(a & t & E & _ & ->)|(e & _ & ->)]%exec_inv; [by eapply Hf|done]. }
  destruct op; cbn [leaves_peers exec_op]; try done; intros _; unfold discard.
  - apply Hx. by intros t a t' [= <- <-].
  - apply Hx. intros t a t' E. by case_match; simplify_eq.
  - intros [(n & s1 & E & [= <- <-])|(e & E & ->)]%bind_inv; revert E; apply Hx; by intros t a t' [= <- <-].
  - apply Hx. intros t a t' E. by repeat case_match; simplify_eq.
  - intros [(n & s1 & E & E2)|(e & E & ->)]%bind_inv.
    + assert (s' = s1) as -> by (destruct (n =? 0)%nat; by injection E2).
      revert E. apply Hx. by intros t a t' [= <- <-].
    + revert E. apply Hx. by intros t a t' [= <- <-].
  - apply Hx. intros t x t' E. by repeat case_match; simplify_eq.
Qed.

Lemma abs_rows t t' : peers t' = peers t → abs t' = abs t.
Proof. unfold abs. by intros ->. Qed.

Lemma exec_delete i s r s' :
  Store.DeletePeer i s = (r, s') → abs (tbl s') = abs (tbl s) ∨ abs (tbl s') = delete i (abs (tbl s)).
Proof.
  intros [(a & t & [= <- <-] & _ & ->)|(e & _ & ->)]%exec_inv; [right; apply abs_delete|by left].
Qed.

Lemma exec_op_touched op s r s' i :
  exec_op op s = (r, s') → abs (tbl s') !! i ≠ abs (tbl s) !! i → db_wf (tbl s) → touched op (tbl s) i.
Proof.
  intros H Hne Hwf. destruct (leaves_peers op) eqn:El.
  { by rewrite (abs_rows _ _ (leaves_peers_rows _ _ _ _ El H)) in Hne. }
  destruct op; try done; cbn [exec_op touched] in *.
  - unfold discard in H. apply bind_inv in H as [(p & s1 & E & [= <- <-])|(e & E & ->)]; by eapply UpsertPeer_touched.
  - destruct (decide (i = i0)) as [|Hi]; [done|].
    apply exec_delete in H as [E|E]; rewrite E, ?lookup_delete_ne in Hne by done; done.
Qed.

(** Without an upsert, peers can only go. *)
Lemma reaches_subset Q t t' :
  (∀ inp subnet gen now, ¬ Q (OpUpsertPeer inp subnet gen now)) → reaches Q t t' → abs t' ⊆ abs t.
Proof.
  intros HQ (ops & Hops & H). induction H as [t|t op fs r s ops t' E _ IH]; [done|].
  apply Forall_cons in Hops as [Hop Hops]. etransitivity; [by apply IH|].
  destruct (leaves_peers op) eqn:El; [by rewrite (abs_rows _ _ (leaves_peers_rows _ _ _ _ El E))|].
  destruct op; try done; [by apply HQ in Hop|]. cbn [exec_op] in E.
  apply exec_delete in E as [->| ->]; [done|]. apply delete_subseteq.
Qed.

Lemma reaches_same_peers (Q : store_op → Prop) t t' :
  (∀ op, Q op → leaves_peers op = true) → reaches Q t t' → abs t' = abs t.
Proof.
  intros HQ (ops & Hops & H). induction H as [t|t op fs r s ops t' E _ IH]; [done|].
  apply Forall_cons in Hops as [Hop Hops]. rewrite IH by done.
  exact (abs_rows _ _ (leaves_peers_rows _ _ _ _ (HQ _ Hop) E)).
Qed.

(** A peer keeps its address, credentials and creation time until it is
    deleted. *)
Lemma reaches_identity Q t t' i x :
  ¬ Q (OpDeletePeer i) → reaches Q t t' → has_identity i x t → has_identity i x t'.
Proof.
  intros HQ (ops & Hops & H). induction H as [t|t op fs r s ops t' E _ IH]; [done|].
  apply Forall_cons in Hops as [Hop Hops]. intros Hi. apply IH; [done|].
  refine (exec_op_identity op i x _ _ _ _ E Hi). by intros ->.
Qed.

#[export] Instance peer_eq_dec : EqDecision Peer.
Proof. solve_decision. Defined.

(** A peer that changed was touched by one of the operations. *)
Lemma reaches_touched Q t t' i :
  reaches Q t t' → db_wf t → abs t' !! i ≠ abs t !! i → ∃ op t1, Q op ∧ reaches Q t t1 ∧ touched op t1 i.
Proof.
  intros (ops & HQ & H). induction H as [t|t op fs r s ops t' E Hs IH]; [done|].
  apply Forall_cons in HQ as [Hop HQ]. intros Hwf Hne.
  destruct (decide (abs (tbl s) !! i = abs t !! i)) as [Heq|Hne'].
  - destruct IH as (op' & t1 & H1 & H2 & H3); [done|by apply (exec_op_wf op _ _ _ E)|congruence|].
    exists op', t1. split; [done|]. split; [|done]. etransitivity; [|exact H2].
    exact (reaches_one Q op (mkDB t fs) r s Hop E).
  - exists op, t. split; [done|]. split; [done|]. by apply (exec_op_touched op (mkDB t fs) r s).
Qed.

(** ** Programs *)

(** [tabs] finds the tables in a state. *)
Definition via {S} (tabs : S → tables) (Q : store_op → Prop) (s s' : S) : Prop := reaches Q (tabs s) (tabs s').

#[export] Instance via_preorder {S} (tabs : S → tables) Q : PreOrder (via tabs Q).
Proof. split; unfold via; [by intros ?|by intros ???; etransitivity]. Qed.

Lemma keeps_reads {S A} (tabs : S → tables) Q (m : M S A) :
  (∀ s r s', m s = (r, s') → tabs s' = tabs s) → keeps (via tabs Q) m.
Proof. intros H s r s' E. unfold via. by rewrite (H _ _ _ E). Qed.

Lemma keeps_zoom {S T A} (tabs : S → tables) (tabs' : T → tables) Q g u (m : M T A) :
  (∀ s, tabs' (g s) = tabs s) → (∀ t s, tabs (u t s) = tabs' t) →
  keeps (via tabs' Q) m → keeps (via tabs Q) (zoom g u m).
Proof. intros Hg Hu H s r s' (t & E & ->)%zoom_inv. unfold via. rewrite Hu, <- Hg. exact (H _ _ _ E). Qed.

Lemma keeps_weaken {S A} (tabs : S → tables) (Q Q' : store_op → Prop) (m : M S A) :
  (∀ op, Q op → Q' op) → keeps (via tabs Q) m → keeps (via tabs Q') m.
Proof. intros H Hm s r s' E. eapply reaches_mono; [exact H|]. exact (Hm _ _ _ E). Qed.

Lemma keeps_op (Q : store_op → Prop) op : Q op → keeps (via tbl Q) (exec_op op).
Proof. intros H s r s' E. by eapply reaches_one. Qed.

Lemma keeps_discard {A} (R : DB → DB → Prop) (m : M DB A) : keeps R (discard m) → keeps R m.
Proof.
  intros H s r s' E. destruct r as [a|e].
  - by apply (H s (Ok tt)); unfold discard; rewrite (bind_Ok _ _ _ _ _ E).
  - by apply (H s (Err e)); unfold discard; rewrite (bind_Err _ _ _ _ _ E).
Qed.

Lemma keeps_query_via {A} Q (f : tables → A) : keeps (via tbl Q) (query f).
Proof. apply keeps_reads. by intros s r s' [H _]%query_inv. Qed.

(** Walks through a program with the lemmas of its calls in [erebrus]. *)
Ltac walk := repeat first
  [ apply keeps_ret, _ | apply keeps_fail, _ | apply keeps_lift, _ | apply keeps_try
  | solve [auto with erebrus] | solve [by apply keeps_reads; intros ??? [= <- <-]]
  | apply keeps_bind; [apply _| |intros ?] | case_match ].

Section settings.
Context (Q : store_op → Prop) (HQ : ∀ k v, Q (OpSetSetting k v)).

Lemma SetSetting_via k v : keeps (via tbl Q) (SetSetting k v).
Proof. exact (keeps_op Q (OpSetSetting k v) (HQ k v)). Qed.
Lemma GetSetting_via k : keeps (via tbl Q) (GetSetting k).
Proof. apply keeps_query_via. Qed.
#[local] Hint Resolve SetSetting_via GetSetting_via : erebrus.

Lemma ss_Set_via k v : keeps (via tbl Q) (ss_Set k v).
Proof. apply SetSetting_via. Qed.
Lemma ss_Get_via k : keeps (via tbl Q) (ss_Get k).
Proof. apply GetSetting_via. Qed.
#[local] Hint Resolve ss_Set_via ss_Get_via : erebrus.

Lemma LoadCredentials_via : keeps (via tbl Q) LoadCredentials.
Proof. unfold LoadCredentials. walk. Qed.
Lemma SaveCredentials_via c : keeps (via tbl Q) (SaveCredentials c).
Proof. unfold SaveCredentials. walk. Qed.
Lemma getOrSet_via k d : keeps (via tbl Q) (getOrSet k d).
Proof. unfold getOrSet. walk. Qed.
#[local] Hint Resolve getOrSet_via : erebrus.
Lemma loadOrCreateSecrets_via fr : keeps (via tbl Q) (loadOrCreateSecrets fr).
Proof. unfold loadOrCreateSecrets. walk. Qed.
Lemma loadOrCreateCert_via cert : keeps (via tbl Q) (loadOrCreateCert cert).
Proof. unfold loadOrCreateCert. walk. Qed.

(** The carriers write settings only. *)
Definition mgr_tables (m : Manager DB) : tables := tbl (m_st m).

Lemma on_st_via {A} (x : M DB A) : keeps (via tbl Q) x → keeps (via mgr_tables Q) (on_st x).
Proof. by apply keeps_zoom. Qed.
Lemma wrap_err_via {A} pre (x : M (Manager DB) A) :
  keeps (via mgr_tables Q) x → keeps (via mgr_tables Q) (wrap_err pre x).
Proof. intros H. unfold wrap_err. walk. Qed.
Lemma box_start_via : keeps (via mgr_tables Q) box_start.
Proof.
  apply keeps_reads. intros m r m'. unfold box_start, run. destruct (m_box m) as [|[e|] l]; by intros [= <- <-].
Qed.
#[local] Hint Resolve on_st_via wrap_err_via box_start_via loadOrCreateSecrets_via loadOrCreateCert_via : erebrus.

Lemma Stealth_Init_via fr cert : keeps (via mgr_tables Q) (Stealth.Init fr cert).
Proof. unfold Stealth.Init. walk. Qed.
Lemma Stealth_Start_via cfg : keeps (via mgr_tables Q) (Stealth.Start cfg).
Proof. unfold Stealth.Start. walk. Qed.
#[local] Hint Resolve Stealth_Start_via : erebrus.
Lemma RotateReality_via cfg short : keeps (via mgr_tables Q) (RotateReality cfg short).
Proof. unfold RotateReality, Close. walk. Qed.
End settings.

(** ** The host *)

Lemma on_db_via {A} Q (x : M DB A) : keeps (via tbl Q) x → keeps (via wt Q) (on_db x).
Proof. by apply keeps_zoom. Qed.
Lemma os_call_via Q : keeps (via wt Q) os_call.
Proof. apply keeps_reads. by intros w r w' ([H _] & _)%os_call_inv. Qed.
Lemma write_file_via Q path data : keeps (via wt Q) (write_file path data).
Proof. apply keeps_reads. by intros w r w' ([H _] & _)%write_file_inv. Qed.

Section host.
Context {srt : Sorting} (ParseKey : string → result (list Z)) (cfg : Config) (Q : store_op → Prop).

Lemma writeServerConf_via : keeps (via wt Q) (writeServerConf cfg).
Proof. apply keeps_reads. by intros w r w' ([H _] & _)%writeServerConf_inv. Qed.
Lemma Apply_via : keeps (via wt Q) (Apply ParseKey cfg).
Proof. apply keeps_reads. by intros w r w' ([H _] & _)%Apply_inv. Qed.

Context (HQ : ∀ k v, Q (OpSetSetting k v)).
#[local] Hint Resolve on_db_via SetSetting_via GetSetting_via os_call_via writeServerConf_via : erebrus.

Lemma loadOrCreateKeys_via key : keeps (via wt Q) (loadOrCreateKeys key).
Proof. unfold loadOrCreateKeys. walk. Qed.
#[local] Hint Resolve loadOrCreateKeys_via : erebrus.
Lemma Wg_Init_via key out : keeps (via wt Q) (Wg.Init cfg key out).
Proof. unfold Wg.Init, BringUp. walk. Qed.
End host.

(** ** The node service *)

Section node.
Context {srt : Sorting} (ParseKey : string → result (list Z)) (cfg : Config) (Q : store_op → Prop).

Lemma on_host_via {A} (x : M World A) : keeps (via wt Q) x → keeps (via nt Q) (on_host x).
Proof. by apply keeps_zoom. Qed.
Lemma on_store_via {A} (x : M DB A) : keeps (via tbl Q) x → keeps (via nt Q) (on_store x).
Proof. intros H. by apply on_host_via, on_db_via. Qed.
Lemma ListPeers_via : keeps (via tbl Q) Store.ListPeers.
Proof. apply keeps_query_via. Qed.
Lemma GetPeer_via i : keeps (via tbl Q) (GetPeer i).
Proof. unfold GetPeer, txGetPeer. pose proof (@keeps_query_via). walk. Qed.
#[local] Hint Resolve on_host_via on_store_via ListPeers_via GetPeer_via Apply_via : erebrus.

Lemma metrics_via (metrics : bool) (count : M NodeState unit) :
  keeps (via nt Q) count → keeps (via nt Q) (if metrics then _ ← count; updatePeerGauge else mret tt).
Proof. intros H. unfold updatePeerGauge. walk. Qed.

(** What a PUT stores. *)
Definition upsert_op (i : string) (req : PeerRequest) (d : Draw) : store_op :=
  OpUpsertPeer (request_peer i req d) (Subnet cfg) (dr_gen d) (dr_now d).

Lemma Node_UpsertPeer_via stealth metrics i req d :
  Q (upsert_op i req d) → keeps (via nt Q) (Node.UpsertPeer ParseKey cfg stealth metrics i req d).
Proof.
  intros HQ. unfold Node.UpsertPeer. cbv zeta. apply keeps_bind; [apply _| |intros p].
  - apply on_store_via, keeps_discard, (keeps_op Q (upsert_op i req d) HQ).
  - apply keeps_bind; [apply _|auto with erebrus|intros _]. apply keeps_bind; [apply _| |intros _; walk].
    by apply metrics_via, keeps_reads; intros ??? [= <- <-].
Qed.

(** The peer a PUT writes is the one it names or the one that has its key. *)
Lemma Node_UpsertPeer_touched stealth metrics i req d n r n' j :
  Node.UpsertPeer ParseKey cfg stealth metrics i req d n = (r, n') → db_wf (nt n) →
  abs (nt n') !! j ≠ abs (nt n) !! j → touched (upsert_op i req d) (nt n) j.
Proof.
  intros [(p & n1 & E1 & E2)|(e & E & _)]%bind_inv Hwf Hne.
  - apply upsert_tail in E2 as (Hn & _). apply on_store_inv in E1 as (s & E1 & Hn1).
    unfold nt, wt in *. rewrite Hn, Hn1 in Hne. exact (UpsertPeer_touched _ _ _ _ _ _ _ _ E1 Hne Hwf).
  - apply on_store_inv in E as (s & E & Hn). exfalso. apply Hne.
    unfold nt, wt. rewrite Hn. cbn. by rewrite (in_tx_err _ _ _ _ E).
Qed.

Lemma Node_UpsertPeer_writes stealth metrics i req d n r n' j q :
  Node.UpsertPeer ParseKey cfg stealth metrics i req d n = (r, n') → db_wf (nt n) →
  abs (nt n') !! j = Some q → abs (nt n) !! j = Some q ∨ p_WGPublicKey q = rq_WGPublicKey req.
Proof.
  intros [(p & n1 & E1 & E2)|(e & E & _)]%bind_inv Hwf Hq.
  - apply upsert_tail in E2 as (Hn & _). apply on_store_inv in E1 as (s & E1 & Hn1).
    unfold nt, wt in *. rewrite Hn, Hn1 in Hq. exact (UpsertPeer_writes _ _ _ _ _ _ _ _ _ E1 Hwf Hq).
  - apply on_store_inv in E as (s & E & Hn). left. unfold nt, wt in *. rewrite Hn in Hq. cbn in Hq.
    by rewrite (in_tx_err _ _ _ _ E) in Hq.
Qed.

Lemma Node_DeletePeer_via metrics i :
  Q (OpDeletePeer i) → keeps (via nt Q) (Node.DeletePeer ParseKey cfg metrics i).
Proof.
  intros HQ. unfold Node.DeletePeer. apply keeps_bind; [apply _| |intros _].
  - apply on_store_via, (keeps_op Q (OpDeletePeer i) HQ).
  - apply keeps_bind; [apply _|auto with erebrus|intros _].
    by apply metrics_via, keeps_reads; intros ??? [= <- <-].
Qed.

Lemma Credentials_via stealth i issued : keeps (via nt Q) (Credentials cfg stealth i issued).
Proof. unfold Credentials. walk. Qed.
Lemma Node_ListPeers_via : keeps (via nt Q) Node.ListPeers.
Proof. unfold Node.ListPeers. walk. Qed.
Lemma Stats_via live uptime : keeps (via nt Q) (Stats cfg live uptime).
Proof. unfold Stats. walk. Qed.

Lemma ResyncPeers_via metrics keep :
  (∀ i, i ∉ keep → Q (OpDeletePeer i)) → keeps (via nt Q) (ResyncPeers ParseKey cfg metrics keep).
Proof.
  intros HQ. unfold ResyncPeers. cbv zeta. apply keeps_bind; [apply _|auto with erebrus|intros l].
  apply keeps_bind; [apply _| |intros _; apply keeps_ret, _]. apply keeps_for_each; [apply _|]. intros p.
  destruct (decide _) as [|Hn]; [apply keeps_ret, _|]. rewrite elem_of_list_to_set in Hn.
  by apply Node_DeletePeer_via, HQ.
Qed.
End node.
