(* ===== verification/Concurrent.v ===== *)
(** * Requests in parallel (internal/node/service.go, internal/wg/wg.go)

    The HTTP server runs each request in a goroutine of its own, and the gateway
    bridge runs resyncs beside them.  The service takes no lock around a call:
    the store has one connection, so a transaction is one step, but between the
    store, the interface file and the device other goroutines run.  The calls of
    [Node] are cut into threads here, one step per call of the store, the file
    system, the device or the metrics registry; run alone they are the programs
    of [Node].

    What holds under every schedule, with any calls failing: the constraints of
    the database, the operations that change it, where the device's peers come
    from and what an answered PUT has stored.  What does not hold is the
    contract of Apply: the list that a call read may be older than the device's
    configuration it replaces. *)
From S2P Require Import Prelude GoNet StoreDB IPAlloc Store ConfigData Config Wg Stealth Node Threads Provenance.

(** ** The calls as threads *)

(** What one request does: PUT, DELETE or the gateway's resync. *)
Inductive Call :=
| CPut (i : string) (req : PeerRequest) (d : Draw)
| CDelete (i : string)
| CResync (keep : list string).

Section calls.
Context {srt : Sorting} (ParseKey : string → result (list Z)) (cfg : Config).
Context (stealth : option (option Secrets)).

Definition writeServerConf_t : thread NodeState unit :=
  peers ← atom (on_host (on_db Store.ListPeers));
  priv ← atom (on_host (gets w_priv));
  atom (on_host (write_file (confPath cfg) (renderServer (server_data cfg priv peers)))).

Definition SyncPeers_t (iface : string) (peers : list Peer) : thread NodeState unit :=
  _ ← atom (on_host os_call);
  cfgs ← Finished (peer_configs ParseKey peers);
  atom (on_host (configure_device iface cfgs)).

(** The part of Apply before the device is configured. *)
Definition Apply_list_t : thread NodeState (list Peer) :=
  _ ← writeServerConf_t;
  atom (on_host (on_db Store.ListPeers)).

Definition Apply_t : thread NodeState unit :=
  peers ← Apply_list_t;
  SyncPeers_t (c_WGInterface cfg) peers.

Definition updatePeerGauge_t : thread NodeState unit :=
  r ← attempt (atom (on_store Store.ListPeers));
  match r with
  | Err _ => mret tt
  | Ok l => atom (run (λ n, (Ok tt, mkNode (n_host n) (n_provisioned n) (n_deprovisioned n)
                                      (Z.of_nat (length l)))))
  end.

Definition metrics_t (metrics : bool) (count : M NodeState unit) : thread NodeState unit :=
  if metrics then _ ← atom count; updatePeerGauge_t else mret tt.

Definition UpsertPeer_t (metrics : bool) (i : string) (req : PeerRequest) (d : Draw)
    : thread NodeState CredentialBundle :=
  peer ← atom (on_store (Store.UpsertPeer (request_peer i req d) (Subnet cfg) (dr_gen d) (dr_now d)));
  _ ← Apply_t;
  _ ← metrics_t metrics count_provisioned;
  n ← atom get;
  mret (buildBundle cfg stealth (w_pub (n_host n)) (dr_issued d) peer).

Definition DeletePeer_t (metrics : bool) (i : string) : thread NodeState unit :=
  _ ← atom (on_store (Store.DeletePeer i));
  _ ← Apply_t;
  metrics_t metrics count_deprovisioned.

Definition ResyncPeers_t (metrics : bool) (keep : list string) : thread NodeState (list string) :=
  let want : gset string := list_to_set keep in
  peers ← atom (on_store Store.ListPeers);
  _ ← t_for_each (λ p, if decide (p_ID p ∈ want) then mret tt else DeletePeer_t metrics (p_ID p)) peers;
  let have : gset string := list_to_set (p_ID <$> peers) in
  mret (elements (want ∖ have)).

(** The answer of a call: the bundle of a PUT. *)
Definition call_t (metrics : bool) (c : Call) : thread NodeState (option CredentialBundle) :=
  match c with
  | CPut i req d => b ← UpsertPeer_t metrics i req d; mret (Some b)
  | CDelete i => _ ← DeletePeer_t metrics i; mret None
  | CResync keep => _ ← ResyncPeers_t metrics keep; mret None
  end.

Definition call_m (metrics : bool) (c : Call) : M NodeState (option CredentialBundle) :=
  match c with
  | CPut i req d => b ← Node.UpsertPeer ParseKey cfg stealth metrics i req d; mret (Some b)
  | CDelete i => _ ← Node.DeletePeer ParseKey cfg metrics i; mret None
  | CResync keep => _ ← Node.ResyncPeers ParseKey cfg metrics keep; mret None
  end.

(** ** Run alone, they are the programs of the service *)

Lemma on_host_bind {A B} (m : M World A) (f : A → M World B) n :
  on_host (m ≫= f) n = (on_host m ≫= λ a, on_host (f a)) n.
Proof.
  unfold on_host, zoom, mbind, M_bind. destruct (m (n_host n)) as [[a|e] w]; [|done].
  cbn. by destruct (f a w).
Qed.

Ltac walk_alone := rewrite alone_bind; apply bind_ext; [|intros ? ?].
Ltac split_host := rewrite on_host_bind; walk_alone.
#[local] Hint Resolve alone_atom : core.

Lemma writeServerConf_alone n : alone writeServerConf_t n = on_host (writeServerConf cfg) n.
Proof. unfold writeServerConf, writeServerConf_t. do 2 (split_host; [done|]). done. Qed.

Lemma SyncPeers_alone iface l n : alone (SyncPeers_t iface l) n = on_host (SyncPeers ParseKey iface l) n.
Proof. unfold SyncPeers, SyncPeers_t. split_host; [done|]. split_host; [by destruct s as [[]]|done]. Qed.

Lemma Apply_alone n : alone Apply_t n = on_host (Apply ParseKey cfg) n.
Proof.
  unfold Apply, Apply_t, Apply_list_t. rewrite alone_bind.
  transitivity ((on_host (_ ← writeServerConf cfg; on_db Store.ListPeers) ≫=
    λ l, on_host (SyncPeers ParseKey (c_WGInterface cfg) l)) n).
  - apply bind_ext; [|intros; apply SyncPeers_alone]. split_host; [apply writeServerConf_alone|done].
  - rewrite <- on_host_bind. unfold on_host, zoom. f_equal. unfold mbind, M_bind.
    by destruct (writeServerConf cfg (n_host n)) as [[]].
Qed.

Lemma updatePeerGauge_alone n : alone updatePeerGauge_t n = updatePeerGauge n.
Proof.
  unfold updatePeerGauge, updatePeerGauge_t. walk_alone; [|by destruct a].
  rewrite alone_attempt. unfold try. by rewrite alone_atom.
Qed.

Lemma metrics_alone (metrics : bool) count n :
  alone (metrics_t metrics count) n = (if metrics then _ ← count; updatePeerGauge else mret tt) n.
Proof. destruct metrics; [|done]. cbn [metrics_t]. walk_alone; [done|apply updatePeerGauge_alone]. Qed.

Lemma UpsertPeer_alone metrics i req d n :
  alone (UpsertPeer_t metrics i req d) n = Node.UpsertPeer ParseKey cfg stealth metrics i req d n.
Proof.
  unfold UpsertPeer_t, Node.UpsertPeer. cbv zeta. walk_alone; [done|]. walk_alone; [apply Apply_alone|].
  walk_alone; [apply metrics_alone|]. by walk_alone.
Qed.

Lemma DeletePeer_alone metrics i n :
  alone (DeletePeer_t metrics i) n = Node.DeletePeer ParseKey cfg metrics i n.
Proof.
  unfold DeletePeer_t, Node.DeletePeer. walk_alone; [done|]. walk_alone; [apply Apply_alone|].
  apply metrics_alone.
Qed.

Lemma ResyncPeers_alone metrics keep n :
  alone (ResyncPeers_t metrics keep) n = Node.ResyncPeers ParseKey cfg metrics keep n.
Proof.
  unfold ResyncPeers_t, Node.ResyncPeers. cbv zeta. walk_alone; [done|]. walk_alone; [|done].
  apply alone_for_each. intros p m. destruct (decide _); [done|]. apply DeletePeer_alone.
Qed.

Lemma call_alone metrics c n : alone (call_t metrics c) n = call_m metrics c n.
Proof.
  destruct c; cbn [call_t call_m]; (walk_alone; [|done]);
    [apply UpsertPeer_alone|apply DeletePeer_alone|apply ResyncPeers_alone].
Qed.
End calls.

(** ** What every schedule guarantees *)

(** The store operations a call may run. *)
Definition call_op (cfg : Config) (c : Call) (op : store_op) : Prop :=
  match c with
  | CPut i req d => op = upsert_op cfg i req d
  | CDelete i => op = OpDeletePeer i
  | CResync keep => ∃ i, i ∉ keep ∧ op = OpDeletePeer i
  end.

Section guarantees.
Context {srt : Sorting} (ParseKey : string → result (list Z)) (cfg : Config).
Context (stealth : option (option Secrets)) (calls : list Call) (n0 : NodeState).

Definition some_op (op : store_op) : Prop := ∃ c, c ∈ calls ∧ call_op cfg c op.

(** The device's peers are those of the start, or come from a listing of the
    store at some moment of the run. *)
Definition device_from (H : NodeState → Prop) (w : World) : Prop :=
  w_dev w !! c_WGInterface cfg = w_dev (n_host n0) !! c_WGInterface cfg ∨
  ∃ n1 cfgs, H n1 ∧ peer_configs ParseKey (listed (nt n1)) = Ok cfgs ∧
    w_dev w !! c_WGInterface cfg = Some cfgs.

Definition run_inv (H : NodeState → Prop) (n : NodeState) : Prop :=
  db_wf (nt n) ∧ w_priv (n_host n) = w_priv (n_host n0) ∧ w_pub (n_host n) = w_pub (n_host n0) ∧
  device_from H (n_host n).

(** A PUT's bundle is that of a peer that was stored, with the key asked for. *)
Definition put_answered (c : Call) (H : NodeState → Prop) (r : result (option CredentialBundle)) : Prop :=
  match c with
  | CPut i req d => ∀ o, r = Ok o → ∃ p n1, H n1 ∧ abs (nt n1) !! p_ID p = Some p ∧
      p_WGPublicKey p = rq_WGPublicKey req ∧
      o = Some (buildBundle cfg stealth (w_pub (n_host n0)) (dr_issued d) p)
  | _ => True
  end.

Notation safe := (safe run_inv (via nt some_op)).

Lemma run_inv_mono : monotone run_inv.
Proof.
  intros H H' n Hi (H1 & H2 & H3 & H4). split; [done|]. split; [done|]. split; [done|].
  unfold device_from in *. naive_solver.
Qed.

(** Calls that change neither the store, the keys nor the device. *)
Definition same_host (n n' : NodeState) : Prop :=
  same_state (n_host n) (n_host n') ∧ w_dev (n_host n') = w_dev (n_host n).

Lemma run_inv_same H n n' : same_host n n' → run_inv H n → run_inv H n'.
Proof.
  intros ((E1 & E2 & E3) & E5) (H1 & H2 & H3 & H4). unfold run_inv, nt, device_from in *.
  by rewrite E1, E2, E3, E5.
Qed.

Lemma safe_read {A} (Q : (NodeState → Prop) → result A → Prop) H (m : M NodeState A) :
  (∀ n r n', m n = (r, n') → same_host n n' ∧
     ∀ H' : NodeState → Prop, (∀ x, H x → H' x) → H' n → run_inv H' n → Q H' r) → monotone Q →
  safe Q H (atom m).
Proof.
  intros Hm HQ. apply safe_atom. intros H' n r n' Hi Hh HI E H2. destruct (Hm _ _ _ E) as [Hs Hq].
  split; [|split].
  - eapply run_inv_mono; [|by eapply run_inv_same]. by left.
  - destruct Hs as ((Ht & _) & _). unfold via, nt. by rewrite Ht.
  - eapply HQ; [|by apply Hq]. by left.
Qed.

Definition from_visited (H : NodeState → Prop) (r : result (list Peer)) : Prop :=
  ∀ l, r = Ok l → ∃ n, H n ∧ l = listed (nt n).
Lemma from_visited_mono : monotone from_visited.
Proof. intros H H' r Hi Hr l E. destruct (Hr l E) as (n & Hn & ->). eauto. Qed.

Lemma ListPeers_safe H : safe from_visited H (atom (on_host (on_db Store.ListPeers))).
Proof.
  apply safe_read; [|apply from_visited_mono]. intros n r n' (w & E & Hw)%on_host_inv.
  apply on_db_ListPeers_inv in E as (H1 & H2 & H3 & _ & H4 & _). rewrite <- Hw in *. split; [done|].
  intros H' _ Hn _ l ->. exists n. split; [done|]. by apply H4.
Qed.

Definition anything {A} (H : NodeState → Prop) (r : result A) : Prop := True.
#[local] Hint Unfold anything monotone : core.

Lemma configure_safe H l cfgs :
  from_visited H (Ok l) → peer_configs ParseKey l = Ok cfgs →
  safe anything H (atom (on_host (configure_device (c_WGInterface cfg) cfgs))).
Proof.
  intros (n1 & Hn1 & ->)%(λ f, f l eq_refl) Hc. apply safe_atom. intros H' n r n' Hi Hh HI E H2.
  apply on_host_inv in E as (w & E & Hw). apply configure_device_inv in E as ((E1 & E2 & E3) & _ & E4 & E5 & _).
  rewrite <- Hw in *. destruct HI as (I1 & I2 & I3 & I4).
  split; [|split; [unfold via, nt; by rewrite E1|done]].
  unfold run_inv, nt. rewrite E1, E2, E3. split; [done|]. split; [done|]. split; [done|].
  destruct r as [[]|e]; unfold device_from in *.
  - right. exists n1, cfgs. split; [left; auto|]. split; [done|]. by rewrite E4, lookup_insert_eq.
  - rewrite E5 by done. destruct I4 as [|(n2 & c & ? & ? & ?)]; [by left|]. right. exists n2, c.
    split; [by left|done].
Qed.

Lemma os_call_safe H : safe anything H (atom (on_host os_call)).
Proof.
  apply safe_read; [|done]. intros n r n' (w & E & <-)%on_host_inv.
  by apply os_call_inv in E as (H1 & _ & H2 & _).
Qed.

Lemma write_file_safe H path data : safe anything H (atom (on_host (write_file path data))).
Proof.
  apply safe_read; [|done]. intros n r n' (w & E & <-)%on_host_inv.
  by apply write_file_inv in E as (H1 & H2 & _).
Qed.

Ltac next R := apply (safe_bind _ _ _ R); [done| |].
(** A step after which the fact [K] is still known. *)
Ltac next_knowing K := apply (safe_bind _ _ _ (λ H r, anything H r ∧ K H)); [done| |apply safe_frame].

Lemma Apply_safe H : safe anything H (Apply_t ParseKey cfg).
Proof.
  unfold Apply_t, Apply_list_t, writeServerConf_t, SyncPeers_t. next from_visited.
  - intros H1 l Hl. next_knowing (λ H, from_visited H (Ok l)); [|intros ??; apply from_visited_mono|done|].
    + intros H2 _ [_ Hv]. destruct (peer_configs ParseKey l) eqn:Ec; [|done]. by eapply configure_safe.
    + apply os_call_safe.
  - next (@anything unit); [intros; apply ListPeers_safe|]. next (@anything (list Peer)).
    + intros H1 l _. next (@anything string); [intros; apply write_file_safe|].
      apply safe_read; [|done]. by intros n r n' [= <- <-].
    + eapply safe_weaken; [|apply ListPeers_safe]. done.
Qed.

Lemma metrics_safe metrics count H :
  (∀ m r m', count m = (r, m') → r = Ok tt ∧ n_host m' = n_host m) →
  safe anything H (metrics_t metrics count).
Proof.
  intros Hc. destruct metrics; [|done]. cbn [metrics_t]. next (@anything unit).
  - intros H1 _ _. unfold updatePeerGauge_t. next (@anything (result (list Peer))).
    + intros H2 [l|e] _; [|done]. apply safe_read; [|done]. by intros n r n' [= <- <-].
    + eapply safe_attempt; [done|]. eapply safe_weaken; [|apply ListPeers_safe]. done.
  - apply safe_read; [|done]. intros n r n' [_ E]%Hc. unfold same_host. by rewrite E.
Qed.

(** A step of the store that runs one of the permitted operations. *)
Lemma store_step_safe {A} (Q : (NodeState → Prop) → result A → Prop) op (m : M DB A) H :
  some_op op → (∀ s r s', m s = (r, s') → ∃ r', exec_op op s = (r', s')) →
  (∀ (H' : NodeState → Prop) s r s' n', db_wf (tbl s) → m s = (r, s') → nt n' = tbl s' → H' n' → Q H' r) →
  safe Q H (atom (on_store m)).
Proof.
  intros Hop Hm HQ. apply safe_atom. intros H' n r n' Hi Hh (I1 & I2 & I3 & I4) E H2.
  apply on_store_inv in E as (d & E & Hn). destruct (Hm _ _ _ E) as (r' & Ex).
  assert (nt n' = tbl d) as Hd by (unfold nt, wt; by rewrite Hn).
  assert (via nt some_op n n') as Hv by (unfold via; rewrite Hd; by eapply reaches_one).
  split; [|split; [done|]].
  - split; [by eapply reaches_wf|]. rewrite Hn. split; [done|]. split; [done|].
    unfold device_from in *. cbn. destruct I4 as [|(n2 & c & ? & ? & ?)]; [by left|]. right. exists n2, c.
    split; [by left|done].
  - eapply HQ; [exact I1|exact E|exact Hd|by right].
Qed.

Lemma DeletePeer_safe metrics i H :
  some_op (OpDeletePeer i) → safe anything H (DeletePeer_t ParseKey cfg metrics i).
Proof.
  intros Hop. unfold DeletePeer_t. next (@anything unit).
  - intros H1 _ _. next (@anything unit); [|apply Apply_safe]. intros H2 _ _.
    apply metrics_safe, count_deprovisioned_ok.
  - eapply store_step_safe; [exact Hop| |done]. eauto.
Qed.

(** The peer that a PUT's transaction returned. *)
Definition stored (req : PeerRequest) (H : NodeState → Prop) (r : result Peer) : Prop :=
  ∀ p, r = Ok p → ∃ n1, H n1 ∧ abs (nt n1) !! p_ID p = Some p ∧ p_WGPublicKey p = rq_WGPublicKey req.
Lemma stored_mono req : monotone (stored req).
Proof. intros H H' r Hi Hr p E. destruct (Hr p E) as (n1 & ? & ?). eauto. Qed.

Lemma UpsertPeer_safe metrics i req d H :
  some_op (upsert_op cfg i req d) →
  safe (λ H r, ∀ b, r = Ok b → put_answered (CPut i req d) H (Ok (Some b))) H
    (UpsertPeer_t ParseKey cfg stealth metrics i req d).
Proof.
  intros Hop. unfold UpsertPeer_t. next (stored req).
  - intros H1 p Hp. pose proof (λ H H' Hi, stored_mono req H H' (Ok p) Hi) as Hm.
    next_knowing (λ H, stored req H (Ok p)); [|done..|apply Apply_safe].
    intros H2 _ [_ Hp2]. next_knowing (λ H, stored req H (Ok p));
      [|done..|apply metrics_safe, count_provisioned_ok].
    intros H3 _ [_ Hp3]. apply (safe_bind _ _ _ (λ H r,
      (∀ n, r = Ok n → w_pub (n_host n) = w_pub (n_host n0)) ∧ stored req H (Ok p))); [done| |].
    + intros H4 n [Hn Hs] b [= <-] o [= <-]. destruct (Hs p eq_refl) as (n1 & ? & ? & ?).
      exists p, n1. by rewrite (Hn n).
    + apply (safe_frame _ _ _ (λ H, stored req H (Ok p))); [done..|]. apply safe_read; [|by intros ? ? ? ?].
      intros n r n' [= <- <-]. split; [done|]. intros H' _ _ HI n1 [= <-]. apply HI.
  - eapply store_step_safe; [exact Hop| |].
    + intros s r s' E. unfold upsert_op, exec_op, discard. destruct r as [p|e].
      * rewrite (bind_Ok _ _ _ _ _ E). eauto.
      * rewrite (bind_Err _ _ _ _ _ E). eauto.
    + intros H' s r s' n' Hwf E Hn Hh p ->. exists n'. rewrite Hn. split; [done|].
      exact (UpsertPeer_returned _ _ _ _ _ _ _ E Hwf).
Qed.

Lemma ResyncPeers_safe metrics keep H :
  (∀ i, i ∉ keep → some_op (OpDeletePeer i)) → safe anything H (ResyncPeers_t ParseKey cfg metrics keep).
Proof.
  intros Hop. unfold ResyncPeers_t. cbv zeta. next (@anything (list Peer)).
  - intros H1 l _. next (@anything unit); [done|]. revert H1. induction l as [|p l IH]; intros H1; [done|].
    cbn [t_for_each]. next (@anything unit); [intros; apply IH|]. destruct (decide _) as [|Hn]; [done|].
    rewrite elem_of_list_to_set in Hn. by apply DeletePeer_safe, Hop.
  - eapply safe_weaken; [|apply ListPeers_safe]. done.
Qed.

Lemma call_safe metrics c H :
  c ∈ calls → safe (put_answered c) H (call_t ParseKey cfg stealth metrics c).
Proof.
  intros Hc. assert (∀ op, call_op cfg c op → some_op op) as Hop by (intros; by exists c).
  destruct c as [i req d|i|keep]; cbn [call_t].
  - apply (safe_bind _ _ _ (λ H r, ∀ b, r = Ok b → put_answered (CPut i req d) H (Ok (Some b)))).
    + by intros ? ? _ ? [=].
    + intros H1 b Hb. by apply Hb.
    + by apply UpsertPeer_safe, Hop.
  - next (@anything unit); [done|]. by apply DeletePeer_safe, Hop.
  - next (@anything (list string)); [done|]. apply ResyncPeers_safe. intros i Hi. apply Hop. by exists i.
Qed.
End guarantees.

(** The monotonicity that a pool needs of its results. *)
Lemma put_answered_mono {srt : Sorting} cfg stealth n0 c : monotone (put_answered cfg stealth n0 c).
Proof.
  intros H H' r Hi. destruct c; [|done..]. intros Hr o E. destruct (Hr o E) as (p & n1 & ? & ?). eauto 6.
Qed.

(** C7. Any number of PUT, DELETE and resync requests run in parallel,
    interleaved at their calls in any order and with any of the calls failing.
    In every state of the run: the constraints of the database hold; it changed
    only by store operations of these requests; the device has the peers it had
    at the start or exactly those that the store listed at some moment of the
    run; and each PUT that was answered returned the bundle of a peer that was
    stored, with the key it asked for, at some moment of the run. *)
Theorem concurrent_calls_safe {srt : Sorting} ParseKey cfg stealth metrics calls n sched pool n' :
  db_wf (nt n) →
  schedule sched (call_t ParseKey cfg stealth metrics <$> calls, n) = Some (pool, n') →
  let seen := visits (call_t ParseKey cfg stealth metrics <$> calls, n) sched in
  db_wf (nt n') ∧
  reaches (λ op, ∃ c, c ∈ calls ∧ call_op cfg c op) (nt n) (nt n') ∧
  device_from ParseKey cfg n seen (n_host n') ∧
  ∀ i c r, calls !! i = Some c → pool !! i = Some (Finished r) → put_answered cfg stealth n c seen r.
Proof.
  intros Hwf E seen. set (Q := λ i H r, ∀ c, calls !! i = Some c → put_answered cfg stealth n c H r).
  destruct (pool_safe (run_inv ParseKey cfg n) (via nt (some_op cfg calls)) Q sched
    (call_t ParseKey cfg stealth metrics <$> calls, n) (pool, n') (eq n) ltac:(
    intros i H H' r Hi Hr c Hc; eapply put_answered_mono; [exact Hi|by apply Hr]) eq_refl) with (3 := E)
    as (H' & S1 & S2 & (S3 & _ & _ & S4) & S5 & S6).
  - split; [done|]. split; [done|]. split; [done|]. by left.
  - intros i t (c & -> & Hc)%list_lookup_fmap_Some. eapply safe_weaken.
    + intros H r Hr c' Hc'. replace c' with c by congruence. exact Hr.
    + apply call_safe. by eapply list_elem_of_lookup_2.
  - assert (∀ x, H' x → seen x) as Hseen.
    { intros x [<-|Hv]%S1; [|done]. destruct sched; [apply (visits_here (_, n))|apply (visits_start (_, n))]. }
    split; [done|]. split; [exact S5|]. split.
    + destruct S4 as [|(n1 & cfgs & ? & ? & ?)]; [by left|]. right. eauto 6.
    + intros i c r Hc Hr. eapply put_answered_mono; [exact Hseen|]. by apply (S6 i _ Hr).
Qed.

(** ** A stale listing *)

Section stale.
Context {srt : Sorting} (ParseKey : string → result (list Z)) (cfg : Config).
Context (stealth : option (option Secrets)).

(** The effect of the calls when none fails. *)

Lemma Apply_list_quiet n :
  quiet (n_host n) → ∃ n', alone (Apply_list_t cfg) n = (Ok (listed (nt n)), n') ∧
    nt n' = nt n ∧ quiet (n_host n') ∧ w_pub (n_host n') = w_pub (n_host n).
Proof.
  intros [Hf Ho]. unfold Apply_list_t. rewrite alone_bind.
  destruct (alone (writeServerConf_t cfg) n) as [r n1] eqn:E1.
  pose proof E1 as E2. rewrite writeServerConf_alone in E2. apply on_host_inv in E2 as (w1 & E2 & Hw1).
  apply writeServerConf_inv in E2 as ((A1 & A2 & A3) & _ & _ & A4). destruct (A4 Ho Hf) as (-> & Ho1 & Hf1).
  rewrite (bind_Ok _ _ _ _ _ E1), alone_atom.
  destruct (on_host (on_db Store.ListPeers) n1) as [r n2] eqn:E2. exists n2.
  apply on_host_inv in E2 as (w2 & E2 & Hw2). rewrite Hw1 in E2.
  apply on_db_ListPeers_inv in E2 as (_ & _ & _ & _ & _ & B). destruct (B Hf1) as [-> ->].
  unfold nt, quiet. rewrite Hw2. by rewrite A1.
Qed.

Lemma SyncPeers_quiet l cfgs n :
  quiet (n_host n) → peer_configs ParseKey l = Ok cfgs →
  ∃ n', alone (SyncPeers_t ParseKey (c_WGInterface cfg) l) n = (Ok tt, n') ∧ nt n' = nt n ∧
    quiet (n_host n') ∧ w_pub (n_host n') = w_pub (n_host n) ∧
    w_dev (n_host n') !! c_WGInterface cfg = Some cfgs.
Proof.
  intros [Hf Ho] Hc. eexists. rewrite SyncPeers_alone. unfold SyncPeers, on_host, zoom.
  rewrite (bind_Ok _ _ _ tt (n_host n)) by (unfold os_call; by rewrite Ho). unfold lift. rewrite Hc.
  rewrite (bind_Ok _ _ _ cfgs (n_host n)) by done. unfold configure_device.
  rewrite (bind_Ok _ _ _ tt (n_host n)) by (unfold os_call; by rewrite Ho). cbn.
  split; [done|]. cbn. split; [done|]. split; [done|]. split; [done|]. apply lookup_insert_eq.
Qed.

Lemma metrics_quiet metrics count n :
  (∀ m r m', count m = (r, m') → r = Ok tt ∧ n_host m' = n_host m) → quiet (n_host n) →
  ∃ n', alone (metrics_t metrics count) n = (Ok tt, n') ∧ n_host n' = n_host n.
Proof.
  intros Hc [Hf Ho]. rewrite metrics_alone. destruct metrics; [|by exists n].
  destruct (count n) as [r n1] eqn:E1. pose proof (Hc _ _ _ E1) as [-> H1].
  rewrite (bind_Ok _ _ _ _ _ E1). unfold updatePeerGauge, try, mbind, M_bind.
  destruct (on_store Store.ListPeers n1) as [r n2] eqn:E2. apply on_host_inv in E2 as (w & E2 & H2).
  apply on_db_ListPeers_inv in E2 as (_ & _ & _ & _ & _ & B). rewrite H1 in B. destruct (B Hf) as [-> ->].
  by eexists.
Qed.

Lemma Delete_quiet i n :
  quiet (n_host n) → ∃ n', alone (atom (on_store (Store.DeletePeer i))) n = (Ok tt, n') ∧
    nt n' = set_peers (delete_peer_rows i (peers (nt n))) (nt n) ∧ quiet (n_host n') ∧
    w_pub (n_host n') = w_pub (n_host n).
Proof.
  intros [Hf Ho]. eexists. rewrite alone_atom. unfold on_store, on_host, on_db, zoom, Store.DeletePeer, exec.
  rewrite (bind_Ok _ _ _ tt (w_db (n_host n))) by (unfold driver; by rewrite Hf). cbn. done.
Qed.

(** Removing a peer leaves the others configurable. *)
Lemma peer_configs_delete t i :
  is_ok (peer_configs ParseKey (listed t)) = true →
  is_ok (peer_configs ParseKey (listed (set_peers (delete_peer_rows i (peers t)) t))) = true.
Proof.
  assert (∀ l, is_ok (peer_configs ParseKey l) = true ↔
    Forall (λ p, p_Enabled p = true → is_ok (peer_config ParseKey p) = true) l) as Hall.
  { induction l as [|p l IH]; [by split|]. rewrite Forall_cons, <- IH. cbn.
    destruct (p_Enabled p); cbn; [|naive_solver].
    destruct (peer_config ParseKey p); cbn; [|naive_solver]. destruct (peer_configs ParseKey l); cbn; naive_solver. }
  rewrite !Hall. unfold listed. rewrite !Forall_fmap, !sort_by_perm, !Forall_forall. cbn.
  intros H r [_ Hr]%list_elem_of_filter. by apply H.
Qed.

(** A DELETE that runs by itself, in a state where every peer is configurable. *)
Lemma DeletePeer_quiet metrics i n :
  quiet (n_host n) → is_ok (peer_configs ParseKey (listed (nt n))) = true →
  ∃ n', alone (DeletePeer_t ParseKey cfg metrics i) n = (Ok tt, n') ∧ quiet (n_host n') ∧
    nt n' = set_peers (delete_peer_rows i (peers (nt n))) (nt n) ∧ w_pub (n_host n') = w_pub (n_host n).
Proof.
  intros Hq Hc. destruct (Delete_quiet i n Hq) as (n1 & E1 & T1 & Q1 & P1).
  apply (peer_configs_delete _ i) in Hc. rewrite <- T1 in Hc.
  destruct (peer_configs ParseKey (listed (nt n1))) as [cfgs|] eqn:Ec; [|done].
  destruct (Apply_list_quiet n1 Q1) as (n2 & E2 & T2 & Q2 & P2).
  destruct (SyncPeers_quiet _ _ n2 Q2 Ec) as (n3 & E3 & T3 & Q3 & P3 & _).
  destruct (metrics_quiet metrics count_deprovisioned n3 count_deprovisioned_ok Q3) as (n4 & E4 & H4).
  exists n4. unfold nt at 1. rewrite H4. fold (nt n3). split; [|split; [done|split; congruence]].
  unfold DeletePeer_t, Apply_t. rewrite alone_bind, (bind_Ok _ _ _ _ _ E1), alone_bind.
  erewrite bind_Ok; [exact E4|]. rewrite alone_bind. by rewrite (bind_Ok _ _ _ _ _ E2).
Qed.

(** The rest of a PUT after it has listed the peers. *)
Definition put_rest_t (metrics : bool) (issued : Z) (p : Peer) (l : list Peer)
    : thread NodeState CredentialBundle :=
  _ ← SyncPeers_t ParseKey (c_WGInterface cfg) l;
  _ ← metrics_t metrics count_provisioned;
  n ← atom get;
  mret (buildBundle cfg stealth (w_pub (n_host n)) issued p).

Lemma put_rest_quiet metrics issued p l cfgs n :
  quiet (n_host n) → peer_configs ParseKey l = Ok cfgs →
  ∃ n', runs (put_rest_t metrics issued p l) n
      (Finished (Ok (buildBundle cfg stealth (w_pub (n_host n)) issued p))) n' ∧
    nt n' = nt n ∧ w_dev (n_host n') !! c_WGInterface cfg = Some cfgs.
Proof.
  intros Hq Hc. destruct (SyncPeers_quiet l cfgs n Hq Hc) as (n1 & E1 & T1 & Q1 & P1 & D1).
  destruct (metrics_quiet metrics count_provisioned n1 count_provisioned_ok Q1) as (n2 & E2 & H2).
  exists n2. unfold nt. rewrite H2. split; [|done]. rewrite <- P1, <- H2.
  eapply runs_trans; [exact (runs_first _ _ _ _ _ E1)|].
  eapply runs_trans; [exact (runs_first _ _ _ _ _ E2)|]. apply runs_next, runs_refl.
Qed.

(** A PUT that runs up to its listing of the peers. *)
Lemma UpsertPeer_to_listing metrics i req d n p n1 :
  quiet (n_host n) →
  on_store (Store.UpsertPeer (request_peer i req d) (Subnet cfg) (dr_gen d) (dr_now d)) n = (Ok p, n1) →
  ∃ n2, nt n2 = nt n1 ∧ quiet (n_host n2) ∧ w_pub (n_host n2) = w_pub (n_host n1) ∧
    runs (UpsertPeer_t ParseKey cfg stealth metrics i req d) n
      (put_rest_t metrics (dr_issued d) p (listed (nt n1))) n2.
Proof.
  intros [Hf Ho] E. assert (quiet (n_host n1)) as Q1.
  { apply on_store_inv in E as (s & E & Hn). rewrite Hn. split; [|done]. cbn.
    destruct (w_db (n_host n)) as [t fs]. cbn in Hf. subst fs. rewrite UpsertPeer_free in E.
    destruct (upsert_outcome_shape (request_peer i req d) (Subnet cfg) (dr_gen d) (dr_now d) t)
      as (r & t' & E' & _). rewrite E' in E. by injection E as _ <-. }
  destruct (Apply_list_quiet n1 Q1) as (n2 & E2 & T2 & Q2 & P2). exists n2.
  split; [done|]. split; [done|]. split; [done|]. unfold UpsertPeer_t, Apply_t.
  eapply runs_trans; [eapply runs_first; by rewrite alone_atom|]. by apply runs_bind, runs_first.
Qed.

(** The manager's public key is not changed by the rest of a PUT. *)
Lemma upsert_tail_pub metrics issued q n r n' :
  (_ ← on_host (Apply ParseKey cfg);
   _ ← (if metrics : bool then _ ← count_provisioned; updatePeerGauge else mret tt);
   n ← get;
   mret (buildBundle cfg stealth (w_pub (n_host n)) issued q)) n = (r, n') →
  w_pub (n_host n') = w_pub (n_host n).
Proof.
  intros [([] & n1 & (w & E1 & Hw)%on_host_inv & E2)|(e & (w & E1 & Hw)%on_host_inv & _)]%bind_inv;
    apply Apply_inv in E1 as ((_ & _ & A) & _); rewrite <- Hw in A; [|done].
  apply bind_inv in E2 as [([] & n2 & E2 & [= <- <-])|(e & E2 & _)];
    apply metrics_tail in E2 as (_ & (_ & _ & B) & _); try apply count_provisioned_ok; congruence.
Qed.
End stale.

(** A call in a pool of two. *)
Lemma schedule_two {S A} (t0 t1 t0' t1' t0'' : thread S A) s s1 s2 s3 :
  runs t0 s t0' s1 → runs t1 s1 t1' s2 → runs t0' s2 t0'' s3 →
  ∃ l, schedule l ([t0; t1], s) = Some ([t0''; t1'], s3).
Proof.
  intros H1 H2 H3. destruct (schedule_runs 0 _ _ _ _ [t0; t1] H1 eq_refl) as (l1 & E1).
  destruct (schedule_runs 1 _ _ _ _ [t0'; t1] H2 eq_refl) as (l2 & E2).
  destruct (schedule_runs 0 _ _ _ _ [t0'; t1'] H3 eq_refl) as (l3 & E3).
  exists (l1 ++ l2 ++ l3). by rewrite (schedule_app _ _ _ _ E1), (schedule_app _ _ _ _ E2).
Qed.

(** A peer that was deleted can stay on the device.  Whenever a PUT alone
    would succeed, and [p] is an enabled peer of the store it leaves, there is an
    interleaving of this PUT with a DELETE of [p] in which no call fails and both
    requests are answered with success, [p] is gone from the store, and the
    device ends with [p]'s configuration: the PUT configures the device with the
    list it read before the deletion. *)
Lemma deleted_peer_restored {srt : Sorting} ParseKey cfg stealth metrics i req d n b n1 p :
  quiet (n_host n) →
  Node.UpsertPeer ParseKey cfg stealth metrics i req d n = (Ok b, n1) →
  abs (nt n1) !! p_ID p = Some p → p_Enabled p = true →
  ∃ sched n' pc cfgs,
    schedule sched (call_t ParseKey cfg stealth metrics <$> [CPut i req d; CDelete (p_ID p)], n) =
      Some ([Finished (Ok (Some b)); Finished (Ok None)], n') ∧
    abs (nt n') !! p_ID p = None ∧
    peer_config ParseKey p = Ok pc ∧ w_dev (n_host n') !! c_WGInterface cfg = Some cfgs ∧ pc ∈ cfgs.
Proof.
  intros Hq E Hp He. apply bind_ok in E as (q & na & Ea & E).
  fold (request_peer i req d) in Ea. pose proof E as Et. apply upsert_tail in Et as (Tn & Tc & Tb).
  destruct (Tb b eq_refl) as [-> Hsync]. rewrite Tn in Hp.
  destruct (UpsertPeer_to_listing ParseKey cfg stealth metrics i req d n q na Hq Ea) as (nb & Hb & Qb & Pb & Rb).
  destruct (peer_configs ParseKey (listed (nt na))) as [cfgs|] eqn:Ec; [|by specialize (Tc eq_refl)].
  destruct (DeletePeer_quiet ParseKey cfg metrics (p_ID p) nb Qb) as (nc & Ed & Qc & Tc' & Pc).
  { by rewrite Hb, Ec. }
  destruct (put_rest_quiet ParseKey cfg stealth metrics (dr_issued d) q _ _ nc Qc Ec) as (ne & Re & Te & De).
  destruct (peer_configs_In _ _ _ _ Ec (listed_abs _ _ _ Hp) He) as (pc & Hpc & Epc).
  apply upsert_tail_pub in E as Epub. replace (w_pub (n_host n1)) with (w_pub (n_host nc)) by congruence.
  destruct (schedule_two _ _ _ _ _ _ _ _ _ (runs_bind _ _ (λ b, mret (Some b)) _ _ Rb)
    (runs_first _ (λ _, mret None) _ _ _ Ed) (runs_bind _ _ _ _ _ Re)) as (l & Hl).
  exists l, ne, pc, cfgs. split; [exact Hl|].
  rewrite Te, Tc', abs_delete, lookup_delete_eq. done.
Qed.

(** ** One after another *)

(** The requests run by the programs of the service, each to its end. *)
Fixpoint serial {srt : Sorting} ParseKey cfg stealth (metrics : bool) (cs : list Call) (n : NodeState)
    : list (result (option CredentialBundle)) * NodeState :=
  match cs with
  | [] => ([], n)
  | c :: cs =>
      let '(r, n) := call_m ParseKey cfg stealth metrics c n in
      let '(rs, n) := serial ParseKey cfg stealth metrics cs n in (r :: rs, n)
  end.

Lemma serial_from {srt : Sorting} ParseKey cfg stealth metrics cs n before :
  ∃ sched, let '(rs, n') := serial ParseKey cfg stealth metrics cs n in
    schedule sched (before ++ (call_t ParseKey cfg stealth metrics <$> cs), n) =
      Some (before ++ (Finished <$> rs), n').
Proof.
  revert n before. induction cs as [|c cs IH]; intros n before; cbn; [by exists []|].
  destruct (call_m ParseKey cfg stealth metrics c n) as [r n1] eqn:E1. rewrite <- call_alone in E1.
  set (after := call_t ParseKey cfg stealth metrics <$> cs) in *.
  destruct (schedule_runs (length before) _ _ _ _ (before ++ call_t ParseKey cfg stealth metrics c :: after)
    (runs_alone _ _ _ _ E1)) as (l1 & H1); [by apply list_lookup_middle|].
  destruct (IH n1 (before ++ [Finished r])) as (l2 & H2).
  exists (l1 ++ l2). destruct (serial ParseKey cfg stealth metrics cs n1) as [rs n'].
  rewrite (schedule_app _ _ _ _ H1), insert_app_r_alt, Nat.sub_diag by done. cbn.
  by rewrite <- !app_assoc in H2.
Qed.

(** The threads are the service's calls: under the schedule that runs the
    requests one after another, their answers and the state at the end are those
    of the sequential programs. *)
Lemma serial_schedule {srt : Sorting} ParseKey cfg stealth metrics cs n :
  ∃ sched, let '(rs, n') := serial ParseKey cfg stealth metrics cs n in
    schedule sched (call_t ParseKey cfg stealth metrics <$> cs, n) = Some (Finished <$> rs, n').
Proof. exact (serial_from ParseKey cfg stealth metrics cs n []). Qed.

(** ** Witnesses *)

Definition wit_calls : list Call := [CPut "p2" (wit_req "k2") wit_draw; CDelete "p1"].

(** The PUT stores, writes the file and lists; the DELETE runs; the PUT goes on. *)
Definition wit_sched : list nat := replicate 5 0%nat ++ replicate 9 1%nat ++ replicate 6 0%nat.

Lemma concurrent_calls_safe_witness :
  ∃ pool n', schedule wit_sched (call_t wit_ParseKey wit_cfg None true <$> wit_calls, wit_node) =
    Some (pool, n') ∧ length pool = 2%nat ∧ db_wf (nt n').
Proof.
  destruct (schedule wit_sched (call_t wit_ParseKey wit_cfg None true <$> wit_calls, wit_node))
    as [[pool n']|] eqn:E; [|exfalso; vm_compute in E; discriminate].
  exists pool, n'. split; [reflexivity|]. split; [vm_compute in E; injection E as <- _; reflexivity|].
  apply (concurrent_calls_safe wit_ParseKey wit_cfg None true wit_calls wit_node wit_sched pool n');
    [apply wit_tables_wf|exact E].
Defined.

Lemma deleted_peer_restored_witness :
  ∃ sched b n' cfgs,
    schedule sched (call_t wit_ParseKey wit_cfg None true <$> wit_calls, wit_node) =
      Some ([Finished (Ok (Some b)); Finished (Ok None)], n') ∧
    abs (nt n') !! "p1" = None ∧ w_dev (n_host n') !! "wg0" = Some cfgs ∧
    ∃ pc, pc ∈ cfgs ∧ Ok (pc_PublicKey pc) = wit_ParseKey "k1".
Proof.
  destruct (wit_upsert "k2") as [[b|] n1] eqn:E; [|exfalso; vm_compute in E; discriminate].
  destruct (abs (nt n1) !! "p1") as [p|] eqn:Ep;
    [|exfalso; vm_compute in E; injection E as _ <-; vm_compute in Ep; discriminate].
  assert (p_ID p = "p1" ∧ p_Enabled p = true ∧ p_WGPublicKey p = "k1") as (Hi & He & Hk).
  { vm_compute in E. injection E as _ <-. vm_compute in Ep. injection Ep as <-. vm_compute. auto. }
  destruct (deleted_peer_restored wit_ParseKey wit_cfg None true "p2" (wit_req "k2") wit_draw wit_node b n1 p)
    as (sched & n' & pc & cfgs & H1 & H2 & H3 & H4 & H5).
  - split; reflexivity.
  - exact E.
  - rewrite Hi. exact Ep.
  - exact He.
  - rewrite Hi in H1, H2. exists sched, b, n', cfgs. split; [exact H1|]. split; [exact H2|].
    split; [exact H4|]. exists pc. split; [exact H5|].
    apply peer_config_inv in H3 as [H3 _]. rewrite Hk in H3. symmetry. exact H3.
Defined.
