(* ===== verification/ControlChannel.v ===== *)
(** * The control channel: internal/gatewayclient/client.go, heartbeat.go

    One WebSocket session with the gateway: the dial, the hello, and the two
    goroutines that share the connection, the reader (readPump, handleFrame)
    and the writer (writePump).  A session is a state machine: an [Event] is
    what happens to one of the goroutines, a write to the connection has a
    beginning and an end, and the goroutines interleave in any order with each
    other and with the rest of the node.

    The payloads and the execution of commands are behind the interface
    [ControlBackend] (SnapshotProvider and CommandHandler of the code), which
    the gateway bridge implements.  A frame of the gateway is the JSON value
    its text parses to; the frames the node sends are their payloads. *)
From S2P Require Import Prelude GoStrings GoUrl GoDecode StoreDB Store ConfigData Config Wg Sha256 Stealth Node Speedtest Bridge GatewayClient.
From Stdlib Require Import SpecFloat.

Definition defaultHeartbeatSec : Z := 30.
Definition usageInterval : Z := 60 * second.
Definition pingPeriod : Z := 27 * second.

(** ** messages.go *)

Definition TypeHello : string := "hello".
Definition TypeHelloAck : string := "hello_ack".
Definition TypeHeartbeat : string := "heartbeat".
Definition TypeUsageReport : string := "usage_report".
Definition TypeCommand : string := "command".
Definition TypeCommandResult : string := "command_result".

(** What the node writes: the four messages, pings and the close message. *)
Inductive Frame :=
| FHello (h : Hello)
| FHeartbeat (hb : Heartbeat)
| FUsageReport (ur : UsageReport)
| FCommandResult (res : CommandResult)
| FPing
| FClose.

Definition is_finite (x : float64) : bool :=
  match x with S754_infinity _ | S754_nan => false | _ => true end.

Definition load_finite (l : Load) : bool := is_finite (ld_CPUPct l) && is_finite (ld_MemPct l).
Definition speedtest_finite (st : Speedtest) : bool :=
  is_finite (sd_DownloadMbps st) && is_finite (sd_UploadMbps st) && is_finite (sd_LatencyMs st).

(** wrap: json.Marshal refuses infinities and NaN; nothing else in the
    messages fails to encode. *)
Definition wrap (f : Frame) : result Frame :=
  match f with
  | FHeartbeat hb =>
      if load_finite (hb_Load hb) && speedtest_finite (hb_Speedtest hb) then Ok f
      else Err (EMsg "json: unsupported value")
  | _ => Ok f
  end.

(** A text frame of the gateway: what its text parses to, and the bytes of the
    member "args" of its "data" as they stand there (none without it). *)
Record GwFrame := mkGwFrame { gf_json : result json; gf_args : string }.

(** Envelope: the type, and the raw data, [None] when it is absent. *)
Record Envelope := mkEnvelope { en_Type : string; en_Data : option json }.
Definition decode_envelope (j : json) : result Envelope :=
  t ← field_string "type" j; Ok (mkEnvelope t (jget "data" j)).

(** Unmarshal of absent raw data: no input. *)
Definition unmarshal_raw {A} (dec : json → result A) (raw : option json) : result A :=
  match raw with None => Err (EMsg "unexpected end of JSON input") | Some j => dec j end.

Definition decode_HelloAck (j : json) : result Z := field_int "heartbeat_interval_sec" j.

(** The argument structs of resync_peers and set_firewall_credentials. *)
Definition decode_peer_ids (j : json) : result (list string) := field_list "peer_ids" string_elem j.
Definition decode_credentials (j : json) : result (string * string) :=
  u ← field_string "admin_user" j; p ← field_string "admin_password" j; Ok (u, p).

Definition decode_command (args_text : string) (j : json) : result Command :=
  act ← field_string "action" j;
  req ← field_string "request_id" j;
  let args := jget "args" j in
  Ok (mkCommand act req args_text (unmarshal_raw decode_peer_ids args)
        (unmarshal_raw decode_credentials args)).

(** ** The client *)

Record Client := mkClient {
  cl_gatewayURL : string; cl_nodeID : string; cl_nodeToken : string;
  cl_heartbeatSec : Z; cl_connected : bool }.

Definition NewClient (gatewayURL nodeID nodeToken : string) : Client :=
  mkClient (TrimRight_slash gatewayURL) nodeID nodeToken defaultHeartbeatSec false.

Definition set_heartbeatSec (n : Z) (c : Client) : Client :=
  mkClient (cl_gatewayURL c) (cl_nodeID c) (cl_nodeToken c) n (cl_connected c).
Definition set_connected (b : bool) (c : Client) : Client :=
  mkClient (cl_gatewayURL c) (cl_nodeID c) (cl_nodeToken c) (cl_heartbeatSec c) b.

(** The dial: its URL and its Authorization header. *)
Definition ws_url (c : Client) : string :=
  Replace1 (Replace1 (cl_gatewayURL c) "https://" "wss://") "http://" "ws://" +:+ "/api/v2/nodes/ws".
Definition dial_request (c : Client) : string * string := (ws_url c, "Bearer " +:+ cl_nodeToken c).

(** ** heartbeat.go *)

(** The body; a load or speed test that does not encode is sent as null. *)
Record RestRequest := mkRest {
  rr_url : string; rr_auth : string; rr_status : string; rr_load : option Load;
  rr_speedtest : option Speedtest; rr_rx : Z; rr_tx : Z; rr_version : string }.

Section rest.
(** The gateway's answer to the last request: its status. *)
Context (rest : list RestRequest → result Z).

Definition PostRESTHeartbeat (gatewayURL peerID nodeToken : string) (hb : Heartbeat)
  : M (list RestRequest) unit :=
  let base := trim_base gatewayURL in
  let peerID := TrimSpace peerID in
  if String.eqb base EmptyString || String.eqb peerID EmptyString
     || String.eqb (TrimSpace nodeToken) EmptyString
  then fail (EMsg "gateway URL, peer_id, and node token are required")
  else
    let rq := mkRest (base +:+ "/api/v2/nodes/" +:+ peerID +:+ "/heartbeat") ("Bearer " +:+ nodeToken)
                (hb_Status hb)
                (if load_finite (hb_Load hb) then Some (hb_Load hb) else None)
                (if speedtest_finite (hb_Speedtest hb) then Some (hb_Speedtest hb) else None)
                (ld_RxBytes (hb_Load hb)) (ld_TxBytes (hb_Load hb))
                (default EmptyString (hb_Versions hb !! "node")) in
    st ← run (λ sent, (rest (sent ++ [rq]), sent ++ [rq]));
    if negb (st =? 204) then fail (EMsg ("rest heartbeat: status " +:+ Itoa st)) else mret tt.
End rest.

(** ** The interface to the node *)

(** [B]: the node's state; [D]: what a call draws from its surroundings (the
    clock, counters, random ids). *)
Class ControlBackend (B D : Type) := {
  cb_BuildHello : string → D → B → Hello;
  cb_BuildHeartbeat : D → string → M B Heartbeat;
  cb_BuildUsageReport : D → M B UsageReport;
  cb_Status : B → string;
  cb_HandleCommand : D → Command → M B CommandResult;
  (** the calls return, and a result is for the command it answers *)
  cb_heartbeat_total d st b : ∃ hb b', cb_BuildHeartbeat d st b = (Ok hb, b') ∧ hb_Status hb = st;
  cb_usage_total d b : ∃ ur b', cb_BuildUsageReport d b = (Ok ur, b');
  cb_command_answered d cmd b :
    ∃ res b', cb_HandleCommand d cmd b = (Ok res, b') ∧ res_RequestID res = cmd_RequestID cmd;
}.

Section session.
Context {B D : Type} {CB : ControlBackend B D}.
Context (rest : list RestRequest → result Z).
(** The callback of SetOnReconnect. *)
Context (onReconnect : option (B → B)).

(** What the goroutines share, and where each of them is: the reader reads or
    is writing a frame; the writer has read its interval or not, and waits or
    is writing a frame.  [ss_return]: the session has returned this error. *)
Record Session := mkSession {
  ss_client : Client; ss_node : B; ss_reader : option Frame;
  ss_interval : option Z; ss_writer : option Frame;
  ss_sent : list Frame; ss_rest : list RestRequest; ss_logged : list error;
  ss_return : option error }.

Inductive Ticker := THeartbeat | TUsage | TPing.

Inductive Event :=
| EFrame (d : D) (raw : GwFrame)      (* the reader receives a frame *)
| EReaderWrote (err : option error)   (* its write ends *)
| EReadError (err : error)            (* ReadMessage fails *)
| EWriterStart                        (* writePump starts *)
| ETick (d : D) (t : Ticker)          (* the writer picks a tick *)
| EWriterWrote (err : option error)   (* its write ends *)
| ECancel (closeSent : bool)          (* the context is cancelled *)
| ENode (f : B → B).                  (* another goroutine changes the node *)

(** handleFrame up to its write: the frame to write, if any. *)
Definition handleFrame (d : D) (raw : GwFrame) : M (Client * B) (option Frame) :=
  env ← lift (j ← gf_json raw; decode_envelope j);
  if String.eqb (en_Type env) TypeHelloAck then
    ack ← lift (unmarshal_raw decode_HelloAck (en_Data env));
    _ ← run (λ s, (Ok tt, (if 0 <? ack then set_heartbeatSec ack s.1 else s.1, s.2)));
    _ ← run (λ s, (Ok tt, (s.1, match onReconnect with None => s.2 | Some f => f s.2 end)));
    mret None
  else if String.eqb (en_Type env) TypeCommand then
    cmd ← lift (unmarshal_raw (decode_command (gf_args raw)) (en_Data env));
    res ← zoom snd (λ b s, (s.1, b)) (cb_HandleCommand d cmd);
    frame ← lift (wrap (FCommandResult res));
    mret (Some frame)
  else mret None.

(** The payload of a tick, marshalled; a ping has none. *)
Definition tick_frame (d : D) (t : Ticker) : M B Frame :=
  match t with
  | THeartbeat =>
      b ← get;
      hb ← cb_BuildHeartbeat d (cb_Status b);
      lift (wrap (FHeartbeat hb))
  | TUsage => ur ← cb_BuildUsageReport d; lift (wrap (FUsageReport ur))
  | TPing => mret FPing
  end.

(** time.NewTicker panics on an interval that is not positive. *)
Definition NewTicker (d : Z) : result Z :=
  if d <=? 0 then Err (EPanic "non-positive interval for NewTicker") else Ok d.

(** The heartbeat ticker of writePump; Duration is an int64. *)
Definition heartbeat_ticker (c : Client) : result Z :=
  let hbSec := if cl_heartbeatSec c <=? 0 then defaultHeartbeatSec else cl_heartbeatSec c in
  NewTicker (wrap_int64 (hbSec * second)).

(** The session returns: the deferred calls. *)
Definition return_ (err : error) (s : Session) : Session :=
  mkSession (set_connected false (ss_client s)) (ss_node s) (ss_reader s) (ss_interval s) (ss_writer s)
    (ss_sent s) (ss_rest s) (ss_logged s) (Some err).

Definition log (e : error) (s : Session) : Session :=
  mkSession (ss_client s) (ss_node s) (ss_reader s) (ss_interval s) (ss_writer s) (ss_sent s)
    (ss_rest s) (ss_logged s ++ [e]) (ss_return s).
Definition set_reader (f : option Frame) (s : Session) : Session :=
  mkSession (ss_client s) (ss_node s) f (ss_interval s) (ss_writer s) (ss_sent s)
    (ss_rest s) (ss_logged s) (ss_return s).
Definition set_interval (z : Z) (s : Session) : Session :=
  mkSession (ss_client s) (ss_node s) (ss_reader s) (Some z) (ss_writer s) (ss_sent s)
    (ss_rest s) (ss_logged s) (ss_return s).
Definition set_writer (f : option Frame) (s : Session) : Session :=
  mkSession (ss_client s) (ss_node s) (ss_reader s) (ss_interval s) f (ss_sent s)
    (ss_rest s) (ss_logged s) (ss_return s).
Definition set_node (b : B) (s : Session) : Session :=
  mkSession (ss_client s) b (ss_reader s) (ss_interval s) (ss_writer s) (ss_sent s)
    (ss_rest s) (ss_logged s) (ss_return s).
Definition set_client (c : Client) (s : Session) : Session :=
  mkSession c (ss_node s) (ss_reader s) (ss_interval s) (ss_writer s) (ss_sent s)
    (ss_rest s) (ss_logged s) (ss_return s).
Definition add_sent (f : Frame) (s : Session) : Session :=
  mkSession (ss_client s) (ss_node s) (ss_reader s) (ss_interval s) (ss_writer s) (ss_sent s ++ [f])
    (ss_rest s) (ss_logged s) (ss_return s).
Definition set_rest (l : list RestRequest) (s : Session) : Session :=
  mkSession (ss_client s) (ss_node s) (ss_reader s) (ss_interval s) (ss_writer s) (ss_sent s)
    l (ss_logged s) (ss_return s).

(** One iteration of readPump, up to the write. *)
Definition read_step (d : D) (raw : GwFrame) (s : Session) : Session :=
  let '(r, (c, b)) := handleFrame d raw (ss_client s, ss_node s) in
  let s := set_node b (set_client c s) in
  match r with
  | Ok f => set_reader f s
  | Err e => log e s
  end.

(** The best-effort REST heartbeat after a heartbeat was written. *)
Definition rest_heartbeat (f : Frame) (s : Session) : Session :=
  match f with
  | FHeartbeat hb =>
      let c := ss_client s in
      let '(r, sent) := PostRESTHeartbeat rest (cl_gatewayURL c) (cl_nodeID c) (cl_nodeToken c) hb (ss_rest s) in
      let s := set_rest sent s in
      match r with Ok _ => s | Err e => log e s end
  | _ => s
  end.

Definition tick_step (d : D) (t : Ticker) (s : Session) : Session :=
  let '(r, b) := tick_frame d t (ss_node s) in
  let s := set_node b s in
  match r with
  | Ok f => set_writer (Some f) s
  | Err e => return_ e s
  end.

Definition canceled : error := EMsg "context canceled".

(** [None]: the event cannot happen in this state. *)
Definition step (ev : Event) (s : Session) : option Session :=
  match ss_return s with
  | Some _ => None
  | None =>
      match ev with
      | EFrame d raw =>
          match ss_reader s with None => Some (read_step d raw s) | Some _ => None end
      | EReaderWrote err =>
          match ss_reader s with
          | Some f => Some (set_reader None (match err with None => add_sent f s | Some e => log e s end))
          | None => None
          end
      | EReadError err =>
          match ss_reader s with None => Some (return_ err s) | Some _ => None end
      | EWriterStart =>
          match ss_interval s with
          | None => Some (match heartbeat_ticker (ss_client s) with
                          | Ok z => set_interval z s
                          | Err e => return_ e s
                          end)
          | Some _ => None
          end
      | ETick d t =>
          match ss_interval s, ss_writer s with
          | Some _, None => Some (tick_step d t s)
          | _, _ => None
          end
      | EWriterWrote err =>
          match ss_writer s with
          | Some f =>
              let s := set_writer None s in
              Some (match err with
                    | None => rest_heartbeat f (add_sent f s)
                    | Some e => return_ e s
                    end)
          | None => None
          end
      | ECancel closeSent =>
          Some (return_ canceled (if closeSent then add_sent FClose s else s))
      | ENode f => Some (set_node (f (ss_node s)) s)
      end
  end.

Fixpoint steps (evs : list Event) (s : Session) : option Session :=
  match evs with
  | [] => Some s
  | ev :: evs => s ← step ev s; steps evs s
  end.

Definition sendHello (c : Client) (b : B) (d : D) (wrote : option error) (s : Session) : Session :=
  match wrap (FHello (cb_BuildHello (cl_nodeID c) d b)) with
  | Err e => return_ e s
  | Ok frame => match wrote with
                | Some e => return_ e s
                | None => add_sent frame s
                end
  end.

(** The beginning of a session: the dial and the hello. *)
Definition session (c : Client) (b : B) (d : D) (dial : option error) (wrote : option error) : Session :=
  match dial with
  | Some e => mkSession c b None None None [] [] [] (Some (EWrap "ws dial: " e EmptyString))
  | None =>
      sendHello c b d wrote (mkSession (set_connected true c) b None None None [] [] [] None)
  end.

End session.
Arguments Session : clear implicits.
Arguments Event : clear implicits.

(** ** What a session sends *)

(** The command in a frame of the gateway, when it is a well-formed one. *)
Definition command_of (raw : GwFrame) : option Command :=
  match (j ← gf_json raw; decode_envelope j) with
  | Ok env =>
      if String.eqb (en_Type env) TypeCommand then
        match unmarshal_raw (decode_command (gf_args raw)) (en_Data env) with
        | Ok cmd => Some cmd
        | Err _ => None
        end
      else None
  | Err _ => None
  end.

Definition result_id (f : Frame) : option string :=
  match f with FCommandResult res => Some (res_RequestID res) | _ => None end.
Definition result_ids (l : list Frame) : list string := omap result_id l.
Definition is_hello (f : Frame) : Prop := match f with FHello _ => True | _ => False end.

(** The request ids of the commands of a trace whose answer was written,
    [pending] being the command the reader is answering. *)
Fixpoint delivered {B D} (pending : option string) (evs : list (Event B D)) : list string :=
  match evs with
  | [] => []
  | EFrame _ raw :: evs => delivered (cmd_RequestID <$> command_of raw) evs
  | EReaderWrote None :: evs => option_list pending ++ delivered None evs
  | EReaderWrote (Some _) :: evs => delivered None evs
  | _ :: evs => delivered pending evs
  end.

(** The identity a client was made with. *)
Definition same_identity (c c' : Client) : Prop :=
  cl_gatewayURL c' = cl_gatewayURL c ∧ cl_nodeID c' = cl_nodeID c ∧ cl_nodeToken c' = cl_nodeToken c.

#[export] Instance same_identity_preorder : PreOrder same_identity.
Proof. unfold same_identity. split; [by intros c|]. intros a b c. naive_solver congruence. Qed.

Section protocol.
Context {B D : Type} {CB : ControlBackend B D}.
Context (rest : list RestRequest → result Z) (onReconnect : option (B → B)).

Notation Sess := (Session B).
Notation handle := (handleFrame onReconnect).
Notation stp := (step rest onReconnect).
Notation stps := (steps rest onReconnect).

(** A well-formed command is executed and answered; any other frame leaves
    nothing to write. *)
Lemma handleFrame_command (d : D) raw cmd c (b : B) :
  command_of raw = Some cmd →
  ∃ res b', cb_HandleCommand d cmd b = (Ok res, b') ∧ res_RequestID res = cmd_RequestID cmd ∧
    handle d raw (c, b) = (Ok (Some (FCommandResult res)), (c, b')).
Proof.
  unfold command_of, handleFrame. intros H.
  destruct (gf_json raw ≫= decode_envelope) as [env|e]; [|done].
  destruct (String.eqb_spec (en_Type env) TypeCommand) as [Et|]; [|done].
  destruct (unmarshal_raw _ _) as [cmd'|] eqn:Eu; [|done]. injection H as <-.
  destruct (cb_command_answered d cmd' b) as (res & b' & E & Hid). exists res, b'. do 2 (split; [done|]).
  unfold mbind, M_bind, lift. rewrite Et. change (TypeCommand =? TypeHelloAck)%string with false.
  rewrite String.eqb_refl, Eu. unfold zoom. cbn [snd fst]. by rewrite E.
Qed.

Lemma handleFrame_other (d : D) raw c (b : B) r c' b' :
  command_of raw = None → handle d raw (c, b) = (r, (c', b')) →
  same_identity c c' ∧ cl_connected c' = cl_connected c ∧ (r = Ok None ∨ ∃ e, r = Err e).
Proof.
  unfold command_of, handleFrame. intros H E.
  destruct (gf_json raw ≫= decode_envelope) as [env|e];
    [|injection E as <- <- <-; split; [done|]; eauto].
  unfold mbind, M_bind, lift in E.
  destruct (String.eqb (en_Type env) TypeHelloAck).
  { destruct (unmarshal_raw decode_HelloAck _) as [ack|e]; unfold run in E; cbn in E;
      injection E as <- <- <-; [|split; [done|]; eauto].
    split; [by destruct (0 <? ack)|]. split; [by destruct (0 <? ack)|]. eauto. }
  destruct (String.eqb (en_Type env) TypeCommand); [|injection E as <- <- <-; split; [done|]; eauto].
  destruct (unmarshal_raw _ _) as [cmd|e]; [done|]. injection E as <- <- <-. split; [done|]. eauto.
Qed.

(** A tick yields the message of its kind, or an error. *)
Lemma tick_frame_kind (d : D) t (b : B) f b' :
  tick_frame d t b = (Ok f, b') →
  match t, f with
  | THeartbeat, FHeartbeat hb => hb_Status hb = cb_Status b
  | TUsage, FUsageReport _ => True
  | TPing, FPing => True
  | _, _ => False
  end.
Proof.
  destruct t; cbn [tick_frame]; intros H.
  - rewrite (bind_Ok _ _ _ b b) in H by done.
    destruct (cb_heartbeat_total d (cb_Status b) b) as (hb & b1 & E & Hs).
    rewrite (bind_Ok _ _ _ _ _ E) in H. unfold lift in H. cbn [wrap] in H.
    destruct (_ && _); [by injection H as <- <-|done].
  - apply bind_ok in H as (ur & b1 & _ & H). by injection H as <- <-.
  - by injection H as <- <-.
Qed.

(** The states of a session that began with the frame [hello]. *)
Record session_inv (hello : Frame) (s : Sess) : Prop := {
  inv_hello : ∃ l, ss_sent s = hello :: l ∧ Forall (λ f, ¬ is_hello f) l;
  inv_reader : ∀ f, ss_reader s = Some f → ∃ res, f = FCommandResult res;
  inv_writer : ∀ f, ss_writer s = Some f → ¬ is_hello f ∧ result_id f = None;
  inv_connected : cl_connected (ss_client s) = true ↔ ss_return s = None;
}.

Definition pending (s : Sess) : option string := ss_reader s ≫= result_id.

Lemma inv_add hello s f :
  session_inv hello s → ¬ is_hello f → session_inv hello (add_sent f s).
Proof.
  intros [(l & El & Hl) H2 H3 H4] Hf. split; [|done..]. exists (l ++ [f]). cbn. rewrite El.
  split; [done|]. apply Forall_app; split; [done|]. by apply Forall_singleton.
Qed.

Lemma inv_return hello s e : session_inv hello s → session_inv hello (return_ e s).
Proof. intros [H1 H2 H3 _]. split; [done..|]. by split. Qed.

Lemma rest_heartbeat_keeps f (s : Sess) :
  let s' := rest_heartbeat rest f s in
  ss_client s' = ss_client s ∧ ss_sent s' = ss_sent s ∧ ss_reader s' = ss_reader s ∧
  ss_writer s' = ss_writer s ∧ ss_return s' = ss_return s ∧ ss_interval s' = ss_interval s ∧
  ss_node s' = ss_node s.
Proof.
  unfold rest_heartbeat. destruct f; try by repeat split.
  destruct (PostRESTHeartbeat _ _ _ _ _ _) as [[]]; by repeat split.
Qed.

Lemma result_ids_snoc l f : result_ids (l ++ [f]) = result_ids l ++ option_list (result_id f).
Proof. unfold result_ids. rewrite omap_app. cbn. by destruct (result_id f). Qed.

(** The frame case: the reader has no answer to write before it. *)
Lemma read_inv hello d raw s :
  session_inv hello s → ss_reader s = None →
  let s' := read_step onReconnect d raw s in
  session_inv hello s' ∧ same_identity (ss_client s) (ss_client s') ∧
  ∀ evs : list (Event B D), result_ids (ss_sent s') ++ delivered (pending s') evs =
         result_ids (ss_sent s) ++ delivered (pending s) (EFrame d raw :: evs).
Proof.
  intros Hi Erd. cbv zeta. unfold read_step. destruct (command_of raw) as [cmd|] eqn:Ec.
  - destruct (handleFrame_command d raw cmd (ss_client s) (ss_node s) Ec) as (res & b' & _ & Hid & ->).
    split; [|split; [done|]].
    + destruct Hi. split; [done| |done|done]. cbn. intros ? [= <-]. eauto.
    + intros evs. cbn. rewrite Ec. cbn. unfold pending. cbn. by rewrite Hid.
  - destruct (handle d raw (ss_client s, ss_node s)) as [r [c' b']] eqn:Eh.
    apply handleFrame_other in Eh as (Hid & Hcn & Hx); [|done].
    assert (pending s = None) as Hp by (unfold pending; by rewrite Erd).
    destruct Hx as [->|[e ->]]; (split; [|split; [done|]]).
    1,3: destruct Hi; split; cbn; rewrite ?Hcn; try done; by rewrite Erd.
    all: intros evs; cbn; rewrite Ec; unfold pending; cbn; by rewrite ?Erd.
Qed.

(** One event keeps the invariant and the client's identity, and adds to the
    answers what [delivered] says. *)
Lemma step_inv hello ev s s' :
  session_inv hello s → stp ev s = Some s' →
  session_inv hello s' ∧ same_identity (ss_client s) (ss_client s') ∧
  ∀ evs, result_ids (ss_sent s') ++ delivered (pending s') evs =
         result_ids (ss_sent s) ++ delivered (pending s) (ev :: evs).
Proof.
  intros Hi H. unfold step in H. destruct (ss_return s) eqn:Er; [done|].
  pose proof Hi as [_ Hr Hw Hc].
  destruct ev as [d raw|err|err| |d t|err|closeSent|f].
  - destruct (ss_reader s) as [f|] eqn:Erd; [done|]. injection H as <-. by apply read_inv.
  - destruct (ss_reader s) as [f|] eqn:Erd; [|done]. injection H as <-.
    destruct (Hr f eq_refl) as [res ->].
    destruct err as [e|]; (split; [|split; [done|]]).
    + destruct Hi. by split.
    + intros evs. by cbn.
    + destruct (inv_add hello s (FCommandResult res) Hi (λ H, H)). by split.
    + intros evs. cbn. rewrite result_ids_snoc. unfold pending. rewrite Erd. cbn.
      by rewrite <- app_assoc.
  - destruct (ss_reader s) as [f|] eqn:Erd; [done|]. injection H as <-.
    split; [by apply inv_return|]. done.
  - destruct (ss_interval s); [done|]. injection H as <-.
    destruct (heartbeat_ticker _); (split; [|done]); [by destruct Hi|by apply inv_return].
  - destruct (ss_interval s), (ss_writer s); try done. injection H as <-.
    unfold tick_step. destruct (tick_frame d t (ss_node s)) as [[f|e] b'] eqn:Et.
    + apply tick_frame_kind in Et. split; [|done]. destruct Hi. split; [done..| |done].
      cbn. intros ? [= <-]. destruct t, f; done || (split; [by intros []|done]).
    + split; [|done]. apply inv_return. by destruct Hi; split.
  - destruct (ss_writer s) as [f|] eqn:Ew; [|done]. injection H as <-.
    destruct (Hw f eq_refl) as [Hh Hres].
    assert (session_inv hello (set_writer None s)) as Hi' by (by destruct Hi; split).
    destruct err as [e|]; [split; [by apply inv_return|done]|].
    apply (inv_add _ _ f) in Hi'; [|done].
    destruct (rest_heartbeat_keeps f (add_sent f (set_writer None s))) as (K1 & K2 & K3 & K4 & K5 & K6 & _).
    split; [|split; [by rewrite K1|]].
    + destruct Hi'. split; by rewrite ?K1, ?K2, ?K3, ?K4, ?K5.
    + intros evs. unfold pending. rewrite K2, K3. cbn. by rewrite result_ids_snoc, Hres, app_nil_r.
  - injection H as <-. destruct closeSent; (split; [|split; [done|]]).
    + apply inv_return, inv_add; [done|by intros []].
    + intros evs. cbn. by rewrite result_ids_snoc, app_nil_r.
    + by apply inv_return.
    + done.
  - injection H as <-. split; [by destruct Hi|done].
Qed.

Lemma steps_inv hello evs s s' :
  session_inv hello s → stps evs s = Some s' →
  session_inv hello s' ∧ same_identity (ss_client s) (ss_client s') ∧
  result_ids (ss_sent s') = result_ids (ss_sent s) ++ delivered (pending s) evs.
Proof.
  revert s. induction evs as [|ev evs IH]; intros s Hi H.
  { injection H as <-. split; [done|]. split; [done|]. by rewrite app_nil_r. }
  cbn [steps] in H. destruct (stp ev s) as [s1|] eqn:E; [|done]. cbn in H.
  destruct (step_inv _ _ _ _ Hi E) as (Hi1 & Hs1 & H1).
  destruct (IH s1 Hi1 H) as (Hi2 & Hs2 & H2). split; [done|]. split; [by etransitivity|].
  by rewrite H2, H1.
Qed.

Lemma session_starts c (b : B) (d : D) :
  session_inv (FHello (cb_BuildHello (cl_nodeID c) d b)) (session c b d None None).
Proof. split; [|done..|done]. by exists []. Qed.
End protocol.

(** ** Single events *)

Section events.
Context {B D : Type} {CB : ControlBackend B D}.
Context (rest : list RestRequest → result Z) (onReconnect : option (B → B)).

Lemma steps_cons ev evs (s s1 : Session B) :
  step rest onReconnect ev s = Some s1 →
  steps rest onReconnect (ev :: evs) s = steps rest onReconnect evs s1.
Proof. cbn [steps]. by intros ->. Qed.

Lemma step_frame d raw (s : Session B) :
  ss_return s = None → ss_reader s = None →
  step rest onReconnect (EFrame d raw) s = Some (read_step onReconnect d raw s).
Proof. intros Hr Hrd. unfold step. by rewrite Hr, Hrd. Qed.

Lemma step_reader_wrote f (s : Session B) :
  ss_return s = None → ss_reader s = Some f →
  step rest onReconnect (EReaderWrote None) s = Some (set_reader None (add_sent f s)).
Proof. intros Hr Hrd. unfold step. by rewrite Hr, Hrd. Qed.

Lemma step_tick d t z (s : Session B) :
  ss_return s = None → ss_interval s = Some z → ss_writer s = None →
  step rest onReconnect (ETick d t) s = Some (tick_step d t s).
Proof. intros Hr Hi Hw. unfold step. by rewrite Hr, Hi, Hw. Qed.

Lemma step_writer_failed f e (s : Session B) :
  ss_return s = None → ss_writer s = Some f →
  step rest onReconnect (EWriterWrote (Some e)) s = Some (return_ e (set_writer None s)).
Proof. intros Hr Hw. unfold step. by rewrite Hr, Hw. Qed.

(** The reader after a command. *)
Lemma read_step_command (d : D) raw cmd (s : Session B) :
  command_of raw = Some cmd →
  ∃ res b', cb_HandleCommand d cmd (ss_node s) = (Ok res, b') ∧ res_RequestID res = cmd_RequestID cmd ∧
    read_step onReconnect d raw s = set_reader (Some (FCommandResult res)) (set_node b' (set_client (ss_client s) s)).
Proof.
  intros Hc. destruct (handleFrame_command onReconnect d raw cmd (ss_client s) (ss_node s) Hc)
    as (res & b' & E & Hid & Eh).
  exists res, b'. unfold read_step. by rewrite Eh.
Qed.
End events.

(** ** Intervals *)

Section intervals.
Context {B D : Type} {CB : ControlBackend B D}.
Context (rest : list RestRequest → result Z) (onReconnect : option (B → B)).

Lemma step_interval ev (s s' : Session B) z :
  step rest onReconnect ev s = Some s' → ss_interval s = Some z → ss_interval s' = Some z.
Proof.
  intros H Hz. unfold step in H. destruct (ss_return s); [done|].
  destruct ev as [d raw|[e|]|err| |d t|[e|]|[]|f]; rewrite ?Hz in H; repeat case_match; simplify_eq; try done.
  - unfold read_step. destruct (handleFrame _ _ _ _) as [[] []]; done.
  - unfold tick_step. destruct (tick_frame _ _ _) as [[] ?]; done.
  - by destruct (rest_heartbeat_keeps rest f (add_sent f (set_writer None s))) as (_ & _ & _ & _ & _ & -> & _).
Qed.

Lemma steps_interval evs (s s' : Session B) z :
  steps rest onReconnect evs s = Some s' → ss_interval s = Some z → ss_interval s' = Some z.
Proof.
  revert s. induction evs as [|ev evs IH]; intros s H Hz; [by injection H as <-|].
  cbn [steps] in H. destruct (step rest onReconnect ev s) as [s1|] eqn:E; [|done].
  eapply IH; [exact H|]. by eapply step_interval.
Qed.

(** A frame that is a hello_ack asking for [n] seconds. *)
Definition is_ack (raw : GwFrame) (n : Z) : Prop :=
  ∃ j a, gf_json raw = Ok j ∧ decode_envelope j = Ok (mkEnvelope TypeHelloAck (Some a)) ∧
    decode_HelloAck a = Ok n.

Lemma handleFrame_ack (d : D) raw n c (b : B) :
  is_ack raw n → 0 < n →
  ∃ b', handleFrame onReconnect d raw (c, b) = (Ok None, (set_heartbeatSec n c, b')).
Proof.
  intros (j & a & Hj & He & Ha) Hn. unfold handleFrame. rewrite Hj. cbn [mbind result_bind].
  unfold mbind, M_bind, lift. cbn [result_bind]. rewrite He. cbn [en_Type en_Data unmarshal_raw].
  rewrite String.eqb_refl, Ha. unfold run. cbn. rewrite (proj2 (Z.ltb_lt 0 n)) by done. eauto.
Qed.

(** The interval of the write pump of the next session. *)
Lemma ticker_after_ack n c :
  0 < n → heartbeat_ticker (set_heartbeatSec n c) = NewTicker (wrap_int64 (n * second)).
Proof. intros Hn. unfold heartbeat_ticker. cbn. by rewrite (proj2 (Z.leb_gt n 0)) by lia. Qed.

Lemma wrap_seconds n : 0 < n → n * second <= max_int64 → NewTicker (wrap_int64 (n * second)) = Ok (n * second).
Proof.
  unfold NewTicker, wrap_int64, max_int64, second. intros H1 H2. rewrite Z.mod_small by lia.
  replace (n * 10 ^ 9 + 2 ^ 63 - 2 ^ 63) with (n * 10 ^ 9) by lia.
  by rewrite (proj2 (Z.leb_gt _ _)) by lia.
Qed.
End intervals.

(** ** The bridge behind the interface *)

(** What the calls of the bridge draw: the clock, the device's figures, the
    host's load, the caches and snapshots, the random short id. *)
Record Draws := mkDraws {
  dr_ts : Z; dr_live : DeviceStats; dr_transfers : list PeerTransfer; dr_cpu : result float64;
  dr_mem : result float64; dr_cpus : Z; dr_memTotal : result Z; dr_speedtest : option Cache;
  dr_agent : option (gmap string string); dr_drop : option DropView; dr_shortID : string }.

Section bridge.
Context {srt : Sorting} {F : Type} (ParseKey : string → result (list Z)) (cfg : Config).
Context (sha3_Sum256 : list Z → list Z) (peerID did : string) (fw : option (FirewallOps F)).

Lemma BuildHeartbeat_total d st (g : Bridge F) : ∃ hb g',
  BuildHeartbeat cfg (dr_agent d) (dr_drop d) (dr_ts d) (dr_live d) (dr_cpu d) (dr_mem d)
    (dr_speedtest d) st g = (Ok hb, g') ∧ hb_Status hb = st.
Proof.
  unfold BuildHeartbeat. destruct (on_node (on_store Store.ListPeers) g) as [r g'] eqn:E.
  rewrite (try_bind _ _ _ _ _ E). by repeat eexists.
Qed.

Lemma BuildUsageReport_total d (g : Bridge F) : ∃ ur g',
  BuildUsageReport (dr_ts d) (dr_transfers d) g = (Ok ur, g').
Proof.
  unfold BuildUsageReport. destruct (on_node (on_store Store.ListPeers) g) as [[peers|e] g'] eqn:E;
    rewrite (try_bind _ _ _ _ _ E); [|by repeat eexists].
  unfold run. destruct (foldl _ _ _) as [lst out]. by repeat eexists.
Qed.

Lemma HandleCommand_answered d cmd (g : Bridge F) : ∃ res g',
  HandleCommand ParseKey cfg fw true true (dr_shortID d) cmd g = (Ok res, g') ∧
  res_RequestID res = cmd_RequestID cmd.
Proof.
  destruct (HandleCommand_spec ParseKey cfg fw true true (dr_shortID d) cmd g) as [(res & E & Hid & _) _].
  destruct (HandleCommand _ _ _ _ _ _ _ _) as [r g']. cbn in E. exists res, g'. by rewrite E.
Qed.

(** NewGatewayBridge, as nodeapp hands it to the client for both interfaces. *)
#[local] Instance bridge_backend : ControlBackend (Bridge F) Draws := {
  cb_BuildHello _ d g :=
    BuildHello cfg peerID did (dr_agent d) (dr_drop d) sha3_Sum256 (dr_cpus d) (dr_memTotal d) g;
  cb_BuildHeartbeat d st :=
    BuildHeartbeat cfg (dr_agent d) (dr_drop d) (dr_ts d) (dr_live d) (dr_cpu d) (dr_mem d)
      (dr_speedtest d) st;
  cb_BuildUsageReport d := BuildUsageReport (dr_ts d) (dr_transfers d);
  cb_Status := g_status;
  cb_HandleCommand d cmd := HandleCommand ParseKey cfg fw true true (dr_shortID d) cmd;
  cb_heartbeat_total := BuildHeartbeat_total;
  cb_usage_total := BuildUsageReport_total;
  cb_command_answered := HandleCommand_answered;
}.
End bridge.

Lemma command_served {B D} {CB : ControlBackend B D} rest onReconnect (s : Session B) (d : D) raw cmd :
  ss_return s = None → ss_reader s = None → command_of raw = Some cmd →
  ∃ res b' s' l, steps rest onReconnect [EFrame d raw; EReaderWrote None] s = Some s' ∧
    cb_HandleCommand d cmd (ss_node s) = (Ok res, b') ∧ res_RequestID res = cmd_RequestID cmd ∧
    ss_node s' = b' ∧ ss_return s' = None ∧ ss_sent s' = l ++ [FCommandResult res].
Proof.
  intros Hr Hrd Hc. destruct (read_step_command onReconnect d raw cmd s Hc) as (res & b' & E & Hid & Es).
  exists res, b'. eexists _, (ss_sent s).
  erewrite steps_cons by (eapply step_frame; done). rewrite Es.
  erewrite steps_cons by (eapply step_reader_wrote; done).
  by split.
Qed.

(** ** Properties *)

(** C12. The protocol of a session.  In every state a session can reach, over
    any interleaving of its goroutines, any changes the rest of the node makes
    meanwhile and any failures, the first frame sent
    is the hello of this node and no later one is a hello; the command results
    sent are, in order, exactly one for each well-formed command received
    whose answer could be written, with the request id of that command; the
    client reports itself connected until the session has returned and not
    after; and the gateway URL, node id and token never change. *)
Theorem session_protocol {B D} {CB : ControlBackend B D} rest onReconnect c (b : B) (d : D) evs s :
  steps rest onReconnect evs (session c b d None None) = Some s →
  (∃ l, ss_sent s = FHello (cb_BuildHello (cl_nodeID c) d b) :: l ∧ Forall (λ f, ¬ is_hello f) l) ∧
  result_ids (ss_sent s) = delivered None evs ∧
  (cl_connected (ss_client s) = true ↔ ss_return s = None) ∧
  same_identity c (ss_client s).
Proof.
  intros H. destruct (steps_inv _ _ _ _ _ _ (session_starts c b d) H) as ([H1 _ _ H4] & H2 & H3).
  split; [exact H1|]. split; [exact H3|]. split; [exact H4|]. exact H2.
Qed.

(** C28. Commands are answered: in every state of a session that has not
    returned, whatever the writer is doing, a well-formed command that
    arrives is executed on the node as it is then, and once the writes of the
    reader complete, the last frame sent is its result. *)
Theorem session_progress {B D} {CB : ControlBackend B D} rest onReconnect (s : Session B) (d : D) raw cmd :
  ss_return s = None → command_of raw = Some cmd →
  ∃ res b' s' l, steps rest onReconnect
      (match ss_reader s with Some _ => [EReaderWrote None] | None => [] end
       ++ [EFrame d raw; EReaderWrote None]) s = Some s' ∧
    cb_HandleCommand d cmd (ss_node s) = (Ok res, b') ∧ res_RequestID res = cmd_RequestID cmd ∧
    ss_node s' = b' ∧ ss_return s' = None ∧ ss_sent s' = l ++ [FCommandResult res].
Proof.
  intros Hr Hc. destruct (ss_reader s) as [f|] eqn:Erd; cbn [app].
  - erewrite steps_cons by (eapply step_reader_wrote; done).
    exact (command_served _ _ (set_reader None (add_sent f s)) d raw cmd Hr eq_refl Hc).
  - by apply command_served.
Qed.

(** The heartbeat interval the gateway asks for comes too late.  A
    hello_ack that arrives after the write pump has started leaves the
    interval of the session as it is, whatever happens afterwards; the next
    session starts with the interval asked for when that many seconds fit a
    duration, and when the product wraps to a number that is not positive its
    write pump panics. *)
Lemma hello_ack_late {B D} {CB : ControlBackend B D} rest onReconnect (s : Session B) z (d : D) raw n :
  ss_return s = None → ss_reader s = None → ss_interval s = Some z → is_ack raw n → 0 < n →
  ∃ s1, step rest onReconnect (EFrame d raw) s = Some s1 ∧
    (∀ evs s', steps rest onReconnect evs s1 = Some s' → ss_interval s' = Some z) ∧
    ∀ b d', let next := step rest onReconnect EWriterStart (session (ss_client s1) b d' None None) in
      (n * second <= max_int64 → ∃ s2, next = Some s2 ∧ ss_interval s2 = Some (n * second) ∧ ss_return s2 = None) ∧
      (wrap_int64 (n * second) <= 0 →
       ∃ s2 why, next = Some s2 ∧ ss_return s2 = Some (EPanic why)).
Proof.
  intros Hr Hrd Hz Ha Hn. destruct (handleFrame_ack onReconnect d raw n (ss_client s) (ss_node s) Ha Hn) as [b' Eh].
  assert (step rest onReconnect (EFrame d raw) s =
    Some (set_reader None (set_node b' (set_client (set_heartbeatSec n (ss_client s)) s)))) as E.
  { rewrite step_frame by done. unfold read_step. by rewrite Eh. }
  eexists. split; [exact E|]. split.
  { intros evs s' H. eapply steps_interval; [exact H|]. exact Hz. }
  intros b d'. cbn zeta. unfold step. cbn [session sendHello ss_return ss_interval wrap].
  change (ss_client (add_sent _ _)) with (set_heartbeatSec n (set_connected true (ss_client s))).
  cbn. rewrite ticker_after_ack by done. split; intros H.
  - rewrite wrap_seconds by done. eauto.
  - unfold NewTicker. rewrite (proj2 (Z.leb_le _ _)) by done. cbn. eauto.
Qed.

(** The two goroutines write to the connection at the same time.  In
    every state of a session in which both wait, a command of the gateway and
    a tick of the writer lead to a state in which each of them is in the
    middle of a write, in either order; the connection allows one writer at a
    time. *)
Lemma writers_overlap {B D} {CB : ControlBackend B D} rest onReconnect (s : Session B) (d d' : D) raw cmd :
  ss_return s = None → ss_reader s = None → ss_interval s ≠ None → ss_writer s = None →
  command_of raw = Some cmd →
  (∃ s' f g, steps rest onReconnect [EFrame d raw; ETick d' TPing] s = Some s' ∧
     ss_reader s' = Some f ∧ ss_writer s' = Some g) ∧
  (∃ s' f g, steps rest onReconnect [ETick d' TPing; EFrame d raw] s = Some s' ∧
     ss_reader s' = Some f ∧ ss_writer s' = Some g).
Proof.
  intros Hr Hrd Hi Hw Hc. destruct (ss_interval s) as [z|] eqn:Ez; [|done].
  destruct (read_step_command onReconnect d raw cmd s Hc) as (res & b' & _ & _ & E1).
  destruct (read_step_command onReconnect d raw cmd (tick_step d' TPing s) Hc) as (res2 & b2 & _ & _ & E2).
  split.
  - erewrite steps_cons by (eapply step_frame; done). rewrite E1.
    erewrite steps_cons by (eapply step_tick; done). cbn. eauto 10.
  - erewrite steps_cons by (eapply step_tick; done).
    erewrite steps_cons by (eapply step_frame; done). rewrite E2.
    cbn. eauto 10.
Qed.

(** A reading that a report was built from is not reported again. *)
Lemma usage_taken {srt : Sorting} {F} ts transfers (g : Bridge F) rep g1 pid :
  BuildUsageReport ts transfers g = (Ok rep, g1) →
  counter (last_of pid (g_lastUsage g)).1 → counter (last_of pid (g_lastUsage g)).2 →
  Forall (λ tr, counter (pt_RxBytes tr) ∧ counter (pt_TxBytes tr)) transfers →
  length (seen (g_node g) pid transfers) = 1%nat →
  ∀ ts2 rep2 g2, BuildUsageReport ts2 transfers (set_g_node (g_node g) g1) = (Ok rep2, g2) →
    total_rx pid (ur_Peers rep2) = 0.
Proof.
  intros E C1 C2 Hall Hone ts2 rep2 g2 E2.
  assert (g = set_g_node (g_node g) g) as Hsame by (by destruct g).
  rewrite Hsame in E. destruct (BuildUsageReport_inv _ _ _ _ _ _ pid E C1 C2 Hall) as (_ & _ & Hl).
  destruct (seen_counters (g_node g) pid _ Hall) as [S1 S2].
  destruct (BuildUsageReport_inv _ _ _ _ _ _ pid E2) as (-> & _ & _); [..|].
  - rewrite Hl. by apply last_reading_counter.
  - rewrite Hl. by apply last_reading_counter.
  - done.
  - rewrite Hl. cbn [fst]. destruct (seen _ _ _) as [|tr [|]]; try done. cbn.
    change (last_reading _ [pt_RxBytes tr]) with (pt_RxBytes tr). rewrite Z.leb_refl. lia.
Qed.

(** Traffic is lost with the connection.  When the write of a usage report
    fails, the session returns and the report is not sent, but the node has
    already taken its counters as reported: the next report over the same
    reading of a peer's counter reports nothing for that peer. *)
Lemma usage_lost_with_connection {srt : Sorting} {F} ParseKey cfg sha3 peerID did (fw : option (FirewallOps F))
    rest onReconnect (s : Session (Bridge F)) d e pid rep g1 :
  let _ : ControlBackend (Bridge F) Draws := bridge_backend ParseKey cfg sha3 peerID did fw in
  ss_return s = None → ss_interval s ≠ None → ss_writer s = None →
  BuildUsageReport (dr_ts d) (dr_transfers d) (ss_node s) = (Ok rep, g1) →
  counter (last_of pid (g_lastUsage (ss_node s))).1 → counter (last_of pid (g_lastUsage (ss_node s))).2 →
  Forall (λ tr, counter (pt_RxBytes tr) ∧ counter (pt_TxBytes tr)) (dr_transfers d) →
  length (seen (g_node (ss_node s)) pid (dr_transfers d)) = 1%nat →
  ∃ s', steps rest onReconnect [ETick d TUsage; EWriterWrote (Some e)] s = Some s' ∧
    ss_return s' = Some e ∧ ss_sent s' = ss_sent s ∧ ss_node s' = g1 ∧
    ∀ ts2 rep2 g2, BuildUsageReport ts2 (dr_transfers d) (set_g_node (g_node (ss_node s)) g1) = (Ok rep2, g2) →
      total_rx pid (ur_Peers rep2) = 0.
Proof.
  intros CB Hr Hi Hw E C1 C2 Hall Hone. destruct (ss_interval s) as [z|] eqn:Ez; [|done].
  assert (tick_step d TUsage s = set_writer (Some (FUsageReport rep)) (set_node g1 s)) as Et.
  { unfold tick_step, tick_frame.
    change (cb_BuildUsageReport d) with (BuildUsageReport (F := F) (dr_ts d) (dr_transfers d)).
    by rewrite (bind_Ok _ _ _ _ _ E). }
  erewrite steps_cons by (eapply step_tick; done). rewrite Et.
  erewrite steps_cons by (eapply step_writer_failed; done).
  eexists. split; [done|]. split; [done|]. split; [done|]. split; [done|].
  by eapply usage_taken.
Qed.

(** ** Witnesses *)

Definition wit_backend : ControlBackend (Bridge unit) Draws :=
  bridge_backend wit_ParseKey wit_cfg (λ b, b) "12D3" "did:erebrus:12D3" None.
#[local] Existing Instance wit_backend.

Definition wit_draws (rx : Z) : Draws :=
  mkDraws 7 (mkStats 0 0 0) [mkTransfer "k1" rx 0 7] (Ok f_zero) (Ok f_zero) 4 (Ok 0) None None None "ab".
Definition wit_client : Client := NewClient "https://gw.example/" "12D3" "tok".
Definition wit_rest (sent : list RestRequest) : result Z := Ok 204.
Definition wit_frame (t : string) (data : json) : GwFrame :=
  mkGwFrame (Ok (JObj [("type", JStr t); ("data", data)])) EmptyString.
Definition wit_command : GwFrame :=
  wit_frame TypeCommand (JObj [("action", JStr ActionDrain); ("request_id", JStr "r1")]).
Definition wit_ack (n : Z) : GwFrame :=
  wit_frame TypeHelloAck (JObj [("heartbeat_interval_sec", JNum n)]).

Definition wit_start : Session (Bridge unit) := session wit_client wit_bridge (wit_draws 0) None None.
(** Both goroutines wait. *)
Definition wit_idle : Session (Bridge unit) := set_interval (30 * second) wit_start.

Example dialled : dial_request wit_client = ("wss://gw.example/api/v2/nodes/ws", "Bearer tok").
Proof. reflexivity. Qed.

Definition wit_trace : list (Event (Bridge unit) Draws) :=
  [EWriterStart; EFrame (wit_draws 0) wit_command; ETick (wit_draws 0) THeartbeat; EReaderWrote None;
   EWriterWrote None; ECancel true].

Lemma session_protocol_witness :
  ∃ s, steps wit_rest None wit_trace wit_start = Some s ∧
    result_ids (ss_sent s) = ["r1"] ∧ length (ss_sent s) = 4%nat ∧ length (ss_rest s) = 1%nat ∧
    cl_connected (ss_client s) = false.
Proof.
  destruct (steps wit_rest None wit_trace wit_start) as [s|] eqn:E; [|vm_compute in E; discriminate E].
  exists s. destruct (session_protocol wit_rest None wit_client wit_bridge (wit_draws 0) wit_trace s E)
    as (_ & H & _).
  split; [reflexivity|]. split; [rewrite H; vm_compute; reflexivity|].
  revert E. vm_compute. intros [= <-]. vm_compute. auto.
Defined.

Lemma session_progress_witness :
  ∃ res b' s' l, steps wit_rest None [EFrame (wit_draws 0) wit_command; EReaderWrote None] wit_start = Some s' ∧
    cb_HandleCommand (wit_draws 0) (mkCommand ActionDrain "r1" EmptyString
      (Err (EMsg "unexpected end of JSON input")) (Err (EMsg "unexpected end of JSON input"))) wit_bridge = (Ok res, b') ∧
    res_RequestID res = "r1" ∧ ss_node s' = b' ∧ ss_return s' = None ∧ ss_sent s' = l ++ [FCommandResult res].
Proof.
  exact (session_progress wit_rest None wit_start (wit_draws 0) wit_command _ eq_refl eq_refl).
Defined.

Lemma hello_ack_late_witness :
  ∃ s1, step wit_rest None (EFrame (wit_draws 0) (wit_ack (10 ^ 10))) wit_idle = Some s1 ∧
    ∃ s2 why, step wit_rest None EWriterStart (session (ss_client s1) wit_bridge (wit_draws 0) None None) = Some s2 ∧
      ss_return s2 = Some (EPanic why).
Proof.
  destruct (hello_ack_late wit_rest None wit_idle (30 * second) (wit_draws 0) (wit_ack (10 ^ 10)) (10 ^ 10))
    as (s1 & E & _ & H); [reflexivity..| |reflexivity|].
  - eexists _, _. split; [reflexivity|]. split; reflexivity.
  - exists s1. split; [exact E|]. destruct (H wit_bridge (wit_draws 0)) as [_ Hp]. apply Hp.
    vm_compute. discriminate.
Defined.

Lemma writers_overlap_witness :
  ∃ s' f g, steps wit_rest None [EFrame (wit_draws 0) wit_command; ETick (wit_draws 0) TPing] wit_idle = Some s' ∧
     ss_reader s' = Some f ∧ ss_writer s' = Some g.
Proof.
  exact (proj1 (writers_overlap wit_rest None wit_idle (wit_draws 0) (wit_draws 0) wit_command _
    eq_refl eq_refl (λ H, match H in _ = o return match o with None => False | Some _ => True end with eq_refl => I end)
    eq_refl eq_refl)).
Defined.

Lemma usage_lost_with_connection_witness :
  ∃ rep g1 s', BuildUsageReport 7 [mkTransfer "k1" 100 0 7] wit_bridge = (Ok rep, g1) ∧
    total_rx "p1" (ur_Peers rep) = 100 ∧
    steps wit_rest None [ETick (wit_draws 100) TUsage; EWriterWrote (Some (EMsg "broken pipe"))] wit_idle = Some s' ∧
    ss_sent s' = ss_sent wit_idle ∧
    ∀ ts2 rep2 g2, BuildUsageReport ts2 [mkTransfer "k1" 100 0 7] (set_g_node wit_node g1) = (Ok rep2, g2) →
      total_rx "p1" (ur_Peers rep2) = 0.
Proof.
  assert (∀ z, 0 <= z <= 100 → counter z) as Hc by (unfold counter, max_int64; lia).
  destruct (BuildUsageReport 7 [mkTransfer "k1" 100 0 7] wit_bridge) as [[rep|e] g1] eqn:E;
    [|vm_compute in E; discriminate E].
  destruct (usage_lost_with_connection wit_ParseKey wit_cfg (λ b, b) "12D3" "did:erebrus:12D3" None
    wit_rest None wit_idle (wit_draws 100) (EMsg "broken pipe") "p1" rep g1) as (s' & Hs & _ & Hsent & _ & H).
  - reflexivity.
  - discriminate.
  - reflexivity.
  - exact E.
  - apply Hc. vm_compute. split; discriminate.
  - apply Hc. vm_compute. split; discriminate.
  - apply Forall_singleton. split; apply Hc; cbn; lia.
  - vm_compute. reflexivity.
  - exists rep, g1, s'. split; [done|]. split; [revert E; vm_compute; intros [= <- _]; reflexivity|].
    split; [exact Hs|]. split; [exact Hsent|]. exact H.
Defined.
