(* ===== verification/P2P.v ===== *)
(** * The libp2p identity and host: internal/p2p

    The node's peer id and DID, and Kubo's identity, are derived from the same
    mnemonic over different child keys; the libp2p libraries are parameters.
    The host is modelled by the calls made on those libraries, whose failures
    are a schedule. *)
From S2P Require Import Prelude GoStrings GoUrl Sha256 ConfigData Config Wallet DropClient DropService.

(** ** encoding/base64: StdEncoding *)

Definition base64_alphabet : string :=
  "ABCDEFGHIJKLMNOPQRSTUVWXYZabcdefghijklmnopqrstuvwxyz0123456789+/".
Definition base64_digit (n : Z) : Ascii.ascii :=
  default "="%char (String.get (Z.to_nat n) base64_alphabet).

Fixpoint base64_Encode (bs : list Z) : string :=
  match bs with
  | [] => EmptyString
  | [a] => String (base64_digit (a / 4)) (String (base64_digit (a mod 4 * 16)) "==")
  | [a; b] =>
      String (base64_digit (a / 4)) (String (base64_digit (a mod 4 * 16 + b / 16))
        (String (base64_digit (b mod 16 * 4)) "="))
  | a :: b :: c :: bs =>
      String (base64_digit (a / 4)) (String (base64_digit (a mod 4 * 16 + b / 16))
        (String (base64_digit (b mod 16 * 4 + c / 64)) (String (base64_digit (c mod 64)) (base64_Encode bs))))
  end.

Example base64_ex : base64_Encode (bytes_of "erebrus") = "ZXJlYnJ1cw==".
Proof. reflexivity. Qed.

(** ** identity.go *)

Definition DIDPrefix : string := "did:erebrus:".
Definition kuboIdentityDomain : string := "erebrus/drop/kubo/v1".
Definition FirstHardenedChild : Z := 2 ^ 31.

(** What libp2p and go-bip39 provide; a reader is asked for a number of bytes
    and answers with the bytes it wrote and the count it claims. *)
Record P2PLib (Priv : Type) := mkP2PLib {
  GenerateKeyPairWithReader : (nat → list Z * Z) → result Priv;
  IDFromPrivateKey : Priv → result string;
  MarshalPrivateKey : Priv → result (list Z);
  NewMnemonic : list Z → result string }.
Arguments mkP2PLib {_}.
Arguments GenerateKeyPairWithReader {_}.
Arguments IDFromPrivateKey {_}.
Arguments MarshalPrivateKey {_}.
Arguments NewMnemonic {_}.

(** deterministicReader.Read copies what fits and claims the whole seed. *)
Definition deterministicRead (seed : list Z) (len : nat) : list Z * Z :=
  (take len seed, Z.of_nat (length seed)).

Section identity.
Context {Account HDKey ECKey Priv : Type} (L : WalletLib Account HDKey ECKey) (P : P2PLib Priv).

Definition wrapr {A} (pre : string) (r : result A) : result A :=
  match r with Ok a => Ok a | Err e => Err (EWrap pre e EmptyString) end.

Definition child_key (mnemonic : string) (index : Z) : result (list Z) :=
  if String.eqb mnemonic EmptyString then Err (EMsg "mnemonic is empty")
  else
    masterKey ← wrapr "master key: " (NewMasterKey L (NewSeed L mnemonic EmptyString));
    childKey ← wrapr "child key: " (NewChildKey L masterKey index);
    Ok (hd_Key L childKey).

Definition generate (hashed : list Z) : result Priv :=
  wrapr "libp2p key: " (GenerateKeyPairWithReader P (deterministicRead hashed)).

Definition DeriveIdentity (mnemonic : string) : result Priv :=
  key ← child_key mnemonic FirstHardenedChild;
  generate (Sum256 key).

Definition kubo_material (key : list Z) : list Z := bytes_of kuboIdentityDomain ++ key.

(** The peer id and the private key of the config file. *)
Definition DeriveKuboIdentity (mnemonic : string) : result (string * string) :=
  key ← child_key mnemonic (FirstHardenedChild + 1);
  priv ← generate (Sum256 (kubo_material key));
  peerID ← wrapr "peer ID: " (IDFromPrivateKey P priv);
  encoded ← wrapr "marshal private key: " (MarshalPrivateKey P priv);
  Ok (peerID, base64_Encode encoded).

(** [entropy]: the 128 random bits, or the error of drawing them. *)
Definition GenerateMnemonic (entropy : result (list Z)) : result string :=
  e ← wrapr "entropy: " entropy; NewMnemonic P e.

Definition PeerIDFromMnemonic (mnemonic : string) : result (string * string) :=
  priv ← DeriveIdentity mnemonic;
  id ← IDFromPrivateKey P priv;
  Ok (id, DIDPrefix +:+ id).

(** Kubo's key is derived from other bytes than the node's: with child keys of
    one length, as BIP 32 keys have, what is hashed differs. *)
Lemma kubo_material_separate mnemonic k0 k1 :
  child_key mnemonic FirstHardenedChild = Ok k0 →
  child_key mnemonic (FirstHardenedChild + 1) = Ok k1 →
  length k0 = length k1 → kubo_material k1 ≠ k0.
Proof.
  intros _ _ Hl E. apply (f_equal length) in E. unfold kubo_material in E. rewrite length_app, Hl in E.
  change (length (bytes_of kuboIdentityDomain)) with 20%nat in E. lia.
Qed.

(** A DID always names the peer id it comes with. *)
Lemma did_of_peer mnemonic id did :
  PeerIDFromMnemonic mnemonic = Ok (id, did) →
  did = DIDPrefix +:+ id ∧ mnemonic ≠ EmptyString ∧
  ∃ priv, DeriveIdentity mnemonic = Ok priv ∧ IDFromPrivateKey P priv = Ok id.
Proof.
  unfold PeerIDFromMnemonic. intros (priv & Ep & H)%bind_result_ok.
  apply bind_result_ok in H as (id' & Ei & [= -> <-]). split; [done|]. split; [|eauto].
  intros ->. discriminate Ep.
Qed.

(** A seed of 32 bytes, as Sum256 returns, is read whole by a 32-byte read,
    and the count claimed is right. *)
Lemma deterministicRead_exact seed :
  deterministicRead seed (length seed) = (seed, Z.of_nat (length seed)).
Proof. unfold deterministicRead. by rewrite firstn_all. Qed.
End identity.

(** ** p2p.go: the host *)

Definition rendezvous : string := "erebrus".

Inductive HostCall (Priv : Type) :=
| NewHost (addr : string) (priv : Priv)
| CloseHost
| NewDHT
| CloseDHT
| Bootstrap
| Connect (addr : string)
| Advertise (tag : string).
Arguments NewHost {Priv}. Arguments CloseHost {Priv}. Arguments NewDHT {Priv}. Arguments CloseDHT {Priv}.
Arguments Bootstrap {Priv}. Arguments Connect {Priv}. Arguments Advertise {Priv}.

(** The calls made so far and the errors of the calls to come. *)
Record Net (Priv : Type) := mkNet { nt_calls : list (HostCall Priv); nt_errs : list (option error) }.
Arguments mkNet {Priv}. Arguments nt_calls {Priv}. Arguments nt_errs {Priv}.

(** The running node: its peer id and DID. *)
Record P2PNode := mkP2PNode { pn_PeerID : string; pn_did : string }.

Section host.
Context {Account HDKey ECKey Priv : Type} (L : WalletLib Account HDKey ECKey) (P : P2PLib Priv).
(** Parsing of a multiaddr that names a peer. *)
Context (AddrInfo : string → result unit).

Definition call (c : HostCall Priv) : M (Net Priv) unit := run (λ n,
  (match nt_errs n with Some e :: _ => Err e | _ => Ok tt end,
   mkNet (nt_calls n ++ [c]) (tail (nt_errs n)))).

Definition connectBootstrap (addr : string) : M (Net Priv) unit :=
  _ ← lift (AddrInfo addr);
  call (Connect addr).

(** [hostID]: the id of the host, computed from its key. *)
Definition StartHost (hostID : Priv → string) (mnemonic listenPort gatewayMultiaddr : string)
  : M (Net Priv) P2PNode :=
  priv ← lift (DeriveIdentity L P mnemonic);
  h ← try (call (NewHost ("/ip4/0.0.0.0/tcp/" +:+ listenPort) priv));
  match h with
  | Err e => fail (EWrap "libp2p host: " e EmptyString)
  | Ok _ =>
      kad ← try (call NewDHT);
      match kad with
      | Err e => _ ← try (call CloseHost); fail (EWrap "dht: " e EmptyString)
      | Ok _ =>
          _ ← try (call Bootstrap);
          _ ← (if String.eqb gatewayMultiaddr EmptyString then mret (Ok tt)
               else try (connectBootstrap gatewayMultiaddr));
          _ ← try (call (Advertise rendezvous));
          mret (mkP2PNode (hostID priv) (DIDPrefix +:+ hostID priv))
      end
  end.

Definition CloseNode : M (Net Priv) unit :=
  _ ← try (call CloseDHT);
  call CloseHost.

Lemma call_run c n :
  call c n = (match nt_errs n with Some e :: _ => Err e | _ => Ok tt end,
              mkNet (nt_calls n ++ [c]) (tail (nt_errs n))).
Proof. done. Qed.

Lemma connect_run gw n : ∃ r n' c, connectBootstrap gw n = (r, n') ∧
  nt_calls n' = nt_calls n ++ c ∧ (c = [] ∨ c = [Connect gw]).
Proof.
  unfold connectBootstrap. destruct (AddrInfo gw) as [[]|e].
  - rewrite (bind_Ok _ _ n tt n), call_run by done. eexists _, _, [Connect gw]. eauto.
  - exists (Err e), n, []. rewrite app_nil_r. eauto.
Qed.

(** A start that succeeds has opened one host with the key of the mnemonic and
    advertised it; one that fails leaves no host open: it made no host, or the
    host could not be made, or it was closed again. *)
Lemma StartHost_calls hostID mnemonic port gw n r n' :
  StartHost hostID mnemonic port gw n = (r, n') →
  ∃ l, nt_calls n' = nt_calls n ++ l ∧
    match DeriveIdentity L P mnemonic, r with
    | Err _, r => l = [] ∧ is_ok r = false
    | Ok priv, Err _ =>
        l = [NewHost ("/ip4/0.0.0.0/tcp/" +:+ port) priv] ∨
        l = [NewHost ("/ip4/0.0.0.0/tcp/" +:+ port) priv; NewDHT; CloseHost]
    | Ok priv, Ok nd =>
        pn_PeerID nd = hostID priv ∧ pn_did nd = DIDPrefix +:+ hostID priv ∧
        ∃ c, l = [NewHost ("/ip4/0.0.0.0/tcp/" +:+ port) priv; NewDHT; Bootstrap] ++ c ++ [Advertise rendezvous] ∧
          (c = [] ∨ c = [Connect gw] ∧ gw ≠ EmptyString)
    end.
Proof.
  unfold StartHost. destruct (DeriveIdentity L P mnemonic) as [priv|e].
  2:{ intros [= <- <-]. exists []. by rewrite app_nil_r. }
  rewrite (bind_Ok _ _ n priv n) by done. rewrite (try_bind _ _ _ _ _ (call_run _ _)).
  destruct (match nt_errs n with Some e :: _ => Err e | _ => Ok tt end) as [[]|e].
  2:{ intros [= <- <-]. eauto. }
  rewrite (try_bind _ _ _ _ _ (call_run _ _)). cbn [nt_errs nt_calls].
  destruct (match tail (nt_errs n) with Some e :: _ => Err e | _ => Ok tt end) as [[]|e].
  2:{ rewrite (try_bind _ _ _ _ _ (call_run _ _)). intros [= <- <-]. cbn. rewrite <- !app_assoc. cbn. eauto. }
  rewrite (try_bind _ _ _ _ _ (call_run _ _)). cbn [nt_errs nt_calls].
  destruct (String.eqb_spec gw EmptyString) as [->|Hgw].
  { change (mret ?x ≫= ?f) with (f x); cbv beta. rewrite (try_bind _ _ _ _ _ (call_run _ _)).
    intros [= <- <-]. cbn. rewrite <- !app_assoc. eexists. split; [done|]. split; [done|]. split; [done|].
    exists []. auto. }
  set (n1 := mkNet _ _). destruct (connect_run gw n1) as (r1 & n2 & c & E & Ec & Hc).
  rewrite (try_bind _ _ _ _ _ E), (try_bind _ _ _ _ _ (call_run _ _)). intros [= <- <-]. cbn. rewrite Ec.
  cbn. rewrite <- !app_assoc. cbn. eexists. split; [done|]. split; [done|]. split; [done|].
  exists c. split; [done|]. destruct Hc as [->| ->]; auto.
Qed.
End host.
