(* ===== verification/Schema.v ===== *)
(** * Opening the store: migrations and the schema (internal/store/store.go)

    Open connects to the database file, runs the embedded migrations in the
    order of their names, and restricts the permissions of the file.  The
    migrations are the SQL texts of internal/store/migrations, read here by a
    parser of the statements they use (CREATE TABLE and CREATE INDEX, both IF
    NOT EXISTS); running them builds a catalogue of the declared columns, keys
    and references.

    The connection has the pragmas of the data source name that Open writes;
    the driver runs each [_pragma] of its query on every connection, and SQLite
    checks references only on a connection with foreign_keys on.

    The theorem connects the texts with [StoreDB]: after any number of attempts,
    each stopped anywhere, a successful Open leaves a catalogue and a connection
    that enforce exactly the constraints of [db_wf], and never touches the rows. *)
From Stdlib Require Import OrderedTypeEx.
From S2P Require Import Prelude GoStrings GoLines StoreDB.

(** ** The embedded files *)

Definition migration_0001 : string :=
"-- Erebrus node v2 local state.
CREATE TABLE IF NOT EXISTS peers (
    id               TEXT PRIMARY KEY,            -- gateway-issued VPN client UUID
    name             TEXT NOT NULL,
    wallet           TEXT NOT NULL DEFAULT '',
    wg_public_key    TEXT NOT NULL UNIQUE,
    wg_allowed_ip    TEXT NOT NULL UNIQUE,        -- e.g. 10.0.0.7/32
    wg_preshared_key TEXT NOT NULL DEFAULT '',
    proxy_uuid       TEXT NOT NULL UNIQUE,        -- VLESS user id (Phase 2)
    proxy_password   TEXT NOT NULL DEFAULT '',    -- Hysteria2 password (Phase 2)
    enabled          INTEGER NOT NULL DEFAULT 1,
    created_at       INTEGER NOT NULL,
    updated_at       INTEGER NOT NULL,
    expires_at       INTEGER NOT NULL DEFAULT 0   -- unix seconds; 0 = never
);

CREATE INDEX IF NOT EXISTS idx_peers_enabled ON peers(enabled);

-- Key/value for node-level settings: WG server keypair, REALITY keys, ports.
CREATE TABLE IF NOT EXISTS node_settings (
    key   TEXT PRIMARY KEY,
    value TEXT NOT NULL
);
".

Definition migration_0002 : string :=
"-- Carrier credential rotation audit trail (hashes only, no plaintext history).
CREATE TABLE IF NOT EXISTS carrier_credentials (
    id          TEXT PRIMARY KEY,
    transport   TEXT NOT NULL,
    secret_hash TEXT NOT NULL,
    created_at  INTEGER NOT NULL,
    expires_at  INTEGER NOT NULL DEFAULT 0,
    active      INTEGER NOT NULL DEFAULT 1,
    scope       TEXT NOT NULL DEFAULT 'node',
    peer_id     TEXT NOT NULL DEFAULT ''
);

CREATE INDEX IF NOT EXISTS idx_carrier_credentials_active ON carrier_credentials(active, expires_at);".

Definition migration_0003 : string :=
"CREATE TABLE IF NOT EXISTS services (
    id            TEXT PRIMARY KEY,
    name          TEXT NOT NULL,
    type          TEXT NOT NULL DEFAULT '',
    protocol      TEXT NOT NULL DEFAULT 'http',
    internal_addr TEXT NOT NULL,
    port          INTEGER NOT NULL,
    owner_peer_id TEXT NOT NULL DEFAULT '',
    owner_did     TEXT NOT NULL DEFAULT '',
    visibility    TEXT NOT NULL DEFAULT 'private',
    auth_mode     TEXT NOT NULL DEFAULT 'vpn-peer',
    tags          TEXT NOT NULL DEFAULT '',
    created_at    INTEGER NOT NULL,
    updated_at    INTEGER NOT NULL
);

CREATE INDEX IF NOT EXISTS idx_services_name ON services(name);
CREATE INDEX IF NOT EXISTS idx_services_visibility ON services(visibility);".

Definition migration_0004 : string :=
"CREATE TABLE IF NOT EXISTS service_acls (
    id         TEXT PRIMARY KEY,
    service_id TEXT NOT NULL,
    subject    TEXT NOT NULL,
    action     TEXT NOT NULL DEFAULT 'connect',
    created_at INTEGER NOT NULL,
    FOREIGN KEY (service_id) REFERENCES services(id) ON DELETE CASCADE
);

CREATE INDEX IF NOT EXISTS idx_service_acls_service ON service_acls(service_id);".

Definition migrationsFS : list (string * string) :=
  [("0001_init.sql", migration_0001); ("0002_carrier_credentials.sql", migration_0002);
   ("0003_services.sql", migration_0003); ("0004_service_acls.sql", migration_0004)].

(** ** Tokens *)

Inductive token := TWord (s : string) | TText (s : string) | TPunct (c : Ascii.ascii).

(** What has been read of the current token, last character first. *)
Inductive lexing := LNone | LWord (acc : list Ascii.ascii) | LText (acc : list Ascii.ascii) | LDash | LComment.

Definition of_rev (acc : list Ascii.ascii) : string := String.string_of_list_ascii (rev acc).
Definition is_word (c : Ascii.ascii) : bool :=
  is_digit c || is_upper c || is_lower c || (code c =? 95).
Definition is_punct (c : Ascii.ascii) : bool :=
  (code c =? 40) || (code c =? 41) || (code c =? 44) || (code c =? 59).

(** The first character of a token, after a blank or a finished token. *)
Definition lex_start (c : Ascii.ascii) : option (lexing * list token) :=
  if is_space c then Some (LNone, [])
  else if is_word c then Some (LWord [c], [])
  else if code c =? 39 then Some (LText [], [])
  else if code c =? 45 then Some (LDash, [])
  else if is_punct c then Some (LNone, [TPunct c])
  else None.

Fixpoint lex (st : lexing) (l : list Ascii.ascii) : option (list token) :=
  match l with
  | [] => match st with
          | LNone | LComment => Some []
          | LWord acc => Some [TWord (of_rev acc)]
          | LText _ | LDash => None
          end
  | c :: l =>
      match st with
      | LComment => lex (if code c =? 10 then LNone else LComment) l
      | LDash => if code c =? 45 then lex LComment l else None
      | LText acc =>
          if code c =? 39 then ts ← lex LNone l; Some (TText (of_rev acc) :: ts) else lex (LText (c :: acc)) l
      | LWord acc =>
          if is_word c then lex (LWord (c :: acc)) l
          else '(st, ts) ← lex_start c; rest ← lex st l; Some (TWord (of_rev acc) :: ts ++ rest)
      | LNone => '(st, ts) ← lex_start c; rest ← lex st l; Some (ts ++ rest)
      end
  end.

Definition tokens (text : string) : option (list token) := lex LNone (String.list_ascii_of_string text).

(** ** Statements *)

Record Column := mkColumn {
  cn_name : string; cn_type : string; cn_primary : bool; cn_notnull : bool; cn_unique : bool;
  cn_default : option string;
}.
Record ForeignKey := mkFK { fk_column : string; fk_table : string; fk_ref : string; fk_cascade : bool }.
Record Table := mkTable { tb_name : string; tb_columns : list Column; tb_fks : list ForeignKey }.
Record Index := mkIndex { ix_name : string; ix_table : string; ix_columns : list string }.

Inductive stmt := CreateTable (t : Table) | CreateIndex (i : Index).

(** Key words in any case; a punctuation mark as itself. *)
Definition kw (t : token) : string :=
  match t with TWord s => ToUpper s | TText _ => EmptyString | TPunct c => String c EmptyString end.

(** The words that a list of tokens has to begin with. *)
Fixpoint expect (ks : list string) (ts : list token) : option (list token) :=
  match ks, ts with
  | [], _ => Some ts
  | k :: ks, t :: ts => if String.eqb (kw t) k then expect ks ts else None
  | _ :: _, [] => None
  end.

Definition ident (ts : list token) : option (string * list token) :=
  match ts with TWord s :: ts => Some (s, ts) | _ => None end.

(** Split at the commas that are not inside parentheses. *)
Fixpoint split_items (depth : nat) (cur : list token) (ts : list token) : list (list token) :=
  match ts with
  | [] => [rev cur]
  | t :: ts =>
      let k := kw t in
      if String.eqb k "," && (depth =? 0)%nat then rev cur :: split_items depth [] ts
      else split_items (if String.eqb k "(" then S depth else if String.eqb k ")" then pred depth else depth)
             (t :: cur) ts
  end.

(** The constraints of a column, in any order. *)
Fixpoint column_options (c : Column) (fuel : nat) (ts : list token) : option Column :=
  match fuel, ts with
  | _, [] => Some c
  | O, _ => None
  | S fuel, _ =>
      match expect ["PRIMARY"; "KEY"] ts with
      | Some ts => column_options (mkColumn (cn_name c) (cn_type c) true (cn_notnull c) (cn_unique c) (cn_default c)) fuel ts
      | None =>
      match expect ["NOT"; "NULL"] ts with
      | Some ts => column_options (mkColumn (cn_name c) (cn_type c) (cn_primary c) true (cn_unique c) (cn_default c)) fuel ts
      | None =>
      match expect ["UNIQUE"] ts with
      | Some ts => column_options (mkColumn (cn_name c) (cn_type c) (cn_primary c) (cn_notnull c) true (cn_default c)) fuel ts
      | None =>
      match expect ["DEFAULT"] ts with
      | Some (TWord v :: ts | TText v :: ts) =>
          column_options (mkColumn (cn_name c) (cn_type c) (cn_primary c) (cn_notnull c) (cn_unique c) (Some v)) fuel ts
      | _ => None
      end end end end
  end.

Definition parse_fk (ts : list token) : option ForeignKey :=
  '(c, ts) ← ident ts;
  ts ← expect [")"; "REFERENCES"] ts;
  '(t, ts) ← ident ts;
  ts ← expect ["("] ts;
  '(r, ts) ← ident ts;
  ts ← expect [")"] ts;
  match ts with
  | [] => Some (mkFK c t r false)
  | _ => match expect ["ON"; "DELETE"; "CASCADE"] ts with Some [] => Some (mkFK c t r true) | _ => None end
  end.

Definition parse_item (ts : list token) : option (Column + ForeignKey) :=
  match expect ["FOREIGN"; "KEY"; "("] ts with
  | Some ts => inr <$> parse_fk ts
  | None =>
      '(name, ts) ← ident ts;
      '(type, ts) ← ident ts;
      inl <$> column_options (mkColumn name type false false false None) (length ts) ts
  end.

Fixpoint lefts {A B} (l : list (A + B)) : list A :=
  match l with [] => [] | inl a :: l => a :: lefts l | inr _ :: l => lefts l end.
Fixpoint rights {A B} (l : list (A + B)) : list B :=
  match l with [] => [] | inr b :: l => b :: rights l | inl _ :: l => rights l end.

(** The text between the opening parenthesis and the one that ends the list. *)
Definition body_of (ts : list token) : option (list token) :=
  match rev ts with TPunct c :: r => if code c =? 41 then Some (rev r) else None | _ => None end.

Definition parse_stmt (ts : list token) : option stmt :=
  match expect ["CREATE"; "TABLE"; "IF"; "NOT"; "EXISTS"] ts with
  | Some ts =>
      '(name, ts) ← ident ts;
      ts ← expect ["("] ts;
      body ← body_of ts;
      items ← mapM parse_item (split_items 0 [] body);
      Some (CreateTable (mkTable name (lefts items) (rights items)))
  | None =>
      ts ← expect ["CREATE"; "INDEX"; "IF"; "NOT"; "EXISTS"] ts;
      '(name, ts) ← ident ts;
      ts ← expect ["ON"] ts;
      '(table, ts) ← ident ts;
      ts ← expect ["("] ts;
      body ← body_of ts;
      cols ← mapM (λ t, match t with [TWord s] => Some s | _ => None end) (split_items 0 [] body);
      Some (CreateIndex (mkIndex name table cols))
  end.

(** The statements of a script, each ended by a semicolon or by the end. *)
Fixpoint split_stmts (cur : list token) (ts : list token) : list (list token) :=
  match ts with
  | [] => match cur with [] => [] | _ => [rev cur] end
  | t :: ts => if String.eqb (kw t) ";" then rev cur :: split_stmts [] ts else split_stmts (t :: cur) ts
  end.

Example migration_0004_parsed :
  (ts ← tokens migration_0004; mapM parse_stmt (split_stmts [] ts)) =
  Some [CreateTable (mkTable "service_acls"
          [mkColumn "id" "TEXT" true false false None; mkColumn "service_id" "TEXT" false true false None;
           mkColumn "subject" "TEXT" false true false None;
           mkColumn "action" "TEXT" false true false (Some "connect");
           mkColumn "created_at" "INTEGER" false true false None]
          [mkFK "service_id" "services" "id" true]);
        CreateIndex (mkIndex "idx_service_acls_service" "service_acls" ["service_id"])].
Proof. vm_compute. reflexivity. Qed.

(** ** The catalogue *)

Record Catalog := mkCatalog { ct_tables : list Table; ct_indexes : list Index }.
Definition empty_catalog : Catalog := mkCatalog [] [].

Definition has_table (n : string) (c : Catalog) : bool :=
  existsb (λ t, String.eqb (tb_name t) n) (ct_tables c).
Definition has_index (n : string) (c : Catalog) : bool :=
  existsb (λ i, String.eqb (ix_name i) n) (ct_indexes c).
Definition table_of (n : string) (c : Catalog) : option Table :=
  find_first (λ t, String.eqb (tb_name t) n) (ct_tables c).

Definition apply_stmt (s : stmt) (c : Catalog) : result Catalog :=
  match s with
  | CreateTable t =>
      if has_table (tb_name t) c then Ok c else Ok (mkCatalog (ct_tables c ++ [t]) (ct_indexes c))
  | CreateIndex i =>
      if has_index (ix_name i) c then Ok c
      else match table_of (ix_table i) c with
           | None => Err (EMsg ("no such table: main." +:+ ix_table i))
           | Some t =>
               if forallb (λ col, existsb (λ k, String.eqb (cn_name k) col) (tb_columns t)) (ix_columns i)
               then Ok (mkCatalog (ct_tables c) (ct_indexes c ++ [i]))
               else Err (EMsg ("table " +:+ ix_table i +:+ " has no such column"))
           end
  end.

(** ** The database file *)

(** The catalogue and the rows, the permissions of the file and its sidecars,
    the outcomes of the chmod calls to come, whether a handle is open, and the
    pragmas of its connection, the last of a name being in force. *)
Record DBFile := mkFile {
  f_cat : Catalog; f_db : DB; f_modes : gmap string Z; f_chmod : list (option error); f_open : bool;
  f_pragmas : list (string * string);
}.

Definition set_cat (c : Catalog) (f : DBFile) : DBFile :=
  mkFile c (f_db f) (f_modes f) (f_chmod f) (f_open f) (f_pragmas f).
Definition set_open (b : bool) (f : DBFile) : DBFile :=
  mkFile (f_cat f) (f_db f) (f_modes f) (f_chmod f) b (f_pragmas f).
Definition set_modes (m : gmap string Z) (l : list (option error)) (f : DBFile) : DBFile :=
  mkFile (f_cat f) (f_db f) m l (f_open f) (f_pragmas f).
Definition on_rows {A} (m : M DB A) : M DBFile A :=
  zoom f_db (λ d f, mkFile (f_cat f) d (f_modes f) (f_chmod f) (f_open f) (f_pragmas f)) m.

Definition pragma (name : string) (l : list (string * string)) : option string :=
  snd <$> find_first (λ e, String.eqb e.1 name) (reverse l).

(** The driver's reading of a data source name: the [_pragma=name(value)]
    parameters of what follows the first question mark, in order. *)
Definition pragma_of (param : string) : option (string * string) :=
  call ← strip_prefix "_pragma=" param;
  '(name, value) ← cut "(" call;
  Some (name, trim_right (λ c, Ascii.eqb c ")"%char) value).
Definition dsn_pragmas (dsn : string) : list (string * string) :=
  match cut "?" dsn with
  | None => []
  | Some (_, query) => omap pragma_of (Split query "&"%char)
  end.

Definition dsn (path : string) : string :=
  "file:" +:+ path +:+
  "?_pragma=busy_timeout(5000)&_pragma=journal_mode(WAL)&_pragma=foreign_keys(1)".

(** One statement: a driver call, which may fail, then its effect. *)
Definition exec_stmt (ts : list token) : M DBFile unit :=
  _ ← on_rows driver;
  match parse_stmt ts with
  | None => fail (EMsg "SQL logic error: syntax error")
  | Some s => run (λ f, match apply_stmt s (f_cat f) with
                        | Ok c => (Ok tt, set_cat c f)
                        | Err e => (Err e, f)
                        end)
  end.

(** db.Exec of a script: its statements in turn, outside a transaction. *)
Definition Exec (text : string) : M DBFile unit :=
  match tokens text with
  | None => fail (EMsg "SQL logic error: unrecognized token")
  | Some ts => for_each exec_stmt (split_stmts [] ts)
  end.

Definition ReadFile (fs : list (string * string)) (path : string) : result string :=
  match find_first (λ e, String.eqb ("migrations/" +:+ e.1) path) fs with
  | Some (_, b) => Ok b
  | None => Err (EMsg ("open " +:+ path +:+ ": file does not exist"))
  end.

Section open.
Context {srt : Sorting}.

Definition migrate (fs : list (string * string)) : M DBFile unit :=
  let names := sort_by string_ltb (fst <$> fs) in
  for_each (λ name,
    b ← lift (ReadFile fs ("migrations/" +:+ name));
    r ← try (Exec b);
    match r with
    | Err e => fail (EWrap ("migration " +:+ name +:+ ": ") e EmptyString)
    | Ok _ => mret tt
    end) names.

Definition chmod (p : string) (mode : Z) : M DBFile unit := run (λ f,
  let '(e, l) := match f_chmod f with e :: l => (e, l) | [] => (None, []) end in
  match e, f_modes f !! p with
  | Some e, _ => (Err e, set_modes (f_modes f) l f)
  | None, None => (Err (EMsg ("chmod " +:+ p +:+ ": no such file or directory")),
                   set_modes (f_modes f) l f)
  | None, Some _ => (Ok tt, set_modes (<[p := mode]> (f_modes f)) l f)
  end).

(** 0o600 *)
Definition owner_only : Z := 384.

(** The database file and the sidecars of its journal. *)
Definition db_files (path : string) : list string := [path; path +:+ "-wal"; path +:+ "-shm"].

Definition restrictPerms (path : string) : M DBFile unit :=
  for_each (λ p, _ ← try (chmod p owner_only); mret tt) (db_files path).

Definition Close : M DBFile unit := run (λ f, (Ok tt, set_open false f)).

(** The files that SQLite makes with permissions [mode] where there are none:
    the database, and the sidecars when the journal is a write-ahead log. *)
Definition created (path : string) (mode : Z) (pragmas : list (string * string)) : gmap string Z :=
  if bool_decide (pragma "journal_mode" pragmas = Some "WAL")
  then {[path := mode; path +:+ "-wal" := mode; path +:+ "-shm" := mode]}
  else {[path := mode]}.

Definition connect (path : string) (mode : Z) : M DBFile unit := run (λ f,
  let pragmas := dsn_pragmas (dsn path) in
  (Ok tt, mkFile (f_cat f) (f_db f) (f_modes f ∪ created path mode pragmas) (f_chmod f) true pragmas)).

(** [opened]: the error of sql.Open.  [mode]: the permissions that SQLite gives
    the files it creates.  sql.Open connects at the first statement, which is
    one of migrate; all statements use that one connection. *)
Definition Open (opened : option error) (mode : Z) (path : string) : M DBFile unit :=
  match opened with
  | Some e => fail e
  | None =>
      _ ← connect path mode;
      r ← try (migrate migrationsFS);
      match r with
      | Err e => _ ← Close; fail e
      | Ok _ => restrictPerms path
      end
  end.
End open.

(** The catalogue that the migrations declare. *)
Definition schema : Catalog :=
  Eval vm_compute in f_cat (migrate migrationsFS (mkFile empty_catalog empty_db ∅ [] true [])).2.

Example schema_names :
  tb_name <$> ct_tables schema = ["peers"; "node_settings"; "carrier_credentials"; "services"; "service_acls"] ∧
  length (ct_indexes schema) = 5%nat.
Proof. split; reflexivity. Qed.

(** ** The stages of a migration *)

Fixpoint list_eqb {A} (eqb : A → A → bool) (l k : list A) : bool :=
  match l, k with
  | [], [] => true
  | x :: l, y :: k => eqb x y && list_eqb eqb l k
  | _, _ => false
  end.
Definition column_eqb (c d : Column) : bool :=
  String.eqb (cn_name c) (cn_name d) && String.eqb (cn_type c) (cn_type d) &&
  Bool.eqb (cn_primary c) (cn_primary d) && Bool.eqb (cn_notnull c) (cn_notnull d) &&
  Bool.eqb (cn_unique c) (cn_unique d) &&
  match cn_default c, cn_default d with
  | None, None => true | Some x, Some y => String.eqb x y | _, _ => false
  end.
Definition fk_eqb (c d : ForeignKey) : bool :=
  String.eqb (fk_column c) (fk_column d) && String.eqb (fk_table c) (fk_table d) &&
  String.eqb (fk_ref c) (fk_ref d) && Bool.eqb (fk_cascade c) (fk_cascade d).
Definition table_eqb (c d : Table) : bool :=
  String.eqb (tb_name c) (tb_name d) && list_eqb column_eqb (tb_columns c) (tb_columns d) &&
  list_eqb fk_eqb (tb_fks c) (tb_fks d).
Definition index_eqb (c d : Index) : bool :=
  String.eqb (ix_name c) (ix_name d) && String.eqb (ix_table c) (ix_table d) &&
  list_eqb String.eqb (ix_columns c) (ix_columns d).
Definition catalog_eqb (c d : Catalog) : bool :=
  list_eqb table_eqb (ct_tables c) (ct_tables d) && list_eqb index_eqb (ct_indexes c) (ct_indexes d).

Lemma list_eqb_eq {A} (eqb : A → A → bool) l k :
  (∀ x y, eqb x y = true → x = y) → list_eqb eqb l k = true → l = k.
Proof.
  intros H. revert k. induction l as [|x l IH]; intros [|y k]; cbn; try done.
  intros [E1 E2]%andb_prop. f_equal; auto.
Qed.

(** Split a conjunction of tests on fields, then the records. *)
Ltac split_eqb := repeat match goal with
  | H : _ && _ = true |- _ => apply andb_prop in H as [? H]
  | H : String.eqb _ _ = true |- _ => apply String.eqb_eq in H
  | H : Bool.eqb _ _ = true |- _ => apply eqb_prop in H
  end; cbn in *.

Lemma column_eqb_eq c d : column_eqb c d = true → c = d.
Proof.
  destruct c as [? ? ? ? ? x], d as [? ? ? ? ? y]. unfold column_eqb. intros H. split_eqb. subst.
  destruct x, y; try done. by apply String.eqb_eq in H as ->.
Qed.
Lemma fk_eqb_eq c d : fk_eqb c d = true → c = d.
Proof. destruct c, d. unfold fk_eqb. intros H. split_eqb. by subst. Qed.
Lemma table_eqb_eq c d : table_eqb c d = true → c = d.
Proof.
  destruct c, d. unfold table_eqb. intros H. split_eqb. subst.
  f_equal; [by eapply list_eqb_eq; [apply column_eqb_eq|]|by eapply list_eqb_eq; [apply fk_eqb_eq|]].
Qed.
Lemma index_eqb_eq c d : index_eqb c d = true → c = d.
Proof.
  destruct c, d. unfold index_eqb. intros H. split_eqb. subst. f_equal.
  by eapply list_eqb_eq; [intros x y; apply String.eqb_eq|].
Qed.
Lemma catalog_eqb_eq c d : catalog_eqb c d = true → c = d.
Proof.
  destruct c, d. unfold catalog_eqb. intros H. split_eqb.
  f_equal; [by eapply list_eqb_eq; [apply table_eqb_eq|]|by eapply list_eqb_eq; [apply index_eqb_eq|]].
Qed.

Definition all_stmts : list stmt :=
  Eval vm_compute in default [] (ts ← mapM tokens (snd <$> migrationsFS);
    mapM parse_stmt (concat (split_stmts [] <$> ts))).

(** The catalogue after the first [k] statements. *)
Definition stage (k : nat) : Catalog :=
  foldl (λ c s, match apply_stmt s c with Ok c => c | Err _ => c end) empty_catalog (take k all_stmts).
Definition last_stage : nat := 10.

(** The statement number [i], run on a catalogue that has the ones before it:
    it is already there, or it is the next one. *)
Definition stmt_at (i : nat) (ts : list token) : Prop :=
  ∃ s, parse_stmt ts = Some s ∧ (i < last_stage)%nat ∧
    ∀ k, (i ≤ k ≤ last_stage)%nat → apply_stmt s (stage k) = Ok (stage (k `max` S i)).

Fixpoint script_at (i : nat) (l : list (list token)) : Prop :=
  match l with [] => True | ts :: l => stmt_at i ts ∧ script_at (S i) l end.

(** Everything but the catalogue and the schedule of the driver. *)
Definition same_file (f f' : DBFile) : Prop :=
  tbl (f_db f') = tbl (f_db f) ∧ f_modes f' = f_modes f ∧ f_chmod f' = f_chmod f ∧
  f_open f' = f_open f ∧ f_pragmas f' = f_pragmas f.
#[export] Instance same_file_preorder : PreOrder same_file.
Proof. unfold same_file. split; red; intuition congruence. Qed.

(** A run of the statements [i], [i+1], ... up to [j] goes to some stage. *)
Definition advances (i j k : nat) {A} (f : DBFile) (r : result A) (f' : DBFile) : Prop :=
  ∃ k', f_cat f' = stage k' ∧ (k ≤ k' ≤ last_stage)%nat ∧ same_file f f' ∧
    (is_ok r = true → (j ≤ k')%nat) ∧ (faults (f_db f) = [] → is_ok r = true ∧ faults (f_db f') = []).

Lemma exec_stmt_stage i k ts f r f' :
  stmt_at i ts → f_cat f = stage k → (i ≤ k ≤ last_stage)%nat → exec_stmt ts f = (r, f') →
  advances i (S i) k f r f'.
Proof.
  intros (s & Es & Hi & Hs) Hf Hk. unfold exec_stmt.
  intros [([] & f1 & (d & Ed & ->)%zoom_inv & E)|(e & (d & Ed & ->)%zoom_inv & ->)]%bind_inv.
  - rewrite Es in E. unfold run in E. cbn [f_cat] in E. rewrite Hf, Hs in E by done. injection E as <- <-.
    exists (k `max` S i)%nat. split; [done|]. split; [unfold last_stage in *; lia|]. split.
    + split; [|done]. cbn. by eapply driver_tbl.
    + split; [lia|]. intros H0. cbn. unfold driver in Ed. rewrite H0 in Ed. by injection Ed as <-.
  - exists k. split; [exact Hf|]. split; [lia|]. split.
    + split; [|done]. cbn. by eapply driver_tbl.
    + split; [done|]. intros H0. unfold driver in Ed. by rewrite H0 in Ed.
Qed.

Lemma advances_trans i j1 j2 k {A B} f (r : result A) f1 (r' : result B) f' :
  advances i j1 k f r f1 → is_ok r = true →
  (∀ k1, f_cat f1 = stage k1 → (j1 ≤ k1 ≤ last_stage)%nat → advances j1 j2 k1 f1 r' f') →
  advances i j2 k f r' f'.
Proof.
  intros (k1 & H1 & H2 & H3 & H4 & H5) Hr H. destruct (H k1 H1) as (k2 & G1 & G2 & G3 & G4 & G5).
  { split; [auto|lia]. }
  exists k2. split; [done|]. split; [lia|]. split; [by etransitivity|]. split; [done|].
  intros H0. apply G5, H5, H0.
Qed.

Lemma script_stage l i k f r f' :
  script_at i l → f_cat f = stage k → (i ≤ k ≤ last_stage)%nat → for_each exec_stmt l f = (r, f') →
  advances i (i + length l) k f r f'.
Proof.
  revert i k f. induction l as [|ts l IH]; intros i k f; cbn [script_at for_each].
  - intros _ Hf Hk [= <- <-]. exists k. split; [done|]. split; [lia|]. split; [done|].
    split; [cbn; lia|done].
  - intros [Hs Hl] Hf Hk [([] & f1 & E1 & E)|(e & E & ->)]%bind_inv.
    + pose proof (exec_stmt_stage _ _ _ _ _ _ Hs Hf Hk E1) as H1.
      eapply advances_trans; [exact H1|done|]. intros k1 Hf1 Hk1.
      replace (i + length (ts :: l))%nat with (S i + length l)%nat by (cbn; lia). by eapply IH.
    + destruct (exec_stmt_stage _ _ _ _ _ _ Hs Hf Hk E) as (k1 & H1 & H2 & H3 & H4 & H5).
      exists k1. split; [done|]. split; [done|]. split; [done|]. split; [done|]. intros H0. by apply H5 in H0 as [[=] _].
Qed.

(** ** Sorted names *)

Definition string_le (x y : string) : Prop := string_ltb y x = false.

Lemma string_ltb_lt x y : string_ltb x y = true ↔ String_as_OT.lt x y.
Proof.
  rewrite <- String_as_OT.cmp_lt. unfold string_ltb, String_as_OT.cmp. by destruct (String.compare x y).
Qed.

Lemma string_le_cases x y : string_le x y ↔ x = y ∨ string_ltb x y = true.
Proof.
  unfold string_le, string_ltb. rewrite (String.compare_antisym y x).
  pose proof (String_as_OT.cmp_eq x y) as He. unfold String_as_OT.cmp in He.
  destruct (String.compare x y); cbn; naive_solver.
Qed.

#[export] Instance string_le_trans : Transitive string_le.
Proof.
  intros x y z. rewrite !string_le_cases, !string_ltb_lt. intros [->|H1] [->|H2]; auto.
  right. by eapply String_as_OT.lt_trans.
Qed.
#[export] Instance string_le_anti : AntiSymm (=) string_le.
Proof.
  intros x y. unfold string_le, string_ltb. rewrite (String.compare_antisym y x).
  pose proof (String_as_OT.cmp_eq x y) as He. unfold String_as_OT.cmp in He.
  destruct (String.compare x y); cbn; naive_solver.
Qed.

(** Sorting leaves a list in order as it is, whatever the algorithm. *)
Lemma sort_sorted {srt : Sorting} l : Sorted string_le l → sort_by string_ltb l = l.
Proof.
  intros Hl. apply (Sorted_unique string_le); [|done|apply sort_by_perm].
  apply sort_by_sorted. intros x y. rewrite string_ltb_lt. intros H.
  apply not_true_iff_false. rewrite string_ltb_lt. intros H2.
  by eapply String_as_OT.lt_not_eq; [eapply String_as_OT.lt_trans; [exact H|exact H2]|].
Qed.

(** ** The embedded migrations *)

Fixpoint files_at (i : nat) (names : list string) : Prop :=
  match names with
  | [] => i = last_stage
  | name :: names => ∃ b ts, ReadFile migrationsFS ("migrations/" +:+ name) = Ok b ∧ tokens b = Some ts ∧
      script_at i (split_stmts [] ts) ∧ files_at (i + length (split_stmts [] ts)) names
  end.

(** The same as a test. *)
Definition stmt_check (i : nat) (ts : list token) : bool :=
  match parse_stmt ts with
  | None => false
  | Some s => (i <? last_stage)%nat &&
      forallb (λ k, match apply_stmt s (stage k) with
                    | Ok c => catalog_eqb c (stage (k `max` S i)) | Err _ => false end)
        (seq i (S last_stage - i))
  end.
Fixpoint script_check (i : nat) (l : list (list token)) : bool :=
  match l with [] => true | ts :: l => stmt_check i ts && script_check (S i) l end.
Fixpoint files_check (i : nat) (names : list string) : bool :=
  match names with
  | [] => (i =? last_stage)%nat
  | name :: names =>
      match ReadFile migrationsFS ("migrations/" +:+ name) with
      | Err _ => false
      | Ok b => match tokens b with
                | None => false
                | Some ts => script_check i (split_stmts [] ts) && files_check (i + length (split_stmts [] ts)) names
                end
      end
  end.

Lemma stmt_check_at i ts : stmt_check i ts = true → stmt_at i ts.
Proof.
  unfold stmt_check. destruct (parse_stmt ts) as [s|] eqn:Es; [|done]. intros [Hi Hk]%andb_prop.
  exists s. split; [done|]. split; [by apply Nat.ltb_lt|]. intros k Hb.
  rewrite forallb_forall in Hk. specialize (Hk k). rewrite in_seq in Hk.
  destruct (apply_stmt s (stage k)) as [c|e].
  - f_equal. apply catalog_eqb_eq, Hk. unfold last_stage in *. lia.
  - assert (false = true) as [=]. apply Hk. unfold last_stage in *. lia.
Qed.
Lemma script_check_at l i : script_check i l = true → script_at i l.
Proof.
  revert i. induction l as [|ts l IH]; intros i; cbn; [done|]. intros [H1%stmt_check_at H2]%andb_prop. auto.
Qed.
Lemma files_check_at names i : files_check i names = true → files_at i names.
Proof.
  revert i. induction names as [|name names IH]; intros i; cbn [files_check files_at]; [by intros H%Nat.eqb_eq|].
  destruct (ReadFile _ _) as [b|]; [|done]. destruct (tokens b) as [ts|] eqn:Et; [|done].
  intros [H1%script_check_at H2]%andb_prop.
  exists b, ts. split; [done|]. split; [done|]. split; [done|]. by apply IH.
Qed.

Lemma migrations_at : files_at 0 (fst <$> migrationsFS).
Proof. apply files_check_at. vm_compute. reflexivity. Qed.

Section runs.
Context {srt : Sorting}.

Lemma files_stage names i k f r f' :
  files_at i names → f_cat f = stage k → (i ≤ k ≤ last_stage)%nat →
  for_each (λ name,
    b ← lift (ReadFile migrationsFS ("migrations/" +:+ name));
    r ← try (Exec b);
    match r with
    | Err e => fail (EWrap ("migration " +:+ name +:+ ": ") e EmptyString)
    | Ok _ => mret tt
    end) names f = (r, f') →
  advances i last_stage k f r f'.
Proof.
  revert i k f. induction names as [|name names IH]; intros i k f; cbn [files_at for_each].
  - intros -> Hf Hk [= <- <-]. exists k. split; [done|]. split; [lia|]. split; [done|]. split; [lia|done].
  - intros (b & ts & -> & Et & Hs & Hn) Hf Hk E.
    destruct (for_each exec_stmt (split_stmts [] ts) f) as [r1 f1] eqn:E1.
    pose proof (script_stage _ _ _ _ _ _ Hs Hf Hk E1) as H1.
    assert (try (Exec b) f = (Ok r1, f1)) as E2 by (unfold try, Exec; rewrite Et, E1; done).
    destruct r1 as [[]|e].
    + erewrite bind_Ok in E by (erewrite bind_Ok by done; erewrite bind_Ok by exact E2; done).
      eapply advances_trans; [exact H1|done|]. intros k1 Hf1 Hk1. by eapply IH.
    + erewrite bind_Err in E by (erewrite bind_Ok by done; erewrite bind_Ok by exact E2; done).
      injection E as <- <-. destruct H1 as (k1 & G1 & G2 & G3 & _ & G5). exists k1.
      split; [done|]. split; [done|]. split; [done|]. split; [done|]. intros H0. by apply G5 in H0 as [[=] _].
Qed.

Lemma migrate_stage k f r f' :
  f_cat f = stage k → (k ≤ last_stage)%nat → migrate migrationsFS f = (r, f') → advances 0 last_stage k f r f'.
Proof.
  intros Hf Hk E. unfold migrate in E. cbv zeta in E. rewrite sort_sorted in E.
  - eapply files_stage; [apply migrations_at|exact Hf|lia|exact E].
  - vm_compute. repeat constructor.
Qed.
End runs.

Lemma stage_last : stage last_stage = schema.
Proof. vm_compute. reflexivity. Qed.
Lemma stage_first : stage 0 = empty_catalog.
Proof. done. Qed.

(** ** What a catalogue demands of the rows *)

Inductive sqlval := VText (s : string) | VInt (z : Z).

Definition has_type (ty : string) (v : sqlval) : bool :=
  match v with VText _ => String.eqb ty "TEXT" | VInt _ => String.eqb ty "INTEGER" end.

(** The value of a named column in a row, and all the values of a column. *)
Fixpoint value_of (cols : list Column) (name : string) (row : list sqlval) : option sqlval :=
  match cols, row with
  | c :: cols, v :: row => if String.eqb (cn_name c) name then Some v else value_of cols name row
  | _, _ => None
  end.

Section demands.
Context (fk : bool) (c : Catalog) (rows : string → list (list sqlval)).

Definition values (table column : string) : list (option sqlval) :=
  match table_of table c with
  | Some t => value_of (tb_columns t) column <$> rows table
  | None => []
  end.

(** Rows have the declared columns, keys and UNIQUE columns have no value twice,
    and, where references are checked ([fk]), they point to a row. *)
Definition table_ok (t : Table) : Prop :=
  Forall (λ r, Forall2 (λ k v, has_type (cn_type k) v = true) (tb_columns t) r) (rows (tb_name t)) ∧
  Forall (λ k, cn_primary k || cn_unique k = true → NoDup (values (tb_name t) (cn_name k))) (tb_columns t) ∧
  Forall (λ k, Forall (λ v, v ∈ values (fk_table k) (fk_ref k)) (values (tb_name t) (fk_column k)))
    (if fk then tb_fks t else []).

Definition satisfies : Prop := Forall table_ok (ct_tables c).
End demands.

(** What SQLite enforces on a connection: the declared constraints, references
    only with the foreign_keys pragma, which is off by default. *)
Definition enforces (f : DBFile) (rows : string → list (list sqlval)) : Prop :=
  satisfies (bool_decide (pragma "foreign_keys" (f_pragmas f) = Some "1")) (f_cat f) rows.

(** The rows of [StoreDB] in the order of the declared columns. *)
Definition peer_values (r : PeerRow) : list sqlval :=
  [VText (pr_id r); VText (pr_name r); VText (pr_wallet r); VText (pr_wg_public_key r);
   VText (pr_wg_allowed_ip r); VText (pr_wg_preshared_key r); VText (pr_proxy_uuid r);
   VText (pr_proxy_password r); VInt (pr_enabled r); VInt (pr_created_at r); VInt (pr_updated_at r);
   VInt (pr_expires_at r)].
Definition carrier_values (r : CarrierRow) : list sqlval :=
  [VText (cr_id r); VText (cr_transport r); VText (cr_secret_hash r); VInt (cr_created_at r);
   VInt (cr_expires_at r); VInt (cr_active r); VText (cr_scope r); VText (cr_peer_id r)].
Definition service_values (r : ServiceRow) : list sqlval :=
  [VText (sr_ID r); VText (sr_Name r); VText (sr_Type r); VText (sr_Protocol r); VText (sr_InternalAddr r);
   VInt (sr_Port r); VText (sr_OwnerPeerID r); VText (sr_OwnerDID r); VText (sr_Visibility r);
   VText (sr_AuthMode r); VText (sr_Tags r); VInt (sr_CreatedAt r); VInt (sr_UpdatedAt r)].
Definition acl_values (r : ServiceACL) : list sqlval :=
  [VText (acl_ID r); VText (acl_ServiceID r); VText (acl_Subject r); VText (acl_Action r);
   VInt (acl_CreatedAt r)].
Definition setting_values (kv : string * string) : list sqlval := [VText kv.1; VText kv.2].

Definition contents (t : tables) (table : string) : list (list sqlval) :=
  if String.eqb table "peers" then peer_values <$> peers t
  else if String.eqb table "node_settings" then setting_values <$> map_to_list (node_settings t)
  else if String.eqb table "carrier_credentials" then carrier_values <$> carrier_credentials t
  else if String.eqb table "services" then service_values <$> services t
  else if String.eqb table "service_acls" then acl_values <$> service_acls t
  else [].

(** A column of texts, seen through the record that the rows come from. *)
Lemma values_text {A} (t : tables) table column tb (row : A → list sqlval) (f : A → string) (l : list A) :
  table_of table schema = Some tb → contents t table = row <$> l →
  (∀ x, value_of (tb_columns tb) column (row x) = Some (VText (f x))) →
  values schema (contents t) table column = (λ s, Some (VText s)) <$> (f <$> l).
Proof.
  intros Ht Hc H. unfold values. rewrite Ht, Hc, <- !list_fmap_compose. apply list_fmap_ext. intros i x _. apply H.
Qed.

Lemma nodup_texts (l : list string) : NoDup ((λ s, Some (VText s)) <$> l) ↔ NoDup l.
Proof. split; [apply NoDup_fmap_1|apply NoDup_fmap_2]. intros x y [= ->]. done. Qed.

Lemma nodup_column {A} (t : tables) table column tb (row : A → list sqlval) (f : A → string) (l : list A) :
  table_of table schema = Some tb → contents t table = row <$> l →
  (∀ x, value_of (tb_columns tb) column (row x) = Some (VText (f x))) →
  NoDup (values schema (contents t) table column) ↔ NoDup (f <$> l).
Proof. intros. by rewrite (values_text t table column tb row f l), nodup_texts. Qed.

Lemma typed_rows {A} (row : A → list sqlval) cols (l : list A) :
  (∀ x, Forall2 (λ k v, has_type (cn_type k) v = true) cols (row x)) →
  Forall (λ r, Forall2 (λ k v, has_type (cn_type k) v = true) cols r) (row <$> l).
Proof. intros H. apply Forall_fmap, Forall_forall. intros x _. apply H. Qed.

(** The columns of a table without a key demand nothing. *)
Ltac columns := rewrite !Forall_cons, ?Forall_nil; cbn [cn_primary cn_unique cn_name orb].
Ltac typed := cbn; apply typed_rows; intros; repeat constructor.

Lemma peers_ok t tb :
  table_of "peers" schema = Some tb → table_ok true schema (contents t) tb ↔ peers_wf (peers t).
Proof.
  intros E. pose proof E as E1. vm_compute in E1. injection E1 as <-. unfold table_ok.
  cbn [tb_columns tb_name tb_fks]. columns.
  rewrite !(nodup_column t "peers" "id" _ peer_values pr_id (peers t) E eq_refl (λ _, eq_refl)).
  rewrite !(nodup_column t "peers" "wg_public_key" _ peer_values pr_wg_public_key (peers t) E eq_refl (λ _, eq_refl)).
  rewrite !(nodup_column t "peers" "wg_allowed_ip" _ peer_values pr_wg_allowed_ip (peers t) E eq_refl (λ _, eq_refl)).
  rewrite !(nodup_column t "peers" "proxy_uuid" _ peer_values pr_proxy_uuid (peers t) E eq_refl (λ _, eq_refl)).
  unfold peers_wf. split; [naive_solver|]. intros (H1 & H2 & H3 & H4). split; [typed|].
  split_and!; try done; by intros.
Qed.

Lemma settings_ok t tb : table_of "node_settings" schema = Some tb → table_ok true schema (contents t) tb.
Proof.
  intros E. pose proof E as E1. vm_compute in E1. injection E1 as <-. unfold table_ok.
  cbn [tb_columns tb_name tb_fks]. columns. split; [typed|]. split_and!; try done; intros _.
  apply (nodup_column t "node_settings" "key" _ setting_values fst _ E eq_refl (λ _, eq_refl)).
  apply NoDup_fst_map_to_list.
Qed.

Lemma carriers_ok t tb :
  table_of "carrier_credentials" schema = Some tb →
  table_ok true schema (contents t) tb ↔ NoDup (cr_id <$> carrier_credentials t).
Proof.
  intros E. pose proof E as E1. vm_compute in E1. injection E1 as <-. unfold table_ok.
  cbn [tb_columns tb_name tb_fks]. columns.
  rewrite !(nodup_column t "carrier_credentials" "id" _ carrier_values cr_id _ E eq_refl (λ _, eq_refl)).
  split; [naive_solver|]. intros H1. split; [typed|]. split_and!; try done; by intros.
Qed.

Lemma services_ok t tb :
  table_of "services" schema = Some tb →
  table_ok true schema (contents t) tb ↔ NoDup (sr_ID <$> services t).
Proof.
  intros E. pose proof E as E1. vm_compute in E1. injection E1 as <-. unfold table_ok.
  cbn [tb_columns tb_name tb_fks]. columns.
  rewrite !(nodup_column t "services" "id" _ service_values sr_ID _ E eq_refl (λ _, eq_refl)).
  split; [naive_solver|]. intros H1. split; [typed|]. split_and!; try done; by intros.
Qed.

Lemma acls_ok t tb :
  table_of "service_acls" schema = Some tb →
  table_ok true schema (contents t) tb ↔ NoDup (acl_ID <$> service_acls t) ∧
    Forall (λ a, acl_ServiceID a ∈ (sr_ID <$> services t)) (service_acls t).
Proof.
  intros E. pose proof E as E1. vm_compute in E1. injection E1 as <-. unfold table_ok.
  cbn [tb_columns tb_name tb_fks fk_column fk_table fk_ref]. columns. cbn [fk_column fk_table fk_ref].
  rewrite !(nodup_column t "service_acls" "id" _ acl_values acl_ID _ E eq_refl (λ _, eq_refl)).
  rewrite (values_text t "service_acls" "service_id" _ acl_values acl_ServiceID _ E eq_refl (λ _, eq_refl)).
  rewrite (values_text t "services" "id" _ service_values sr_ID (services t) eq_refl eq_refl (λ _, eq_refl)).
  rewrite !Forall_fmap.
  assert (Inj (=) (=) (λ s, Some (VText s))) as Hinj by (by intros x y [= ->]).
  assert (Forall ((λ v, v ∈ (λ s, Some (VText s)) <$> (sr_ID <$> services t)) ∘ (λ s, Some (VText s)) ∘ acl_ServiceID)
    (service_acls t) ↔ Forall (λ a, acl_ServiceID a ∈ (sr_ID <$> services t)) (service_acls t)) as ->.
  { rewrite !Forall_forall. split; intros H a Ha; specialize (H a Ha).
    - exact (proj1 (list_elem_of_fmap_inj (λ s, Some (VText s)) _ _) H).
    - exact (proj2 (list_elem_of_fmap_inj (λ s, Some (VText s)) _ _) H). }
  split; [naive_solver|]. intros [H1 H2]. split; [typed|]. split_and!; try done; by intros.
Qed.

(** The declared constraints are those of [db_wf]. *)
Lemma schema_constraints t : satisfies true schema (contents t) ↔ db_wf t.
Proof.
  unfold satisfies, db_wf. rewrite <- (acls_ok t _ eq_refl), <- (services_ok t _ eq_refl),
    <- (carriers_ok t _ eq_refl), <- (peers_ok t _ eq_refl).
  pose proof (settings_ok t _ eq_refl) as Hs.
  set (ok := table_ok true schema (contents t)) in *. unfold schema. cbn [ct_tables].
  rewrite !Forall_cons, Forall_nil. naive_solver.
Qed.

(** ** Opening *)

(** A file that Open may find: new, left by an attempt that stopped anywhere,
    or in use since (rows, permissions and failures to come may be any). *)
Inductive attempted {srt : Sorting} : DBFile → Prop :=
| attempted_new f : f_cat f = empty_catalog → attempted f
| attempted_open opened mode path f r f' :
    attempted f → Open opened mode path f = (r, f') → attempted f'
| attempted_used f f' : attempted f → f_cat f' = f_cat f → attempted f'.

Section opening.
Context {srt : Sorting}.

(** ** The pragmas of the connection *)

Lemma Split_app_char (a b : string) c :
  Split (a +:+ String c b) c = Split a c ++ Split b c.
Proof.
  induction a as [|d a IH]; [cbn; by rewrite Ascii.eqb_refl|]. cbn [String.append Split].
  destruct (Ascii.eqb d c); rewrite IH; [done|]. pose proof (Split_not_nil a c).
  by destruct (Split a c) as [|w ws].
Qed.

Lemma cut_app c a b :
  ∃ x z, cut (String c EmptyString) (a +:+ String c b) = Some (x, z +:+ b).
Proof.
  induction a as [|d a (x & z & IH)]; cbn [String.append cut strip_prefix].
  - rewrite Ascii.eqb_refl. by exists EmptyString, EmptyString.
  - destruct (Ascii.eqb c d); [|rewrite IH; cbn; eauto].
    exists EmptyString, (a +:+ String c EmptyString). by rewrite <- app_assoc_str.
Qed.

(** Whatever the path, the pragmas end with the journal and the references. *)
Lemma dsn_pragmas_spec path :
  ∃ l, dsn_pragmas (dsn path) = l ++ [("journal_mode", "WAL"); ("foreign_keys", "1")].
Proof.
  unfold dsn_pragmas, dsn.
  change "?_pragma=busy_timeout(5000)&_pragma=journal_mode(WAL)&_pragma=foreign_keys(1)" with
    (String "?" "_pragma=busy_timeout(5000)&_pragma=journal_mode(WAL)&_pragma=foreign_keys(1)").
  rewrite app_assoc_str. destruct (cut_app "?" ("file:" +:+ path)
    "_pragma=busy_timeout(5000)&_pragma=journal_mode(WAL)&_pragma=foreign_keys(1)") as (x & z & ->).
  change "_pragma=busy_timeout(5000)&_pragma=journal_mode(WAL)&_pragma=foreign_keys(1)" with
    ("_pragma=busy_timeout(5000)" +:+ String "&"
       "_pragma=journal_mode(WAL)&_pragma=foreign_keys(1)").
  rewrite (app_assoc_str z), Split_app_char, omap_app. eexists. f_equal.
Qed.

Lemma dsn_pragma path :
  pragma "foreign_keys" (dsn_pragmas (dsn path)) = Some "1" ∧
  pragma "journal_mode" (dsn_pragmas (dsn path)) = Some "WAL".
Proof.
  destruct (dsn_pragmas_spec path) as [l ->]. unfold pragma. rewrite reverse_app. by split.
Qed.

(** ** The permissions of the files *)

Definition chmod_fails (o : option (option error)) : bool :=
  match o with Some (Some _) => true | _ => false end.

(** Only permissions, and the outcomes to come, change. *)
Definition chmods (f f' : DBFile) : Prop :=
  f_cat f' = f_cat f ∧ f_db f' = f_db f ∧ f_open f' = f_open f ∧ f_pragmas f' = f_pragmas f.
#[export] Instance chmods_preorder : PreOrder chmods.
Proof. unfold chmods. split; red; intuition congruence. Qed.

(** A chmod of a file that is there changes its permissions or fails. *)
Lemma chmod_inv p mode f r f' :
  chmod p mode f = (r, f') →
  chmods f f' ∧ f_chmod f' = tail (f_chmod f) ∧
  (∀ q, q ≠ p → f_modes f' !! q = f_modes f !! q) ∧
  (is_Some (f_modes f !! p) →
   f_modes f' !! p = if chmod_fails (f_chmod f !! 0%nat) then f_modes f !! p else Some mode).
Proof.
  unfold chmod, run, chmods. destruct (f_chmod f) as [|[e|] l]; destruct (f_modes f !! p) as [m|] eqn:Em;
    intros [= <- <-]; cbn; (split; [done|]); (split; [done|]); rewrite ?Em;
    (split; [intros q Hq; rewrite ?lookup_insert_ne by done; done|]); intros []; try done;
    by rewrite lookup_insert_eq.
Qed.

(** Each file is restricted unless its own chmod failed. *)
Lemma restrict_inv l f r f' :
  for_each (λ p, _ ← try (chmod p owner_only); mret tt) l f = (r, f') →
  NoDup l → (∀ p, p ∈ l → is_Some (f_modes f !! p)) →
  r = Ok tt ∧ chmods f f' ∧ (∀ q, q ∉ l → f_modes f' !! q = f_modes f !! q) ∧
  ∀ k p, l !! k = Some p →
    f_modes f' !! p = if chmod_fails (f_chmod f !! k) then f_modes f !! p else Some owner_only.
Proof.
  revert f. induction l as [|p l IH]; intros f; cbn [for_each].
  { intros [= <- <-] _ _. done. }
  destruct (chmod p owner_only f) as [r1 f1] eqn:E1.
  pose proof (chmod_inv _ _ _ _ _ E1) as (H1 & H2 & H3 & H4).
  erewrite bind_Ok by (erewrite bind_Ok by (unfold try; by rewrite E1); done).
  intros E [Hp Hl]%NoDup_cons Hs. apply IH in E as (-> & A1 & A2 & A3); [|done|].
  2:{ intros q Hq. rewrite H3; [apply Hs; by right|]. by intros ->. }
  split; [done|]. split; [by etransitivity|]. split.
  { intros q Hq. rewrite A2, H3; [done|..]; set_solver. }
  intros [|k] q; cbn [lookup list_lookup].
  - intros [= <-]. rewrite A2 by done. apply H4, Hs. by left.
  - intros Hk. assert (q ≠ p) by (intros ->; by apply Hp, (list_elem_of_lookup_2 _ k)).
    rewrite (A3 _ _ Hk), H2, H3 by done. by destruct (f_chmod f); [rewrite !lookup_nil|].
Qed.

Lemma append_neq path (x : string) : x ≠ EmptyString → path +:+ x ≠ path.
Proof.
  intros Hx E. induction path as [|c p IH]; [done|]. apply IH. by injection E.
Qed.
Lemma append_inj path (x y : string) : path +:+ x = path +:+ y → x = y.
Proof. induction path as [|c p IH]; [done|]. intros [= E]. auto. Qed.

Lemma db_files_nodup path : NoDup (db_files path).
Proof.
  unfold db_files. rewrite !NoDup_cons, !elem_of_cons, !elem_of_nil. split_and!; [..|apply NoDup_nil_2].
  - intros [E|[E|[]]]; symmetry in E; by apply append_neq in E.
  - intros [E%append_inj|[]]. done.
  - by intros [].
Qed.

(** The permissions a file of the database has after its chmod: the owner's
    only, or what it had, [mode] if it was just made, when the chmod fails. *)
Definition restricted_mode (f : DBFile) (mode : Z) (k : nat) (p : string) : Z :=
  if chmod_fails (f_chmod f !! k) then default mode (f_modes f !! p) else owner_only.

Lemma created_all path mode k p :
  db_files path !! k = Some p → created path mode (dsn_pragmas (dsn path)) !! p = Some mode.
Proof.
  intros H. unfold created. rewrite bool_decide_true by apply dsn_pragma.
  pose proof (db_files_nodup path) as Hn. unfold db_files in *.
  rewrite !NoDup_cons, !elem_of_cons in Hn.
  destruct k as [|[|[|]]]; [injection H as <-..|done].
  - by rewrite lookup_insert_eq.
  - rewrite lookup_insert_ne by naive_solver. by rewrite lookup_insert_eq.
  - rewrite !lookup_insert_ne by naive_solver. by rewrite lookup_singleton_eq.
Qed.

Lemma Open_inv opened mode path k f r f' :
  f_cat f = stage k → (k ≤ last_stage)%nat → Open opened mode path f = (r, f') →
  (∃ k', f_cat f' = stage k' ∧ (k ≤ k' ≤ last_stage)%nat ∧ (r = Ok tt → k' = last_stage)) ∧
  tbl (f_db f') = tbl (f_db f) ∧
  (opened = None → f_open f' = is_ok r) ∧
  (opened = None → faults (f_db f) = [] → r = Ok tt) ∧
  (r = Ok tt → f_pragmas f' = dsn_pragmas (dsn path) ∧
     ∀ i p, db_files path !! i = Some p → f_modes f' !! p = Some (restricted_mode f mode i p)).
Proof.
  intros Hf Hk. unfold Open. destruct opened as [e|].
  { intros [= <- <-]. split; [exists k; done|]. done. }
  unfold connect. pose (pr := dsn_pragmas (dsn path)). fold pr.
  set (f0 := mkFile (f_cat f) (f_db f) (f_modes f ∪ created path mode pr) (f_chmod f) true pr).
  rewrite (bind_Ok _ _ _ tt f0) by done.
  destruct (migrate migrationsFS f0) as [r1 f1] eqn:E1. rewrite (try_bind _ _ _ _ _ E1).
  destruct (migrate_stage k f0 _ _ Hf Hk E1) as (k1 & H1 & H2 & (H3 & H4 & H5 & H6 & Hp) & H7 & H8).
  destruct r1 as [[]|e].
  - intros Er. apply restrict_inv in Er as (-> & (A1 & A2 & A3 & A4) & _ & H9); [|apply db_files_nodup|].
    2:{ intros p [i Hi]%list_elem_of_lookup_1. rewrite H4. cbn. apply lookup_union_is_Some. right.
        by rewrite (created_all path mode i). }
    split.
    { exists k1. rewrite A1. split; [done|]. split; [done|]. intros _. specialize (H7 eq_refl). lia. }
    rewrite A2, A3, H6, A4, Hp. split; [done|]. split; [done|]. split; [done|]. intros _.
    split; [done|]. intros i p Hi. rewrite (H9 i p Hi), H4, H5. unfold restricted_mode. cbn [f_modes f_chmod f0].
    destruct (chmod_fails _); [|done]. pose proof (created_all path mode i p Hi) as Hc. fold pr in Hc.
    rewrite lookup_union, Hc. by destruct (f_modes f !! p).
  - rewrite (bind_Ok _ _ _ tt (set_open false f1)) by done. intros [= <- <-].
    split; [exists k1; cbn; done|]. split; [done|]. split; [done|]. split; [|done].
    intros _ Hq. by apply H8 in Hq as [[=] _].
Qed.

Lemma attempted_stage f : attempted f → ∃ k, f_cat f = stage k ∧ (k ≤ last_stage)%nat.
Proof.
  induction 1 as [f H|opened mode path f r f' _ (k & H1 & H2) E|f f' _ (k & H1 & H2) E].
  - exists 0%nat. rewrite H, stage_first. split; [done|]. unfold last_stage. lia.
  - destruct (Open_inv _ _ _ _ _ _ _ H1 H2 E) as ((k' & ? & ? & _) & _). exists k'. split; [done|]. lia.
  - exists k. by rewrite E.
Qed.
End opening.

(** What a successful Open leaves, by the constraints of the schema. *)
Lemma Open_enforces {srt : Sorting} mode path f f' :
  attempted f → Open None mode path f = (Ok tt, f') →
  f_cat f' = schema ∧ tbl (f_db f') = tbl (f_db f) ∧ ∀ t, enforces f' (contents t) ↔ db_wf t.
Proof.
  intros (k & H1 & H2)%attempted_stage E.
  destruct (Open_inv _ _ _ _ _ _ _ H1 H2 E) as ((k' & G1 & _ & G3) & G4 & _ & _ & G5).
  specialize (G3 eq_refl) as ->. destruct (G5 eq_refl) as [G6 _]. split; [by rewrite G1, stage_last|].
  split; [done|]. intros t. unfold enforces.
  rewrite G6, bool_decide_true, G1, stage_last by apply dsn_pragma. apply schema_constraints.
Qed.

Lemma Open_succeeds {srt : Sorting} mode path f :
  attempted f → faults (f_db f) = [] → ∃ f', Open None mode path f = (Ok tt, f').
Proof.
  intros (k & H1 & H2)%attempted_stage Hq. destruct (Open None mode path f) as [r f'] eqn:E.
  destruct (Open_inv _ _ _ _ _ _ _ H1 H2 E) as (_ & _ & _ & G & _). rewrite G by done. eauto.
Qed.

(** C11. Open migrates the database file from any point.  The file may be new,
    or left by attempts that stopped after any statement of any migration.  A
    successful Open leaves the whole schema and a connection whose pragmas make
    SQLite enforce exactly the constraints [db_wf] that the store's operations
    keep, references included; each of the database, its WAL and its index is
    then readable by the owner only, unless the chmod of that very file failed,
    which Open ignores and which leaves the file as it was; no Open changes a
    row; one that fails leaves the handle closed, and it fails only when a call
    of the driver does. *)
Theorem Open_migrates {srt : Sorting} opened mode path f r f' :
  attempted f → Open opened mode path f = (r, f') →
  tbl (f_db f') = tbl (f_db f) ∧
  (r = Ok tt → f_cat f' = schema ∧ (∀ t, enforces f' (contents t) ↔ db_wf t) ∧
     ∀ i p, [path; path +:+ "-wal"; path +:+ "-shm"] !! i = Some p →
       f_modes f' !! p =
         Some (match f_chmod f !! i with
               | Some (Some _) => default mode (f_modes f !! p)
               | _ => owner_only
               end)) ∧
  (opened = None → f_open f' = is_ok r ∧ (faults (f_db f) = [] → r = Ok tt)).
Proof.
  intros Ha E. destruct (attempted_stage f Ha) as (k & H1 & H2).
  destruct (Open_inv _ _ _ _ _ _ _ H1 H2 E) as (_ & G4 & G5 & G6 & G7).
  split; [done|]. split; [|auto]. intros ->. destruct opened as [e|]; [done|].
  destruct (Open_enforces _ _ _ _ Ha E) as (A1 & _ & A3). split; [done|]. split; [done|].
  intros i p Hi. destruct (G7 eq_refl) as [_ G8]. rewrite (G8 i p Hi). unfold restricted_mode.
  by destruct (f_chmod f !! i) as [[]|].
Qed.

(** ** Witness *)

(** A first start that stops in the second migration, and a second one, whose
    chmod of the WAL fails. *)
Definition file_cut : DBFile :=
  (Open None 420 "/state/node.db" (mkFile empty_catalog (mkDB empty_tables [None; None; None; Some (EMsg "disk full")])
     ∅ [] false [])).2.
Definition file_again : DBFile :=
  mkFile (f_cat file_cut) (mkDB (tbl (f_db file_cut)) []) (f_modes file_cut)
    [None; Some (EMsg "operation not permitted")] false [].

Example file_cut_tables : tb_name <$> ct_tables (f_cat file_cut) = ["peers"; "node_settings"].
Proof. vm_compute. reflexivity. Qed.

Lemma Open_migrates_witness :
  ∃ f', Open None 420 "/state/node.db" file_again = (Ok tt, f') ∧ f_open f' = true ∧
    f_modes f' !! "/state/node.db" = Some owner_only ∧
    f_modes f' !! "/state/node.db-wal" = Some 420 ∧ ∀ t, enforces f' (contents t) ↔ db_wf t.
Proof.
  exists (Open None 420 "/state/node.db" file_again).2.
  assert (attempted file_again) as Ha.
  { eapply (attempted_used file_cut); [|reflexivity]. eapply attempted_open; [|apply surjective_pairing].
    apply attempted_new. reflexivity. }
  destruct (Open_migrates None 420 "/state/node.db" file_again _ _ Ha (surjective_pairing _)) as (_ & H1 & H2).
  destruct (H2 eq_refl) as [H3 H4]. specialize (H4 eq_refl). rewrite H4 in H3. destruct (H1 H4) as (_ & H5 & H6).
  split; [rewrite <- H4; apply surjective_pairing|]. split; [exact H3|]. split; [|split; [|exact H5]].
  - exact (H6 0%nat _ eq_refl).
  - rewrite (H6 1%nat "/state/node.db-wal" eq_refl). vm_compute. reflexivity.
Defined.
