(* ===== verification/Boot.v ===== *)
(** * Bringing up the components: internal/nodeapp/run.go, first part of Run

    The state directory, the identity and the store are required; Drop,
    WireGuard, the stealth carriers and the libp2p host are brought up in turn,
    and a failure of one of them is only logged.  What the rest of Run learns
    of them are two flags, which the readiness report uses. *)
From S2P Require Import Prelude GoStrings StoreDB Store ConfigData Config Wg Sha256 Stealth Wallet DropClient DropService Bridge GatewayClient P2P.

(** ** registrar.go: registration on a chain, of which there is only the no-op *)

Record NodeIdentity := mkNodeIdentity {
  ni_PeerID : string; ni_DID : string; ni_IPHash : string; ni_Region : string; ni_Spec : string;
  ni_Wallet : string; ni_Version : string }.

Inductive Registrar := noop.

(** With the warning for a mode that is not supported. *)
Definition NewRegistrar (mode : string) : Registrar * bool :=
  (noop, negb (bool_decide (mode ∈ [EmptyString; "off"; "noop"]))).
Definition registrar_Register (r : Registrar) (id : NodeIdentity) : result unit := match r with noop => Ok tt end.
Definition UpdateStatus (r : Registrar) (peerID status : string) : result unit := match r with noop => Ok tt end.

(** ** run.go *)

(** The parts of the machine; the store is in the world of WireGuard, and the
    stealth manager works on it. *)
Record Machine (Priv : Type) := mkMachine {
  mc_world : World; mc_stealth : Manager DB; mc_drop : DropState; mc_net : Net Priv }.
Arguments mkMachine {Priv}. Arguments mc_world {Priv}. Arguments mc_stealth {Priv}.
Arguments mc_drop {Priv}. Arguments mc_net {Priv}.

(** What the start draws or meets: the errors of creating the directory and
    opening the store, new keys and certificates, the output of wg-quick. *)
Record BootInput := mkBoot {
  bi_mkdir : option error; bi_open : option error; bi_wgKey : result (string * string);
  bi_wgOut : string; bi_fresh : Fresh; bi_cert : result (string * string) }.

(** [bt_p2p]: the libp2p host runs. *)
Record Booted := mkBooted {
  bt_peerID : string; bt_did : string; bt_wgOK : bool; bt_stealthOK : bool; bt_p2p : bool }.

Section boot.
Context {srt : Sorting} {Account HDKey ECKey Priv : Type}
  (L : WalletLib Account HDKey ECKey) (P : P2PLib Priv).
Context (AddrInfo : string → result unit) (hostID : Priv → string) (config_PeerID : string → result string).
Context (sha3_Sum256 : list Z → list Z) (cfg : Config) (i : BootInput).

Notation Mc := (Machine Priv).

Definition on_world {A} (m : M World A) : M Mc A :=
  zoom mc_world (λ w c, mkMachine w (mc_stealth c) (mc_drop c) (mc_net c)) m.
Definition on_dropsvc {A} (m : M DropState A) : M Mc A :=
  zoom mc_drop (λ d c, mkMachine (mc_world c) (mc_stealth c) d (mc_net c)) m.
Definition on_net {A} (m : M (Net Priv) A) : M Mc A :=
  zoom mc_net (λ n c, mkMachine (mc_world c) (mc_stealth c) (mc_drop c) n) m.
Definition on_carriers {A} (m : M (Manager DB) A) : M Mc A := run (λ c,
  let '(r, s) := m (set_st (w_db (mc_world c)) (mc_stealth c)) in
  (r, mkMachine (set_db (m_st s) (mc_world c)) s (mc_drop c) (mc_net c))).

Definition required (pre : string) (e : option error) : M Mc unit :=
  match e with Some e => fail (EWrap pre e EmptyString) | None => mret tt end.

(** stealthMgr.Init and Start. *)
Definition start_carriers : M Mc bool :=
  r ← try (on_carriers (Stealth.Init (bi_fresh i) (bi_cert i)));
  match r with
  | Err _ => mret false
  | Ok _ =>
      r ← try (on_carriers (Stealth.Start cfg));
      mret (match r with Err _ => false | Ok _ => c_EnableStealth cfg end)
  end.

Definition boot : M Mc Booted :=
  _ ← required "create state dir: " (bi_mkdir i);
  ids ← lift (wrapr "derive identity: " (PeerIDFromMnemonic L P (c_Mnemonic cfg)));
  _ ← required "open store: " (bi_open i);
  _ ← try (on_dropsvc (DropService.Start cfg (DeriveKuboIdentity L P) config_PeerID));
  wg ← try (on_world (Wg.Init cfg (bi_wgKey i) (bi_wgOut i)));
  stealthOK ← start_carriers;
  p2p ← try (on_net (StartHost L P AddrInfo hostID (c_Mnemonic cfg) (c_P2PListenPort cfg)
                     (c_GatewayPeerMultiaddr cfg)));
  _ ← lift (registrar_Register (NewRegistrar (c_ChainRegistration cfg)).1
              (mkNodeIdentity ids.1 ids.2 (HashIP sha3_Sum256 (c_WGEndpointHost cfg)) (c_Region cfg)
                 EmptyString EmptyString (c_Version cfg)));
  mret (mkBooted ids.1 ids.2 (is_ok wg) stealthOK (is_ok p2p)).

(** ** Lemmas *)

(** Init does not start or stop the carriers. *)
Lemma Init_running (fr : Fresh) cert (m : Manager DB) r m' :
  Stealth.Init fr cert m = (r, m') → m_running m' = m_running m.
Proof.
  revert m r m'. change (keeps (λ a b : Manager DB, m_running b = m_running a) (Stealth.Init fr cert)).
  assert (PreOrder (λ a b : Manager DB, m_running b = m_running a)) as Hpre
    by (split; [by intros ?|intros ??? H1 H2; congruence]).
  assert (∀ A pre (x : M DB A), keeps (λ a b : Manager DB, m_running b = m_running a) (wrap_err pre (Stealth.on_st x))) as Hw.
  { intros A pre x. unfold wrap_err. apply keeps_bind; [apply _|apply keeps_try|].
    - intros m r m' (t & _ & ->)%zoom_inv. done.
    - intros []; [by apply keeps_ret|by apply keeps_fail]. }
  unfold Stealth.Init. apply keeps_bind; [apply _|apply Hw|intros s].
  apply keeps_bind; [apply _|apply Hw|intros [c k]]. by intros m r m' [= <- <-].
Qed.

(** A start of the carriers runs them exactly when it succeeds with the
    carriers enabled. *)
Lemma Start_running (m : Manager DB) r m' :
  Stealth.Start cfg m = (r, m') → m_running m = false →
  m_running m' = c_EnableStealth cfg && is_ok r.
Proof.
  unfold Stealth.Start. destruct (c_EnableStealth cfg); cbn [negb andb]; [|by intros [= <- <-]].
  rewrite (bind_Ok _ _ m m m) by done. destruct (m_secrets m) as [s|]; [|by intros [= <- <-]].
  intros [([] & m1 & E1 & E2)|(e & E & ->)]%bind_inv Hr.
  - by injection E2 as <- <-.
  - unfold box_start, run in E. destruct (m_box m) as [|[e'|] l]; try done. by injection E as <- <-.
Qed.

Lemma start_carriers_inv (c : Mc) r c' :
  start_carriers c = (r, c') → m_running (mc_stealth c) = false →
  ∃ ok, r = Ok ok ∧ (ok = true ↔ m_running (mc_stealth c') = true).
Proof.
  intros H Hr. unfold start_carriers in H.
  destruct (on_carriers (Stealth.Init (bi_fresh i) (bi_cert i)) c) as [r1 c1] eqn:E1.
  rewrite (try_bind _ _ _ _ _ E1) in H. unfold on_carriers, run in E1.
  destruct (Stealth.Init _ _ _) as [r1' m1] eqn:Ei. injection E1 as -> <-. apply Init_running in Ei. cbn in Ei.
  destruct r1 as [[]|e]; [|injection H as <- <-; exists false; split; [done|]; cbn; rewrite Ei, Hr; done].
  set (c1 := mkMachine _ _ _ _) in H. destruct (on_carriers (Stealth.Start cfg) c1) as [r2 c2] eqn:E2. rewrite (try_bind _ _ _ _ _ E2) in H.
  unfold on_carriers, run, c1 in E2. cbn [mc_world mc_stealth] in E2.
  destruct (Stealth.Start cfg _) as [r2' m2] eqn:Es. injection E2 as -> <-.
  apply Start_running in Es; [|cbn; congruence]. unfold mret, M_ret in H. apply pair_equal_spec in H as [<- <-].
  eexists. split; [done|]. cbn. rewrite Es. destruct r2 as [[]|]; cbn; by rewrite ?andb_true_r, ?andb_false_r.
Qed.

(** The parts that may fail change nothing but themselves. *)
Lemma zoom_stealth {T A} (get : Mc → T) (put : T → Mc → Mc) (m : M T A) (c : Mc) r c' :
  (∀ t c, mc_stealth (put t c) = mc_stealth c) → zoom get put m c = (r, c') → mc_stealth c' = mc_stealth c.
Proof. intros Hput (t & _ & ->)%zoom_inv. apply Hput. Qed.
Lemma zoom_net {T A} (get : Mc → T) (put : T → Mc → Mc) (m : M T A) (c : Mc) r c' :
  (∀ t c, mc_net (put t c) = mc_net c) → zoom get put m c = (r, c') → mc_net c' = mc_net c.
Proof. intros Hput (t & _ & ->)%zoom_inv. apply Hput. Qed.

Lemma start_carriers_net (c : Mc) r c' : start_carriers c = (r, c') → mc_net c' = mc_net c.
Proof.
  intros (r1 & c1 & E1 & H)%try_inv. assert (∀ A (m : M (Manager DB) A) c r c', on_carriers m c = (r, c') →
    mc_net c' = mc_net c) as Hn.
  { intros A m c0 r0 c0'. unfold on_carriers, run. destruct (m _). by intros [= <- <-]. }
  apply Hn in E1. destruct r1 as [[]|e]; [|injection H as _ <-; exact E1].
  apply try_inv in H as (r2 & c2 & E2%Hn & H). apply pair_equal_spec in H as [_ <-]. congruence.
Qed.

(** The calls of a start that left no host: it made none, or could not make it,
    or closed it again. *)
Definition no_host (l : list (HostCall Priv)) : Prop :=
  l = [] ∨ (∃ addr k, l = [NewHost addr k]) ∨ last l = Some CloseHost.

Lemma StartHost_no_host mnemonic port gw n r n' :
  StartHost L P AddrInfo hostID mnemonic port gw n = (r, n') →
  ∃ l, nt_calls n' = nt_calls n ++ l ∧ (is_ok r = false → no_host l).
Proof.
  intros (l & Hl & H)%StartHost_calls. exists l. split; [done|]. intros Hr. unfold no_host.
  destruct (DeriveIdentity L P mnemonic), r; try done; [|by destruct H as [-> _]; left..].
  destruct H as [->| ->]; [right; left; eauto|by right; right].
Qed.

(** The first part of Run as a whole. *)
Lemma boot_inv (c : Mc) r c' :
  boot c = (r, c') → m_running (mc_stealth c) = false →
  (is_ok r = true ↔ bi_mkdir i = None ∧ is_ok (PeerIDFromMnemonic L P (c_Mnemonic cfg)) = true ∧ bi_open i = None) ∧
  (is_ok r = false → c' = c) ∧
  ∀ b, r = Ok b →
    PeerIDFromMnemonic L P (c_Mnemonic cfg) = Ok (bt_peerID b, bt_did b) ∧
    bt_did b = DIDPrefix +:+ bt_peerID b ∧
    (bt_stealthOK b = true ↔ m_running (mc_stealth c') = true) ∧
    ∃ l, nt_calls (mc_net c') = nt_calls (mc_net c) ++ l ∧ (bt_p2p b = false → no_host l).
Proof.
  intros H Hrun. unfold boot in H.
  destruct (bi_mkdir i) as [e|]; [injection H as <- <-; split; [naive_solver|done]|].
  rewrite (bind_Ok _ _ c tt c) in H by done.
  destruct (PeerIDFromMnemonic L P (c_Mnemonic cfg)) as [[pid did]|e] eqn:Eid;
    [|injection H as <- <-; split; [naive_solver|done]].
  rewrite (bind_Ok _ _ c (pid, did) c) in H by done.
  destruct (bi_open i) as [e|]; [injection H as <- <-; split; [naive_solver|done]|].
  rewrite (bind_Ok _ _ c tt c) in H by done.
  apply try_inv in H as (r1 & c1 & E1 & H).
  pose proof E1 as N1. apply zoom_net in N1; [|done]. apply zoom_stealth in E1; [|done].
  apply try_inv in H as (r2 & c2 & E2 & H).
  pose proof E2 as N2. apply zoom_net in N2; [|done]. apply zoom_stealth in E2; [|done].
  destruct (start_carriers c2) as [r3 c3] eqn:E3. pose proof (start_carriers_net _ _ _ E3) as N3.
  pose proof (start_carriers_inv _ _ _ E3) as (ok & -> & Hok); [congruence|].
  rewrite (bind_Ok _ _ _ _ _ E3) in H.
  apply try_inv in H as (r4 & c4 & E4 & H). apply zoom_inv in E4 as (n & En & ->).
  apply StartHost_no_host in En as (l & Hl & Hnone).
  injection H as <- <-.
  split; [naive_solver|]. split; [done|]. intros b [= <-]. cbn. split; [done|].
  split; [by apply did_of_peer in Eid as [-> _]|]. split; [exact Hok|].
  exists l. split; [congruence|done].
Qed.
End boot.

(** ** Property *)

(** C29. Only the essentials stop a start.  The first part of Run fails exactly
    when the state directory cannot be created, the mnemonic yields no
    identity or the store cannot be opened; whatever happens to Drop, the
    WireGuard interface, the carriers and the libp2p host, it goes on, with the
    identity of the mnemonic, and the flag it keeps for the carriers is set
    exactly when they are running. *)
Theorem boot_needs_essentials {srt : Sorting} {Account HDKey ECKey Priv}
    (L : WalletLib Account HDKey ECKey) (P : P2PLib Priv) AddrInfo hostID config_PeerID sha3 cfg i
    (c : Machine Priv) r c' :
  boot L P AddrInfo hostID config_PeerID sha3 cfg i c = (r, c') → m_running (mc_stealth c) = false →
  (is_ok r = true ↔ bi_mkdir i = None ∧ is_ok (PeerIDFromMnemonic L P (c_Mnemonic cfg)) = true ∧ bi_open i = None) ∧
  ∀ b, r = Ok b →
    PeerIDFromMnemonic L P (c_Mnemonic cfg) = Ok (bt_peerID b, bt_did b) ∧
    bt_did b = DIDPrefix +:+ bt_peerID b ∧
    (bt_stealthOK b = true ↔ m_running (mc_stealth c') = true).
Proof.
  intros H Hrun. apply boot_inv in H as (H1 & _ & H2); [|done]. split; [done|].
  intros b Hb. destruct (H2 b Hb) as (H3 & H4 & H5 & _). auto.
Qed.

(** ** Witness *)

Definition p2p_example : P2PLib (list Z) :=
  mkP2PLib (λ read, Ok (read 32%nat).1) (λ k, Ok "12D3") (λ k, Ok k) (λ e, Ok "abandon").
Definition boot_cfg : Config :=
  Config.Load (mkEnv (list_to_map [("MNEMONIC", "abandon"); ("ENABLE_STEALTH", "true")]) None).
(** Everything optional fails but the carriers. *)
Definition boot_input : BootInput :=
  mkBoot None None (Err (EMsg "no entropy")) EmptyString (wit_fresh "1") (Ok ("cert", "key")).
Definition machine_example : Machine (list Z) :=
  mkMachine (wit_world []) (new_manager empty_db []) (NewService boot_cfg wit_repo)
    (mkNet [] [Some (EMsg "address in use")]).
Definition addr_refused (addr : string) : result unit := Err (EMsg "no multiaddr").

Local Notation boot_example :=
  (boot lib_example p2p_example addr_refused hex_encode wit_cp (λ b, b) boot_cfg boot_input machine_example).

Lemma boot_needs_essentials_witness :
  is_ok (fst boot_example) = true ∧
  ∀ b, fst boot_example = Ok b →
    bt_did b = DIDPrefix +:+ bt_peerID b ∧
    (bt_stealthOK b = true ↔ m_running (mc_stealth (snd boot_example)) = true).
Proof.
  destruct (boot_needs_essentials lib_example p2p_example addr_refused hex_encode wit_cp (λ b, b) boot_cfg boot_input
    machine_example _ _ (surjective_pairing _) eq_refl) as [H1 H2].
  split.
  - apply H1. split; [reflexivity|]. split; [vm_compute; reflexivity|reflexivity].
  - intros b Hb. destruct (H2 b Hb) as (_ & H3 & H4). split; [exact H3|exact H4].
Defined.

Example boot_example_flags :
  ∃ b, fst boot_example = Ok b ∧ bt_wgOK b = false ∧ bt_stealthOK b = true.
Proof. eexists. split; [vm_compute; reflexivity|]. split; reflexivity. Qed.
