(* ===== verification/Startup.v ===== *)
(** * Starting the node: internal/nodeapp/run.go

    How Run puts the components together: the licence and the choice of the
    resolver, the gateway credentials (stored, configured or registered), the
    control client with its token refresher, the report of the firewall's
    credentials, and the readiness signals.  The configuration is one shared
    object, which the firewall client also holds: it is the one in its state.

    The gateway part is written over the [SettingsStore] interface, which the
    node's store implements. *)
From S2P Require Import Prelude GoStrings GoNet GoUrl GoDecode StoreDB Store ConfigData Config Wg Sha256 Stealth Dns Wallet DropClient DropService ServiceAgent Readiness Node Bridge Firewall GatewayClient ControlChannel P2P.

(** ** The gateway part of Run *)

Record GwState (St W : Type) := mkGw { gs_st : St; gs_fw : FwClient W; gs_sent : list GwRequest }.
Arguments mkGw {St W}. Arguments gs_st {St W}. Arguments gs_fw {St W}. Arguments gs_sent {St W}.

(** The resolver that serves the tunnel. *)
Inductive Resolver :=
| NoResolver
| PrivateDNS (c : DnsConfig)
| FirewallForwarder (f : ForwarderConfig).

Section gateway.
Context {St W : Type} {ST : SettingsStore St}.
Context {Account HDKey ECKey : Type} (L : WalletLib Account HDKey ECKey).
Context (gateway : list GwRequest → result GwReply) (Do : FwRequest → M W FwReply).
Context (peerID did : string).

Notation Gw := (GwState St W).

Definition gs_cfg (g : Gw) : Config := fc_cfg (gs_fw g).
Definition on_settings {A} (m : M St A) : M Gw A :=
  zoom gs_st (λ s g, mkGw s (gs_fw g) (gs_sent g)) m.
Definition on_firewall {A} (m : M (FwClient W) A) : M Gw A :=
  zoom gs_fw (λ f g, mkGw (gs_st g) f (gs_sent g)) m.
Definition on_gateway {A} (m : M (list GwRequest) A) : M Gw A :=
  zoom gs_sent (λ l g, mkGw (gs_st g) (gs_fw g) l) m.
Definition get_cfg : M Gw Config := gets gs_cfg.
Definition put_cfg (cfg : Config) : M Gw unit := on_firewall (set_cfg cfg).

(** CheckLicense at the start; its error counts as licensed. *)
Definition check_license : M Gw unit :=
  cfg ← get_cfg;
  if HasFirewallService cfg && String.eqb (c_FirewallProvider cfg) FirewallUnboundErebrus then
    r ← try (on_firewall (CheckLicense Do));
    cfg ← get_cfg;
    put_cfg (set_SentinelLicensed (match r with Ok licensed => licensed | Err _ => true end) cfg)
  else put_cfg (set_SentinelLicensed true cfg).

(** Which resolver is started. *)
Definition choose_resolver (cfg : Config) : Resolver :=
  let tunnelDNS := DefaultListenAddr (c_WGIPv4Subnet cfg) (c_PrivateDNSAddr cfg) in
  if c_PrivateDNSEnabled cfg then
    let upstream := if HasFirewallService cfg then c_FirewallDNSAddr cfg else c_UpstreamDNS cfg in
    let dnsCfg := mkDnsConfig true (c_PrivateDNSDomain cfg) tunnelDNS upstream in
    match Dns.Validate dnsCfg with
    | Err _ => NoResolver
    | Ok _ => PrivateDNS dnsCfg
    end
  else if HasFirewallService cfg && c_SentinelLicensed cfg
  then FirewallForwarder (mkForwarder tunnelDNS (c_FirewallDNSAddr cfg))
  else NoResolver.

(** The node id and token of the store, else those of the configuration;
    neither when the id is not the node's own. *)
Definition choose_credentials (cfg : Config) (creds : GwCredentials) : string * string :=
  let nodeID := or_else (gc_NodeID creds) (c_NodeID cfg) in
  let nodeToken := or_else (gc_NodeToken creds) (c_NodeToken cfg) in
  if negb (String.eqb nodeID EmptyString) && negb (String.eqb nodeID peerID)
  then (EmptyString, EmptyString) else (nodeID, nodeToken).

Definition set_gateway_key (pub : string) (cfg : Config) : Config :=
  if String.eqb pub EmptyString then cfg else set_GatewayPublicKey pub cfg.

Definition adopt_keys (creds : GwCredentials) (cfg : Config) : Config :=
  let cfg := if String.eqb (gc_NodeKey creds) EmptyString then cfg
             else set_NodeAPIToken (gc_NodeKey creds) (set_NodeKey (gc_NodeKey creds) cfg) in
  set_gateway_key (gc_GatewayPublicKey creds) cfg.

Definition registration_input (cfg : Config) : RegistrationInput :=
  mkReg (c_GatewayURL cfg) (EffectiveRegistrationToken cfg) EmptyString (c_WalletChain cfg)
    (c_Mnemonic cfg) peerID did (c_NodeName cfg) (c_Region cfg) (c_Zone cfg) (PublicAPIBaseURL cfg)
    (EffectiveNodeKey cfg) (GatewayAccessMode (c_Mode cfg)) (c_ErebrusProfile cfg).

Definition registered_config (out : GwCredentials) (cfg : Config) : Config :=
  set_gateway_key (gc_GatewayPublicKey out)
    (set_NodeAPIToken (gc_NodeKey out) (set_NodeKey (gc_NodeKey out)
      (set_NodeToken (gc_NodeToken out) (set_NodeID (gc_NodeID out) cfg)))).

(** Automatic registration: a failure keeps what there was. *)
Definition auto_register (old : string * string) : M Gw (string * string) :=
  cfg ← get_cfg;
  r ← try (on_gateway (Register L gateway (registration_input cfg)));
  match r with
  | Err _ => mret old
  | Ok out =>
      let cfg := registered_config out cfg in
      _ ← put_cfg cfg;
      _ ← try (on_settings (SaveCredentials (Some
                (mkCred (gc_NodeID out) (gc_NodeToken out) (gc_NodeKey out) (c_GatewayPublicKey cfg)))));
      mret (gc_NodeID out, gc_NodeToken out)
  end.

(** The control client and the key its token refresher uses; [None]: no
    control plane. *)
Definition start_gateway : M Gw (option (Client * string)) :=
  cfg ← get_cfg;
  if negb (GatewayEnabled cfg) then mret None
  else
    r ← try (on_settings LoadCredentials);
    let creds := match r with Ok c => c | Err _ => mkCred EmptyString EmptyString EmptyString EmptyString end in
    let chosen := choose_credentials cfg creds in
    _ ← put_cfg (adopt_keys creds cfg);
    node ← (if (String.eqb chosen.1 EmptyString || String.eqb chosen.2 EmptyString)
                && c_GatewayAutoRegister cfg
            then auto_register chosen else mret chosen);
    cfg ← get_cfg;
    _ ← put_cfg (set_NodeID node.1 cfg);
    if negb (String.eqb node.1 EmptyString) && negb (String.eqb node.2 EmptyString)
    then mret (Some (NewClient (c_GatewayURL cfg) node.1 node.2, EffectiveNodeKey cfg))
    else mret None.

(** The token refresher handed to the client. *)
Definition refresh_token (nodeID refreshKey : string) : M Gw string :=
  if String.eqb refreshKey EmptyString then fail (EMsg "node_key not configured")
  else
    cfg ← get_cfg;
    tok ← on_gateway (RefreshNodeToken gateway (c_GatewayURL cfg) nodeID refreshKey);
    _ ← put_cfg (set_NodeToken tok cfg);
    _ ← try (on_settings (SaveCredentials (Some
              (mkCred nodeID tok refreshKey (c_GatewayPublicKey cfg)))));
    mret tok.

(** The report of the Shield's admin login; a panic of ConfigureAdmin is not
    caught. *)
Definition report_shield (nodeToken : string) : M Gw unit :=
  cfg ← get_cfg;
  if negb (String.eqb (c_FirewallProvider cfg) FirewallAdGuardHome)
     || String.eqb (c_ShieldAdminPassword cfg) EmptyString
  then mret tt
  else
    r ← try (on_firewall (ConfigureAdmin Do));
    match r with
    | Err (EPanic s) => fail (EPanic s)
    | _ =>
        cfg ← get_cfg;
        let '(user, pass, url) := AdminCredentials cfg in
        _ ← try (on_gateway (PostFirewallCredentials gateway (c_GatewayURL cfg) peerID nodeToken user pass url));
        mret tt
    end.

(** SetReadinessProvider: the signals at the time of a status request. *)
Definition readiness_input (wgOK stealthOK connected : bool) (agent : Agent) (dropState : string)
  : M Gw ReadinessInput :=
  cfg ← get_cfg;
  r ← (if GatewayEnabled cfg then try (on_settings LoadCredentials)
       else mret (Err (EMsg "gateway disabled")));
  let gwReg := match r with
    | Ok cred => negb (String.eqb (gc_NodeID cred) EmptyString) && negb (String.eqb (gc_NodeToken cred) EmptyString)
    | Err _ => false
    end in
  let '(fwOK, fwDetail) := if HasFirewallService cfg then FirewallOK cfg agent else (true, EmptyString) in
  mret (mkInput true gwReg (GatewayEnabled cfg && connected) wgOK stealthOK fwOK fwDetail dropState).
End gateway.

(** ** Credentials: lemmas *)

Section lemmas.
Context {St W : Type} {ST : SettingsStore St}.
Context {Account HDKey ECKey : Type} (L : WalletLib Account HDKey ECKey).
Context (gateway : list GwRequest → result GwReply) (Do : FwRequest → M W FwReply).
Context (peerID did : string).

Notation Gw := (GwState St W).
Notation input g := (registration_input peerID did (gs_cfg g)).

Lemma get_cfg_run (g : Gw) : get_cfg g = (Ok (gs_cfg g), g).
Proof. done. Qed.

Definition with_cfg (cfg : Config) (g : Gw) : Gw :=
  mkGw (gs_st g) (mkFwClient cfg (fc_licensed (gs_fw g)) (fc_sent (gs_fw g)) (fc_world (gs_fw g))) (gs_sent g).
Definition with_st (s : St) (g : Gw) : Gw := mkGw s (gs_fw g) (gs_sent g).
Definition with_sent (l : list GwRequest) (g : Gw) : Gw := mkGw (gs_st g) (gs_fw g) l.

Lemma put_cfg_run cfg (g : Gw) : put_cfg cfg g = (Ok tt, with_cfg cfg g).
Proof. done. Qed.

Lemma on_settings_run {A} (m : M St A) (g : Gw) :
  on_settings m g = ((m (gs_st g)).1, with_st (m (gs_st g)).2 g).
Proof. unfold on_settings, zoom. by destruct (m (gs_st g)). Qed.

Lemma on_gateway_run {A} (m : M (list GwRequest) A) (g : Gw) :
  on_gateway m g = ((m (gs_sent g)).1, with_sent (m (gs_sent g)).2 g).
Proof. unfold on_gateway, zoom. by destruct (m (gs_sent g)). Qed.

(** LoadCredentials only reads. *)
Lemma LoadCredentials_view (s : St) r s' :
  LoadCredentials s = (r, s') → ss_view s' = ss_view s.
Proof.
  revert s r s'. change (keeps (λ a b : St, ss_view b = ss_view a) LoadCredentials).
  assert (PreOrder (λ a b : St, ss_view b = ss_view a)) as Hpre
    by (split; [by intros ?|intros ??? H1 H2; congruence]).
  assert (∀ k, keeps (λ a b : St, ss_view b = ss_view a) (ss_Get k)) as Hg.
  { intros k s r s' H. by apply ss_get_any in H as [-> _]. }
  unfold LoadCredentials. do 2 (apply keeps_bind; [apply _|apply Hg|intros]).
  do 2 (apply keeps_bind; [apply _|apply keeps_try, Hg|intros]). by apply keeps_ret.
Qed.

(** What is stored, in a store without failures to come. *)
Definition stored (s : St) : GwCredentials :=
  mkCred (setting s settingNodeID) (setting s settingNodeToken) (setting s settingNodeKey)
    (setting s settingGatewayPublicKey).

Lemma LoadCredentials_quiet (s : St) : ss_quiet s → LoadCredentials s = (Ok (stored s), s).
Proof.
  intros Hq. unfold LoadCredentials.
  rewrite (bind_Ok _ _ _ _ _ (ss_get_quiet settingNodeID s Hq)).
  rewrite (bind_Ok _ _ _ _ _ (ss_get_quiet settingNodeToken s Hq)).
  rewrite (bind_Ok _ _ _ _ _ (try_Ok _ _ _ _ (ss_get_quiet settingNodeKey s Hq))).
  by rewrite (bind_Ok _ _ _ _ _ (try_Ok _ _ _ _ (ss_get_quiet settingGatewayPublicKey s Hq))).
Qed.

Lemma auto_register_inv old (g : Gw) r g' :
  auto_register L gateway peerID did old g = (r, g') →
  ∃ x, Register L gateway (input g) (gs_sent g) = (x, gs_sent g') ∧
    match x with
    | Err _ => r = Ok old ∧ gs_st g' = gs_st g ∧ gs_cfg g' = gs_cfg g
    | Ok out => r = Ok (gc_NodeID out, gc_NodeToken out) ∧ gs_cfg g' = registered_config out (gs_cfg g) ∧
        ∃ x, SaveCredentials (Some (mkCred (gc_NodeID out) (gc_NodeToken out) (gc_NodeKey out)
               (c_GatewayPublicKey (gs_cfg g')))) (gs_st g) = (x, gs_st g')
    end.
Proof.
  unfold auto_register. rewrite (bind_Ok _ _ _ _ _ (get_cfg_run g)).
  rewrite (try_bind _ _ _ _ _ (on_gateway_run _ g)).
  destruct (Register L gateway (input g) (gs_sent g)) as [x sent] eqn:E. cbn [fst snd].
  destruct x as [out|e]; [|intros [= <- <-]; exists (Err e); done].
  rewrite (bind_Ok _ _ _ _ _ (put_cfg_run _ _)), (try_bind _ _ _ _ _ (on_settings_run _ _)).
  intros [= <- <-]. exists (Ok out). split; [done|]. split; [done|]. split; [done|].
  eexists. cbn. apply surjective_pairing.
Qed.

Definition loaded (g : Gw) : GwCredentials :=
  match (LoadCredentials (gs_st g)).1 with
  | Ok c => c
  | Err _ => mkCred EmptyString EmptyString EmptyString EmptyString
  end.

(** The two ways to the control client: the credentials at hand, without a
    request, or a registration. *)
Lemma start_gateway_inv (g : Gw) r g' :
  start_gateway L gateway peerID did g = (r, g') →
  GatewayEnabled (gs_cfg g) = true →
  let chosen := choose_credentials peerID (gs_cfg g) (loaded g) in
  let cfg1 := adopt_keys (loaded g) (gs_cfg g) in
  let asked := (String.eqb chosen.1 EmptyString || String.eqb chosen.2 EmptyString)
               && c_GatewayAutoRegister (gs_cfg g) in
  let g0 := with_cfg cfg1 (with_st (LoadCredentials (gs_st g)).2 g) in
  ∃ node g1, (if asked then auto_register L gateway peerID did chosen g0 else (Ok chosen, g0)) = (Ok node, g1) ∧
    g' = with_cfg (set_NodeID node.1 (gs_cfg g1)) g1 ∧
    r = Ok (if negb (String.eqb node.1 EmptyString) && negb (String.eqb node.2 EmptyString)
            then Some (NewClient (c_GatewayURL (gs_cfg g1)) node.1 node.2, EffectiveNodeKey (gs_cfg g1))
            else None).
Proof.
  intros H En. cbv zeta. unfold start_gateway in H. rewrite (bind_Ok _ _ _ _ _ (get_cfg_run g)), En in H.
  cbn [negb] in H. rewrite (try_bind _ _ _ _ _ (on_settings_run _ g)) in H. fold (loaded g) in H.
  rewrite (bind_Ok _ _ _ _ _ (put_cfg_run _ _)) in H.
  set (g0 := with_cfg _ _) in H. set (chosen := choose_credentials _ _ _) in *.
  destruct (_ && c_GatewayAutoRegister _) eqn:Ea.
  - apply bind_inv in H as [(node & g1 & H1 & H)|(e & H1 & _)].
    + exists node, g1. split; [exact H1|].
      rewrite (bind_Ok _ _ _ _ _ (get_cfg_run g1)), (bind_Ok _ _ _ _ _ (put_cfg_run _ _)) in H.
      destruct (negb _ && negb _); by injection H as <- <-.
    + exfalso. apply auto_register_inv in H1 as ([] & _ & H1); naive_solver.
  - exists chosen, g0. split; [done|].
    change (mret chosen ≫= ?f) with (f chosen) in H. cbv beta in H.
    rewrite (bind_Ok _ _ _ _ _ (get_cfg_run g0)), (bind_Ok _ _ _ _ _ (put_cfg_run _ _)) in H.
    destruct (negb _ && negb _); by injection H as <- <-.
Qed.

Lemma choose_own cfg creds :
  let chosen := choose_credentials peerID cfg creds in
  chosen.1 ≠ EmptyString →
  chosen.1 = peerID ∧ chosen.1 = or_else (gc_NodeID creds) (c_NodeID cfg) ∧
  chosen.2 = or_else (gc_NodeToken creds) (c_NodeToken cfg).
Proof.
  unfold choose_credentials. cbv zeta. set (i := or_else _ _). set (t := or_else _ _).
  destruct (String.eqb_spec i EmptyString) as [->|Hi]; cbn; [done|].
  destruct (String.eqb_spec i peerID) as [->|Hp]; done.
Qed.

Lemma enabled_of_client (g : Gw) c g' :
  start_gateway L gateway peerID did g = (Ok (Some c), g') → GatewayEnabled (gs_cfg g) = true.
Proof.
  unfold start_gateway. rewrite (bind_Ok _ _ _ _ _ (get_cfg_run g)).
  destruct (GatewayEnabled (gs_cfg g)); [done|]. by intros [=].
Qed.

(** A client starts from the credentials at hand exactly when there are some
    for this node, and then sends nothing. *)
Lemma start_at_hand (g : Gw) :
  let chosen := choose_credentials peerID (gs_cfg g) (loaded g) in
  let cfg1 := adopt_keys (loaded g) (gs_cfg g) in
  GatewayEnabled (gs_cfg g) = true → chosen.1 ≠ EmptyString → chosen.2 ≠ EmptyString →
  ∃ g', start_gateway L gateway peerID did g =
    (Ok (Some (NewClient (c_GatewayURL cfg1) peerID chosen.2, EffectiveNodeKey cfg1)), g') ∧
  gs_sent g' = gs_sent g ∧ gs_st g' = (LoadCredentials (gs_st g)).2.
Proof.
  cbv zeta. intros En H1 H2. destruct (start_gateway L gateway peerID did g) as [r g'] eqn:E.
  exists g'. destruct (start_gateway_inv _ _ _ E En) as (node & g1 & E1 & -> & ->). cbv zeta in E1.
  rewrite !(proj2 (String.eqb_neq _ _)) in E1 by done. cbn in E1. injection E1 as <- <-.
  destruct (choose_own (gs_cfg g) (loaded g) H1) as (Hp & _ & _).
  rewrite !(proj2 (String.eqb_neq _ _)) by done. cbn. by rewrite Hp.
Qed.

Lemma set_if_quiet k v (s : St) :
  ss_quiet s → ∃ s', (if String.eqb v EmptyString then mret tt else ss_Set k v) s = (Ok tt, s') ∧ ss_quiet s'.
Proof. intros Hq. destruct (String.eqb v EmptyString); [by exists s|by apply ss_set_quiet]. Qed.

Lemma SaveCredentials_quiet c (s : St) :
  ss_quiet s → ∃ s', SaveCredentials (Some c) s = (Ok tt, s') ∧ ss_quiet s'.
Proof.
  intros Hq. unfold SaveCredentials.
  destruct (ss_set_quiet settingNodeID (gc_NodeID c) s Hq) as (s1 & E1 & Q1). rewrite (bind_Ok _ _ _ _ _ E1).
  destruct (ss_set_quiet settingNodeToken (gc_NodeToken c) s1 Q1) as (s2 & E2 & Q2).
  rewrite (bind_Ok _ _ _ _ _ E2).
  destruct (set_if_quiet settingNodeKey (gc_NodeKey c) s2 Q2) as (s3 & E3 & Q3). rewrite (bind_Ok _ _ _ _ _ E3).
  by apply set_if_quiet.
Qed.

(** The key a refresher gets. *)
Lemma effective_key cfg k :
  c_NodeKey cfg = k → c_NodeAPIToken cfg = k → EffectiveNodeKey cfg = TrimSpace k.
Proof.
  intros H1 H2. unfold EffectiveNodeKey, or_else. rewrite H1, H2.
  by destruct (String.eqb (TrimSpace k) EmptyString).
Qed.

Lemma key_of_adopted creds cfg :
  gc_NodeKey creds ≠ EmptyString → EffectiveNodeKey (adopt_keys creds cfg) = TrimSpace (gc_NodeKey creds).
Proof.
  intros Hk. apply effective_key; unfold adopt_keys, set_gateway_key;
    rewrite (proj2 (String.eqb_neq _ _) Hk); by destruct (String.eqb (gc_GatewayPublicKey creds) EmptyString).
Qed.

Lemma key_of_registered out cfg :
  EffectiveNodeKey (registered_config out cfg) = TrimSpace (gc_NodeKey out).
Proof.
  apply effective_key; unfold registered_config, set_gateway_key;
    by destruct (String.eqb (gc_GatewayPublicKey out) EmptyString).
Qed.

Lemma adopt_keys_url creds cfg : c_GatewayURL (adopt_keys creds cfg) = c_GatewayURL cfg.
Proof. unfold adopt_keys, set_gateway_key. by repeat case_match. Qed.

(** After credentials for this node were saved, the next start uses them and
    sends nothing. *)
Lemma start_from_saved c (s s1 : St) (g2 : Gw) :
  SaveCredentials (Some c) s = (Ok tt, s1) → ss_quiet s1 →
  ss_quiet (gs_st g2) → stored (gs_st g2) = stored s1 →
  gc_NodeID c = peerID → peerID ≠ EmptyString → gc_NodeToken c ≠ EmptyString → gc_NodeKey c ≠ EmptyString →
  GatewayEnabled (gs_cfg g2) = true →
  ∃ g2', start_gateway L gateway peerID did g2 =
    (Ok (Some (NewClient (c_GatewayURL (gs_cfg g2)) peerID (gc_NodeToken c), TrimSpace (gc_NodeKey c))), g2') ∧
  gs_sent g2' = gs_sent g2.
Proof.
  intros Hs Hq Hq2 Hst Hid Hp Ht Hk En. pose proof (credentials_roundtrip c s _ Hs Hq) as Hl.
  rewrite (LoadCredentials_quiet _ Hq) in Hl. apply pair_equal_spec in Hl as [Hl _].
  apply (f_equal (λ r, match r with Ok x => x | Err _ => stored s1 end)) in Hl. cbn beta iota in Hl.
  assert (loaded g2 = mkCred peerID (gc_NodeToken c) (gc_NodeKey c)
     (kept (gc_GatewayPublicKey c) (setting s settingGatewayPublicKey))) as El.
  { unfold loaded. rewrite (LoadCredentials_quiet _ Hq2), Hst, Hl. cbn. rewrite Hid. unfold kept at 1. by rewrite (proj2 (String.eqb_neq _ _) Hk). }
  assert (choose_credentials peerID (gs_cfg g2) (loaded g2) = (peerID, gc_NodeToken c)) as Ec.
  { unfold choose_credentials, or_else. rewrite El. cbn.
    rewrite (proj2 (String.eqb_neq _ _) Hp), (proj2 (String.eqb_neq _ _) Hp), String.eqb_refl.
    cbn. by rewrite (proj2 (String.eqb_neq _ _) Ht). }
  destruct (start_at_hand g2) as (g2' & E & Hsent & _); [done|by rewrite Ec..|].
  exists g2'. split; [|done]. rewrite E, Ec, adopt_keys_url. cbn [snd].
  rewrite key_of_adopted; rewrite El; done.
Qed.

(** A start that sent something and ends with a client has registered. *)
Lemma start_registered (g : Gw) cl key g' :
  start_gateway L gateway peerID did g = (Ok (Some (cl, key)), g') → gs_sent g' ≠ gs_sent g →
  ∃ out, gc_NodeID out = peerID ∧ peerID ≠ EmptyString ∧ gc_NodeToken out ≠ EmptyString ∧
    gc_NodeKey out ≠ EmptyString ∧
    cl = NewClient (c_GatewayURL (gs_cfg g')) (gc_NodeID out) (gc_NodeToken out) ∧
    key = TrimSpace (gc_NodeKey out) ∧
    ∃ x, SaveCredentials (Some (mkCred (gc_NodeID out) (gc_NodeToken out) (gc_NodeKey out)
           (c_GatewayPublicKey (registered_config out (adopt_keys (loaded g) (gs_cfg g))))))
           (LoadCredentials (gs_st g)).2 = (x, gs_st g').
Proof.
  intros H Hsent. pose proof (enabled_of_client _ _ _ H) as En.
  destruct (start_gateway_inv _ _ _ H En) as (node & g1 & E1 & -> & Er). cbv zeta in E1.
  destruct (negb (String.eqb node.1 EmptyString) && _) eqn:Nn; [|done]. injection Er as -> ->.
  destruct (_ && c_GatewayAutoRegister _) eqn:Ea; [|by injection E1 as <- <-].
  apply auto_register_inv in E1 as ([out|e] & Ex & Hx).
  - destruct Hx as ([= ->] & Hc & x & Hs). rewrite Hc in Hs. apply Register_exchange in Ex as [_ Ex].
    destruct (Ex out eq_refl) as [(?&?&?&?&?&?&?&?&?&?&_&_&_&_&_&_&_&_&_&_&_&_&_&_&Ht&_&Hk&Hid) Hp].
    exists out. cbn in Hp, Hid. do 4 (split; [done|]). split; [done|]. split; [|by exists x].
    rewrite Hc. apply key_of_registered.
  - exfalso. destruct Hx as ([= ->] & _ & _). apply andb_true_iff in Ea as [Ea _].
    apply orb_true_iff in Ea as [Ea|Ea]; rewrite Ea in Nn; [done|]. by rewrite andb_false_r in Nn.
Qed.
End lemmas.

Lemma refreshed_nonempty gateway url peerID key sent tok sent' :
  RefreshNodeToken gateway url peerID key sent = (Ok tok, sent') → tok ≠ EmptyString.
Proof.
  unfold RefreshNodeToken. cbv zeta. destruct (_ || _ || _); [by intros [=]|].
  intros (r & s1 & _ & H)%bind_ok. destruct (negb (gr_status r =? 200)); [by injection H|].
  apply bind_ok in H as (t & s2 & _ & H). destruct (String.eqb_spec t EmptyString); [by injection H|].
  by injection H as <- <-.
Qed.

Lemma not_registered_not_ready cfg i :
  GatewayEnabled cfg = true → in_GatewayRegistered i = false → rp_OK (Evaluate (Some cfg) i) = false.
Proof.
  intros En Hr. apply not_true_iff_false. intros (_ & _ & _ & _ & _ & H)%Evaluate_ok.
  specialize (H En). congruence.
Qed.

(** ** Licence and resolver *)

Section resolver.
Context {St W : Type} (Do : FwRequest → M W FwReply).

Lemma CheckLicense_cfg (c : FwClient W) r c' : CheckLicense Do c = (r, c') → fc_cfg c' = fc_cfg c.
Proof.
  revert c r c'. change (keeps (λ a b : FwClient W, fc_cfg b = fc_cfg a) (CheckLicense Do)).
  assert (PreOrder (λ a b : FwClient W, fc_cfg b = fc_cfg a)) as Hpre
    by (split; [by intros ?|intros ??? H1 H2; congruence]).
  unfold CheckLicense. apply keeps_bind; [apply _|by intros c r c' [= <- <-]|intros c0].
  destruct (negb _); [by apply keeps_ret|]. cbv zeta. apply keeps_bind; [apply _| |intros r].
  { intros c r c'. unfold send, run. destruct (Do _ _). by intros [= <- <-]. }
  destruct (negb _); [by apply keeps_fail|]. apply keeps_bind; [apply _|by intros c r' c' [= <- <-]|intros _].
  by apply keeps_ret.
Qed.

(** The licence after the check: refused only by an answer that says so. *)
Lemma check_license_inv (g : GwState St W) r g' :
  check_license Do g = (r, g') →
  r = Ok tt ∧
  gs_cfg g' = set_SentinelLicensed
    (if HasFirewallService (gs_cfg g) && String.eqb (c_FirewallProvider (gs_cfg g)) FirewallUnboundErebrus
     then match (CheckLicense Do (gs_fw g)).1 with Ok b => b | Err _ => true end else true) (gs_cfg g).
Proof.
  unfold check_license. rewrite (bind_Ok _ _ _ _ _ (get_cfg_run g)).
  destruct (_ && _); [|by intros [= <- <-]].
  unfold on_firewall at 1, zoom, mbind, M_bind, try.
  destruct (CheckLicense Do (gs_fw g)) as [x f] eqn:E. apply CheckLicense_cfg in E.
  intros [= <- <-]. split; [done|]. unfold gs_cfg. cbn. by rewrite E.
Qed.
End resolver.

(** Where the credentials of a new control client come from; it is not connected. *)
Lemma client_identity {St W} {ST : SettingsStore St} {Account HDKey ECKey}
    (L : WalletLib Account HDKey ECKey) gateway peerID did (g : GwState St W) cl key g' :
  start_gateway L gateway peerID did g = (Ok (Some (cl, key)), g') →
  cl_connected cl = false ∧ cl_nodeID cl = peerID ∧ peerID ≠ EmptyString ∧ cl_nodeToken cl ≠ EmptyString ∧
  ((gs_sent g' = gs_sent g ∧
    or_else (gc_NodeID (loaded g)) (c_NodeID (gs_cfg g)) = peerID ∧
    cl_nodeToken cl = or_else (gc_NodeToken (loaded g)) (c_NodeToken (gs_cfg g))) ∨
   ∃ c, registered L gateway (registration_input peerID did (adopt_keys (loaded g) (gs_cfg g)))
          (gs_sent g) (gs_sent g') c ∧ cl_nodeToken cl = gc_NodeToken c).
Proof.
  intros H. pose proof (enabled_of_client _ _ _ _ _ _ _ H) as En.
  destruct (start_gateway_inv _ _ _ _ _ _ _ H En) as (node & g1 & E1 & -> & Er). cbv zeta in E1.
  destruct (negb (String.eqb node.1 EmptyString) && _) eqn:En2; [|done]. injection Er as -> ->.
  apply andb_true_iff in En2 as [N1%negb_true_iff%String.eqb_neq N2%negb_true_iff%String.eqb_neq].
  destruct (_ && c_GatewayAutoRegister _) eqn:Ea.
  - apply auto_register_inv in E1 as (x & Ex & Hx). cbn in Ex. destruct x as [out|e].
    + destruct Hx as ([= ->] & _ & _). apply Register_exchange in Ex as [_ Ex].
      destruct (Ex out eq_refl) as [Hreg Hp]. cbn in *.
      assert (gc_NodeID out = peerID) as -> by (destruct Hreg as (?&?&?&?&?&?&?&?&?&?&Hreg); by apply Hreg).
      split; [done|]. split; [done|]. split; [done|]. split; [done|]. right. by exists out.
    + destruct Hx as ([= ->] & _ & _). apply andb_true_iff in Ea as [Ea _].
      apply orb_true_iff in Ea as [Ea|Ea]; apply String.eqb_eq in Ea; done.
  - injection E1 as <- <-. destruct (choose_own peerID (gs_cfg g) (loaded g) N1) as (E1 & E2 & E3).
    cbn. split; [done|]. split; [done|]. split; [congruence|]. split; [done|]. left. split; [done|]. by rewrite <- E2, <- E3.
Qed.

(** ** Properties *)

(** C13. The control client speaks for this node only.  When the start creates
    a control client, its node id is the node's own peer id and its token is
    not empty; either nothing was sent and both come from the stored or the
    configured credentials, whose node id is the peer id, or the token is the
    one of a registration just made for this peer id, with the challenge
    signed by the node's wallet. *)
Theorem control_client_own_identity {St W} {ST : SettingsStore St} {Account HDKey ECKey}
    (L : WalletLib Account HDKey ECKey) gateway peerID did (g : GwState St W) cl key g' :
  start_gateway L gateway peerID did g = (Ok (Some (cl, key)), g') →
  cl_nodeID cl = peerID ∧ peerID ≠ EmptyString ∧ cl_nodeToken cl ≠ EmptyString ∧
  ((gs_sent g' = gs_sent g ∧
    or_else (gc_NodeID (loaded g)) (c_NodeID (gs_cfg g)) = peerID ∧
    cl_nodeToken cl = or_else (gc_NodeToken (loaded g)) (c_NodeToken (gs_cfg g))) ∨
   ∃ c, registered L gateway (registration_input peerID did (adopt_keys (loaded g) (gs_cfg g)))
          (gs_sent g) (gs_sent g') c ∧ cl_nodeToken cl = gc_NodeToken c).
Proof. by intros [_ H]%client_identity. Qed.

(** C27. A registration is made once.  When a start registered and the store
    had no failure, so that the credentials were saved, every later start with
    the gateway enabled whose store answers and still holds these credentials,
    whatever else it holds, whatever the configuration and whatever the gateway
    would answer, creates the client with the same node id, token and refresh
    key, and sends no request.  (A start whose save fails only logs it; and a
    refresh replaces the stored token, [refreshed_token_kept].) *)
Theorem registration_survives_restart {St W} {ST : SettingsStore St} {Account HDKey ECKey}
    (L : WalletLib Account HDKey ECKey) gateway gateway2 peerID did (g g2 : GwState St W) cl key g' :
  start_gateway L gateway peerID did g = (Ok (Some (cl, key)), g') → gs_sent g' ≠ gs_sent g →
  ss_quiet (gs_st g) → ss_quiet (gs_st g2) → stored (gs_st g2) = stored (gs_st g') →
  GatewayEnabled (gs_cfg g2) = true →
  ∃ g2', start_gateway L gateway2 peerID did g2 =
      (Ok (Some (NewClient (c_GatewayURL (gs_cfg g2)) (cl_nodeID cl) (cl_nodeToken cl), key)), g2') ∧
    gs_sent g2' = gs_sent g2.
Proof.
  intros H Hsent Hq Hq2 H2 En2. pose proof (enabled_of_client _ _ _ _ _ _ _ H) as En.
  destruct (start_registered _ _ _ _ _ _ _ _ H Hsent) as (out & Hid & Hp & Ht & Hk & -> & -> & x & Es).
  rewrite (LoadCredentials_quiet _ Hq) in Es. cbn [snd] in Es.
  destruct (SaveCredentials_quiet (mkCred (gc_NodeID out) (gc_NodeToken out) (gc_NodeKey out)
    (c_GatewayPublicKey (registered_config out (adopt_keys (loaded g) (gs_cfg g))))) (gs_st g) Hq) as (s' & E' & Q').
  rewrite E' in Es. injection Es as <- Hs'. cbn [cl_nodeID cl_nodeToken NewClient]. rewrite Hid.
  eapply (start_from_saved L gateway2 peerID did _ _ _ g2 E' Q'); cbn; try done; congruence.
Qed.

(** A refreshed token is the one the node starts with next.  When the
    refresher obtained a token and the store had no failure, the next start on
    that store creates the client with that token and sends no request. *)
Lemma refreshed_token_kept {St W} {ST : SettingsStore St} {Account HDKey ECKey}
    (L : WalletLib Account HDKey ECKey) gateway gateway2 peerID did (g g2 : GwState St W) refreshKey tok g' :
  refresh_token gateway peerID refreshKey g = (Ok tok, g') → ss_quiet (gs_st g) → peerID ≠ EmptyString →
  gs_st g2 = gs_st g' → GatewayEnabled (gs_cfg g2) = true →
  ∃ g2', start_gateway L gateway2 peerID did g2 =
      (Ok (Some (NewClient (c_GatewayURL (gs_cfg g2)) peerID tok, TrimSpace refreshKey)), g2') ∧
    gs_sent g2' = gs_sent g2.
Proof.
  intros H Hq Hp H2 En. unfold refresh_token in H.
  destruct (String.eqb_spec refreshKey EmptyString) as [|Hk]; [done|].
  rewrite (bind_Ok _ _ _ _ _ (get_cfg_run g)) in H. apply bind_ok in H as (tok' & g1 & H1 & H).
  rewrite on_gateway_run in H1. injection H1 as H1 <-.
  rewrite (bind_Ok _ _ _ _ _ (put_cfg_run _ _)), (try_bind _ _ _ _ _ (on_settings_run _ _)) in H.
  unfold mret, M_ret in H. apply pair_equal_spec in H as [[= ->] <-].
  cbn [gs_st with_st with_cfg with_sent] in H2.
  destruct (SaveCredentials_quiet (mkCred peerID tok refreshKey (c_GatewayPublicKey (gs_cfg g))) (gs_st g) Hq)
    as (s' & E' & Q').
  rewrite E' in H2. cbn [snd] in H2.
  assert (tok ≠ EmptyString) as Ht.
  { destruct (RefreshNodeToken _ _ _ _ _) as [x l] eqn:Er. cbn in H1. subst x. by eapply refreshed_nonempty. }
  by eapply (start_from_saved L gateway2 peerID did _ _ _ g2 E' Q'); rewrite ?H2.
Qed.

(** Configured credentials never make the node ready.  A node whose
    credentials are only in its configuration starts its control client
    without a request and stores nothing; however long its control channel is
    connected, its readiness report says that it is not registered and is
    negative. *)
Lemma configured_credentials_not_ready {St W} {ST : SettingsStore St} {Account HDKey ECKey}
    (L : WalletLib Account HDKey ECKey) gateway peerID did (g : GwState St W) :
  ss_quiet (gs_st g) → ss_view (gs_st g) = ∅ → GatewayEnabled (gs_cfg g) = true →
  c_NodeID (gs_cfg g) = peerID → peerID ≠ EmptyString → c_NodeToken (gs_cfg g) ≠ EmptyString →
  ∃ c g', start_gateway L gateway peerID did g = (Ok (Some c), g') ∧ gs_sent g' = gs_sent g ∧
    ∀ wgOK stealthOK connected agent dropState, ∃ i,
      (readiness_input wgOK stealthOK connected agent dropState g').1 = Ok i ∧
      in_GatewayConnected i = connected ∧ in_GatewayRegistered i = false ∧
      rp_OK (Evaluate (Some (gs_cfg g')) i) = false.
Proof.
  intros Hq Hv En Hid Hp Ht.
  assert (loaded g = mkCred EmptyString EmptyString EmptyString EmptyString) as El.
  { unfold loaded. rewrite (LoadCredentials_quiet _ Hq). unfold stored, setting. by rewrite Hv. }
  assert (choose_credentials peerID (gs_cfg g) (loaded g) = (peerID, c_NodeToken (gs_cfg g))) as Ec.
  { rewrite El. unfold choose_credentials, or_else. cbn. rewrite Hid, String.eqb_refl.
    by rewrite andb_false_r. }
  destruct (start_gateway L gateway peerID did g) as [r g'] eqn:E.
  destruct (start_gateway_inv _ _ _ _ _ _ _ E En) as (node & g1 & E1 & -> & ->). cbv zeta in E1.
  rewrite Ec, El in E1. cbn [fst snd] in E1. rewrite !(proj2 (String.eqb_neq _ _)) in E1 by done.
  injection E1 as <- <-. cbn [fst snd]. rewrite !(proj2 (String.eqb_neq _ _)) by done.
  eexists _, _. split; [done|]. split; [done|].
  intros wgOK stealthOK connected agent dropState. unfold readiness_input.
  rewrite (LoadCredentials_quiet _ Hq). cbn [snd].
  set (g' := with_cfg _ _). assert (GatewayEnabled (gs_cfg g') = true) as En' by exact En.
  rewrite (bind_Ok _ _ _ _ _ (get_cfg_run g')), En'.
  rewrite (try_bind _ _ _ _ _ (on_settings_run _ g')).
  change (gs_st g') with (gs_st g). rewrite (LoadCredentials_quiet _ Hq). cbn [fst snd].
  unfold stored, setting. rewrite Hv. destruct (if HasFirewallService (gs_cfg g') then _ else _) as [fwOK fwDetail].
  eexists. split; [done|]. cbn [in_GatewayConnected in_GatewayRegistered]. split; [done|]. split; [done|].
  apply (not_registered_not_ready _ _ En'). done.
Qed.

(** After the mnemonic changed, the old identity lingers.  With complete
    credentials of another node id in the store and no registration allowed,
    the start creates no client; yet it takes over the other identity's node
    key for its own API, and the readiness check of the control plane passes
    with the claim that the node is registered. *)
Lemma stale_identity_lingers {St W} {ST : SettingsStore St} {Account HDKey ECKey}
    (L : WalletLib Account HDKey ECKey) gateway peerID did (g : GwState St W) :
  let old := stored (gs_st g) in
  ss_quiet (gs_st g) → gc_NodeID old ≠ EmptyString → gc_NodeID old ≠ peerID → gc_NodeToken old ≠ EmptyString →
  gc_NodeKey old ≠ EmptyString → GatewayEnabled (gs_cfg g) = true → c_GatewayAutoRegister (gs_cfg g) = false →
  ∃ g', start_gateway L gateway peerID did g = (Ok None, g') ∧
    c_NodeAPIToken (gs_cfg g') = gc_NodeKey old ∧ EffectiveNodeKey (gs_cfg g') = TrimSpace (gc_NodeKey old) ∧
    ∀ wgOK stealthOK agent dropState, ∃ i,
      (readiness_input wgOK stealthOK false agent dropState g').1 = Ok i ∧
      controlPlaneCheck (gs_cfg g') (in_GatewayRegistered i) (in_GatewayConnected i) =
        mkCheck "control_plane" true "registered, control channel reconnecting" false.
Proof.
  cbv zeta. intros Hq Hid Hne Ht Hk En Hauto.
  assert (loaded g = stored (gs_st g)) as El by (unfold loaded; by rewrite (LoadCredentials_quiet _ Hq)).
  assert (choose_credentials peerID (gs_cfg g) (loaded g) = (EmptyString, EmptyString)) as Ec.
  { rewrite El. unfold choose_credentials, or_else. rewrite (proj2 (String.eqb_neq _ _) Hid).
    by rewrite (proj2 (String.eqb_neq _ _) Hid), (proj2 (String.eqb_neq _ _) Hne). }
  destruct (start_gateway L gateway peerID did g) as [r g'] eqn:E.
  destruct (start_gateway_inv _ _ _ _ _ _ _ E En) as (node & g1 & E1 & -> & ->). cbv zeta in E1.
  rewrite Ec, El, Hauto in E1. injection E1 as <- <-.
  set (cfg1 := adopt_keys (stored (gs_st g)) (gs_cfg g)).
  assert (c_NodeAPIToken cfg1 = gc_NodeKey (stored (gs_st g)) ∧ GatewayEnabled cfg1 = true) as [Htok En1].
  { unfold cfg1, adopt_keys, set_gateway_key. rewrite (proj2 (String.eqb_neq _ _) Hk). clear E; destruct (String.eqb (gc_GatewayPublicKey _) EmptyString); (split; [done|exact En]). }
  eexists. split; [done|]. split; [exact Htok|]. split; [exact (key_of_adopted _ _ Hk)|].
  rewrite (LoadCredentials_quiet _ Hq). cbn [fst snd]. set (g' := with_cfg _ _).
  assert (GatewayEnabled (gs_cfg g') = true) as En' by exact En1.
  intros wgOK stealthOK agent dropState. unfold readiness_input.
  rewrite (bind_Ok _ _ _ _ _ (get_cfg_run g')), En'. rewrite (try_bind _ _ _ _ _ (on_settings_run _ g')).
  change (gs_st g') with (gs_st g). rewrite (LoadCredentials_quiet _ Hq). cbn [fst snd].
  rewrite !(proj2 (String.eqb_neq _ _)) by done.
  destruct (if HasFirewallService (gs_cfg g') then _ else _) as [fwOK fwDetail].
  eexists. split; [done|]. cbn [in_GatewayConnected in_GatewayRegistered].
  unfold controlPlaneCheck. by rewrite En'.
Qed.

(** The licence fails open.  With private DNS off, the start serves the
    tunnel with the firewall's forwarder whenever a firewall service is
    configured, except when the Sentinel sidecar itself answered that it has
    no licence: a check that fails or cannot be made counts as a licence. *)
Lemma licence_fails_open {St W} (Do : FwRequest → M W FwReply) (g : GwState St W) r g' :
  check_license Do g = (r, g') → c_PrivateDNSEnabled (gs_cfg g) = false →
  let refused := String.eqb (c_FirewallProvider (gs_cfg g)) FirewallUnboundErebrus &&
                 match (CheckLicense Do (gs_fw g)).1 with Ok false => true | _ => false end in
  choose_resolver (gs_cfg g') =
    (if HasFirewallService (gs_cfg g) && negb refused
     then FirewallForwarder (mkForwarder (DefaultListenAddr (c_WGIPv4Subnet (gs_cfg g)) (c_PrivateDNSAddr (gs_cfg g)))
            (c_FirewallDNSAddr (gs_cfg g)))
     else NoResolver).
Proof.
  intros H Hp. cbv zeta. apply check_license_inv in H as [_ ->]. unfold choose_resolver.
  change (c_PrivateDNSEnabled (set_SentinelLicensed ?b ?c)) with (c_PrivateDNSEnabled c).
  change (HasFirewallService (set_SentinelLicensed ?b ?c)) with (HasFirewallService c).
  change (c_SentinelLicensed (set_SentinelLicensed ?b ?c)) with b. rewrite Hp.
  destruct (HasFirewallService (gs_cfg g)); [|done]. cbn [andb].
  destruct (String.eqb (c_FirewallProvider (gs_cfg g)) FirewallUnboundErebrus); [|done].
  by destruct (CheckLicense Do (gs_fw g)).1 as [[]|e].
Qed.

(** ** Witnesses *)

(** A node with a gateway, an enrolment token and a mnemonic. *)
Definition start_env (extra : list (string * string)) : Config :=
  Config.Load (mkEnv (list_to_map (extra ++ [("GATEWAY_URL", "https://gw.example"); ("MNEMONIC", "abandon");
    ("EREBRUS_NODE_REGISTRATION_TOKEN", "enroll")])) None).
Definition start_state (extra : list (string * string)) (s : DB) : GwState DB nat :=
  mkGw s (New (start_env extra) 0%nat) [].
Lemma start_state_st extra s : gs_st (start_state extra s) = s.
Proof. reflexivity. Qed.
Lemma start_state_sent extra s : gs_sent (start_state extra s) = [].
Proof. reflexivity. Qed.
(** A gateway that refuses everything. *)
Definition gw_refuses (sent : list GwRequest) : result GwReply := Err (EMsg "connection refused").

Local Notation first_start :=
  (start_gateway lib_example gw_example "12D3" "did:erebrus:12D3" (start_state [] empty_db)).

Lemma control_client_own_identity_witness :
  fst first_start = Ok (Some (NewClient "https://gw.example" "12D3" "tok", "key")) ∧
  ("12D3" = "12D3" ∧ "12D3" ≠ EmptyString ∧ "tok" ≠ EmptyString).
Proof.
  assert (fst first_start = Ok (Some (NewClient "https://gw.example" "12D3" "tok", "key"))) as E
    by (vm_compute; reflexivity).
  split; [exact E|].
  destruct (control_client_own_identity lib_example gw_example "12D3" "did:erebrus:12D3" (start_state [] empty_db)
    (NewClient "https://gw.example" "12D3" "tok") "key" (snd first_start)) as (H1 & H2 & H3 & _).
  - rewrite <- E. apply surjective_pairing.
  - split; [exact H1|]. split; [exact H2|exact H3].
Defined.

(** After a restart, with the gateway down. *)
Lemma registration_survives_restart_witness :
  ∃ g2', start_gateway lib_example gw_refuses "12D3" "did:erebrus:12D3"
      (start_state [] (gs_st (snd first_start))) =
      (Ok (Some (NewClient "https://gw.example" "12D3" "tok", "key")), g2') ∧ gs_sent g2' = [].
Proof.
  assert (fst first_start = Ok (Some (NewClient "https://gw.example" "12D3" "tok", "key"))) as E
    by (vm_compute; reflexivity).
  destruct (registration_survives_restart lib_example gw_example gw_refuses "12D3" "did:erebrus:12D3"
    (start_state [] empty_db) (start_state [] (gs_st (snd first_start)))
    (NewClient "https://gw.example" "12D3" "tok") "key" (snd first_start)) as (g2' & H1 & H2).
  - rewrite <- E. apply surjective_pairing.
  - vm_compute. discriminate.
  - reflexivity.
  - rewrite start_state_st. vm_compute. reflexivity.
  - by rewrite start_state_st.
  - vm_compute. reflexivity.
  - exists g2'. split; [rewrite H1; f_equal; vm_compute; reflexivity|rewrite H2; apply start_state_sent].
Defined.

(** The example gateway answers a first request with a challenge, which has
    no token; the refresh is the second one. *)
Definition refresh_state : GwState DB nat :=
  mkGw empty_db (New (start_env []) 0%nat) [mkGwReq EmptyString EmptyString []].

Lemma refreshed_token_kept_witness :
  ∃ g2', start_gateway lib_example gw_refuses "12D3" "did:erebrus:12D3"
      (start_state [] (gs_st (snd (refresh_token gw_example "12D3" "key" refresh_state)))) =
      (Ok (Some (NewClient "https://gw.example" "12D3" "tok", "key")), g2') ∧ gs_sent g2' = [].
Proof.
  assert (fst (refresh_token gw_example "12D3" "key" refresh_state) = Ok "tok") as E
    by (vm_compute; reflexivity).
  destruct (refreshed_token_kept lib_example gw_example gw_refuses "12D3" "did:erebrus:12D3" refresh_state
    (start_state [] (gs_st (snd (refresh_token gw_example "12D3" "key" refresh_state))))
    "key" "tok" (snd (refresh_token gw_example "12D3" "key" refresh_state))) as (g2' & H1 & H2).
  - rewrite <- E. apply surjective_pairing.
  - reflexivity.
  - discriminate.
  - apply start_state_st.
  - vm_compute. reflexivity.
  - exists g2'. split; [rewrite H1; f_equal; vm_compute; reflexivity|rewrite H2; apply start_state_sent].
Defined.

Local Notation env_state := (start_state [("NODE_ID", "12D3"); ("NODE_TOKEN", "tok")] empty_db).

Lemma configured_credentials_not_ready_witness :
  ∃ c g', start_gateway lib_example gw_refuses "12D3" "did:erebrus:12D3" env_state = (Ok (Some c), g') ∧
    ∃ i, (readiness_input true true true (NewAgent) "active" g').1 = Ok i ∧
      in_GatewayConnected i = true ∧ rp_OK (Evaluate (Some (gs_cfg g')) i) = false.
Proof.
  destruct (configured_credentials_not_ready lib_example gw_refuses "12D3" "did:erebrus:12D3" env_state)
    as (c & g' & E & _ & H);
    [reflexivity|reflexivity|vm_compute; reflexivity|vm_compute; reflexivity|discriminate|vm_compute; discriminate|].
  exists c, g'. split; [exact E|]. destruct (H true true true NewAgent "active") as (i & H1 & H2 & _ & H4).
  exists i. split; [exact H1|]. split; [exact H2|exact H4].
Defined.

(** The store of a node whose mnemonic was replaced. *)
Definition other_db : DB :=
  (SaveCredentials (Some (mkCred "12D3old" "oldtok" "oldkey" "pub")) empty_db).2.

Lemma stale_identity_lingers_witness :
  ∃ g', start_gateway lib_example gw_refuses "12D3" "did:erebrus:12D3"
      (start_state [("GATEWAY_AUTO_REGISTER", "false")] other_db) = (Ok None, g') ∧
    c_NodeAPIToken (gs_cfg g') = "oldkey".
Proof.
  destruct (stale_identity_lingers lib_example gw_refuses "12D3" "did:erebrus:12D3"
    (start_state [("GATEWAY_AUTO_REGISTER", "false")] other_db)) as (g' & E & H & _);
    [vm_compute; reflexivity|vm_compute; discriminate|vm_compute; discriminate|vm_compute; discriminate
    |vm_compute; discriminate|vm_compute; reflexivity|vm_compute; reflexivity|].
  exists g'. split; [exact E|]. rewrite H. vm_compute. reflexivity.
Defined.

(** The Sentinel sidecar cannot be reached. *)
Definition do_down (rq : FwRequest) : M nat FwReply := λ n, (Err (EMsg "connection refused"), n).
Definition sentinel_state : GwState DB nat := mkGw empty_db (New sentinel_cfg 0%nat) [].

Lemma licence_fails_open_witness :
  c_PrivateDNSEnabled (gs_cfg sentinel_state) = false ∧
  choose_resolver (gs_cfg (snd (check_license do_down sentinel_state))) ≠ NoResolver.
Proof.
  split; [vm_compute; reflexivity|].
  rewrite (licence_fails_open do_down sentinel_state _ _ (surjective_pairing _)); vm_compute; [discriminate|reflexivity].
Defined.

(** ** The resolver's goroutine *)

(** How it ends; [listen]: how ListenAndServe on an address ends. *)
Definition start_resolver (r : Resolver) (listen : string → result unit) : result unit :=
  match r with
  | NoResolver => Ok tt
  | PrivateDNS c => dns_Start c listen
  | FirewallForwarder f => forwarder_Start f listen
  end.

(** The resolver that Run chooses listens on the address of the tunnel; only a
    forwarder without an upstream gives up before that. *)
Lemma chosen_resolver_listens cfg listen :
  let tunnelDNS := DefaultListenAddr (c_WGIPv4Subnet cfg) (c_PrivateDNSAddr cfg) in
  match choose_resolver cfg with
  | NoResolver => True
  | PrivateDNS c => start_resolver (PrivateDNS c) listen = listen tunnelDNS
  | FirewallForwarder f => tunnelDNS ≠ EmptyString → TrimSpace (c_FirewallDNSAddr cfg) ≠ EmptyString →
      start_resolver (FirewallForwarder f) listen = listen tunnelDNS
  end.
Proof.
  cbv zeta. unfold choose_resolver. destruct (c_PrivateDNSEnabled cfg).
  - destruct (Dns.Validate _); [|done]. done.
  - destruct (_ && _); [|done]. intros H1 H2. cbn. unfold forwarder_Start, forwarder_check. cbn [f_ListenAddr f_Upstream].
    by rewrite (proj2 (String.eqb_neq _ _) H1), (proj2 (String.eqb_neq _ _) H2).
Qed.
