(* ===== verification/System.v ===== *)
(** * The running node: internal/nodeapp/run.go

    After the start the goroutines of Run share one node: the HTTP server, the
    control channel with its token refresher, the report of the firewall's
    login and the Drop health poll; other processes (the command line) write
    to the same database.  [System] is what they share, [SysEvent] one of
    their actions, and a run of the node is a sequence of events in any order.

    The configuration is one object that several parts write to: it is the one
    in the firewall client, and every event reads it as it is then.  The keys
    of the API's middleware are those captured when its routes were built.

    An event is one action of a goroutine, up to where another may act.  A
    request is one event, but a PUT may also take two: the handler checks the
    status of the node and only then calls the provisioner, and other events
    may come in between. *)
From S2P Require Import Prelude GoStrings GoUrl GoDecode StoreDB Store ConfigData Config Wg Sha256 Stealth Dns Wallet DropClient DropService Auth ServiceAgent Readiness Node Bridge Api Firewall GatewayClient Provenance ControlChannel P2P Boot Startup.

(** ** State *)

(** A PUT whose handler has passed its checks and not yet called UpsertPeer. *)
Record InFlight := mkPut { if_rq : HttpRequest; if_id : string; if_req : PeerRequest }.

(** The bridge holds the node service, the carriers, the firewall client, both
    copies of the status and the usage counters.  [sy_client]: the control
    client, if there is one, and the key its refresher uses.  [sy_keys]: the
    keys that the middleware captured. *)
Record System (W : Type) := mkSystem {
  sy_bridge : Bridge (FwClient W); sy_drop : DropState; sy_sent : list GwRequest;
  sy_client : option (Client * string); sy_boot : Booted; sy_resolver : Resolver;
  sy_keys : AuthKeys; sy_inflight : list InFlight }.
Arguments mkSystem {W}. Arguments sy_bridge {W}. Arguments sy_drop {W}. Arguments sy_sent {W}.
Arguments sy_client {W}. Arguments sy_boot {W}. Arguments sy_resolver {W}.
Arguments sy_keys {W}. Arguments sy_inflight {W}.

Inductive SysEvent :=
| SRequest (d : Draw) (live : DeviceStats) (uptime : Z) (env : StatusEnv) (rq : HttpRequest) (r : Route)
| SPutBegin (rq : HttpRequest) (id : string) (bound : option PeerRequest)   (* a PUT passes its checks or is answered *)
| SPutFinish (n : nat) (d : Draw) (live : DeviceStats) (uptime : Z)         (* a PUT in flight calls UpsertPeer *)
| SCommand (shortID : string) (cmd : Command)      (* a command of the gateway *)
| SHeartbeat (d : Draws)                           (* a heartbeat is built *)
| SUsage (d : Draws)                               (* a usage report is built *)
| SRefresh                                         (* the token is refreshed *)
| SShield                                          (* the Shield login is reported *)
| SReadiness (connected : bool) (agent : Agent)    (* the readiness signals are read *)
| SDropPoll                                        (* the Drop health poll *)
| SOther (op : store_op).                          (* another process writes other tables *)

Section system.
Context {srt : Sorting} {W Account HDKey ECKey : Type} (L : WalletLib Account HDKey ECKey).
Context (ParseKey : string → result (list Z)) (Verify : list Z → string → result Claims).
Context (StatusText : Z → string) (KuboDo : Request → result Response) (cid_Decode : string → result unit)
  (boundary : string).
Context (FwDo : FwRequest → M W FwReply) (Unmarshal : string → result json).
Context (gateway : list GwRequest → result GwReply).

Notation Sys := (System W).

Definition sy_node (s : Sys) : NodeState := g_node (sy_bridge s).
Definition sy_tables (s : Sys) : tables := nt (sy_node s).
Definition sy_cfg (s : Sys) : Config := fc_cfg (g_fw (sy_bridge s)).

Definition set_bridge (b : Bridge (FwClient W)) (s : Sys) : Sys :=
  mkSystem b (sy_drop s) (sy_sent s) (sy_client s) (sy_boot s) (sy_resolver s) (sy_keys s) (sy_inflight s).
Definition on_bridge {A} (m : M (Bridge (FwClient W)) A) : M Sys A := zoom sy_bridge set_bridge m.

(** The HTTP server works on the node service, its copy of the status and the
    Drop service. *)
Definition server_of (s : Sys) : Server NodeState :=
  mkServer (sy_node s) (g_api_status (sy_bridge s)) (Some (sy_drop s)).
Definition set_server (v : Server NodeState) (s : Sys) : Sys :=
  let b := sy_bridge s in
  mkSystem (mkBridge (sv_prov v) (g_stealth b) (g_fw b) (g_status b) (sv_status v) (g_lastUsage b))
    (default (sy_drop s) (sv_drop v)) (sy_sent s) (sy_client s) (sy_boot s) (sy_resolver s) (sy_keys s) (sy_inflight s).
Definition on_api {A} (m : M (Server NodeState) A) : M Sys A := zoom server_of set_server m.

(** The gateway part works on the store, the firewall client with the
    configuration, and the requests sent. *)
Definition gw_of (s : Sys) : GwState DB W :=
  mkGw (w_db (n_host (sy_node s))) (g_fw (sy_bridge s)) (sy_sent s).
Definition set_gw (g : GwState DB W) (s : Sys) : Sys :=
  let b := sy_bridge s in
  mkSystem (mkBridge (set_host (set_db (gs_st g) (n_host (g_node b))) (g_node b)) (g_stealth b) (gs_fw g)
              (g_status b) (g_api_status b) (g_lastUsage b))
    (sy_drop s) (gs_sent g) (sy_client s) (sy_boot s) (sy_resolver s) (sy_keys s) (sy_inflight s).
Definition on_gw {A} (m : M (GwState DB W) A) : M Sys A := zoom gw_of set_gw m.

Definition on_dropstate {A} (m : M DropState A) : M Sys A :=
  zoom sy_drop (λ d s, mkSystem (sy_bridge s) d (sy_sent s) (sy_client s) (sy_boot s) (sy_resolver s)
    (sy_keys s) (sy_inflight s)) m.

Definition ignore {A} (m : M Sys A) : M Sys unit := _ ← m; mret tt.
Definition no_client : error := EMsg "no control plane".

(** ** Events *)

Definition http_request (d : Draw) (live : DeviceStats) (uptime : Z) (env : StatusEnv) (rq : HttpRequest)
    (r : Route) : M Sys HttpResponse :=
  s ← get;
  let cfg := sy_cfg s in
  on_api (Router (PV := node_provisioner ParseKey cfg (m_secrets <$> g_stealth (sy_bridge s)) true d live uptime)
            Verify cfg true StatusText KuboDo cid_Decode boundary (sy_keys s) env rq r).

Definition set_inflight (l : list InFlight) (s : Sys) : Sys :=
  mkSystem (sy_bridge s) (sy_drop s) (sy_sent s) (sy_client s) (sy_boot s) (sy_resolver s) (sy_keys s) l.

Definition put_begin (rq : HttpRequest) (id : string) (bound : option PeerRequest) : M Sys unit :=
  s ← get;
  match guard Verify (sy_cfg s) (sy_keys s) rq (PutPeer id bound) with
  | AbortWithStatusJSON _ _ => mret tt
  | Next =>
      r ← on_api (put_admit bound);
      match r with
      | inl _ => mret tt
      | inr req => run (λ s, (Ok tt, set_inflight (sy_inflight s ++ [mkPut rq id req]) s))
      end
  end.

Definition put_finish (n : nat) (d : Draw) (live : DeviceStats) (uptime : Z) : M Sys unit :=
  s ← get;
  match sy_inflight s !! n with
  | None => fail (EMsg "no such request")
  | Some p =>
      _ ← run (λ s, (Ok tt, set_inflight (delete n (sy_inflight s)) s));
      ignore (on_api (put_provision
        (PV := node_provisioner ParseKey (sy_cfg s) (m_secrets <$> g_stealth (sy_bridge s)) true d live uptime)
        (if_id p) (if_req p)))
  end.

Definition gateway_command (shortID : string) (cmd : Command) : M Sys CommandResult :=
  s ← get;
  match sy_client s with
  | None => fail no_client
  | Some _ =>
      on_bridge (HandleCommand ParseKey (sy_cfg s) (Some (firewall_ops FwDo Unmarshal)) true true shortID cmd)
  end.

Definition sys_exec (ev : SysEvent) : M Sys unit :=
  match ev with
  | SRequest d live uptime env rq r => ignore (http_request d live uptime env rq r)
  | SPutBegin rq id bound => put_begin rq id bound
  | SPutFinish n d live uptime => put_finish n d live uptime
  | SCommand shortID cmd => ignore (gateway_command shortID cmd)
  | SHeartbeat d =>
      s ← get;
      match sy_client s with
      | None => fail no_client
      | Some _ => ignore (on_bridge (BuildHeartbeat (sy_cfg s) (dr_agent d) (dr_drop d) (dr_ts d) (dr_live d)
                    (dr_cpu d) (dr_mem d) (dr_speedtest d) (g_status (sy_bridge s))))
      end
  | SUsage d =>
      s ← get;
      match sy_client s with
      | None => fail no_client
      | Some _ => ignore (on_bridge (BuildUsageReport (dr_ts d) (dr_transfers d)))
      end
  | SRefresh =>
      s ← get;
      match sy_client s with
      | None => fail no_client
      | Some (c, refreshKey) => ignore (on_gw (refresh_token gateway (cl_nodeID c) refreshKey))
      end
  | SShield =>
      s ← get;
      match sy_client s with
      | None => fail no_client
      | Some (c, _) => on_gw (report_shield gateway FwDo (bt_peerID (sy_boot s)) (cl_nodeToken c))
      end
  | SReadiness connected agent =>
      s ← get;
      ignore (on_gw (readiness_input (bt_wgOK (sy_boot s)) (bt_stealthOK (sy_boot s)) connected agent
                       (sn_State (d_snapshot (sy_drop s)))))
  | SDropPoll =>
      s ← get;
      if c_DropEnabled (sy_cfg s) && d_identityReady (sy_drop s)
      then on_dropstate (refresh (sy_cfg s) DefaultKuboRPCURL StatusText KuboDo) else mret tt
  | SOther op =>
      if leaves_peers op then on_bridge (on_node (on_store (exec_op op))) else fail (EMsg "not another process")
  end.

(** A panic ends the process. *)
Definition sys_step (ev : SysEvent) (s : Sys) : option Sys :=
  match sys_exec ev s with
  | (Err (EPanic _), _) => None
  | (_, s') => Some s'
  end.

Inductive sys_run : Sys → list SysEvent → Sys → Prop :=
| sys_nil s : sys_run s [] s
| sys_cons s ev s1 evs s' : sys_step ev s = Some s1 → sys_run s1 evs s' → sys_run s (ev :: evs) s'.

(** ** The start *)

Context {Priv : Type} (P : P2PLib Priv) (AddrInfo : string → result unit) (hostID : Priv → string)
  (config_PeerID : string → result string) (sha3_Sum256 : list Z → list Z).

(** Run after the components are up: the licence, the resolver, the gateway. *)
Definition assemble (cfg : Config) (b : Booted) (c : Machine Priv) (w : W) : result Sys :=
  let '(_, g1) := check_license FwDo (mkGw (w_db (mc_world c)) (New cfg w) []) in
  let '(cl, g2) := start_gateway L gateway (bt_peerID b) (bt_did b) g1 in
  cl ← cl;
  let svc := node_New (set_db (gs_st g2) (mc_world c)) in
  let api := SetDropService (mc_drop c) (NewServer svc) in
  Ok (mkSystem (NewGatewayBridge svc (Some (mc_stealth c)) (gs_fw g2) (sv_status api))
        (mc_drop c) (gs_sent g2) cl b (choose_resolver (gs_cfg g1)) (capture (gs_cfg g2)) []).

(** Run up to the HTTP server, on a machine and with the firewall sidecar in
    the state [w]. *)
Definition launch (cfg : Config) (i : BootInput) (c : Machine Priv) (w : W) : result Sys :=
  let '(r, c1) := boot L P AddrInfo hostID config_PeerID sha3_Sum256 cfg i c in
  b ← r;
  assemble cfg b c1 w.
End system.

(** ** Which store operations an event runs *)

Section api.
Context {srt : Sorting} {P : Type} {PV : Provisioner P} (tabs : P → tables) (Q : store_op → Prop).
Context (Verify : list Z → string → result Claims) (cfg : Config) (metrics : bool).
Context (StatusText : Z → string) (Do : Request → result Response) (cid_Decode : string → result unit)
  (boundary : string).

Definition server_tables (v : Server P) : tables := tabs (sv_prov v).

Lemma on_prov_via {A} (m : M P A) : keeps (via tabs Q) m → keeps (via server_tables Q) (on_prov m).
Proof. by apply keeps_zoom. Qed.
Lemma on_drop_via {A} (m : M DropState A) : keeps (via server_tables Q) (on_drop m).
Proof.
  apply keeps_reads. intros s r s'. unfold on_drop, run.
  destruct (sv_drop s) as [dr|]; [destruct (m dr)|]; by intros [= <- <-].
Qed.

Lemma Router_via k env rq r :
  (∀ i, keeps (via tabs Q) (pv_Credentials i)) → keeps (via tabs Q) pv_ListPeers → keeps (via tabs Q) pv_Stats →
  (∀ id req, r = PutPeer id (Some req) → keeps (via tabs Q) (pv_UpsertPeer id req)) →
  (∀ id, r = DeletePeerRoute id → keeps (via tabs Q) (pv_DeletePeer id)) →
  keeps (via server_tables Q) (Router Verify cfg metrics StatusText Do cid_Decode boundary k env rq r).
Proof.
  intros H1 H2 H3 H4 H5.
  unfold Router. destruct r as [| | | | | |id req|id|id| |uid data|c|c|c|path]; cbn [handler];
    unfold handlePutPeer, handleDeletePeer, handleStatus, handleStats, handleListPeers, handleCredentials,
      handleDropStatus, handleDropUpload, handleDropRead, handleDropPinStatus, handleDropUnpin, handleDropWebUI.
  all: repeat first
    [ apply keeps_ret, _ | apply on_drop_via | apply on_prov_via; solve [auto]
    | solve [by apply keeps_reads; intros ??? [= <- <-]] | apply keeps_try
    | apply keeps_bind; [apply _| |intros ?] | case_match ].
Qed.
End api.

(** The peer operations an event may run. *)
Definition may_run (ev : SysEvent) (op : store_op) : Prop :=
  match op with
  | OpUpsertPeer inp _ _ _ =>
      (∃ d live uptime env rq id req,
         ev = SRequest d live uptime env rq (PutPeer id (Some req)) ∧ inp = request_peer id req d) ∨
      (∃ n d live uptime id req, ev = SPutFinish n d live uptime ∧ inp = request_peer id req d)
  | OpDeletePeer j =>
      (∃ d live uptime env rq, ev = SRequest d live uptime env rq (DeletePeerRoute j)) ∨
      (∃ shortID cmd keep, ev = SCommand shortID cmd ∧ cmd_Action cmd = ActionResyncPeers ∧
         cmd_peer_ids cmd = Ok keep ∧ j ∉ keep)
  | _ => True
  end.

Section via_events.
Context {srt : Sorting} {W Account HDKey ECKey : Type} (L : WalletLib Account HDKey ECKey).
Context (ParseKey : string → result (list Z)) (Verify : list Z → string → result Claims).
Context (StatusText : Z → string) (KuboDo : Request → result Response) (cid_Decode : string → result unit)
  (boundary : string).
Context (FwDo : FwRequest → M W FwReply) (Unmarshal : string → result json).
Context (gateway : list GwRequest → result GwReply).

Definition bridge_tables (g : Bridge (FwClient W)) : tables := nt (g_node g).
Definition gw_tables (g : GwState DB W) : tables := tbl (gs_st g).

Section with_Q.
Context (Q : store_op → Prop).

Lemma on_node_via {A} (m : M NodeState A) : keeps (via nt Q) m → keeps (via bridge_tables Q) (on_node m).
Proof. by apply keeps_zoom. Qed.
Lemma on_fw_via {A} (m : M (FwClient W) A) : keeps (via bridge_tables Q) (on_fw m).
Proof. apply keeps_reads. by intros g r g' (f & _ & ->)%zoom_inv. Qed.
Lemma fw_command_via fw req act : keeps (via bridge_tables Q) (fw_command fw req act).
Proof. unfold fw_command. pose proof @on_fw_via. walk. Qed.
Lemma on_bridge_via {A} (m : M (Bridge (FwClient W)) A) :
  keeps (via bridge_tables Q) m → keeps (via sy_tables Q) (on_bridge m).
Proof. by apply keeps_zoom. Qed.
Lemma on_api_via {A} (m : M (Server NodeState) A) :
  keeps (via (server_tables nt) Q) m → keeps (via sy_tables Q) (on_api (W := W) m).
Proof. by apply keeps_zoom. Qed.
Lemma on_gw_via {A} (m : M (GwState DB W) A) : keeps (via gw_tables Q) m → keeps (via sy_tables Q) (on_gw m).
Proof. by apply keeps_zoom. Qed.
Lemma get_via {S} (tabs : S → tables) : keeps (via tabs Q) get.
Proof. apply keeps_reads. by intros s r s' [= <- <-]. Qed.
Lemma on_settings_via {A} (m : M DB A) :
  keeps (via tbl Q) m → keeps (via gw_tables Q) (on_settings (W := W) m).
Proof. by apply keeps_zoom. Qed.
Lemma on_firewall_via {A} (m : M (FwClient W) A) : keeps (via gw_tables Q) (on_firewall m).
Proof. apply keeps_reads. by intros g r g' (f & _ & ->)%zoom_inv. Qed.
Lemma on_gateway_via {A} (m : M (list GwRequest) A) : keeps (via gw_tables Q) (on_gateway (W := W) m).
Proof. apply keeps_reads. by intros g r g' (f & _ & ->)%zoom_inv. Qed.

Context (HQ : ∀ k v, Q (OpSetSetting k v)).
#[local] Hint Resolve get_via on_settings_via on_firewall_via on_gateway_via LoadCredentials_via
  SaveCredentials_via : erebrus.

Lemma refresh_token_via nodeID key : keeps (via gw_tables Q) (refresh_token gateway nodeID key).
Proof. unfold refresh_token, get_cfg, put_cfg, gets. walk. Qed.
Lemma report_shield_via peerID token : keeps (via gw_tables Q) (report_shield gateway FwDo peerID token).
Proof. unfold report_shield, get_cfg, gets. walk. Qed.
Lemma readiness_input_via a b c d e : keeps (via gw_tables Q) (readiness_input a b c d e).
Proof. unfold readiness_input, get_cfg, gets. walk. Qed.
Lemma check_license_via : keeps (via gw_tables Q) (check_license FwDo).
Proof. unfold check_license, get_cfg, put_cfg, gets. walk. Qed.
Lemma auto_register_via peerID did old : keeps (via gw_tables Q) (auto_register L gateway peerID did old).
Proof. unfold auto_register, get_cfg, put_cfg, gets. walk. Qed.
#[local] Hint Resolve auto_register_via : erebrus.
Lemma start_gateway_via peerID did : keeps (via gw_tables Q) (start_gateway L gateway peerID did).
Proof. unfold start_gateway, get_cfg, put_cfg, gets. walk. Qed.

Lemma on_stealth_via {A} (m : Manager DB) (x : M (Manager DB) A) :
  keeps (via mgr_tables Q) x → keeps (via bridge_tables Q) (on_stealth m x).
Proof.
  intros H g r g'. unfold on_stealth, run.
  destruct (x (set_st (w_db (n_host (g_node g))) m)) as [r1 m'] eqn:E. intros [= <- <-]. exact (H _ _ _ E).
Qed.

Lemma HandleCommand_via cfg fw hook metrics shortID cmd :
  (∀ keep i, cmd_Action cmd = ActionResyncPeers → cmd_peer_ids cmd = Ok keep → i ∉ keep → Q (OpDeletePeer i)) →
  keeps (via bridge_tables Q) (HandleCommand ParseKey cfg fw hook metrics shortID cmd).
Proof.
  intros Hd. pose proof @fw_command_via. pose proof @on_stealth_via. pose proof (RotateReality_via Q HQ).
  unfold HandleCommand. cbv zeta.
  destruct (String.eqb_spec (cmd_Action cmd) ActionResyncPeers) as [Ha|Ha].
  - rewrite Ha. cbn [String.eqb Ascii.eqb Bool.eqb ActionResyncPeers ActionDrain ActionUndrain ActionRotateReality].
    destruct (cmd_peer_ids cmd) as [keep|] eqn:Ek; [|apply keeps_ret, _].
    apply keeps_bind; [apply _| |intros [[|]|]; apply keeps_ret, _].
    apply keeps_try, on_node_via, ResyncPeers_via. eauto.
  - walk.
Qed.
End with_Q.

Lemma http_request_via d live uptime env rq r :
  keeps (via sy_tables (may_run (SRequest d live uptime env rq r)))
    (http_request (W := W) ParseKey Verify StatusText KuboDo cid_Decode boundary d live uptime env rq r).
Proof.
  unfold http_request. apply keeps_bind; [apply _|apply get_via|intros s].
  apply on_api_via, Router_via.
  - intros i. apply Credentials_via.
  - apply Node_ListPeers_via.
  - apply Stats_via.
  - intros id req ->. cbn [pv_UpsertPeer node_provisioner].
    refine (Node_UpsertPeer_via _ _ _ _ _ id req d _). cbn. left. eauto 12.
  - intros id ->. apply Node_DeletePeer_via. cbn. eauto 8.
Qed.

Lemma put_begin_via rq id bound :
  keeps (via sy_tables (may_run (SPutBegin rq id bound))) (put_begin (W := W) Verify rq id bound).
Proof.
  unfold put_begin. apply keeps_bind; [apply _|apply get_via|intros s].
  destruct (guard _ _ _ _ _); [|apply keeps_ret, _]. apply keeps_bind; [apply _| |].
  - apply on_api_via. unfold put_admit.
    repeat first [ apply keeps_ret, _ | solve [by apply keeps_reads; intros ??? [= <- <-]]
      | apply keeps_bind; [apply _| |intros ?] | case_match ].
  - intros [|req]; [apply keeps_ret, _|]. apply keeps_reads. by intros x r x' [= <- <-].
Qed.

Lemma put_finish_via n d live uptime :
  keeps (via sy_tables (may_run (SPutFinish n d live uptime))) (put_finish (W := W) ParseKey n d live uptime).
Proof.
  unfold put_finish. apply keeps_bind; [apply _|apply get_via|intros s].
  destruct (sy_inflight s !! n) as [p|]; [|apply keeps_fail, _]. apply keeps_bind; [apply _| |intros _].
  - apply keeps_reads. by intros x r x' [= <- <-].
  - unfold ignore. apply keeps_bind; [apply _| |intros _; apply keeps_ret, _].
    apply on_api_via. unfold put_provision. apply keeps_bind; [apply _| |].
    + apply keeps_try, on_prov_via. cbn [pv_UpsertPeer node_provisioner].
      refine (Node_UpsertPeer_via _ _ _ _ _ (if_id p) (if_req p) d _). cbn. right. eauto 10.
    + intros []; [|case_match]; apply keeps_ret, _.
Qed.

Lemma gateway_command_via shortID cmd :
  keeps (via sy_tables (may_run (SCommand shortID cmd))) (gateway_command ParseKey FwDo Unmarshal shortID cmd).
Proof.
  unfold gateway_command. apply keeps_bind; [apply _|apply get_via|intros s].
  destruct (sy_client s); [|apply keeps_fail, _]. apply on_bridge_via, HandleCommand_via; [done|].
  intros keep i Ha Hk Hi. right. eauto 8.
Qed.

Notation exec_sys := (sys_exec ParseKey Verify StatusText KuboDo cid_Decode boundary FwDo Unmarshal gateway).

(** Every event runs only the operations it may run. *)
Lemma sys_exec_via ev : keeps (via sy_tables (may_run ev)) (exec_sys ev).
Proof.
  assert (∀ {A} (m : M (System W) A), keeps (via sy_tables (may_run ev)) m →
    keeps (via sy_tables (may_run ev)) (ignore m)) as Hi.
  { intros A m Hm. unfold ignore. apply keeps_bind; [apply _|done|intros _; apply keeps_ret, _]. }
  assert (∀ k v, may_run ev (OpSetSetting k v)) as HQ by done.
  pose proof (@get_via).
  destruct ev as [d live uptime env rq r|rq id bound|n d live uptime|shortID cmd|d|d| | |connected agent| |op];
    cbn [sys_exec].
  - apply Hi, http_request_via.
  - apply put_begin_via.
  - apply put_finish_via.
  - apply Hi, gateway_command_via.
  - walk. apply on_bridge_via. unfold BuildHeartbeat. walk.
    apply on_node_via, on_store_via, ListPeers_via.
  - walk. apply on_bridge_via. unfold BuildUsageReport. walk.
    1: apply on_node_via, on_store_via, ListPeers_via.
    apply keeps_reads. intros g r g'. unfold run. destruct (foldl _ _ _). by intros [= <- <-].
  - walk. apply on_gw_via. by apply refresh_token_via.
  - walk. apply on_gw_via. by apply report_shield_via.
  - walk. apply on_gw_via. by apply readiness_input_via.
  - walk.
  - destruct (leaves_peers op) eqn:El; [|apply keeps_fail, _].
    apply on_bridge_via, on_node_via, on_store_via, keeps_op. by destruct op.
Qed.
End via_events.

(** ** What stays during a run *)

Definition same_at {S V} (f : S → V) (s s' : S) : Prop := f s' = f s.
#[export] Instance same_at_preorder {S V} (f : S → V) : PreOrder (same_at f).
Proof. split; unfold same_at, Reflexive, Transitive; [done|congruence]. Qed.

Lemma zoom_same {S T A V} (f : S → V) (h : T → V) g u (m : M T A) :
  (∀ s, h (g s) = f s) → (∀ t s, h t = h (g s) → f (u t s) = h t) →
  keeps (same_at h) m → keeps (same_at f) (zoom g u m).
Proof.
  intros Hg Hu H s r s' (t & E & ->)%zoom_inv. unfold same_at. apply H in E. unfold same_at in E.
  rewrite Hu by done. by rewrite E.
Qed.

(** What the API's authentication reads of the configuration. *)
Definition auth_view (cfg : Config) : string * string * string * string * string :=
  (c_RunType cfg, c_NodeKey cfg, c_NodeAPIToken cfg, c_GatewayPublicKey cfg, c_NodeID cfg).

Lemma auth_view_authenticated Verify cfg cfg' purpose auth key :
  auth_view cfg' = auth_view cfg →
  authenticated Verify cfg' purpose auth key ↔ authenticated Verify cfg purpose auth key.
Proof.
  intros [= E1 E2 E3 E4 E5]. unfold authenticated, capture, EffectiveNodeKey.
  by rewrite E1, E2, E3, E4, E5.
Qed.

(** The keys that the middleware has and what it would capture. *)
Definition auth_of (cfg : Config) := (capture cfg, auth_view cfg).

Section firewall.
Context {W : Type} (FwDo : FwRequest → M W FwReply) (Unmarshal : string → result json).

Definition fw_auth (c : FwClient W) := auth_view (fc_cfg c).

Lemma post_auth_auth a url body : keeps (same_at fw_auth) (post_auth FwDo a url body).
Proof. intros c r c' [H _]%post_auth_same. unfold same_at, fw_auth. by rewrite H. Qed.
Lemma send_auth rq : keeps (same_at fw_auth) (send FwDo rq).
Proof. intros c r c' [H _]%send_same. unfold same_at, fw_auth. by rewrite H. Qed.
Lemma get_at {S V} (f : S → V) : keeps (same_at f) get.
Proof. by intros s r s' [= <- <-]. Qed.
Lemma SetLicensed_auth b : keeps (same_at fw_auth) (SetLicensed b).
Proof. by intros c r c' [= <- <-]. Qed.

Ltac stay := repeat first
  [ apply keeps_ret, _ | apply keeps_fail, _ | apply keeps_lift, _ | apply keeps_try | apply get_at
  | apply post_auth_auth | apply send_auth | apply SetLicensed_auth
  | apply keeps_bind; [apply _| |intros ?] | case_match ].

Lemma Sync_auth raw : keeps (same_at fw_auth) (Sync FwDo Unmarshal raw).
Proof. unfold Sync, syncSentinel, syncShield, post, postAuth. cbv zeta. stay. Qed.
Lemma Restart_auth : keeps (same_at fw_auth) (Restart FwDo).
Proof. unfold Restart, post. cbv zeta. stay. Qed.
Lemma ResetCredentials_auth : keeps (same_at fw_auth) (ResetCredentials FwDo).
Proof. unfold ResetCredentials, post. cbv zeta. stay. Qed.
Lemma ConfigureAdmin_auth : keeps (same_at fw_auth) (ConfigureAdmin FwDo).
Proof. unfold ConfigureAdmin, ensureShieldUpstreams, getAuth, post, postAuth. cbv zeta. stay. Qed.
Lemma CheckLicense_auth : keeps (same_at fw_auth) (CheckLicense FwDo).
Proof. unfold CheckLicense. cbv zeta. stay. Qed.

(** The only operation that writes the configuration writes the login. *)
Lemma SetAdminPassword_auth user pw : keeps (same_at fw_auth) (SetAdminPassword FwDo user pw).
Proof.
  unfold SetAdminPassword, post. cbv zeta. intros c r c'. rewrite (bind_Ok _ _ c c c) by done.
  case_match; [by intros [= <- <-]|]. case_match; [by intros [= <- <-]|].
  intros [([] & c1 & E1 & E2)|(e & [=] & _)]%bind_inv. injection E1 as <-.
  apply post_auth_auth in E2. unfold same_at in *. by rewrite E2.
Qed.
End firewall.

Section stays.
Context {srt : Sorting} {W Account HDKey ECKey : Type} (L : WalletLib Account HDKey ECKey).
Context (ParseKey : string → result (list Z)) (Verify : list Z → string → result Claims).
Context (StatusText : Z → string) (KuboDo : Request → result Response) (cid_Decode : string → result unit)
  (boundary : string).
Context (FwDo : FwRequest → M W FwReply) (Unmarshal : string → result json).
Context (gateway : list GwRequest → result GwReply).

Notation Brg := (Bridge (FwClient W)).
Notation exec_sys := (sys_exec ParseKey Verify StatusText KuboDo cid_Decode boundary FwDo Unmarshal gateway).

Definition bridge_auth (g : Brg) := auth_view (fc_cfg (g_fw g)).

Lemma on_fw_auth {A} (m : M (FwClient W) A) : keeps (same_at fw_auth) m → keeps (same_at bridge_auth) (on_fw m).
Proof. apply zoom_same; [done|]. by intros t s H. Qed.
Lemma on_node_auth {A} (m : M NodeState A) : keeps (same_at bridge_auth) (on_node m).
Proof. by intros g r g' (n & _ & ->)%zoom_inv. Qed.
Lemma on_stealth_auth {A} m (x : M (Manager DB) A) : keeps (same_at bridge_auth) (on_stealth m x).
Proof. intros g r g'. unfold on_stealth, run. destruct (x _). by intros [= <- <-]. Qed.

Lemma fw_command_auth ops req (act : FirewallOps (FwClient W) → M (FwClient W) unit) :
  keeps (same_at fw_auth) (act ops) → keeps (same_at bridge_auth) (fw_command (Some ops) req act).
Proof.
  intros H. unfold fw_command. apply keeps_bind; [apply _|by apply keeps_try, on_fw_auth|].
  intros r. apply keeps_ret, _.
Qed.

(** A command leaves the authentication of the API as it is. *)
Lemma HandleCommand_auth cfg hook metrics shortID cmd :
  keeps (same_at bridge_auth)
    (HandleCommand ParseKey cfg (Some (firewall_ops FwDo Unmarshal)) hook metrics shortID cmd).
Proof.
  assert (∀ st, keeps (same_at bridge_auth) (Bridge.SetStatus hook st)) as Hs by (by intros st g r g' [= <- <-]).
  unfold HandleCommand. cbv zeta.
  repeat first [ apply fw_command_auth; first [ apply Sync_auth | apply Restart_auth | apply ResetCredentials_auth
                                              | apply SetAdminPassword_auth ]
    | apply Hs | apply on_stealth_auth | apply on_node_auth | apply get_at | apply keeps_ret, _ | apply keeps_try
    | apply keeps_bind; [apply _| |intros ?] | case_match ].
Qed.

Definition sys_auth (s : System W) := (sy_keys s, auth_view (sy_cfg s)).
Definition sys_status (s : System W) := (g_status (sy_bridge s), g_api_status (sy_bridge s)).
Definition gw_auth (g : GwState DB W) := auth_view (gs_cfg g).

Lemma on_gw_stays {A} (m : M (GwState DB W) A) :
  keeps (same_at gw_auth) m → keeps (same_at (λ s, (sys_auth s, sys_status s))) (on_gw m).
Proof.
  intros H s r s' (g & E & ->)%zoom_inv. apply H in E. unfold same_at in *.
  unfold sys_auth, sys_status. cbn. do 2 f_equal. exact E.
Qed.

Lemma on_firewall_auth {A} (m : M (FwClient W) A) :
  keeps (same_at fw_auth) m → keeps (same_at gw_auth) (on_firewall m).
Proof. apply zoom_same; [done|]. by intros t s H. Qed.
Lemma on_settings_auth {A} (m : M DB A) : keeps (same_at gw_auth) (on_settings m).
Proof. by intros g r g' (n & _ & ->)%zoom_inv. Qed.
Lemma on_gateway_auth {A} (m : M (list GwRequest) A) : keeps (same_at gw_auth) (on_gateway m).
Proof. by intros g r g' (n & _ & ->)%zoom_inv. Qed.
Lemma get_cfg_auth : keeps (same_at gw_auth) get_cfg.
Proof. by intros g r g' [= <- <-]. Qed.

Lemma refresh_token_auth nodeID key : keeps (same_at gw_auth) (refresh_token gateway nodeID key).
Proof.
  unfold refresh_token. destruct (String.eqb key EmptyString); [apply keeps_fail, _|]. intros g r g'. rewrite (bind_Ok _ _ _ _ _ (get_cfg_run g)).
  intros [(tok & g1 & E1 & H)|(e & E & _)]%bind_inv; [|by apply on_gateway_auth in E].
  pose proof E1 as E1'. apply zoom_inv in E1' as (l & _ & ->).
  apply bind_inv in H as [([] & g2 & E2 & H)|(e & E & _)]; [|done]. injection E2 as <-.
  apply try_inv in H as (x & g3 & E3 & H). injection H as _ <-.
  apply on_settings_auth in E3. unfold same_at in *. by rewrite E3.
Qed.

Lemma report_shield_auth peerID token : keeps (same_at gw_auth) (report_shield gateway FwDo peerID token).
Proof.
  pose proof (ConfigureAdmin_auth FwDo). unfold report_shield.
  repeat first [ apply get_cfg_auth | apply on_firewall_auth; solve [auto] | apply on_gateway_auth
    | apply keeps_ret, _ | apply keeps_fail, _ | apply keeps_try | apply keeps_bind; [apply _| |intros ?] | case_match ].
Qed.
Lemma readiness_input_auth a b c d e : keeps (same_at gw_auth) (readiness_input a b c d e).
Proof.
  unfold readiness_input.
  repeat first [ apply get_cfg_auth | apply on_settings_auth | apply keeps_ret, _ | apply keeps_try
    | apply keeps_bind; [apply _| |intros ?] | case_match ].
Qed.

Definition stays : System W → System W → Prop := same_at (λ s, (sys_auth s, sys_status s)).

Lemma http_request_stays d live uptime env rq r :
  keeps stays (http_request ParseKey Verify StatusText KuboDo cid_Decode boundary d live uptime env rq r).
Proof.
  intros s x s'. unfold http_request. rewrite (bind_Ok _ _ s s s) by done.
  intros (v & E & ->)%zoom_inv. apply Router_status in E. unfold keeps_status, server_of in E. cbn in E.
  unfold stays, same_at, sys_auth, sys_status, sy_cfg. cbn. by rewrite E.
Qed.

Lemma put_admit_inv {P} bound (v : Server P) r v' :
  put_admit bound v = (r, v') →
  v' = v ∧ ((∃ resp, r = Ok (inl resp)) ∨
            ∃ req, bound = Some req ∧ r = Ok (inr req) ∧ sv_status v ≠ "draining").
Proof.
  unfold put_admit, mbind, M_bind, get, reply. destruct bound as [req|]; [|intros [= <- <-]; eauto].
  destruct (_ || _); [intros [= <- <-]; eauto|].
  destruct (String.eqb_spec (sv_status v) "draining"); intros [= <- <-]; eauto 6.
Qed.

(** A PUT that begins changes only what is in flight. *)
Lemma put_begin_inv rq id bound (s : System W) r s' :
  put_begin Verify rq id bound s = (r, s') →
  s' = s ∨ ∃ req, bound = Some req ∧ s' = set_inflight (sy_inflight s ++ [mkPut rq id req]) s ∧
    g_api_status (sy_bridge s) ≠ "draining" ∧
    guard Verify (sy_cfg s) (sy_keys s) rq (PutPeer id bound) = Next.
Proof.
  unfold put_begin. rewrite (bind_Ok get _ s s s eq_refl).
  destruct (guard _ _ _ _ _) eqn:Eg; [|intros [= <- <-]; auto].
  assert (set_server (server_of s) s = s) as Hs by (by destruct s as [[]]).
  intros [(x & s1 & (v & E & ->)%zoom_inv & H)|(e & (v & E & ->)%zoom_inv & ->)]%bind_inv;
    apply put_admit_inv in E as [-> E]; rewrite Hs in *.
  - destruct E as [(resp & [= ->])|(req & -> & [= ->] & Hd)]; injection H as <- <-; [by left|].
    right. exists req. auto.
  - by destruct E as [(resp & [=])|(req & _ & [=] & _)].
Qed.

(** A PUT in flight that goes on runs the provisioner once. *)
Lemma put_finish_inv n d live uptime (s : System W) r s' :
  put_finish ParseKey n d live uptime s = (r, s') →
  sy_inflight s !! n = None ∧ s' = s ∨
  ∃ p y, sy_inflight s !! n = Some p ∧ sy_inflight s' = delete n (sy_inflight s) ∧
    Node.UpsertPeer ParseKey (sy_cfg s) (m_secrets <$> g_stealth (sy_bridge s)) true (if_id p) (if_req p) d (sy_node s)
      = (y, sy_node s') ∧
    sys_auth s' = sys_auth s ∧ sys_status s' = sys_status s ∧ sy_client s' = sy_client s ∧
    g_stealth (sy_bridge s') = g_stealth (sy_bridge s).
Proof.
  unfold put_finish. rewrite (bind_Ok get _ s s s eq_refl).
  destruct (sy_inflight s !! n) as [p|] eqn:Ep; [|intros [= <- <-]; auto].
  set (s0 := set_inflight (delete n (sy_inflight s)) s). rewrite (bind_Ok _ _ s tt s0) by done.
  intros H. right. exists p.
  assert (∃ x, on_api (put_provision (PV := node_provisioner ParseKey (sy_cfg s)
    (m_secrets <$> g_stealth (sy_bridge s)) true d live uptime) (if_id p) (if_req p)) s0 = (x, s')) as [x E].
  { apply bind_inv in H as [(z & s1 & E & [= <- <-])|(e & E & ->)]; eauto. }
  clear H. apply zoom_inv in E as (v & E & ->). unfold put_provision in E.
  apply try_inv in E as (y & v1 & E & H). apply zoom_inv in E as (q & E & ->). exists y.
  assert (v = set_sv_prov q (server_of s0)) as ->
    by (destruct y as [b|e]; [|destruct (errors_Is e ErrSubnetExhausted)]; by injection H as _ <-).
  done.
Qed.

Lemma put_begin_stays rq id bound : keeps stays (put_begin (W := W) Verify rq id bound).
Proof. by intros s r s' [->|(req & _ & -> & _)]%put_begin_inv. Qed.

Lemma put_finish_stays n d live uptime : keeps stays (put_finish ParseKey n d live uptime).
Proof.
  intros s r s' [[_ ->]|(p & y & _ & _ & _ & E1 & E2 & _)]%put_finish_inv; [done|].
  unfold stays, same_at. by rewrite E1, E2.
Qed.

(** Every event but a command keeps both copies of the status and what the
    authentication reads. *)
Lemma sys_exec_stays ev :
  (∀ shortID cmd, ev ≠ SCommand shortID cmd) → keeps stays (exec_sys ev).
Proof.
  assert (∀ {A} (m : M (System W) A), keeps stays m → keeps stays (ignore m)) as Hi.
  { intros A m Hm. unfold ignore. apply keeps_bind; [apply _|done|intros _; apply keeps_ret, _]. }
  assert (∀ {A} (m : M Brg A), keeps (same_at (λ b, (bridge_auth b, g_status b, g_api_status b))) m →
    keeps stays (on_bridge m)) as Hb.
  { intros A m Hm s r s' (g & E & ->)%zoom_inv. apply Hm in E. unfold same_at in E.
    apply pair_equal_spec in E as [[E1 E2]%pair_equal_spec E3].
    unfold stays, same_at, sys_auth, sys_status. cbn. unfold sy_cfg. cbn. rewrite E2, E3. do 2 f_equal. exact E1. }
  assert (∀ {A} (m : M NodeState A), keeps (same_at (λ b : Brg, (bridge_auth b, g_status b, g_api_status b))) (on_node m))
    as Hn by (by intros A m g r g' (n & _ & ->)%zoom_inv).
  pose proof (@get_at) as Hg.
  intros Hc. destruct ev as [d live uptime env rq r|rq id bound|n d live uptime|shortID cmd|d|d| | |connected agent| |op];
    cbn [sys_exec].
  - apply Hi, http_request_stays.
  - apply put_begin_stays.
  - apply put_finish_stays.
  - by destruct (Hc shortID cmd).
  - apply keeps_bind; [apply _|apply Hg|intros s]. case_match; [|apply keeps_fail, _]. apply Hi, Hb.
    unfold BuildHeartbeat. apply keeps_bind; [apply _|apply keeps_try, Hn|intros ?; apply keeps_ret, _].
  - apply keeps_bind; [apply _|apply Hg|intros s]. case_match; [|apply keeps_fail, _]. apply Hi, Hb.
    unfold BuildUsageReport. apply keeps_bind; [apply _|apply keeps_try, Hn|intros []; [|apply keeps_ret, _]].
    intros g r g'. unfold run. destruct (foldl _ _ _). by intros [= <- <-].
  - apply keeps_bind; [apply _|apply Hg|intros s]. destruct (sy_client s) as [[]|]; [|apply keeps_fail, _].
    apply Hi, on_gw_stays, refresh_token_auth.
  - apply keeps_bind; [apply _|apply Hg|intros s]. destruct (sy_client s) as [[]|]; [|apply keeps_fail, _].
    apply on_gw_stays, report_shield_auth.
  - apply keeps_bind; [apply _|apply Hg|intros s]. apply Hi, on_gw_stays, readiness_input_auth.
  - apply keeps_bind; [apply _|apply Hg|intros s]. case_match; [|apply keeps_ret, _].
    by intros x r x' (t & _ & ->)%zoom_inv.
  - case_match; [apply Hb, Hn|apply keeps_fail, _].
Qed.

(** A command keeps what the authentication reads and sets the status. *)
Lemma command_stays shortID cmd s r s' :
  exec_sys (SCommand shortID cmd) s = (r, s') →
  sys_auth s' = sys_auth s ∧
  (s' = s ∨ (g_status (sy_bridge s') = status_after (cmd_Action cmd) (g_status (sy_bridge s)) ∧
     (g_api_status (sy_bridge s) = g_status (sy_bridge s) →
      g_api_status (sy_bridge s') = g_status (sy_bridge s')))).
Proof.
  cbn [sys_exec]. unfold ignore, gateway_command. intros H.
  assert (∃ x, gateway_command ParseKey FwDo Unmarshal shortID cmd s = (x, s')) as [x E].
  { apply bind_inv in H as [(y & s1 & E & [= <- <-])|(e & E & ->)]; eauto. }
  clear H. unfold gateway_command in E. rewrite (bind_Ok _ _ s s s) in E by done.
  destruct (sy_client s); [|injection E as <- <-; auto]. apply zoom_inv in E as (g & E & ->). split.
  - apply HandleCommand_auth in E. unfold sys_auth. cbn. f_equal. exact E.
  - right. destruct (HandleCommand_spec ParseKey (sy_cfg s) (Some (firewall_ops FwDo Unmarshal)) true true shortID cmd
      (sy_bridge s)) as [(res & _ & _ & H1 & H2 & _) _]. rewrite E in H1, H2. cbn in *. auto.
Qed.

(** The drain command, when there is a control channel. *)
Lemma command_drains shortID cmd s r s' :
  exec_sys (SCommand shortID cmd) s = (r, s') → sy_client s ≠ None → cmd_Action cmd = ActionDrain →
  sys_status s' = ("draining", "draining").
Proof.
  cbn [sys_exec]. unfold ignore, gateway_command, mbind, M_bind, get. intros E Hc Ha.
  destruct (sy_client s); [|done]. unfold on_bridge, zoom, HandleCommand in E. cbv zeta in E. rewrite Ha in E.
  by injection E as _ <-.
Qed.
End stays.

(** ** Who may change a peer *)

Lemma elem_of_delete {A} (n : nat) (x : A) (l : list A) : x ∈ delete n l → x ∈ l.
Proof.
  intros [k Hk]%list_elem_of_lookup_1. destruct (decide (k < n)%nat).
  - rewrite list_lookup_delete_lt in Hk by done. by eapply list_elem_of_lookup_2.
  - rewrite list_lookup_delete_ge in Hk by lia. by eapply list_elem_of_lookup_2.
Qed.

(** A PUT that is let through runs the provisioner once or not at all. *)
Lemma Router_put {srt : Sorting} {P} {PV : Provisioner P} Verify cfg metrics st Do cid boundary k env rq id req
    (v : Server P) x v' :
  Router Verify cfg metrics st Do cid boundary k env rq (PutPeer id (Some req)) v = (x, v') →
  v' = v ∨ sv_status v ≠ "draining" ∧ ∃ y, pv_UpsertPeer id req (sv_prov v) = (y, sv_prov v').
Proof.
  unfold Router. rewrite (bind_Ok _ _ v v v) by done. cbn [is_drop_route andb].
  destruct (guard _ _ _ _ _); [|intros [= <- <-]; auto]. cbn [handler]. unfold handlePutPeer.
  destruct (_ || _); [intros [= <- <-]; auto|]. rewrite (bind_Ok _ _ v v v) by done.
  destruct (String.eqb_spec (sv_status v) "draining"); [intros [= <- <-]; auto|].
  intros (y & v1 & E & H)%try_inv. right. split; [done|]. apply zoom_inv in E as (p & E & ->).
  exists y. destruct y as [b|e]; [|destruct (errors_Is e ErrSubnetExhausted)]; injection H as _ <-; exact E.
Qed.

Section provenance.
Context {srt : Sorting} {W Account HDKey ECKey : Type} (L : WalletLib Account HDKey ECKey).
Context (ParseKey : string → result (list Z)) (Verify : list Z → string → result Claims).
Context (StatusText : Z → string) (KuboDo : Request → result Response) (cid_Decode : string → result unit)
  (boundary : string).
Context (FwDo : FwRequest → M W FwReply) (Unmarshal : string → result json).
Context (gateway : list GwRequest → result GwReply).

Notation exec_sys := (sys_exec ParseKey Verify StatusText KuboDo cid_Decode boundary FwDo Unmarshal gateway).
Notation step_sys := (sys_step ParseKey Verify StatusText KuboDo cid_Decode boundary FwDo Unmarshal gateway).
Notation run_sys := (sys_run ParseKey Verify StatusText KuboDo cid_Decode boundary FwDo Unmarshal gateway).

(** The credentials of a request, for the peer routes. *)
Definition credentials_ok (cfg : Config) (rq : HttpRequest) : Prop :=
  authenticated Verify cfg EmptyString (GetHeader rq "Authorization") (GetHeader rq "X-Erebrus-Node-Key").

(** The PUT [p] passes its checks on a node in the state [s]. *)
Definition admitted (cfg : Config) (s : System W) (p : InFlight) : Prop :=
  credentials_ok cfg (if_rq p) ∧ g_api_status (sy_bridge s) ≠ "draining".

(** A node whose middleware has the keys of [cfg], outside debug mode, and
    whose requests in flight carry credentials. *)
Definition guarded (cfg : Config) (s : System W) : Prop :=
  sys_auth s = auth_of cfg ∧ c_RunType cfg ≠ "debug" ∧
  ∀ p, p ∈ sy_inflight s → credentials_ok cfg (if_rq p).

(** The events that may change the peer [i] of a node in the state [s] whose
    configuration is [cfg].  A PUT in flight has passed its checks before. *)
Inductive authorises (cfg : Config) (s : System W) : SysEvent → string → Prop :=
| AuthPut d live uptime env rq id req i :
    authenticated Verify cfg EmptyString (GetHeader rq "Authorization") (GetHeader rq "X-Erebrus-Node-Key") →
    g_api_status (sy_bridge s) ≠ "draining" →
    i = p_ID (request_peer id req d) ∨ keyed (sy_tables s) (rq_WGPublicKey req) i →
    authorises cfg s (SRequest d live uptime env rq (PutPeer id (Some req))) i
| AuthFinish n d live uptime p i :
    sy_inflight s !! n = Some p → credentials_ok cfg (if_rq p) →
    i = p_ID (request_peer (if_id p) (if_req p) d) ∨ keyed (sy_tables s) (rq_WGPublicKey (if_req p)) i →
    authorises cfg s (SPutFinish n d live uptime) i
| AuthDelete d live uptime env rq i :
    authenticated Verify cfg EmptyString (GetHeader rq "Authorization") (GetHeader rq "X-Erebrus-Node-Key") →
    authorises cfg s (SRequest d live uptime env rq (DeletePeerRoute i)) i
| AuthResync shortID cmd keep i :
    sy_client s ≠ None → cmd_Action cmd = ActionResyncPeers → cmd_peer_ids cmd = Ok keep → i ∉ keep →
    authorises cfg s (SCommand shortID cmd) i.

Lemma step_exec ev s s' : step_sys ev s = Some s' → ∃ r, exec_sys ev s = (r, s').
Proof.
  unfold sys_step. destruct (exec_sys ev s) as [[[]|e] s1]; [intros [= <-]; eauto|].
  destruct e; try done; intros [= <-]; eauto.
Qed.

Lemma step_via ev s s' : step_sys ev s = Some s' → reaches (may_run ev) (sy_tables s) (sy_tables s').
Proof. intros [r E]%step_exec. exact (sys_exec_via _ _ _ _ _ _ _ _ _ ev _ _ _ E). Qed.

Lemma step_auth ev s s' : step_sys ev s = Some s' → sys_auth s' = sys_auth s.
Proof.
  intros [r E]%step_exec. destruct ev as [| | |shortID cmd| | | | | | |].
  4: by apply command_stays in E as [E _].
  all: apply sys_exec_stays in E; [|done]; by apply pair_equal_spec in E as [E _].
Qed.

(** A request leads to the state that the server's answer leaves. *)
Lemma request_step d live uptime env rq r s s' :
  step_sys (SRequest d live uptime env rq r) s = Some s' →
  ∃ x v, Router (PV := node_provisioner ParseKey (sy_cfg s) (m_secrets <$> g_stealth (sy_bridge s)) true d live uptime)
      Verify (sy_cfg s) true StatusText KuboDo cid_Decode boundary (sy_keys s) env rq r (server_of s) = (x, v) ∧
    s' = set_server v s.
Proof.
  intros [y E]%step_exec. cbn [sys_exec] in E. unfold ignore in E.
  assert (∃ x, http_request ParseKey Verify StatusText KuboDo cid_Decode boundary d live uptime env rq r s = (x, s'))
    as [x E'].
  { apply bind_inv in E as [(z & s1 & E & [= <- <-])|(e & E & ->)]; eauto. }
  unfold http_request in E'. rewrite (bind_Ok _ _ s s s) in E' by done.
  apply zoom_inv in E' as (v & E' & ->). eauto.
Qed.

(** A node that has just started. *)
Lemma started_guarded s :
  sy_keys s = capture (sy_cfg s) → sy_inflight s = [] → c_RunType (sy_cfg s) ≠ "debug" → guarded (sy_cfg s) s.
Proof.
  intros Hk Hf Hrel. split; [unfold sys_auth, auth_of; by rewrite Hk|]. split; [done|].
  rewrite Hf. by intros p ?%not_elem_of_nil.
Qed.

(** In a guarded node the middleware decides by the credentials. *)
Lemma guarded_release cfg s : guarded cfg s → ak_debug (sy_keys s) = false.
Proof. intros (E & Hrel & _). apply pair_equal_spec in E as [-> _]. by apply capture_release. Qed.

Lemma guarded_credentials cfg s rq :
  guarded cfg s →
  authenticated_by Verify (sy_keys s) (c_NodeID (sy_cfg s)) EmptyString (GetHeader rq "Authorization")
    (GetHeader rq "X-Erebrus-Node-Key") → credentials_ok cfg rq.
Proof.
  intros (E & _). apply pair_equal_spec in E as [-> E].
  unfold credentials_ok, authenticated. by injection E as _ _ _ _ ->.
Qed.

(** Only the two events of a PUT change what is in flight. *)
Definition put_event_of (ev : SysEvent) : Prop :=
  (∃ rq id bound, ev = SPutBegin rq id bound) ∨ (∃ n d live uptime, ev = SPutFinish n d live uptime).

Lemma put_event_dec ev : put_event_of ev ∨ ¬ put_event_of ev.
Proof.
  unfold put_event_of. destruct ev; [|left; left; eauto|left; right; eauto 6|..];
    right; intros [(? & ? & ? & [=])|(? & ? & ? & ? & [=])].
Qed.

Lemma exec_inflight ev : ¬ put_event_of ev → keeps (same_at sy_inflight) (exec_sys ev).
Proof.
  intros Hev. unfold put_event_of in Hev.
  destruct ev; [|exfalso; apply Hev; left; eauto|exfalso; apply Hev; right; eauto 6|..]; clear Hev;
    cbn [sys_exec]; unfold ignore, http_request, gateway_command.
  all: repeat first [ apply get_at | apply keeps_ret, _ | apply keeps_fail, _
    | by intros ? ? ? (? & _ & ->)%zoom_inv
    | apply keeps_bind; [apply _| |intros ?] | case_match ].
Qed.

(** What an event puts in flight has passed its checks. *)
Lemma step_inflight cfg ev s s' p :
  step_sys ev s = Some s' → guarded cfg s → p ∈ sy_inflight s' →
  p ∈ sy_inflight s ∨ ev = SPutBegin (if_rq p) (if_id p) (Some (if_req p)) ∧ admitted cfg s p.
Proof.
  intros [r E]%step_exec Hg Hp.
  destruct (put_event_dec ev) as [Hev|Hev].
  2:{ left. apply (exec_inflight ev) in E; [|done]. unfold same_at in E. congruence. }
  destruct Hev as [(rq & id & bound & ->)|(n & d & live & uptime & ->)]; cbn [sys_exec] in E.
  - apply put_begin_inv in E as [->|(req & -> & -> & Hd & Eg)]; [by left|].
    cbn in Hp. apply elem_of_app in Hp as [Hp| ->%list_elem_of_singleton]; [by left|]. right. split; [done|].
    split; [|done]. eapply guarded_credentials; [exact Hg|].
    apply gatewayAuth_release_iff; [by eapply guarded_release|exact Eg].
  - apply put_finish_inv in E as [[_ ->]|(q & y & _ & E & _)]; [by left|]. rewrite E in Hp. left.
    by eapply elem_of_delete.
Qed.

Lemma step_guarded cfg ev s s' : step_sys ev s = Some s' → guarded cfg s → guarded cfg s'.
Proof.
  intros H Hg. pose proof Hg as (E & Hrel & Hp). split; [by rewrite (step_auth _ _ _ H)|]. split; [done|].
  intros p Hin. destruct (step_inflight _ _ _ _ _ H Hg Hin) as [?|[_ [? _]]]; auto.
Qed.

Lemma step_authorised cfg ev s s' i :
  step_sys ev s = Some s' → guarded cfg s → db_wf (sy_tables s) →
  abs (sy_tables s') !! i ≠ abs (sy_tables s) !! i → authorises cfg s ev i.
Proof.
  intros H Hg Hwf Hne.
  assert (∀ d live uptime env rq r, ev = SRequest d live uptime env rq r → credentials_ok cfg rq) as Hauth.
  { intros d live uptime env rq r ->. apply request_step in H as (x & v & E & ->).
    apply Router_protected in E as [_ E]; [|by eapply guarded_release].
    eapply guarded_credentials; [exact Hg|]. apply E. intros Heq. apply Hne. cbn in Heq.
    unfold sy_tables, sy_node. cbn. by rewrite Heq. }
  destruct (reaches_touched _ _ _ _ (step_via _ _ _ H) Hwf Hne) as (op & t1 & Hop & _ & Ht).
  destruct op; try done.
  - destruct Hop as [(d & live & uptime & env & rq & id & req & -> & ->)|(n & d & live & uptime & id & req & -> & _)].
    + pose proof (Hauth _ _ _ _ _ _ eq_refl) as Ha. apply request_step in H as (x & v & E & ->).
      apply Router_put in E as [->|(Hd & y & E)]; [done|]. constructor; [done|exact Hd|].
      apply (Node_UpsertPeer_touched _ _ _ _ _ _ _ _ _ _ i) in E; done.
    + apply step_exec in H as [r E]. cbn [sys_exec] in E.
      apply put_finish_inv in E as [[_ ->]|(p & y & Ep & _ & E & _)]; [done|].
      apply (AuthFinish cfg s n d live uptime p i Ep).
      * destruct Hg as (_ & _ & Hg). apply Hg. by eapply list_elem_of_lookup_2.
      * by apply (Node_UpsertPeer_touched _ _ _ _ _ _ _ _ _ _ i) in E.
  - cbn in Ht. subst. destruct Hop as [(d & live & uptime & env & rq & ->)|(shortID & cmd & keep & -> & Ha & Hk & Hi)].
    + constructor. by eapply Hauth.
    + econstructor; try done. intros Hc. apply step_exec in H as [r E].
      cbn [sys_exec] in E. unfold ignore, gateway_command in E.
      unfold mbind, M_bind, get in E. rewrite Hc in E. injection E as _ <-. done.
Qed.
End provenance.

(** ** The start *)

Section start.
Context {srt : Sorting} {W Account HDKey ECKey Priv : Type} (L : WalletLib Account HDKey ECKey) (P : P2PLib Priv).
Context (FwDo : FwRequest → M W FwReply) (gateway : list GwRequest → result GwReply).
Context (AddrInfo : string → result unit) (hostID : Priv → string)
  (config_PeerID : string → result string) (sha3_Sum256 : list Z → list Z).

Definition settings_only (op : store_op) : Prop := match op with OpSetSetting _ _ => True | _ => False end.
Definition machine_tables (c : Machine Priv) : tables := wt (mc_world c).

Lemma on_carriers_via {A} Q (m : M (Manager DB) A) :
  keeps (via mgr_tables Q) m → keeps (via machine_tables Q) (on_carriers m).
Proof.
  intros H c r c'. unfold on_carriers, run.
  destruct (m (set_st (w_db (mc_world c)) (mc_stealth c))) as [r1 s] eqn:E. intros [= <- <-]. exact (H _ _ _ E).
Qed.
Lemma on_world_via {A} Q (m : M World A) :
  keeps (via wt Q) m → keeps (via machine_tables Q) (on_world m).
Proof. by apply keeps_zoom. Qed.
Lemma on_dropsvc_via {A} Q (m : M DropState A) : keeps (via machine_tables Q) (on_dropsvc m).
Proof. apply keeps_reads. by intros c r c' (d & _ & ->)%zoom_inv. Qed.
Lemma on_net_via {A} Q (m : M (Net Priv) A) : keeps (via machine_tables Q) (on_net m).
Proof. apply keeps_reads. by intros c r c' (d & _ & ->)%zoom_inv. Qed.

Lemma boot_via cfg i :
  keeps (via machine_tables settings_only) (boot L P AddrInfo hostID config_PeerID sha3_Sum256 cfg i).
Proof.
  assert (∀ k v, settings_only (OpSetSetting k v)) as HQ by done.
  pose proof (Wg_Init_via cfg settings_only HQ). pose proof (Stealth_Init_via settings_only HQ).
  pose proof (Stealth_Start_via settings_only).
  pose proof @on_carriers_via. pose proof @on_world_via. pose proof @on_dropsvc_via. pose proof @on_net_via.
  unfold boot, required, start_carriers. walk.
Qed.

Definition run_type (g : GwState DB W) : string := c_RunType (gs_cfg g).

Lemma check_license_type g r g' : check_license FwDo g = (r, g') → run_type g' = run_type g.
Proof.
  unfold check_license. rewrite (bind_Ok _ _ _ _ _ (get_cfg_run g)).
  destruct (_ && _); [|by intros [= <- <-]].
  intros (x & g1 & E & H)%try_inv. rewrite (bind_Ok _ _ _ _ _ (get_cfg_run g1)), put_cfg_run in H.
  apply pair_equal_spec in H as [_ <-].
  apply (on_firewall_auth _ (CheckLicense_auth FwDo)) in E. unfold same_at, gw_auth in E. by injection E as E _.
Qed.

Lemma adopt_keys_type creds cfg : c_RunType (adopt_keys creds cfg) = c_RunType cfg.
Proof. unfold adopt_keys, set_gateway_key. by repeat case_match. Qed.
Lemma registered_type out cfg : c_RunType (registered_config out cfg) = c_RunType cfg.
Proof. unfold registered_config, set_gateway_key. by case_match. Qed.

Lemma auto_register_type peerID did old (g : GwState DB W) r g' :
  auto_register L gateway peerID did old g = (r, g') → run_type g' = run_type g.
Proof.
  intros (x & _ & H)%auto_register_inv. destruct x as [out|e].
  - destruct H as (_ & E & _). unfold run_type. by rewrite E, registered_type.
  - destruct H as (_ & _ & E). unfold run_type. by rewrite E.
Qed.

Lemma start_gateway_type peerID did (g : GwState DB W) r g' :
  start_gateway L gateway peerID did g = (r, g') → run_type g' = run_type g.
Proof.
  unfold start_gateway. rewrite (bind_Ok _ _ _ _ _ (get_cfg_run g)).
  destruct (negb (GatewayEnabled (gs_cfg g))); [by intros [= <- <-]|].
  intros (x & g1 & E1 & H)%try_inv. apply zoom_inv in E1 as (s & _ & ->).
  set (creds := match x with Ok c => c | Err _ => _ end) in H. cbv zeta in H.
  rewrite (bind_Ok _ _ _ tt _ (put_cfg_run _ _)) in H.
  apply bind_inv in H as [(node & g2 & E2 & H)|(e & E & ->)].
  - rewrite (bind_Ok _ _ _ _ _ (get_cfg_run g2)), (bind_Ok _ _ _ tt _ (put_cfg_run _ _)) in H.
    assert (run_type g2 = run_type g) as Hg.
    { destruct (_ && _); [apply auto_register_type in E2; rewrite E2|apply pair_equal_spec in E2 as [_ <-]];
        unfold run_type, with_cfg, gs_cfg; cbn; apply adopt_keys_type. }
    destruct (negb (String.eqb node.1 EmptyString) && _); apply pair_equal_spec in H as [_ <-]; exact Hg.
  - destruct (_ && _); [|done]. apply auto_register_type in E. rewrite E.
    unfold run_type, with_cfg, gs_cfg; cbn. apply adopt_keys_type.
Qed.

Lemma assemble_via cfg b (c : Machine Priv) w s :
  assemble L FwDo gateway cfg b c w = Ok s → reaches settings_only (machine_tables c) (sy_tables s).
Proof.
  unfold assemble. destruct (check_license _ _) as [r2 g1] eqn:E2.
  destruct (start_gateway _ _ _ _ _) as [cl g2] eqn:E3. destruct cl as [cl|e]; [|done]. intros [= <-].
  assert (∀ k v, settings_only (OpSetSetting k v)) as HQ by done.
  apply (check_license_via FwDo settings_only) in E2.
  apply (start_gateway_via L gateway settings_only HQ) in E3. unfold via in *. cbn in E2.
  etransitivity; [exact E2|]. exact E3.
Qed.

Lemma assemble_config cfg b (c : Machine Priv) w s :
  assemble L FwDo gateway cfg b c w = Ok s →
  c_RunType (sy_cfg s) = c_RunType cfg ∧ sys_status s = ("online", "online") ∧
  sy_keys s = capture (sy_cfg s) ∧ sy_inflight s = [].
Proof.
  unfold assemble. destruct (check_license _ _) as [r2 g1] eqn:E2.
  destruct (start_gateway _ _ _ _ _) as [cl g2] eqn:E3. destruct cl as [cl|e]; [|done]. intros [= <-].
  split; [|done]. apply check_license_type in E2. apply start_gateway_type in E3. unfold run_type in *.
  change (c_RunType (gs_cfg g2) = c_RunType cfg). by rewrite E3, E2.
Qed.

(** The start writes settings only, and the run type is the configured one. *)
Lemma launch_via cfg i c w s :
  launch L FwDo gateway P AddrInfo hostID config_PeerID sha3_Sum256 cfg i c w = Ok s →
  reaches settings_only (machine_tables c) (sy_tables s) ∧ c_RunType (sy_cfg s) = c_RunType cfg ∧
  sys_status s = ("online", "online") ∧ sy_keys s = capture (sy_cfg s) ∧ sy_inflight s = [].
Proof.
  unfold launch. destruct (boot _ _ _ _ _ _ _ _ _) as [r c1] eqn:E1. destruct r as [b|e]; [|done].
  intros E. split; [|by eapply assemble_config]. etransitivity; [exact (boot_via _ _ _ _ _ E1)|by eapply assemble_via].
Qed.
End start.

(** ** Runs *)

Section runs.
Context {srt : Sorting} {W Account HDKey ECKey : Type} (L : WalletLib Account HDKey ECKey).
Context (ParseKey : string → result (list Z)) (Verify : list Z → string → result Claims).
Context (StatusText : Z → string) (KuboDo : Request → result Response) (cid_Decode : string → result unit)
  (boundary : string).
Context (FwDo : FwRequest → M W FwReply) (Unmarshal : string → result json).
Context (gateway : list GwRequest → result GwReply).

Notation step_sys := (sys_step ParseKey Verify StatusText KuboDo cid_Decode boundary FwDo Unmarshal gateway).
Notation run_sys := (sys_run ParseKey Verify StatusText KuboDo cid_Decode boundary FwDo Unmarshal gateway).

(** A run is a sequence of store operations, each one that an event of the run
    may run. *)
Lemma run_via s evs s' :
  run_sys s evs s' → reaches (λ op, ∃ ev, ev ∈ evs ∧ may_run ev op) (sy_tables s) (sy_tables s').
Proof.
  induction 1 as [|s ev s1 evs s' E _ IH]; [done|]. apply step_via in E.
  etransitivity; (eapply reaches_mono; [|eassumption]).
  - intros op Hop. exists ev. split; [left|done].
  - intros op (ev' & Hin & Hop). exists ev'. split; [by right|done].
Qed.

Lemma run_guarded cfg s evs s' : run_sys s evs s' → guarded Verify cfg s → guarded Verify cfg s'.
Proof. induction 1 as [|s ev s1 evs s' E _ IH]; [done|]. intros Hg. apply IH. by eapply step_guarded. Qed.

(** A PUT in flight was so at the start of the run or passed its checks in it. *)
Lemma run_inflight cfg s evs s' p :
  run_sys s evs s' → guarded Verify cfg s → p ∈ sy_inflight s' →
  p ∈ sy_inflight s ∨
  ∃ pre post s0, evs = pre ++ SPutBegin (if_rq p) (if_id p) (Some (if_req p)) :: post ∧
    run_sys s pre s0 ∧ admitted Verify cfg s0 p.
Proof.
  induction 1 as [|s ev s1 evs s' E _ IH]; [auto|]. intros Hg Hp.
  destruct IH as [Hin|(pre & post & s0 & -> & Hr & Ha)]; [by eapply step_guarded|done| |].
  - destruct (step_inflight _ _ _ _ _ _ _ _ _ _ _ _ _ _ E Hg Hin) as [?|[-> Ha]]; [by left|]. right.
    exists [], evs, s. split; [done|]. split; [constructor|done].
  - right. exists (ev :: pre), post, s0. split; [done|]. split; [by econstructor|done].
Qed.

Lemma run_authorised cfg s evs s' i :
  run_sys s evs s' → guarded Verify cfg s → db_wf (sy_tables s) →
  abs (sy_tables s') !! i ≠ abs (sy_tables s) !! i →
  ∃ pre ev post s1, evs = pre ++ ev :: post ∧ run_sys s pre s1 ∧ authorises Verify cfg s1 ev i.
Proof.
  intros H. induction H as [|s ev s1 evs s' E H IH]; [done|]. intros Hg Hwf Hne.
  destruct (decide (abs (sy_tables s1) !! i = abs (sy_tables s) !! i)) as [Heq|Hne1].
  - destruct IH as (pre & ev' & post & s2 & -> & Hr & Ha).
    + by eapply step_guarded.
    + exact (reaches_wf _ _ _ (step_via _ _ _ _ _ _ _ _ _ _ _ _ E) Hwf).
    + congruence.
    + exists (ev :: pre), ev', post, s2. split; [done|]. split; [by econstructor|done].
  - exists [], ev, evs, s. split; [done|]. split; [constructor|]. by eapply step_authorised.
Qed.

(** A peer survives an event that does not authorise its removal. *)
Lemma step_identity cfg ev s s' id x :
  step_sys ev s = Some s' → guarded Verify cfg s →
  (∀ d live uptime env rq, ev = SRequest d live uptime env rq (DeletePeerRoute id) →
     ¬ authenticated Verify cfg EmptyString (GetHeader rq "Authorization") (GetHeader rq "X-Erebrus-Node-Key")) →
  (∀ shortID cmd keep, ev = SCommand shortID cmd → cmd_Action cmd = ActionResyncPeers →
     cmd_peer_ids cmd = Ok keep → id ∈ keep) →
  has_identity id x (sy_tables s) → has_identity id x (sy_tables s').
Proof.
  intros H Hg Hdel Hres Hx.
  assert ((∃ d live uptime env rq, ev = SRequest d live uptime env rq (DeletePeerRoute id)) ∨
          ¬ may_run ev (OpDeletePeer id)) as [(d & live & uptime & env & rq & ->)|Hn].
  { destruct ev as [d live uptime env rq r|rq id' bound|n d live uptime|shortID cmd| | | | | | |].
    1: destruct r as [| | | | | |id' req|id'|id'| |uid data|c|c|c|path].
    8: destruct (decide (id' = id)) as [->|Hne]; [left; eauto 6|].
    all: right; intros [(? & ? & ? & ? & ? & [=])|(? & ? & keep & [=] & Ha & Hk & Hi)]; subst; try done.
    apply Hi. by eapply Hres. }
  - apply request_step in H as (y & v & E & ->). apply Router_protected in E as [_ E].
    2: by eapply guarded_release.
    unfold has_identity, identity, sy_tables, sy_node in *. cbn in *.
    destruct (decide (abs (nt (sv_prov v)) = abs (nt (g_node (sy_bridge s))))) as [Heq|Hne]; [by rewrite Heq|].
    exfalso. eapply Hdel; [done|]. eapply guarded_credentials; [exact Hg|]. by apply E.
  - apply step_via in H. by eapply reaches_identity.
Qed.

Lemma run_identity cfg s evs s' id x :
  run_sys s evs s' → guarded Verify cfg s →
  (∀ d live uptime env rq, SRequest d live uptime env rq (DeletePeerRoute id) ∈ evs →
     ¬ authenticated Verify cfg EmptyString (GetHeader rq "Authorization") (GetHeader rq "X-Erebrus-Node-Key")) →
  (∀ shortID cmd keep, SCommand shortID cmd ∈ evs → cmd_Action cmd = ActionResyncPeers →
     cmd_peer_ids cmd = Ok keep → id ∈ keep) →
  has_identity id x (sy_tables s) → has_identity id x (sy_tables s').
Proof.
  intros H. induction H as [|s ev s1 evs s' E _ IH]; [done|]. intros Hg Hdel Hres Hx. apply IH.
  - by eapply step_guarded.
  - intros d live uptime env rq Hin. apply (Hdel d live uptime env rq). by right.
  - intros shortID cmd keep Hin. apply (Hres shortID cmd keep). by right.
  - eapply step_identity; try done.
    + intros d live uptime env rq ->. apply (Hdel d live uptime env rq). left.
    + intros shortID cmd keep ->. apply (Hres shortID cmd keep). left.
Qed.

(** ** Draining *)

Definition draining (s : System W) : Prop := sys_status s = ("draining", "draining").

(** Nothing new: every peer of [t'] was in [t], or has the key of one of the
    requests [l]; and no request joins them. *)
Definition only_from (l : list InFlight) (t t' : tables) : Prop :=
  ∀ i q, abs t' !! i = Some q →
    abs t !! i = Some q ∨ ∃ p, p ∈ l ∧ p_WGPublicKey q = rq_WGPublicKey (if_req p).

Lemma only_from_subset l t t' : abs t' ⊆ abs t → only_from l t t'.
Proof. intros H i q Hq. left. by eapply lookup_weaken. Qed.

Lemma only_from_trans l l' t t1 t' :
  (∀ p, p ∈ l' → p ∈ l) → only_from l t t1 → only_from l' t1 t' → only_from l t t'.
Proof.
  intros Hl H1 H2 i q Hq. destruct (H2 i q Hq) as [H|(p & Hp & Hk)]; [by apply H1|]. right. eauto.
Qed.

Lemma step_draining_status ev s s' :
  step_sys ev s = Some s' → draining s →
  (∀ shortID cmd, ev = SCommand shortID cmd → cmd_Action cmd ≠ ActionUndrain) → draining s'.
Proof.
  intros [r E]%step_exec Hd Hev. pose proof Hd as [= D1 D2].
  destruct ev as [| | |shortID cmd| | | | | | |].
  4:{ apply command_stays in E as [_ [->|[E1 E2]]]; [done|]. unfold draining, sys_status.
      rewrite E2 by congruence. rewrite E1, D1. unfold status_after.
      rewrite (proj2 (String.eqb_neq _ ActionUndrain)) by (by eapply Hev). by destruct (String.eqb _ _). }
  all: apply sys_exec_stays in E; [|done]; apply pair_equal_spec in E as [_ E]; unfold draining; by rewrite E.
Qed.

(** A drained node admits no PUT. *)
Lemma step_draining_inflight ev s s' p :
  step_sys ev s = Some s' → draining s → p ∈ sy_inflight s' → p ∈ sy_inflight s.
Proof.
  intros [r E]%step_exec [= _ Hd] Hp. destruct (put_event_dec ev) as [Hev|Hev].
  2:{ apply exec_inflight in E; [|done]. unfold same_at in E. congruence. }
  destruct Hev as [(rq & id & bound & ->)|(n & d & live & uptime & ->)]; cbn [sys_exec] in E.
  - by apply put_begin_inv in E as [->|(req & _ & _ & Hn & _)].
  - apply put_finish_inv in E as [[_ ->]|(q & y & _ & E & _)]; [done|]. rewrite E in Hp.
    by eapply elem_of_delete.
Qed.

Lemma step_draining_peers ev s s' :
  step_sys ev s = Some s' → draining s → db_wf (sy_tables s) →
  only_from (sy_inflight s) (sy_tables s) (sy_tables s').
Proof.
  intros H Hd Hwf. pose proof Hd as [= _ D2]. destruct (put_event_dec ev) as [Hev|Hev].
  - apply step_exec in H as [r E].
    destruct Hev as [(rq & id & bound & ->)|(n & d & live & uptime & ->)]; cbn [sys_exec] in E.
    + apply put_begin_inv in E as [->|(req & _ & _ & Hn & _)]; [|done]. by apply only_from_subset.
    + apply put_finish_inv in E as [[_ ->]|(p & y & Ep & _ & E & _)]; [by apply only_from_subset|].
      intros i q Hq. destruct (Node_UpsertPeer_writes _ _ _ _ _ _ _ _ _ _ i q E Hwf Hq) as [?|Hk]; [by left|].
      right. exists p. split; [by eapply list_elem_of_lookup_2|done].
  - apply only_from_subset.
    assert (∀ d live uptime env rq id req, ev = SRequest d live uptime env rq (PutPeer id (Some req)) → s' = s) as Hput.
    { intros d live uptime env rq id req ->. apply request_step in H as (x & v & E & ->).
      apply Router_put in E as [->|[Hn _]]; [by destruct s as [[]]|]. by cbn in Hn. }
    destruct ev as [d live uptime env rq r| | | | | | | | | |].
    1: destruct r as [| | | | | |id [req|]|id|id| |uid data|c|c|c|path]; [..|by rewrite (Hput _ _ _ _ _ _ _ eq_refl)| | | | | | | | |].
    all: eapply reaches_subset; [|exact (step_via _ _ _ _ _ _ _ _ _ _ _ _ H)].
    all: intros inp subnet gen now [(? & ? & ? & ? & ? & ? & ? & [=] & _)|(? & ? & ? & ? & ? & ? & Heq & _)].
    all: apply Hev; right; eauto 6.
Qed.

Lemma run_draining s evs s' :
  run_sys s evs s' → draining s → db_wf (sy_tables s) →
  (∀ shortID cmd, SCommand shortID cmd ∈ evs → cmd_Action cmd ≠ ActionUndrain) →
  draining s' ∧ (∀ p, p ∈ sy_inflight s' → p ∈ sy_inflight s) ∧
  only_from (sy_inflight s) (sy_tables s) (sy_tables s').
Proof.
  induction 1 as [|s ev s1 evs s' E _ IH].
  { intros Hd Hwf _. split; [done|]. split; [done|]. by apply only_from_subset. }
  intros Hd Hwf Hev. destruct IH as (H3 & H4 & H5).
  - eapply step_draining_status; [exact E|done|]. intros shortID cmd ->. apply Hev with shortID. left.
  - exact (reaches_wf _ _ _ (step_via _ _ _ _ _ _ _ _ _ _ _ _ E) Hwf).
  - intros shortID cmd Hin. apply Hev with shortID. by right.
  - assert (∀ p, p ∈ sy_inflight s1 → p ∈ sy_inflight s) as Hp
      by (intros p; by apply (step_draining_inflight _ _ _ _ E Hd)).
    split; [done|]. split; [auto|]. eapply only_from_trans; [exact Hp|by eapply step_draining_peers|done].
Qed.
End runs.

(** ** Properties *)

Section properties.
Context {srt : Sorting} {W Account HDKey ECKey Priv : Type} (L : WalletLib Account HDKey ECKey) (P : P2PLib Priv).
Context (ParseKey : string → result (list Z)) (Verify : list Z → string → result Claims).
Context (StatusText : Z → string) (KuboDo : Request → result Response) (cid_Decode : string → result unit)
  (boundary : string).
Context (FwDo : FwRequest → M W FwReply) (Unmarshal : string → result json).
Context (gateway : list GwRequest → result GwReply).
Context (AddrInfo : string → result unit) (hostID : Priv → string)
  (config_PeerID : string → result string) (sha3_Sum256 : list Z → list Z).

Notation step_sys := (sys_step ParseKey Verify StatusText KuboDo cid_Decode boundary FwDo Unmarshal gateway).
Notation run_sys := (sys_run ParseKey Verify StatusText KuboDo cid_Decode boundary FwDo Unmarshal gateway).
Notation started := (launch L FwDo gateway P AddrInfo hostID config_PeerID sha3_Sum256).

(** C4. The peers of a node change only on the gateway's authority.  Take any
    machine whose database satisfies the constraints, start the node outside
    debug mode, and let its goroutines and other processes act in any order,
    with any failures: the constraints still hold, and every peer that differs
    from what the database had before the start was changed by an event of
    the run that authorises it: a PUT that names the peer or its key, with the
    node key and a token of the gateway that fits, while the node was not
    draining; a PUT in flight, that is, one that carried these credentials and
    passed its checks earlier in the run, while the node was not draining; a
    DELETE of that peer, authenticated the same way; or a resync command on the
    control channel that does not list it. *)
Theorem system_peers_authorised cfg i c w s evs s' :
  started cfg i c w = Ok s → run_sys s evs s' →
  c_RunType cfg ≠ "debug" → db_wf (machine_tables c) →
  db_wf (sy_tables s') ∧
  ∀ id, abs (sy_tables s') !! id ≠ abs (machine_tables c) !! id →
    ∃ pre ev post s1, evs = pre ++ ev :: post ∧ run_sys s pre s1 ∧ authorises Verify (sy_cfg s) s1 ev id ∧
      ∀ p, p ∈ sy_inflight s1 → ∃ pre0 post0 s0,
        pre = pre0 ++ SPutBegin (if_rq p) (if_id p) (Some (if_req p)) :: post0 ∧
        run_sys s pre0 s0 ∧ admitted Verify (sy_cfg s) s0 p.
Proof.
  intros (Hs & Ht & _ & Hk & Hf)%launch_via Hr Hrel Hwf. pose proof (reaches_wf _ _ _ Hs Hwf) as Hwf0. split.
  - apply run_via in Hr. by eapply reaches_wf.
  - intros id Hne. assert (guarded Verify (sy_cfg s) s) as Hg by (by apply started_guarded; [..|congruence]).
    destruct (run_authorised _ _ _ _ _ _ _ _ _ (sy_cfg s) _ _ _ id Hr Hg Hwf0) as (pre & ev & post & s1 & E & R & A).
    { assert (∀ op, settings_only op → leaves_peers op = true) as Hl by (by intros []).
      by rewrite (reaches_same_peers _ _ _ Hl Hs). }
    exists pre, ev, post, s1. split; [done|]. split; [done|]. split; [done|]. intros p Hp.
    destruct (run_inflight _ _ _ _ _ _ _ _ _ _ _ _ _ _ R Hg Hp) as [Hin|?]; [|done].
    rewrite Hf in Hin. by apply not_elem_of_nil in Hin.
Qed.

(** C23. A drained node admits nothing.  From the moment it has executed a
    drain command, over any sequence of requests, commands and other events
    without an undrain command, both copies of the status stay at draining and
    no PUT passes its checks, whoever asks; the peers afterwards are peers of
    before, except for those written by a PUT that had passed its checks before
    the drain and was still in flight, which have the key it carried.  With no
    such PUT, peers can only go. *)
Theorem drain_holds s shortID cmd s1 evs s' :
  sy_client s ≠ None → cmd_Action cmd = ActionDrain → db_wf (sy_tables s) →
  step_sys (SCommand shortID cmd) s = Some s1 → run_sys s1 evs s' →
  (∀ shortID cmd, SCommand shortID cmd ∈ evs → cmd_Action cmd ≠ ActionUndrain) →
  sys_status s' = ("draining", "draining") ∧
  (∀ p, p ∈ sy_inflight s' → p ∈ sy_inflight s) ∧
  (∀ i q, abs (sy_tables s') !! i = Some q → abs (sy_tables s) !! i = Some q ∨
     ∃ p, p ∈ sy_inflight s ∧ p_WGPublicKey q = rq_WGPublicKey (if_req p)) ∧
  (sy_inflight s = [] → abs (sy_tables s') ⊆ abs (sy_tables s)).
Proof.
  intros Hc Ha Hwf Hstep Hr Hev. pose proof Hstep as [r E]%step_exec.
  assert (draining s1) as Hd by (by apply command_drains in E).
  assert (sy_inflight s1 = sy_inflight s) as Hf.
  { apply exec_inflight in E; [done|]. intros [(? & ? & ? & [=])|(? & ? & ? & ? & [=])]. }
  pose proof (step_via _ _ _ _ _ _ _ _ _ _ _ _ Hstep) as Hv.
  destruct (run_draining _ _ _ _ _ _ _ _ _ _ _ _ Hr Hd (reaches_wf _ _ _ Hv Hwf) Hev) as (H1 & H2 & H3).
  rewrite Hf in H2, H3. assert (only_from (sy_inflight s) (sy_tables s) (sy_tables s')) as H4.
  { eapply only_from_trans; [|apply only_from_subset|exact H3]; [done|]. eapply reaches_subset; [|exact Hv].
    intros inp subnet gen now [(? & ? & ? & ? & ? & ? & ? & [=] & _)|(? & ? & ? & ? & ? & ? & [=] & _)]. }
  split; [exact H1|]. split; [exact H2|]. split; [exact H4|]. intros Hn. apply map_subseteq_spec.
  intros i q Hq. destruct (H4 i q Hq) as [?|(p & Hp & _)]; [done|]. rewrite Hn in Hp. by apply not_elem_of_nil in Hp.
Qed.

(** C24. A peer is stable for as long as it is a peer.  In any run of a node
    outside debug mode, from the database before the start to the one after
    any events, a peer that every resync command lists and no authenticated
    DELETE names is still there, with the same address, proxy credentials and
    creation time, whatever else is sent to the node. *)
Theorem system_identity_stable cfg i c w s evs s' id x :
  started cfg i c w = Ok s → run_sys s evs s' → c_RunType cfg ≠ "debug" →
  identity (machine_tables c) id = Some x →
  (∀ d live uptime env rq, SRequest d live uptime env rq (DeletePeerRoute id) ∈ evs →
     ¬ authenticated Verify (sy_cfg s) EmptyString (GetHeader rq "Authorization")
         (GetHeader rq "X-Erebrus-Node-Key")) →
  (∀ shortID cmd keep, SCommand shortID cmd ∈ evs → cmd_Action cmd = ActionResyncPeers →
     cmd_peer_ids cmd = Ok keep → id ∈ keep) →
  identity (sy_tables s') id = Some x.
Proof.
  intros (Hs & Ht & _ & Hk & Hf)%launch_via Hr Hrel Hx Hdel Hres.
  eapply (run_identity _ _ _ _ _ _ _ _ _ (sy_cfg s));
    [exact Hr|by apply started_guarded; [..|congruence]|done|done|].
  apply (reaches_identity _ _ _ _ x) with (2 := Hs); [by intros []|exact Hx].
Qed.
End properties.

(** ** Witnesses *)

(** Runs, executed. *)
Section run_events.
Context {W : Type} (step : SysEvent → System W → option (System W)).
Fixpoint run_events (evs : list SysEvent) (s : System W) : option (System W) :=
  match evs with [] => Some s | ev :: evs => s ← step ev s; run_events evs s end.
End run_events.

(** A node that registers with the example gateway; the firewall sidecar is
    down; its database has one peer. *)
Definition sys_env : Config := start_env [("GATEWAY_PUBLIC_KEY", wit_key_hex)].
Definition sys_machine : Machine (list Z) :=
  mkMachine (n_host wit_node) (new_manager empty_db []) (NewService sys_env wit_repo)
    (mkNet [] [Some (EMsg "address in use")]).
Definition sys_verify (pk : list Z) (token : string) : result Claims :=
  if String.eqb token "tok" then Ok (mkClaims "gateway_call" "12D3" EmptyString EmptyString)
  else Err (EMsg "invalid signature").
Definition no_json (s : string) : result json := Err (EMsg "no JSON").

Local Notation started_example :=
  (launch lib_example do_down gw_example p2p_example addr_refused hex_encode wit_cp (λ b, b)
    sys_env boot_input sys_machine 0%nat).
Local Notation step_example :=
  (sys_step wit_ParseKey sys_verify wit_text wit_Do wit_cid "b" do_down no_json gw_example).
Local Notation run_example :=
  (sys_run wit_ParseKey sys_verify wit_text wit_Do wit_cid "b" do_down no_json gw_example).

Lemma run_events_run evs s s' : run_events step_example evs s = Some s' → run_example s evs s'.
Proof.
  revert s. induction evs as [|ev evs IH]; intros s H; [injection H as <-; constructor|].
  cbn in H. destruct (step_example ev s) as [s1|] eqn:E; [|done]. econstructor; [exact E|]. by apply IH.
Qed.

Definition put_event (id key : string) : SysEvent :=
  SRequest wit_draw (mkStats 0 0 0) 0 wit_env_status
    (mkRequest (list_to_map [("Authorization", "Bearer tok"); ("X-Erebrus-Node-Key", "key")]) (-1))
    (PutPeer id (Some (wit_req key))).
Definition resync_event (keep : list string) : SysEvent :=
  SCommand EmptyString (mkCommand ActionResyncPeers "r2" EmptyString (Ok keep) (Err (EMsg "no args"))).

(** The commands and the DELETE requests of a run. *)
Definition commands_of (evs : list SysEvent) : list Command :=
  omap (λ ev, match ev with SCommand _ cmd => Some cmd | _ => None end) evs.
Definition deletes_of (evs : list SysEvent) : list HttpRequest :=
  omap (λ ev, match ev with SRequest _ _ _ _ rq (DeletePeerRoute _) => Some rq | _ => None end) evs.

Lemma elem_of_commands shortID cmd evs : SCommand shortID cmd ∈ evs → cmd ∈ commands_of evs.
Proof. intros H. apply list_elem_of_omap. eauto. Qed.
Lemma elem_of_deletes d live uptime env rq id evs :
  SRequest d live uptime env rq (DeletePeerRoute id) ∈ evs → rq ∈ deletes_of evs.
Proof. intros H. apply list_elem_of_omap. eauto. Qed.

(** Provisioning, a refreshed token, a request without credentials. *)
Definition example_events : list SysEvent :=
  [put_event "p9" "k9"; SRefresh;
   SRequest wit_draw (mkStats 0 0 0) 0 wit_env_status (mkRequest ∅ (-1)) (DeletePeerRoute "p1");
   SDropPoll; resync_event ["p1"; "p9"]].

Definition example_outcome (s : System nat) : bool :=
  match run_events step_example example_events s with
  | Some s' => bool_decide (p_WGPublicKey <$> abs (sy_tables s') !! "p9" = Some "k9") &&
               bool_decide (is_Some (abs (sy_tables s') !! "p1"))
  | None => false
  end.

Lemma example_runs :
  ∃ s s', started_example = Ok s ∧ run_example s example_events s' ∧
    p_WGPublicKey <$> abs (sy_tables s') !! "p9" = Some "k9" ∧ is_Some (abs (sy_tables s') !! "p1").
Proof.
  assert (match started_example with Ok s => example_outcome s | Err _ => false end = true) as H
    by (vm_compute; reflexivity).
  destruct started_example as [s|e]; [|done]. unfold example_outcome in H.
  destruct (run_events step_example example_events s) as [s'|] eqn:E; [|done].
  apply andb_true_iff in H as [H1%bool_decide_eq_true H2%bool_decide_eq_true].
  exists s, s'. split; [done|]. split; [by apply run_events_run|done].
Qed.

Lemma example_deletes : deletes_of example_events = [mkRequest ∅ (-1)].
Proof. reflexivity. Qed.
Lemma example_commands :
  commands_of example_events = [mkCommand ActionResyncPeers "r2" EmptyString (Ok ["p1"; "p9"]) (Err (EMsg "no args"))].
Proof. reflexivity. Qed.

Lemma example_db_wf : db_wf (machine_tables sys_machine).
Proof. exact wit_tables_wf. Qed.

Lemma example_db_new : abs (machine_tables sys_machine) !! "p9" = None.
Proof. vm_compute. reflexivity. Qed.

Lemma system_peers_authorised_witness :
  ∃ s s' pre ev post (s1 : System nat), started_example = Ok s ∧ run_example s example_events s' ∧
    example_events = pre ++ ev :: post ∧ authorises sys_verify (sy_cfg s) s1 ev "p9".
Proof.
  destruct example_runs as (s & s' & E & R & H9 & _).
  destruct (system_peers_authorised lib_example p2p_example wit_ParseKey sys_verify wit_text wit_Do wit_cid "b"
    do_down no_json gw_example addr_refused hex_encode wit_cp (λ b, b) sys_env boot_input sys_machine 0%nat
    s example_events s' E R) as [_ H].
  - vm_compute. discriminate.
  - exact example_db_wf.
  - destruct (H "p9") as (pre & ev & post & s1 & He & _ & Ha & _).
    + rewrite example_db_new. intros Hn. rewrite Hn in H9. discriminate H9.
    + exists s, s', pre, ev, post, s1. split; [exact E|]. split; [exact R|]. split; [exact He|exact Ha].
Defined.

(** A PUT in flight at a drain command, then the same requests after it. *)
Definition put_request : HttpRequest :=
  mkRequest (list_to_map [("Authorization", "Bearer tok"); ("X-Erebrus-Node-Key", "key")]) (-1).
Definition begin_event (id key : string) : SysEvent := SPutBegin put_request id (Some (wit_req key)).
Definition finish_event : SysEvent := SPutFinish 0 wit_draw (mkStats 0 0 0) 0.
Definition drain_event : SysEvent := SCommand EmptyString wit_drain.
Definition drained_events : list SysEvent :=
  [begin_event "p7" "k7"; put_event "p8" "k8"; finish_event; finish_event; SRefresh].

Lemma drained_commands : commands_of drained_events = [].
Proof. reflexivity. Qed.

(** The drain does not wait for the requests in flight: the PUT of p9, which
    passed its checks before the drain, adds its peer after it, while those of
    p7 and p8, which come later, are refused. *)
Definition drained_outcome (s : System nat) : bool :=
  match run_events step_example [begin_event "p9" "k9"; drain_event] s with
  | None => false
  | Some s1 =>
      bool_decide (length (sy_inflight s1) = 1%nat) &&
      match run_events step_example drained_events s1 with
      | None => false
      | Some s' =>
          bool_decide (p_WGPublicKey <$> abs (sy_tables s') !! "p9" = Some "k9") &&
          bool_decide (abs (sy_tables s') !! "p7" = None) && bool_decide (abs (sy_tables s') !! "p8" = None) &&
          bool_decide (g_api_status (sy_bridge s1) = "draining")
      end
  end.

Example put_in_flight_crosses_drain :
  match started_example with Ok s => drained_outcome s | Err _ => false end = true.
Proof. vm_compute. reflexivity. Qed.

Lemma drained_runs :
  ∃ s s0 s1 s', started_example = Ok s ∧ run_example s [begin_event "p9" "k9"] s0 ∧ sy_client s0 ≠ None ∧
    step_example drain_event s0 = Some s1 ∧ run_example s1 drained_events s'.
Proof.
  assert (match started_example with
          | Ok s => match run_events step_example [begin_event "p9" "k9"] s with
                    | Some s0 => bool_decide (is_Some (sy_client s0)) &&
                        bool_decide (is_Some (run_events step_example (drain_event :: drained_events) s0))
                    | None => false end
          | Err _ => false end = true) as H by (vm_compute; reflexivity).
  destruct started_example as [s|e]; [|done].
  destruct (run_events step_example [begin_event "p9" "k9"] s) as [s0|] eqn:E0; [|done].
  apply andb_true_iff in H as [[x H1]%bool_decide_eq_true [s' H2]%bool_decide_eq_true].
  cbn [run_events] in H2. destruct (step_example drain_event s0) as [s1|] eqn:E; [|done].
  exists s, s0, s1, s'. split; [done|]. split; [by apply run_events_run|]. split; [by rewrite H1|].
  split; [done|]. by apply run_events_run.
Qed.

Lemma example_wf_run s evs s' : started_example = Ok s → run_example s evs s' → db_wf (sy_tables s').
Proof.
  intros (Hs & _)%launch_via Hr%run_via. eapply reaches_wf; [exact Hr|].
  eapply reaches_wf; [exact Hs|]. exact example_db_wf.
Qed.

Lemma drain_holds_witness :
  ∃ s0 s' : System nat, sys_status s' = ("draining", "draining") ∧
    (∀ p, p ∈ sy_inflight s' → p ∈ sy_inflight s0) ∧
    ∀ i q, abs (sy_tables s') !! i = Some q → abs (sy_tables s0) !! i = Some q ∨
      ∃ p, p ∈ sy_inflight s0 ∧ p_WGPublicKey q = rq_WGPublicKey (if_req p).
Proof.
  destruct drained_runs as (s & s0 & s1 & s' & E & R0 & Hc & Hs & Hr). exists s0, s'.
  destruct (drain_holds wit_ParseKey sys_verify wit_text wit_Do wit_cid "b" do_down no_json gw_example
    s0 EmptyString wit_drain s1 drained_events s' Hc eq_refl (example_wf_run _ _ _ E R0) Hs Hr) as (H1 & H2 & H3 & _).
  - intros shortID cmd Hin%elem_of_commands. rewrite drained_commands in Hin. destruct (not_elem_of_nil _ Hin).
  - split; [exact H1|]. split; [exact H2|exact H3].
Defined.

Lemma system_identity_stable_witness :
  ∃ s s' x, started_example = Ok s ∧ run_example s example_events s' ∧
    identity (machine_tables sys_machine) "p1" = Some x ∧ identity (sy_tables s') "p1" = Some x.
Proof.
  destruct example_runs as (s & s' & E & R & _).
  destruct (identity (machine_tables sys_machine) "p1") as [x|] eqn:Ex; [|vm_compute in Ex; discriminate Ex].
  exists s, s', x. split; [exact E|]. split; [exact R|]. split; [reflexivity|].
  apply (system_identity_stable lib_example p2p_example wit_ParseKey sys_verify wit_text wit_Do wit_cid "b"
    do_down no_json gw_example addr_refused hex_encode wit_cp (λ b, b) sys_env boot_input sys_machine 0%nat
    s example_events s' "p1" x E R); [vm_compute; discriminate|exact Ex| |].
  - intros d live uptime env rq Hin%elem_of_deletes. rewrite example_deletes, list_elem_of_singleton in Hin.
    rewrite Hin. intros (_ & _ & _ & Hb & _). apply Hb. reflexivity.
  - intros shortID cmd keep Hin%elem_of_commands. rewrite example_commands, list_elem_of_singleton in Hin.
    rewrite Hin. intros _ Hk. injection Hk as <-. left.
Defined.
