(* ===== verification/Channel.v ===== *)
(** * The control client on the running node

    The loop Run of internal/gatewayclient/client.go, its sessions
    ([ControlChannel]) and the node they act on ([System]) as one machine.  The
    node is shared: between any two steps of a session, the HTTP server, the
    background tasks and other processes may act.  A session that returns leaves
    its other goroutine behind: a reader still handles the frames that were
    buffered, and a writer lives until its next tick, whose write fails.

    Every step of the channel is a sequence of events of [System], so that the
    properties of its runs hold with frames of the gateway in the place of
    commands. *)
From S2P Require Import Prelude GoStrings GoUrl GoDecode StoreDB Store ConfigData Config Wg Sha256 Stealth Dns Wallet DropClient DropService Auth ServiceAgent Readiness Node Bridge Api Firewall GatewayClient Provenance ControlChannel P2P Boot Startup System.

(** Where Run is: before a dial, in session (which may have returned), or done. *)
Inductive Phase := Dialling | InSession | Over.

(** [ch_readers], [ch_writers]: goroutines of sessions that have returned. *)
Record Chan (W : Type) := mkChan {
  ch_session : Session (System W); ch_phase : Phase; ch_backoff : Z; ch_waits : list (option Z);
  ch_readers : nat; ch_writers : nat }.
Arguments mkChan {W}. Arguments ch_session {W}. Arguments ch_phase {W}. Arguments ch_backoff {W}.
Arguments ch_waits {W}. Arguments ch_readers {W}. Arguments ch_writers {W}.

Inductive ChanEvent (W : Type) :=
| CDial (d : Draws) (dial wrote : option error)       (* session dials and says hello *)
| CSession (ev : Event (System W) Draws)              (* a goroutine of the session *)
| CLateFrame (d : Draws) (raw : GwFrame)              (* a reader left behind *)
| CLateTick (d : Draws) (t : Ticker)                  (* a writer left behind *)
| CRound (jitter : Z) (cancelled inWait : bool)       (* Run after a session *)
| CNode (ev : SysEvent).                              (* the rest of the node *)
Arguments CDial {W}. Arguments CSession {W}. Arguments CLateFrame {W}. Arguments CLateTick {W}.
Arguments CRound {W}. Arguments CNode {W}.

(** The client's token after a refresh. *)
Definition set_token (tok : string) (c : Client) : Client :=
  mkClient (cl_gatewayURL c) (cl_nodeID c) tok (cl_heartbeatSec c) (cl_connected c).

(** The readers and writers that a returning session leaves behind. *)
Definition left_behind {B D} (ev : Event B D) : nat * nat :=
  match ev with
  | EReadError _ => (0, 1)
  | ETick _ _ | EWriterWrote _ => (1, 0)
  | ECancel _ => (1, 1)
  | _ => (0, 0)
  end%nat.

Section channel.
Context {srt : Sorting} {W : Type}.
Context (ParseKey : string → result (list Z)) (Verify : list Z → string → result Claims).
Context (StatusText : Z → string) (KuboDo : Request → result Response) (cid_Decode : string → result unit)
  (boundary : string).
Context (FwDo : FwRequest → M W FwReply) (Unmarshal : string → result json).
Context (gateway : list GwRequest → result GwReply).
Context (sha3_Sum256 : list Z → list Z) (rest : list RestRequest → result Z).

Notation Sys := (System W).
Notation step_sys := (sys_step ParseKey Verify StatusText KuboDo cid_Decode boundary FwDo Unmarshal gateway).
Notation run_sys := (sys_run ParseKey Verify StatusText KuboDo cid_Decode boundary FwDo Unmarshal gateway).
Notation exec_sys := (sys_exec ParseKey Verify StatusText KuboDo cid_Decode boundary FwDo Unmarshal gateway).

(** ** The bridge of the running node as the backend *)

Definition sys_hello (d : Draws) (s : Sys) : Hello :=
  BuildHello (sy_cfg s) (bt_peerID (sy_boot s)) (bt_did (sy_boot s)) (dr_agent d) (dr_drop d) sha3_Sum256
    (dr_cpus d) (dr_memTotal d) (sy_bridge s).
Definition sys_heartbeat (d : Draws) (status : string) : M Sys Heartbeat :=
  s ← get;
  on_bridge (BuildHeartbeat (sy_cfg s) (dr_agent d) (dr_drop d) (dr_ts d) (dr_live d) (dr_cpu d) (dr_mem d)
    (dr_speedtest d) status).
Definition sys_usage (d : Draws) : M Sys UsageReport := on_bridge (BuildUsageReport (dr_ts d) (dr_transfers d)).
Definition sys_command (d : Draws) (cmd : Command) : M Sys CommandResult :=
  s ← get;
  on_bridge (HandleCommand ParseKey (sy_cfg s) (Some (firewall_ops FwDo Unmarshal)) true true (dr_shortID d) cmd).

Lemma on_bridge_run {A} (m : M (Bridge (FwClient W)) A) s r g :
  m (sy_bridge s) = (r, g) → on_bridge m s = (r, set_bridge g s).
Proof. unfold on_bridge, zoom. by intros ->. Qed.

Lemma sys_heartbeat_total d st s : ∃ hb s', sys_heartbeat d st s = (Ok hb, s') ∧ hb_Status hb = st.
Proof.
  destruct (BuildHeartbeat_total (sy_cfg s) d st (sy_bridge s)) as (hb & g & E & Hs). exists hb, (set_bridge g s).
  split; [|done]. unfold sys_heartbeat. rewrite (bind_Ok get _ _ _ _ eq_refl). by apply on_bridge_run.
Qed.

Lemma sys_usage_total d s : ∃ ur s', sys_usage d s = (Ok ur, s').
Proof.
  destruct (BuildUsageReport_total d (sy_bridge s)) as (ur & g & E). exists ur, (set_bridge g s).
  by apply on_bridge_run.
Qed.

Lemma sys_command_answered d cmd s :
  ∃ res s', sys_command d cmd s = (Ok res, s') ∧ res_RequestID res = cmd_RequestID cmd.
Proof.
  destruct (HandleCommand_answered ParseKey (sy_cfg s) (Some (firewall_ops FwDo Unmarshal)) d cmd (sy_bridge s))
    as (res & g & E & Hid). exists res, (set_bridge g s). split; [|done].
  unfold sys_command. rewrite (bind_Ok get _ _ _ _ eq_refl). by apply on_bridge_run.
Qed.

#[local] Instance system_backend : ControlBackend Sys Draws := {
  cb_BuildHello _ := sys_hello;
  cb_BuildHeartbeat := sys_heartbeat;
  cb_BuildUsageReport := sys_usage;
  cb_Status s := g_status (sy_bridge s);
  cb_HandleCommand := sys_command;
  cb_heartbeat_total := sys_heartbeat_total;
  cb_usage_total := sys_usage_total;
  cb_command_answered := sys_command_answered;
}.

(** ** Steps *)

Notation Ch := (Chan W).
Definition ch_node (ch : Ch) : Sys := ss_node (ch_session ch).
Definition ch_client (ch : Ch) : Client := ss_client (ch_session ch).

Definition set_session (x : Session Sys) (ch : Ch) : Ch :=
  mkChan x (ch_phase ch) (ch_backoff ch) (ch_waits ch) (ch_readers ch) (ch_writers ch).
Definition leave (n : nat * nat) (ch : Ch) : Ch :=
  mkChan (ch_session ch) (ch_phase ch) (ch_backoff ch) (ch_waits ch) (ch_readers ch + n.1) (ch_writers ch + n.2).

(** go gwClient.Run(ctx) on the node that the start assembled. *)
Definition chan_start (c : Client) (s : Sys) : Ch :=
  mkChan (mkSession c s None None None [] [] [] (Some canceled)) Dialling second [] 0 0.

(** The token refresher that the start hands to the client. *)
Definition refresher : M Sys string :=
  s ← get;
  match sy_client s with
  | None => fail no_client
  | Some (c, refreshKey) => on_gw (refresh_token gateway (cl_nodeID c) refreshKey)
  end.

Definition refreshes (cancelled : bool) (err : error) : bool := negb cancelled && isAuthDialError (Some err).

(** Run after session returned [err]; a panic is not a return. *)
Definition round_step (jitter : Z) (cancelled inWait : bool) (err : error) (ch : Ch) : option Ch :=
  let x := ch_session ch in
  let '(r, b) := if refreshes cancelled err
                 then let '(r, b) := refresher (ss_node x) in (Some r, b) else (None, ss_node x) in
  match r with
  | Some (Err (EPanic _)) => None
  | _ =>
      let x := set_node b x in
      let c := ss_client x in
      Some match run_round (mkRun (cl_nodeToken c) (ch_backoff ch)) (mkRound (Some err) r jitter cancelled inWait) with
           | Stopped => mkChan x Over (ch_backoff ch) (ch_waits ch) (ch_readers ch) (ch_writers ch)
           | Again rs w => mkChan (set_client (set_token (rn_token rs) c) x) Dialling (rn_backoff rs)
                             (ch_waits ch ++ [w]) (ch_readers ch) (ch_writers ch)
           end
  end.

(** The events of the rest of the node; the readiness signals read the client's
    flag. *)
Definition of_rest (ev : SysEvent) (ch : Ch) : bool :=
  match ev with
  | SCommand _ _ | SHeartbeat _ | SUsage _ | SRefresh => false
  | SReadiness connected _ => eqb connected (cl_connected (ch_client ch))
  | _ => true
  end.

Definition is_ENode (ev : Event Sys Draws) : bool := match ev with ENode _ => true | _ => false end.

Definition chan_step (ev : ChanEvent W) (ch : Ch) : option Ch :=
  let x := ch_session ch in
  match ev with
  | CDial d dial wrote =>
      match ch_phase ch with
      | Dialling => Some (mkChan (session (ss_client x) (ss_node x) d dial wrote) InSession (ch_backoff ch)
                            (ch_waits ch) (ch_readers ch) (ch_writers ch))
      | _ => None
      end
  | CSession ev =>
      match ch_phase ch with
      | InSession =>
          if is_ENode ev then None
          else x' ← step rest None ev x;
               Some (leave (match ss_return x' with Some _ => left_behind ev | None => (0, 0)%nat end)
                       (set_session x' ch))
      | _ => None
      end
  | CLateFrame d raw =>
      match ch_readers ch with
      | O => None
      | S _ =>
          let '(_, (c, b)) := handleFrame None d raw (ss_client x, ss_node x) in
          Some (set_session (set_node b (set_client c x)) ch)
      end
  | CLateTick d t =>
      match ch_writers ch with
      | O => None
      | S n =>
          let '(_, b) := tick_frame d t (ss_node x) in
          Some (mkChan (set_node b x) (ch_phase ch) (ch_backoff ch) (ch_waits ch) (ch_readers ch) n)
      end
  | CRound jitter cancelled inWait =>
      match ch_phase ch, ss_return x with
      | InSession, Some (EPanic _) => None
      | InSession, Some err => round_step jitter cancelled inWait err ch
      | _, _ => None
      end
  | CNode ev =>
      if of_rest ev ch then b ← step_sys ev (ss_node x); Some (set_session (set_node b x) ch) else None
  end.

Fixpoint chan_steps (evs : list (ChanEvent W)) (ch : Ch) : option Ch :=
  match evs with
  | [] => Some ch
  | ev :: evs => ch ← chan_step ev ch; chan_steps evs ch
  end.

(** ** The events of the node that a step is *)

Definition command_events (d : Draws) (raw : GwFrame) : list SysEvent :=
  match command_of raw with Some cmd => [SCommand (dr_shortID d) cmd] | None => [] end.
Definition tick_events (d : Draws) (t : Ticker) : list SysEvent :=
  match t with THeartbeat => [SHeartbeat d] | TUsage => [SUsage d] | TPing => [] end.

Definition node_events (ev : ChanEvent W) (ch : Ch) : list SysEvent :=
  match ev with
  | CSession (EFrame d raw) | CLateFrame d raw => command_events d raw
  | CSession (ETick d t) | CLateTick d t => tick_events d t
  | CRound _ cancelled _ =>
      match ss_return (ch_session ch) with
      | Some err => if refreshes cancelled err then [SRefresh] else []
      | None => []
      end
  | CNode ev => [ev]
  | _ => []
  end.

Lemma run_one ev s s' : step_sys ev s = Some s' → run_sys s [ev] s'.
Proof. intros E. econstructor; [exact E|constructor]. Qed.

Lemma sys_step_ok ev s s' : exec_sys ev s = (Ok tt, s') → step_sys ev s = Some s'.
Proof. unfold sys_step. by intros ->. Qed.

(** The actions of the client's goroutines are the events of the node. *)
Lemma command_run d cmd s res s' :
  sy_client s ≠ None → sys_command d cmd s = (Ok res, s') → run_sys s [SCommand (dr_shortID d) cmd] s'.
Proof.
  intros Hc E. apply run_one, sys_step_ok. cbn [sys_exec]. unfold ignore, gateway_command.
  unfold sys_command, mbind, M_bind, get in *. destruct (sy_client s); [|done]. by rewrite E.
Qed.

Lemma frame_run d raw c b r c' b' :
  sy_client b ≠ None → handleFrame None d raw (c, b) = (r, (c', b')) → run_sys b (command_events d raw) b'.
Proof.
  intros Hc. unfold command_events. destruct (command_of raw) as [cmd|] eqn:E.
  - destruct (handleFrame_command None d raw cmd c b E) as (res & b1 & E1 & _ & ->). intros [= <- <- <-].
    by eapply command_run.
  - intros H. replace b' with b; [constructor|]. unfold handleFrame in H. unfold command_of in E.
    destruct (gf_json raw ≫= decode_envelope) as [env|]; [|by inversion H]. unfold mbind, M_bind, lift in H.
    destruct (String.eqb (en_Type env) TypeHelloAck).
    { destruct (unmarshal_raw decode_HelloAck _); by inversion H. }
    destruct (String.eqb (en_Type env) TypeCommand); [|by inversion H].
    destruct (unmarshal_raw _ _); [done|by inversion H].
Qed.

Lemma tick_run d t b r b' :
  sy_client b ≠ None → tick_frame d t b = (r, b') → run_sys b (tick_events d t) b'.
Proof.
  intros Hc. destruct t; cbn [tick_frame tick_events].
  - rewrite (bind_Ok get _ _ _ _ eq_refl). destruct (sys_heartbeat_total d (g_status (sy_bridge b)) b) as (hb & b1 & E & _).
    rewrite (bind_Ok _ _ _ _ _ E). intros [= _ <-]. apply run_one, sys_step_ok. cbn [sys_exec].
    unfold ignore. unfold sys_heartbeat, mbind, M_bind, get in *. destruct (sy_client b); [|done]. by rewrite E.
  - destruct (sys_usage_total d b) as (ur & b1 & E). rewrite (bind_Ok _ _ _ _ _ E). intros [= _ <-].
    apply run_one, sys_step_ok. cbn [sys_exec]. unfold ignore. unfold sys_usage, mbind, M_bind, get in *.
    destruct (sy_client b); [|done]. by rewrite E.
  - intros [= _ <-]. constructor.
Qed.

Lemma refresher_run b r b' :
  sy_client b ≠ None → refresher b = (r, b') → (∀ p, r ≠ Err (EPanic p)) → run_sys b [SRefresh] b'.
Proof.
  intros Hc E Hp. apply run_one. unfold sys_step. cbn [sys_exec]. unfold refresher in E.
  rewrite (bind_Ok get _ b b b eq_refl) in E. rewrite (bind_Ok get _ b b b eq_refl).
  destruct (sy_client b) as [[c key]|]; [|done].
  unfold ignore, mbind, M_bind. rewrite E. destruct r as [|e]; [done|]. destruct e; try done. by destruct (Hp s).
Qed.

(** A session's step acts on the node as its events do. *)
Lemma session_step_run ev x x' :
  step rest None ev x = Some x' → is_ENode ev = false → sy_client (ss_node x) ≠ None →
  run_sys (ss_node x) (match ev with EFrame d raw => command_events d raw | ETick d t => tick_events d t
                       | _ => [] end) (ss_node x').
Proof.
  intros H Hn Hc. unfold step in H. destruct (ss_return x); [done|].
  destruct ev as [d raw|err|err| |d t|err|closeSent|f]; try done.
  - destruct (ss_reader x); [done|]. injection H as <-. unfold read_step.
    destruct (handleFrame _ _ _ _) as [r [c b]] eqn:E. apply frame_run in E; [|done]. by destruct r.
  - destruct (ss_reader x); [|done]. injection H as <-. destruct err; constructor.
  - destruct (ss_reader x); [done|]. injection H as <-. constructor.
  - destruct (ss_interval x); [done|]. injection H as <-. destruct (heartbeat_ticker _); constructor.
  - destruct (ss_interval x), (ss_writer x); try done. injection H as <-. unfold tick_step.
    destruct (tick_frame d t (ss_node x)) as [r b] eqn:E. apply tick_run in E; [|done]. by destruct r.
  - destruct (ss_writer x) as [f|]; [|done]. injection H as <-. destruct err; [constructor|].
    destruct (rest_heartbeat_keeps rest f (add_sent f (set_writer None x))) as (_ & _ & _ & _ & _ & _ & ->). constructor.
  - injection H as <-. destruct closeSent; constructor.
Qed.

Lemma chan_step_run ev ch ch' :
  chan_step ev ch = Some ch' → sy_client (ch_node ch) ≠ None →
  run_sys (ch_node ch) (node_events ev ch) (ch_node ch').
Proof.
  unfold ch_node. intros H Hc. destruct ev as [d dial wrote|ev|d raw|d t|jitter cancelled inWait|ev]; cbn in H.
  - destruct (ch_phase ch); try done. injection H as <-. cbn. unfold session, sendHello.
    destruct dial, wrote; constructor.
  - destruct (ch_phase ch); try done. destruct (is_ENode ev) eqn:Ee; [done|].
    destruct (step rest None ev (ch_session ch)) as [x'|] eqn:E; [|done]. injection H as <-.
    by apply session_step_run in E; destruct ev.
  - destruct (ch_readers ch); [done|]. destruct (handleFrame _ _ _ _) as [r [c b]] eqn:E. injection H as <-.
    by eapply frame_run.
  - destruct (ch_writers ch); [done|]. destruct (tick_frame _ _ _) as [r b] eqn:E. injection H as <-.
    by eapply tick_run.
  - destruct (ch_phase ch); try done. cbn [node_events]. destruct (ss_return (ch_session ch)) as [err|]; [|done].
    assert (round_step jitter cancelled inWait err ch = Some ch') as Hr by (by destruct err). clear H.
    unfold round_step in Hr. destruct (refreshes cancelled err).
    + destruct (refresher (ss_node (ch_session ch))) as [r b] eqn:E. eapply refresher_run in E; [|done|].
      * destruct r as [|[]]; try done; destruct (run_round _ _); by injection Hr as <-.
      * by intros p ->.
    + destruct (run_round _ _); injection Hr as <-; constructor.
  - destruct (of_rest ev ch); [|done]. destruct (step_sys ev _) as [b|] eqn:E; [|done]. injection H as <-.
    by apply run_one.
Qed.

(** ** What every step keeps *)

Lemma exec_client ev : keeps (same_at sy_client) (exec_sys ev).
Proof.
  destruct ev; cbn [sys_exec]; unfold ignore, http_request, gateway_command.
  2: by intros s r s' [->|(req & _ & -> & _)]%put_begin_inv.
  2:{ intros s r s' [[_ ->]|(p & y & _ & _ & _ & _ & _ & E & _)]%put_finish_inv; [done|exact E]. }
  all: repeat first [ apply get_at | apply keeps_ret, _ | apply keeps_fail, _
    | by intros ? ? ? (? & _ & ->)%zoom_inv
    | apply keeps_bind; [apply _| |intros ?] | case_match ].
Qed.

Lemma run_client s evs s' : run_sys s evs s' → sy_client s' = sy_client s.
Proof.
  induction 1 as [|s ev s1 evs s' E _ IH]; [done|]. apply step_exec in E as [r E]. apply exec_client in E.
  unfold same_at in E. congruence.
Qed.

(** The gateway and the node id of the client stay; the client counts as
    connected exactly while a session has not returned. *)
Record chan_inv (c : Client) (ch : Ch) : Prop := {
  ci_url : cl_gatewayURL (ch_client ch) = cl_gatewayURL c;
  ci_id : cl_nodeID (ch_client ch) = cl_nodeID c;
  ci_live : ch_phase ch = InSession → ss_return (ch_session ch) = None → ∃ hello, session_inv hello (ch_session ch);
  ci_connected : cl_connected (ch_client ch) = true ↔
    ch_phase ch = InSession ∧ ss_return (ch_session ch) = None;
}.

Lemma inv_node hello b (x : Session Sys) : session_inv hello x → session_inv hello (set_node b x).
Proof. by intros []. Qed.

Lemma handle_client d raw c (b : Sys) r c' b' :
  handleFrame None d raw (c, b) = (r, (c', b')) → same_identity c c' ∧ cl_connected c' = cl_connected c.
Proof.
  destruct (command_of raw) as [cmd|] eqn:E.
  - destruct (handleFrame_command None d raw cmd c b E) as (res & b1 & _ & _ & ->). by intros [= <- <- <-].
  - intros (H1 & H2 & _)%handleFrame_other; done.
Qed.

(** A step that changes only the node. *)
Lemma inv_set_node c ch b readers writers :
  chan_inv c ch →
  chan_inv c (mkChan (set_node b (ch_session ch)) (ch_phase ch) (ch_backoff ch) (ch_waits ch) readers writers).
Proof.
  intros [H1 H2 H3 H4]. split; [exact H1|exact H2| |exact H4]. cbn. intros Hp Hr.
  destruct (H3 Hp Hr) as [hello Hi]. exists hello. by apply inv_node.
Qed.

Lemma inv_dial c ch d dial wrote :
  chan_inv c ch → ch_phase ch = Dialling →
  chan_inv c (mkChan (session (ch_client ch) (ch_node ch) d dial wrote) InSession (ch_backoff ch) (ch_waits ch)
                (ch_readers ch) (ch_writers ch)).
Proof.
  intros [H1 H2 _ H4] Hp. assert (cl_connected (ch_client ch) = false) as Hc.
  { apply not_true_iff_false. intros [? _]%H4. congruence. }
  destruct dial as [e|]; [split; cbn; [done..|]; rewrite Hc; naive_solver|].
  unfold session, sendHello. cbn [wrap]. destruct wrote as [e|].
  - split; cbn; [done..|]. naive_solver.
  - split; cbn; [done|done| |done]. intros _ _.
    exists (FHello (sys_hello d (ch_node ch))). exact (session_starts (ch_client ch) (ch_node ch) d).
Qed.

Lemma chan_step_inv c ev ch ch' : chan_step ev ch = Some ch' → chan_inv c ch → chan_inv c ch'.
Proof.
  intros H Hi. destruct ev as [d dial wrote|ev|d raw|d t|jitter cancelled inWait|ev]; cbn in H.
  - destruct (ch_phase ch) eqn:Hp; try done. injection H as <-. by apply inv_dial.
  - destruct (ch_phase ch) eqn:Hp; try done. destruct (is_ENode ev); [done|].
    destruct (step rest None ev (ch_session ch)) as [x|] eqn:E; [|done]. injection H as <-.
    destruct Hi as [H1 H2 H3 H4].
    assert (ss_return (ch_session ch) = None) as Hr by (unfold step in E; by destruct (ss_return _)).
    destruct (H3 Hp Hr) as [hello Hs]. destruct (step_inv _ _ _ _ _ _ Hs E) as (Hs' & (S1 & S2 & _) & _).
    split; cbn.
    + unfold ch_client in *. cbn. congruence.
    + unfold ch_client in *. cbn. congruence.
    + eauto.
    + rewrite (inv_connected _ _ Hs'). naive_solver.
  - destruct (ch_readers ch); [done|]. destruct (handleFrame _ _ _ _) as [r [c1 b]] eqn:E. injection H as <-.
    apply handle_client in E as [(S1 & S2 & _) S4]. destruct Hi as [H1 H2 H3 H4]. split; cbn.
    + unfold ch_client in *. cbn. congruence.
    + unfold ch_client in *. cbn. congruence.
    + intros Hp Hr. destruct (H3 Hp Hr) as [hello [I1 I2 I3 I4]]. exists hello. split; cbn; [done..|]. by rewrite S4.
    + unfold ch_client in *. cbn. by rewrite S4.
  - destruct (ch_writers ch); [done|]. destruct (tick_frame _ _ _) as [r b]. injection H as <-.
    by apply inv_set_node.
  - destruct (ch_phase ch) eqn:Hp; try done. destruct (ss_return (ch_session ch)) as [err|] eqn:Er; [|done].
    assert (round_step jitter cancelled inWait err ch = Some ch') as Hr by (by destruct err). clear H.
    unfold round_step in Hr. destruct Hi as [H1 H2 H3 H4]. destruct (if refreshes _ _ then _ else _) as [r b].
    assert (cl_connected (ch_client ch) = false) as Hc by (apply not_true_iff_false; naive_solver congruence).
    assert (∀ ph tok bo ws rd wr, ph ≠ InSession →
      chan_inv c (mkChan (set_client (set_token tok (ch_client ch)) (set_node b (ch_session ch))) ph bo ws rd wr) ∧
      chan_inv c (mkChan (set_node b (ch_session ch)) ph bo ws rd wr)) as Hgo.
    { intros ph tok bo ws rd wr Hph. split; (split; [done|done|done|]).
      all: unfold ch_client in *; cbn; rewrite Hc; naive_solver. }
    destruct r as [[|[]]|]; try done; destruct (run_round _ _); injection Hr as <-; by apply Hgo.
  - destruct (of_rest ev ch); [|done]. destruct (step_sys ev _) as [b|]; [|done]. injection H as <-.
    by apply inv_set_node.
Qed.

Lemma chan_start_inv c s : cl_connected c = false → chan_inv c (chan_start c s).
Proof. intros Hc. split; cbn; [done..|]. rewrite Hc. naive_solver. Qed.

Lemma chan_steps_inv c evs ch ch' : chan_steps evs ch = Some ch' → chan_inv c ch → chan_inv c ch'.
Proof.
  revert ch. induction evs as [|ev evs IH]; intros ch; cbn; [by intros [= <-]|].
  destruct (chan_step ev ch) as [ch1|] eqn:E; [|done]. intros H Hi.
  apply (IH ch1 H). by eapply chan_step_inv.
Qed.

(** ** Authority *)

(** The events of the channel and the node that may change the peer [i]: an
    authenticated request, one in flight included, or a frame on a session, or one that a session left
    buffered, that is a resync command and does not list [i]. *)
Inductive chan_authorises (cfg : Config) (ch : Ch) : ChanEvent W → string → Prop :=
| ByRequest d live uptime env rq r i :
    authorises Verify cfg (ch_node ch) (SRequest d live uptime env rq r) i →
    chan_authorises cfg ch (CNode (SRequest d live uptime env rq r)) i
| ByPutInFlight n d live uptime i :
    authorises Verify cfg (ch_node ch) (SPutFinish n d live uptime) i →
    chan_authorises cfg ch (CNode (SPutFinish n d live uptime)) i
| ByFrame ev d raw cmd keep i :
    ev = CSession (EFrame d raw) ∧ ch_phase ch = InSession ∧ ss_return (ch_session ch) = None ∨
    ev = CLateFrame d raw ∧ ch_readers ch ≠ 0%nat →
    command_of raw = Some cmd → cmd_Action cmd = ActionResyncPeers → cmd_peer_ids cmd = Ok keep → i ∉ keep →
    chan_authorises cfg ch ev i.

Lemma resync_frame cfg d raw (s : Sys) ev i :
  command_events d raw = [ev] → authorises Verify cfg s ev i →
  ∃ cmd keep, command_of raw = Some cmd ∧ cmd_Action cmd = ActionResyncPeers ∧ cmd_peer_ids cmd = Ok keep ∧ i ∉ keep.
Proof.
  unfold command_events. destruct (command_of raw) as [cmd|]; [|done]. intros [= <-] Ha.
  inversion Ha; subst. eauto 6.
Qed.

Lemma chan_step_authorised cfg ev ch ch' i :
  chan_step ev ch = Some ch' → sy_client (ch_node ch) ≠ None →
  guarded Verify cfg (ch_node ch) → db_wf (sy_tables (ch_node ch)) →
  abs (sy_tables (ch_node ch')) !! i ≠ abs (sy_tables (ch_node ch)) !! i → chan_authorises cfg ch ev i.
Proof.
  intros H Hc Hg Hwf Hne. pose proof (chan_step_run _ _ _ H Hc) as Hr.
  destruct (run_authorised _ _ _ _ _ _ _ _ _ _ _ _ _ _ Hr Hg Hwf Hne) as (pre & e & post & s1 & Ee & Hp & Ha).
  assert (node_events ev ch = [e] ∧ s1 = ch_node ch) as [E ->].
  { assert (length (node_events ev ch) ≤ 1)%nat as Hl.
    { unfold node_events, command_events, tick_events. repeat case_match; cbn; lia. }
    rewrite Ee in Hl. rewrite Ee. destruct pre as [|? pre]; [|rewrite length_app in Hl; cbn in Hl; lia].
    cbn in Hl. destruct post; [|cbn in Hl; lia]. by inversion Hp. }
  clear Ee Hp Hr.
  destruct ev as [d dial wrote|ev|d raw|d t|jitter cancelled inWait|ev]; cbn in H.
  - done.
  - destruct (ch_phase ch) eqn:Hph; try done. destruct (is_ENode ev); [done|].
    destruct (step rest None ev (ch_session ch)) as [x|] eqn:Es; [|done].
    assert (ss_return (ch_session ch) = None) as Hret by (unfold step in Es; by destruct (ss_return _)).
    destruct ev as [d raw| | | |d t| | |]; try done.
    + destruct (resync_frame _ _ _ _ _ _ E Ha) as (cmd & keep & ? & ? & ? & ?). eapply ByFrame; eauto.
    + cbn in E. destruct t; try done; injection E as <-; inversion Ha.
  - assert (ch_readers ch ≠ 0%nat) as Hn by (by destruct (ch_readers ch)).
    destruct (resync_frame _ _ _ _ _ _ E Ha) as (cmd & keep & ? & ? & ? & ?). eapply ByFrame; eauto.
  - cbn in E. destruct t; try done; injection E as <-; inversion Ha.
  - cbn in E. destruct (ss_return _); [|done]. destruct (refreshes _ _); [|done]. injection E as <-. inversion Ha.
  - injection E as <-. destruct (of_rest ev ch) eqn:Eo; [|done].
    destruct ev; try done; try (by inversion Ha); [by apply ByRequest|by apply ByPutInFlight].
Qed.

(** What a step puts in flight is a PUT of the rest of the node. *)
Lemma chan_step_inflight cfg ev ch ch' p :
  chan_step ev ch = Some ch' → sy_client (ch_node ch) ≠ None → guarded Verify cfg (ch_node ch) →
  p ∈ sy_inflight (ch_node ch') →
  p ∈ sy_inflight (ch_node ch) ∨
  ev = CNode (SPutBegin (if_rq p) (if_id p) (Some (if_req p))) ∧ admitted Verify cfg (ch_node ch) p.
Proof.
  intros H Hc Hg Hp. pose proof (chan_step_run _ _ _ H Hc) as Hr.
  destruct (run_inflight _ _ _ _ _ _ _ _ _ _ _ _ _ _ Hr Hg Hp) as [?|(pre & post & s0 & E & R & Ha)]; [by left|].
  right. destruct ev as [d dial wrote|ev|d raw|d t|jitter cancelled inWait|ev]; cbn in E.
  6:{ destruct pre as [|? pre]; [|by destruct pre]. injection E as -> <-. by inversion R; subst. }
  1: by destruct pre.
  all: exfalso; revert E; unfold command_events, tick_events; repeat case_match; try (by destruct pre);
    destruct pre as [|? [|]]; discriminate.
Qed.

Lemma chan_inflight cfg evs ch ch' p :
  chan_steps evs ch = Some ch' → sy_client (ch_node ch) ≠ None → guarded Verify cfg (ch_node ch) →
  p ∈ sy_inflight (ch_node ch') →
  p ∈ sy_inflight (ch_node ch) ∨
  ∃ pre post ch0, evs = pre ++ CNode (SPutBegin (if_rq p) (if_id p) (Some (if_req p))) :: post ∧
    chan_steps pre ch = Some ch0 ∧ admitted Verify cfg (ch_node ch0) p.
Proof.
  revert ch. induction evs as [|ev evs IH]; intros ch H Hc Hg Hp; [injection H as <-; auto|].
  cbn in H. destruct (chan_step ev ch) as [ch1|] eqn:E; [|done]. cbn in H.
  pose proof (chan_step_run _ _ _ E Hc) as Hr. pose proof (run_client _ _ _ Hr) as Hc1.
  destruct (IH ch1 H) as [Hin|(pre & post & ch0 & -> & R & Ha)]; [congruence|by eapply run_guarded|done| |].
  - destruct (chan_step_inflight _ _ _ _ _ E Hc Hg Hin) as [?|[-> Ha]]; [by left|]. right.
    by exists [], evs, ch.
  - right. exists (ev :: pre), post, ch0. split; [done|]. cbn. by rewrite E.
Qed.

Lemma chan_authorised cfg evs ch ch' i :
  chan_steps evs ch = Some ch' → sy_client (ch_node ch) ≠ None →
  guarded Verify cfg (ch_node ch) → db_wf (sy_tables (ch_node ch)) →
  db_wf (sy_tables (ch_node ch')) ∧
  (abs (sy_tables (ch_node ch')) !! i ≠ abs (sy_tables (ch_node ch)) !! i →
   ∃ pre ev post ch1, evs = pre ++ ev :: post ∧ chan_steps pre ch = Some ch1 ∧ chan_authorises cfg ch1 ev i).
Proof.
  revert ch. induction evs as [|ev evs IH]; intros ch H Hc Hg Hwf; [by injection H as <-|].
  cbn in H. destruct (chan_step ev ch) as [ch1|] eqn:E; [|done]. cbn in H.
  pose proof (chan_step_run _ _ _ E Hc) as Hr. pose proof (run_client _ _ _ Hr) as Hc1.
  pose proof (reaches_wf _ _ _ (run_via _ _ _ _ _ _ _ _ _ _ _ _ Hr) Hwf) as Hwf1.
  destruct (IH ch1 H) as [W1 IH1]; [congruence|by eapply run_guarded|done|]. split; [done|]. intros Hne.
  destruct (decide (abs (sy_tables (ch_node ch1)) !! i = abs (sy_tables (ch_node ch)) !! i)) as [Heq|Hne1].
  - destruct IH1 as (pre & ev' & post & ch2 & -> & Hs & Ha); [congruence|].
    exists (ev :: pre), ev', post, ch2. split; [done|]. cbn. by rewrite E.
  - exists [], ev, evs, ch. split; [done|]. split; [done|]. by eapply chan_step_authorised.
Qed.

(** ** A writer that outlives its session *)

(** When a session ends with a read error, its writer waits for its next tick.
    If that is the one of the usage report, the report is built and taken as
    reported, and cannot be sent. *)
Lemma late_tick_loses_usage ch d n pid :
  ch_writers ch = S n →
  let g := sy_bridge (ch_node ch) in
  counter (last_of pid (g_lastUsage g)).1 → counter (last_of pid (g_lastUsage g)).2 →
  Forall (λ tr, counter (pt_RxBytes tr) ∧ counter (pt_TxBytes tr)) (dr_transfers d) →
  length (seen (g_node g) pid (dr_transfers d)) = 1%nat →
  ∃ ch', chan_step (CLateTick d TUsage) ch = Some ch' ∧
    ss_sent (ch_session ch') = ss_sent (ch_session ch) ∧
    ∀ ts2 rep2 g2,
      BuildUsageReport ts2 (dr_transfers d) (set_g_node (g_node g) (sy_bridge (ch_node ch'))) = (Ok rep2, g2) →
      total_rx pid (ur_Peers rep2) = 0.
Proof.
  intros Hw g C1 C2 Hall Hone. destruct (BuildUsageReport_total d g) as (ur & g1 & E).
  assert (sys_usage d (ch_node ch) = (Ok ur, set_bridge g1 (ch_node ch))) as Es by (by apply on_bridge_run).
  unfold ch_node in *. cbn [chan_step]. rewrite Hw. cbn [tick_frame cb_BuildUsageReport system_backend].
  rewrite (bind_Ok _ _ _ _ _ Es). eexists. split; [done|]. split; [done|]. cbn. by eapply usage_taken.
Qed.
End channel.

(** ** Property *)

Section properties.
Context {srt : Sorting} {W Account HDKey ECKey Priv : Type} (L : WalletLib Account HDKey ECKey) (P : P2PLib Priv).
Context (ParseKey : string → result (list Z)) (Verify : list Z → string → result Claims).
Context (StatusText : Z → string) (KuboDo : Request → result Response) (cid_Decode : string → result unit)
  (boundary : string).
Context (FwDo : FwRequest → M W FwReply) (Unmarshal : string → result json).
Context (gateway : list GwRequest → result GwReply) (rest : list RestRequest → result Z).
Context (AddrInfo : string → result unit) (hostID : Priv → string)
  (config_PeerID : string → result string) (sha3_Sum256 : list Z → list Z).

Notation started := (launch L FwDo gateway P AddrInfo hostID config_PeerID sha3_Sum256).
Notation channel := (chan_steps ParseKey Verify StatusText KuboDo cid_Decode boundary FwDo Unmarshal gateway
  sha3_Sum256 rest).

(** The control client of a start is a new one, for the peer id of the node. *)
Lemma launch_client cfg i c w s cl key :
  started cfg i c w = Ok s → sy_client s = Some (cl, key) →
  cl_connected cl = false ∧ cl_nodeID cl = bt_peerID (sy_boot s).
Proof.
  unfold launch. destruct (boot _ _ _ _ _ _ _ _ _) as [[b|e] c1]; [|done]. cbn. unfold assemble.
  destruct (check_license _ _) as [r2 g1]. destruct (start_gateway _ _ _ _ _) as [r g2] eqn:E.
  destruct r as [o|e]; [|done]. intros [= <-] Hc. cbn in Hc. rewrite Hc in E.
  apply client_identity in E as (H1 & H2 & _). done.
Qed.

(** C5. What the gateway sends over the control channel is all that the
    channel does to the peers.  Start a node outside debug mode that has a
    control client, and let the client's loop, its sessions, the goroutines
    they leave behind, the rest of the node and other processes act in any
    order, with any frames from the gateway, refused dials, refreshed tokens,
    broken connections and failures: the constraints of the database hold; the
    client dials the same gateway under the node's own peer id, and counts as
    connected exactly while a session has not returned; and every peer that
    differs from before the start was changed by an authenticated PUT or DELETE
    of it (a PUT in flight having passed its checks earlier, while the node was
    not draining), or by a frame, received on a live session or left buffered by one,
    that is a well-formed resync command and does not list it. *)
Theorem channel_peers_authorised cfg i c w s cl key evs ch :
  started cfg i c w = Ok s → sy_client s = Some (cl, key) →
  channel evs (chan_start cl s) = Some ch →
  c_RunType cfg ≠ "debug" → db_wf (machine_tables c) →
  db_wf (sy_tables (ch_node ch)) ∧
  cl_gatewayURL (ch_client ch) = cl_gatewayURL cl ∧ cl_nodeID (ch_client ch) = bt_peerID (sy_boot s) ∧
  (cl_connected (ch_client ch) = true ↔ ch_phase ch = InSession ∧ ss_return (ch_session ch) = None) ∧
  ∀ id, abs (sy_tables (ch_node ch)) !! id ≠ abs (machine_tables c) !! id →
    ∃ pre ev post ch1, evs = pre ++ ev :: post ∧ channel pre (chan_start cl s) = Some ch1 ∧
      chan_authorises Verify (sy_cfg s) ch1 ev id ∧
      ∀ p, p ∈ sy_inflight (ch_node ch1) → ∃ pre0 post0 ch0,
        pre = pre0 ++ CNode (SPutBegin (if_rq p) (if_id p) (Some (if_req p))) :: post0 ∧
        channel pre0 (chan_start cl s) = Some ch0 ∧ admitted Verify (sy_cfg s) (ch_node ch0) p.
Proof.
  intros Hs Hc H Hrel Hwf. destruct (launch_client _ _ _ _ _ _ _ Hs Hc) as [Hn Hid].
  apply launch_via in Hs as (Hv & Ht & _ & Hk & Hf). pose proof (reaches_wf _ _ _ Hv Hwf) as Hwf0.
  pose proof H as Hi. eapply (chan_steps_inv _ _ _ _ _ _ _ _ _ _ _ cl) in Hi as [I1 I2 _ I4]; [|by apply chan_start_inv].
  assert (sy_client (ch_node (chan_start cl s)) ≠ None) as Hcl by (cbn; congruence).
  assert (guarded Verify (sy_cfg s) (ch_node (chan_start cl s))) as Hg
    by (change (guarded Verify (sy_cfg s) s); apply started_guarded; [done|done|congruence]).
  pose proof (λ id, chan_authorised _ _ _ _ _ _ _ _ _ _ _ (sy_cfg s) _ _ _ id H Hcl Hg Hwf0) as Ha.
  split; [exact (proj1 (Ha EmptyString))|]. split; [exact I1|]. split; [congruence|]. split; [exact I4|].
  intros id Hne. destruct (proj2 (Ha id)) as (pre & ev & post & ch1 & E & R & A).
  { assert (∀ op, settings_only op → leaves_peers op = true) as Hl by (by intros []).
    change (ch_node (chan_start cl s)) with s. by rewrite (reaches_same_peers _ _ _ Hl Hv). }
  exists pre, ev, post, ch1. split; [done|]. split; [done|]. split; [done|]. intros p Hp.
  destruct (chan_inflight _ _ _ _ _ _ _ _ _ _ _ _ _ _ _ _ R Hcl Hg Hp) as [Hin|?]; [|done].
  change (ch_node (chan_start cl s)) with s in Hin. rewrite Hf in Hin. by apply not_elem_of_nil in Hin.
Qed.
End properties.

(** ** Witness *)

Definition resync_frame_example (keep : list string) : GwFrame :=
  wit_frame TypeCommand (JObj [("action", JStr ActionResyncPeers); ("request_id", JStr "r7");
    ("args", JObj [("peer_ids", JArr (JStr <$> keep))])]).

(** A refused dial with a token refresh, a session, a PUT, a read error; the
    writer left behind ticks, and the next session brings a resync. *)
Definition channel_events : list (ChanEvent nat) :=
  [CDial (wit_draws 0) (Some (EMsg "websocket: bad handshake")) None; CRound 0 false false;
   CDial (wit_draws 0) None None; CSession EWriterStart; CNode (put_event "p9" "k9");
   CSession (EReadError (EMsg "connection reset")); CLateTick (wit_draws 0) TUsage; CRound 0 false false;
   CDial (wit_draws 0) None None; CSession (EFrame (wit_draws 0) (resync_frame_example ["p9"]))].

Local Notation started_example :=
  (launch lib_example do_down gw_example p2p_example addr_refused hex_encode wit_cp (λ b, b)
    sys_env boot_input sys_machine 0%nat).
Local Notation channel_example :=
  (chan_steps wit_ParseKey sys_verify wit_text wit_Do wit_cid "b" do_down no_json gw_example (λ b, b) wit_rest).

Definition channel_outcome (s : System nat) : bool :=
  match sy_client s with
  | Some (cl, _) =>
      match channel_example channel_events (chan_start cl s) with
      | Some ch => bool_decide (p_WGPublicKey <$> abs (sy_tables (ch_node ch)) !! "p9" = Some "k9") &&
                   bool_decide (abs (sy_tables (ch_node ch)) !! "p1" = None) &&
                   bool_decide (ch_waits ch = [None; Some (second - second / 10)])
      | None => false
      end
  | None => false
  end.

Example channel_outcome_example : match started_example with Ok s => channel_outcome s | Err _ => false end = true.
Proof. vm_compute. reflexivity. Qed.


Lemma channel_peers_authorised_witness :
  ∃ s cl key ch pre ev post ch1, started_example = Ok s ∧ sy_client s = Some (cl, key) ∧
    channel_example channel_events (chan_start cl s) = Some ch ∧ db_wf (sy_tables (ch_node ch)) ∧
    channel_events = pre ++ ev :: post ∧ chan_authorises sys_verify (sy_cfg s) ch1 ev "p9".
Proof.
  pose proof channel_outcome_example as H. destruct started_example as [s|e] eqn:Es; [|discriminate H].
  unfold channel_outcome in H. destruct (sy_client s) as [[cl key]|] eqn:Ec; [|discriminate H].
  destruct (channel_example channel_events (chan_start cl s)) as [ch|] eqn:E; [|discriminate H].
  apply andb_true_iff in H as [[H9%bool_decide_eq_true H1%bool_decide_eq_true]%andb_true_iff _].
  destruct (channel_peers_authorised lib_example p2p_example wit_ParseKey sys_verify wit_text wit_Do wit_cid "b"
    do_down no_json gw_example wit_rest addr_refused hex_encode wit_cp (λ b, b) sys_env boot_input sys_machine 0%nat
    s cl key channel_events ch Es Ec E) as (Hwf & _ & _ & _ & H).
  - vm_compute. discriminate.
  - exact example_db_wf.
  - destruct (H "p9") as (pre & ev & post & ch1 & He & _ & Ha & _).
    + rewrite example_db_new. intros Hn. rewrite Hn in H9. discriminate H9.
    + exists s, cl, key, ch, pre, ev, post, ch1. split; [reflexivity|]. split; [exact Ec|]. split; [exact E|].
      split; [exact Hwf|]. split; [exact He|exact Ha].
Defined.
