(* ===== verification/Cli.v ===== *)
(** * The command line: internal/nodeapp/entry.go, services.go, templates.go,
    rotate.go, status.go, cmd/

    The subcommands of the node's binary with their argument loops, what they
    do to the store, what they print and how the process exits.  Clocks, random
    values, the environment and the error of opening the store are arguments. *)
From S2P Require Import Prelude GoStrings GoUrl GoDecode Speedtest GoDuration StoreDB Store ConfigData Config Sha256 Stealth Carriers Services ServiceAgent Readiness.

(** ** How a command ends *)

Inductive Output :=
| Line (s : string)
| OutServices (l : list Service)
| OutService (s : Service)
| OutCatalog (l : list Template)
| OutReport (r : Report).

(** Exit 0 after printing; an exit code with the text on stderr; a run-time
    panic; or the node is started with its validated configuration. *)
Inductive Exit :=
| Done (out : list Output)
| Failed (code : Z) (stderr : string) (out : list Output)
| Crashed (why : string)
| StartNode (cfg : Config).

(** [fmt.Fprintln(os.Stderr, name, err); os.Exit(1)] after an error. *)
Definition exit_of (name : string) (r : result (list Output)) : Exit :=
  match r with
  | Ok out => Done out
  | Err (EPanic s) => Crashed s
  | Err e => Failed 1 (name +:+ " " +:+ error_text e) []
  end.

Definition out_of_range : error := EPanic "index out of range".

(** What a command meets: the error of opening the store, the clock, random
    text, new secrets, the sing-box schedule, what GenerateMnemonic returns,
    and the answer of the status endpoint: code, text and parsed body. *)
Record CliInput := mkCli {
  ci_env : OSEnv; ci_open : option error; ci_now : Z; ci_uuid8 : string;
  ci_inputs : Inputs; ci_fresh : Fresh; ci_init : Fresh; ci_cert : result (string * string);
  ci_box : list (option error); ci_mnemonic : result string; ci_status : result (Z * string * result json) }.

Section cli.
Context {srt : Sorting} (ci : CliInput).
(** godotenv.Load: the environment with the variables of the .env file. *)
Context (godotenv : OSEnv → OSEnv).

Definition cli_cfg : Config := Config.Load (ci_env ci).

Definition open_store : M DB unit :=
  match ci_open ci with Some e => fail e | None => mret tt end.

(** ** services.go *)

Definition runServicesCLI (args : list string) : M DB (list Output) :=
  match args with
  | [] => fail (EMsg "usage: erebrus services list|inspect <id>|remove <id>|serve --name <name> --port <port> [--type <type>]")
  | sub :: rest =>
      _ ← open_store;
      if String.eqb sub "list" then
        items ← Services.List; mret [OutServices items]
      else if String.eqb sub "inspect" then
        match rest with
        | [] => fail (EMsg "usage: erebrus services inspect <service-id>")
        | i :: _ => svc ← Services.Get i; mret [OutService svc]
        end
      else if String.eqb sub "remove" then
        match rest with
        | [] => fail (EMsg "usage: erebrus services remove <service-id>")
        | i :: _ => _ ← Services.Remove i; mret []
        end
      else fail (EMsg ("unknown services subcommand " +:+ quote_q sub))
  end.

Definition Atoi (s : string) : result Z :=
  match ParseInt s with
  | Some z => Ok z
  | None => Err (EMsg ("strconv.Atoi: parsing " +:+ quote_q s +:+
              (if (0 =? Atoi_or_0 s) then ": invalid syntax" else ": value out of range")))
  end.

(** The loop over the flags; each reads the next argument unchecked. *)
Fixpoint serve_args (args : list string) (name : string) (port : Z) (typ : string)
  : result (string * Z * string) :=
  match args with
  | [] => Ok (name, port, typ)
  | a :: rest =>
      if String.eqb a "--name" then
        match rest with [] => Err out_of_range | v :: rest => serve_args rest v port typ end
      else if String.eqb a "--port" then
        match rest with
        | [] => Err out_of_range
        | v :: rest => match Atoi v with Err e => Err e | Ok p => serve_args rest name p typ end
        end
      else if String.eqb a "--type" then
        match rest with [] => Err out_of_range | v :: rest => serve_args rest name port v end
      else serve_args rest name port typ
  end.

Definition cli_service (name : string) (port : Z) (typ : string) : Service :=
  mkService EmptyString name typ EmptyString EmptyString port EmptyString EmptyString EmptyString
    EmptyString None 0 0.

Definition runServeCLI (args : list string) : M DB (list Output) :=
  x ← lift (serve_args args EmptyString 0 EmptyString);
  let '(name, port, typ) := x in
  if String.eqb name EmptyString || (port =? 0)
  then fail (EMsg "usage: erebrus serve --name <name> --port <port> [--type <type>]")
  else
    _ ← open_store;
    svc ← Publish (cli_service name port typ) (ci_now ci) (ci_uuid8 ci);
    mret [OutService svc].

(** ** templates.go *)

Definition runTemplatesCLI (args : list string) : M DB (list Output) :=
  match args with
  | [] => fail (EMsg "usage: erebrus templates list|install <name>")
  | sub :: rest =>
      if String.eqb sub "list" then mret [OutCatalog Catalog]
      else if String.eqb sub "install" then
        match rest with
        | [] => fail (EMsg "usage: erebrus templates install <name>")
        | name :: _ =>
            _ ← open_store;
            svc ← Install name (ci_now ci) (ci_uuid8 ci);
            mret [OutService svc]
        end
      else fail (EMsg ("unknown templates subcommand " +:+ quote_q sub))
  end.

(** ** rotate.go *)

Fixpoint rotate_args (args : list string) (grace : Z) (peer : string) : result (Z * string) :=
  match args with
  | [] => Ok (grace, peer)
  | a :: rest =>
      if String.eqb a "--grace-period" then
        match rest with
        | [] => Err (EMsg "--grace-period requires a value")
        | v :: rest =>
            match ParseDuration v with
            | Some (Ok d) => rotate_args rest d peer
            | Some (Err e) => Err (EWrap "invalid grace period: " e EmptyString)
            | None => Err (EMsg "invalid grace period")
            end
        end
      else if String.eqb a "--peer" then
        match rest with
        | [] => Err (EMsg "--peer requires a value")
        | v :: rest => rotate_args rest grace v
        end
      else if String.eqb a "carriers" then rotate_args rest grace peer
      else if HasPrefix a "-" then Err (EMsg ("unknown flag " +:+ a))
      else rotate_args rest grace peer
  end.

(** Init and the rotation, on a manager of the command's own. *)
Definition rotate_offline (opt : Options) : M (Manager DB) unit :=
  _ ← Stealth.Init (ci_init ci) (ci_cert ci);
  Rotate cli_cfg opt (ci_inputs ci) (ci_fresh ci) (ci_init ci) (ci_cert ci).

Definition rotated_text : string :=
  "carrier secrets rotated. Restart the node to serve the new credentials; old ones remain valid for the grace period.".

Definition runRotateCarriers (args : list string) : M DB (list Output) :=
  x ← lift (rotate_args args (hours 24) EmptyString);
  _ ← open_store;
  _ ← run (λ db, let '(r, m) := rotate_offline (mkOptions x.1 x.2) (new_manager db (ci_box ci)) in (r, m_st m));
  mret [Line rotated_text].

(** ** status.go *)

Fixpoint status_args (args : list string) (preboot jsonOut : bool) : result (bool * bool) :=
  match args with
  | [] => Ok (preboot, jsonOut)
  | a :: rest =>
      if String.eqb a "--preboot" then status_args rest true jsonOut
      else if String.eqb a "--json" then status_args rest preboot true
      else Err (EMsg ("unknown flag: " +:+ a))
  end.

Definition envOr (key def : string) : string :=
  let v := Getenv (ci_env ci) key in if String.eqb v EmptyString then def else v.

Definition status_url : string :=
  "http://127.0.0.1:" +:+ envOr "HTTP_PORT" "9080" +:+ "/api/v2/status".

(** A struct member; absent and null ones are zero. *)
Definition field_sub {A} (name : string) (dec : json → result A) (j : json) : result A :=
  match j with
  | JObj _ => dec (default JNull (jget name j))
  | JNull => dec JNull
  | _ => Err (type_err name)
  end.

Definition decode_check (j : json) : result Check :=
  i ← field_string "id" j; ok ← field_bool "ok" j; d ← field_string "detail" j;
  opt ← field_bool "optional" j; Ok (mkCheck i ok d opt).

Definition decode_report (j : json) : result Report :=
  ok ← field_bool "ok" j; checks ← field_list "checks" decode_check j;
  ws ← field_list "warnings" string_elem j; Ok (mkReadiness ok checks ws).

(** What the text output reads. *)
Record StatusOut := mkStatusOut {
  so_AccessMode : string; so_PeerID : string; so_DID : string; so_WalletChain : string;
  so_WalletLabel : string; so_WalletAddress : string; so_PublicKey : string; so_Endpoint : string;
  so_Readiness : Report; so_Capabilities : option json }.

Definition decode_identity (j : json) : result (string * string * string * string * string) :=
  p ← field_string "peer_id" j; d ← field_string "did" j; c ← field_string "wallet_chain" j;
  l ← field_string "wallet_chain_label" j; a ← field_string "wallet_address" j; Ok (p, d, c, l, a).
Definition decode_wg (j : json) : result (string * string) :=
  k ← field_string "public_key" j; e ← field_string "endpoint" j; Ok (k, e).

Definition decode_map (j : json) : result (option json) :=
  match j with JNull => Ok None | JObj l => Ok (Some (JObj l)) | _ => Err (type_err "map") end.

Definition decode_status (j : json) : result StatusOut :=
  mode ← field_string "access_mode" j;
  id ← field_sub "identity" decode_identity j;
  let '(p, d, c, l, a) := id in
  wg ← field_sub "endpoints" (field_sub "wireguard" decode_wg) j;
  rep ← field_sub "readiness" decode_report j;
  caps ← field_sub "capabilities" decode_map j;
  Ok (mkStatusOut mode p d c l a wg.1 wg.2 rep caps).

(** [m[k].(string)], empty when it is missing or something else. *)
Definition cap_string (k : string) (caps : option json) : string :=
  match caps ≫= jget k with Some (JStr s) => s | _ => EmptyString end.

Definition line_if (s pre : string) : list string :=
  if String.eqb s EmptyString then [] else [pre +:+ s].

Definition mark (c : Check) : string := if ck_OK c then "ok" else "FAIL".
(** The dash of the output, U+2014 in UTF-8. *)
Definition dash : string := " " +:+ String (chr 226) (String (chr 128) (String (chr 148) " ")).

Definition check_line (c : Check) : string :=
  "  [" +:+ mark c +:+ "] " +:+ ck_ID c +:+ (if ck_Optional c then " (optional)" else EmptyString)
  +:+ (if String.eqb (ck_Detail c) EmptyString then EmptyString else dash +:+ ck_Detail c).

Definition status_lines (o : StatusOut) : list string :=
  ["Access: " +:+ so_AccessMode o] ++
  line_if (cap_string "access_hint" (so_Capabilities o)) "  " ++
  line_if (cap_string "region_label" (so_Capabilities o)) "Region: " ++
  line_if (cap_string "zone_label" (so_Capabilities o)) "Zone: " ++
  ["Peer ID: " +:+ so_PeerID o; "DID: " +:+ so_DID o] ++
  (if String.eqb (so_WalletAddress o) EmptyString then []
   else ["Wallet (" +:+ (if String.eqb (so_WalletLabel o) EmptyString then so_WalletChain o else so_WalletLabel o)
         +:+ "): " +:+ so_WalletAddress o]) ++
  (if String.eqb (so_PublicKey o) EmptyString then []
   else ["WireGuard public key: " +:+ so_PublicKey o] ++ line_if (so_Endpoint o) "WireGuard endpoint: ") ++
  ["Readiness: " +:+ SummaryLine (so_Readiness o)] ++
  (check_line <$> rp_Checks (so_Readiness o)) ++
  ((λ w, "  ! " +:+ w) <$> rp_Warnings (so_Readiness o)).

(** os.Exit(1) on a report that is not ok, after printing. *)
Definition exit_report (rep : Report) (out : list Output) : Exit :=
  if rp_OK rep then Done out else Failed 1 EmptyString out.

Definition preboot_line (c : Check) : string :=
  "  [" +:+ mark c +:+ "] " +:+ ck_ID c +:+ dash +:+ ck_Detail c.

Definition printStatus (rep : Report) (jsonOut : bool) : Exit :=
  exit_report rep
    (if jsonOut then [OutReport rep]
     else Line ("Readiness (preboot): " +:+ SummaryLine rep) :: (Line <$> (preboot_line <$> rp_Checks rep))).

Definition status_failed (e : error) : Exit := exit_of "status:" (Err e).

Definition runStatusCLI (args : list string) : Exit :=
  match status_args args false false with
  | Err e => status_failed e
  | Ok (true, jsonOut) =>
      match Config.Validate (ci_env ci) cli_cfg with
      | (Err e, _) => status_failed e
      | (Ok _, cfg) => printStatus (Preboot (Some cfg)) jsonOut
      end
  | Ok (false, jsonOut) =>
      match ci_status ci with
      | Err e => status_failed (EWrap ("node not reachable at " +:+ status_url +:+ ": ") e " (is erebrus running?)")
      | Ok (code, text, body) =>
          if negb (code =? 200) then status_failed (EMsg ("status " +:+ Itoa code +:+ ": " +:+ text))
          else if jsonOut then
            match (j ← body; field_sub "readiness" decode_report j) with
            | Err e => Failed 1 ("status: " +:+ error_text e) [Line text]
            | Ok rep => exit_report rep [Line text]
            end
          else
            match (j ← body; decode_status j) with
            | Err e => status_failed e
            | Ok o => exit_report (so_Readiness o) (Line <$> status_lines o)
            end
      end
  end.

(** ** entry.go *)

Definition rotate_usage : string :=
  "usage: erebrus-node rotate carriers [--grace-period 24h] [--peer <peer-id>]".

(** A command on the store. *)
Definition command (name : string) (m : M DB (list Output)) : DB → Exit * DB := λ db,
  let '(r, db) := m db in (exit_of name r, db).

Definition node_env : OSEnv :=
  if String.eqb (Getenv (ci_env ci) "LOAD_CONFIG_FILE") EmptyString then godotenv (ci_env ci) else ci_env ci.

Definition start_node : Exit :=
  match Config.Validate node_env (Config.Load node_env) with
  | (Err e, _) => Failed 1 ("invalid configuration: " +:+ error_text e) []
  | (Ok _, cfg) => StartNode cfg
  end.

Definition Main (args : list string) (db : DB) : Exit * DB :=
  match args with
  | _ :: sub :: rest =>
      if String.eqb sub "genmnemonic" then
        (exit_of "genmnemonic:" (m ← ci_mnemonic ci; Ok [Line m]), db)
      else if bool_decide (sub ∈ ["version"; "--version"; "-v"]) then (Done [Line Version], db)
      else if String.eqb sub "templates" then command "templates:" (runTemplatesCLI rest) db
      else if String.eqb sub "serve" then command "serve:" (runServeCLI rest) db
      else if String.eqb sub "services" then command "services:" (runServicesCLI rest) db
      else if String.eqb sub "rotate" then
        match rest with
        | "carriers" :: _ => command "rotate:" (runRotateCarriers rest) db
        | _ => (Failed 2 rotate_usage [], db)
        end
      else if String.eqb sub "status" then (runStatusCLI rest, db)
      else (start_node, db)
  | _ => (start_node, db)
  end.
End cli.

(** ** serve *)

Definition serve_flags : list string := ["--name"; "--port"; "--type"].

(** A complete list of arguments followed by a flag without a value. *)
Lemma serve_args_snoc flag : flag ∈ serve_flags → ∀ k args, (length args <= k)%nat →
  ∀ name port typ x, serve_args args name port typ = Ok x →
  serve_args (args ++ [flag]) name port typ = Err out_of_range.
Proof.
  intros Hf. assert (∀ name port typ, serve_args [flag] name port typ = Err out_of_range) as Hend.
  { intros. unfold serve_flags in Hf. set_unfold in Hf. by destruct Hf as [->|[->|[->|[]]]]. }
  induction k as [|k IH]; intros args Hl name port typ x H.
  { destruct args; [|cbn in Hl; lia]. apply Hend. }
  destruct args as [|a rest]; [apply Hend|]. cbn in Hl.
  cbn [app serve_args] in *.
  assert (∀ v rest', rest = v :: rest' → (length rest' <= k)%nat) as Hl' by (intros v r ->; cbn in Hl; lia).
  destruct (String.eqb a "--name"); [|destruct (String.eqb a "--port"); [|destruct (String.eqb a "--type")]].
  - destruct rest as [|v rest]; [done|]. cbn [app]. eapply IH; [by eapply Hl'|exact H].
  - destruct rest as [|v rest]; [done|]. cbn [app]. destruct (Atoi v); [|done].
    eapply IH; [by eapply Hl'|exact H].
  - destruct rest as [|v rest]; [done|]. cbn [app]. eapply IH; [by eapply Hl'|exact H].
  - eapply IH; [lia|exact H].
Qed.

(** ** rotate *)

(** Carriers that do not run stay down, and sing-box is not called. *)
Definition stays_down (m m' : Manager DB) : Prop :=
  m_running m = false → m_running m' = false ∧ m_box m' = m_box m.

#[export] Instance stays_down_preorder : PreOrder stays_down.
Proof.
  unfold stays_down. split; [by intros m|]. intros a b c H1 H2 H. destruct (H1 H) as [H3 H4].
  destruct (H2 H3). split; congruence.
Qed.

Lemma on_st_down {A} (x : M DB A) : keeps stays_down (Stealth.on_st x).
Proof. intros m r m' (t & _ & ->)%zoom_inv. done. Qed.

Lemma wrap_down {A} pre (x : M (Manager DB) A) : keeps stays_down x → keeps stays_down (wrap_err pre x).
Proof.
  intros Hx. unfold wrap_err. apply keeps_bind; [apply _|by apply keeps_try|].
  intros []; [by apply keeps_ret, _|by apply keeps_fail, _].
Qed.

#[local] Hint Resolve on_st_down wrap_down : erebrus.

Lemma Init_down fr cert : keeps stays_down (Stealth.Init fr cert).
Proof.
  unfold Stealth.Init. apply keeps_bind; [apply _|by auto with erebrus|intros s].
  apply keeps_bind; [apply _|by auto with erebrus|intros [c k]]. by intros m r m' [= <- <-].
Qed.

Lemma get_down : keeps stays_down (get (S := Manager DB)).
Proof. by intros m r m' [= <- <-]. Qed.

Lemma RotateAllSecrets_down cfg fr init_fr cert : keeps stays_down (RotateAllSecrets (St := DB) cfg fr init_fr cert).
Proof.
  unfold RotateAllSecrets. apply keeps_bind; [apply _|apply get_down|intros m0].
  apply keeps_bind; [apply _|destruct (m_secrets m0); [by apply keeps_ret, _|apply Init_down]|intros _].
  do 3 (apply keeps_bind; [apply _|apply on_st_down|intros _]).
  apply keeps_bind; [apply _|apply on_st_down|intros secrets].
  apply keeps_bind; [apply _|by intros m r m' [= <- <-]|intros _].
  intros m r m' H Hr. rewrite (bind_Ok _ _ m m m) in H by done. rewrite Hr in H. by injection H as <- <-.
Qed.

Lemma insert_down now expires scope peer x : keeps stays_down (insert_material now expires scope peer x).
Proof.
  destruct x as [[tr mat] uuid]. unfold insert_material.
  destruct (String.eqb mat EmptyString); [by apply keeps_ret, _|apply on_st_down].
Qed.

Lemma Rotate_down cfg opt inp fr init_fr cert : keeps stays_down (Rotate cfg opt inp fr init_fr cert).
Proof.
  unfold Rotate. cbv zeta. apply keeps_bind; [apply _| |intros _].
  { unfold archiveCurrent. apply keeps_bind; [apply _|apply get_down|intros m0]. cbv zeta.
    destruct (negb _); [by apply keeps_ret, _|]. apply keeps_for_each; [apply _|]. intros; apply insert_down. }
  apply keeps_bind; [apply _|apply wrap_down, RotateAllSecrets_down|intros _].
  apply keeps_bind; [apply _|apply get_down|intros m1]. cbv zeta.
  apply keeps_bind; [apply _|apply keeps_for_each; [apply _|]; intros; apply insert_down|intros _].
  apply keeps_bind; [apply _|by apply keeps_try, on_st_down|intros _]. by apply keeps_ret, _.
Qed.

(** ** The state directory *)

Lemma default_to_StateDir get set v c :
  (∀ x c, c_StateDir (set x c) = c_StateDir c) → c_StateDir (default_to get set v c) = c_StateDir c.
Proof. intros H. unfold default_to. by destruct (String.eqb (get c) EmptyString). Qed.

Lemma default_WGDNS_StateDir v c : c_StateDir (default_WGDNS v c) = c_StateDir c.
Proof. unfold default_WGDNS. by destruct (_ || _). Qed.

Lemma profile_StateDir c : c_StateDir (ApplyProfileDefaults c) = c_StateDir c.
Proof.
  unfold ApplyProfileDefaults. cbv zeta.
  destruct (String.eqb _ ProfileShield); [|destruct (String.eqb _ ProfileSentinel); [|destruct (String.eqb _ ProfileStandard)]];
    repeat (rewrite ?default_WGDNS_StateDir; rewrite default_to_StateDir by done); rewrite ?default_WGDNS_StateDir; done.
Qed.

Lemma Load_StateDir E : c_StateDir (Config.Load E) = Config.env E "STATE_DIR" "/var/lib/erebrus".
Proof.
  transitivity (c_StateDir (ApplyProfileDefaults (load_literal E))); [|by rewrite profile_StateDir].
  unfold Config.Load. cbv zeta. destruct (negb (isLoopbackAddr _)), (ParseModeSettingsFromEnv E); reflexivity.
Qed.

Lemma Validate_StateDir E c r c' : Config.Validate E c = (r, c') → c_StateDir c' = c_StateDir c.
Proof.
  set (R := λ a b : Config, c_StateDir b = c_StateDir a).
  assert (PreOrder R) as Hpre by (unfold R; split; red; congruence).
  assert (∀ b e, keeps R (Config.check b e)) as Hc by (intros [] e; [by apply keeps_ret|by apply keeps_fail]).
  intros H. change (R c c'). unfold Config.Validate in H.
  apply bind_inv in H as [(mode & c1 & H1 & H)|(e & H1 & _)]; injection H1 as _ <-; [|reflexivity].
  rewrite (bind_Ok _ _ c c c), (bind_Ok _ _ c tt (set_Mode mode c)) in H by done.
  set (c1 := set_Mode mode c) in H. transitivity c1; [done|]. clearbody c1. clear c.
  rewrite (bind_Ok _ _ c1 c1 c1) in H by done. revert H. generalize r. clear r. intros r H.
  apply bind_inv in H as [([] & c2 & H1 & H)|(e & H1 & _)]; apply Hc in H1; [|done].
  transitivity c2; [done|]. 
  set (w := if _ || _ then add_warning stealth_warning c1 else c1) in H.
  rewrite (bind_Ok _ _ c2 tt w), (bind_Ok _ _ w w w) in H by done.
  assert (R c2 w) as Hw. { unfold R in *. rewrite H1. unfold w. by destruct (_ || _). }
  transitivity w; [done|]. clearbody w.
  match type of H with ?p _ = _ => assert (keeps R p) as Hk; [|by eapply Hk] end.
  do 3 (apply (keeps_bind R); [apply Hc|intros _]). by apply keeps_lift.
Qed.

(** ** Properties *)

(** Publishing from the command line crashes on a flag without a value:
    when the arguments of serve are otherwise complete and end with one of its
    flags, the process panics instead of printing its usage; the store is not
    touched. *)
Lemma serve_flag_crash {srt : Sorting} ci godotenv prog args flag x db :
  serve_args args EmptyString 0 EmptyString = Ok x → flag ∈ serve_flags →
  Main ci godotenv (prog :: "serve" :: args ++ [flag]) db = (Crashed "index out of range", db).
Proof.
  intros H Hf. unfold Main. cbn [String.eqb Ascii.eqb].
  assert (runServeCLI ci (args ++ [flag]) db = (Err out_of_range, db)) as E.
  { unfold runServeCLI.
    by rewrite (bind_Err _ _ db out_of_range db) by (unfold lift; by rewrite (serve_args_snoc flag Hf (length args) args) with (x := x)). }
  rewrite bool_decide_false by (set_unfold; naive_solver). cbn. unfold command. by rewrite E.
Qed.

(** The rotation command works beside a running node: whatever its
    arguments, the environment and the failures on the way, the manager it
    uses never starts the carriers, and sing-box is not called. *)
Lemma rotate_cli_offline ci opt db r m :
  rotate_offline ci opt (new_manager db (ci_box ci)) = (r, m) →
  m_running m = false ∧ m_box m = ci_box ci.
Proof.
  intros H. assert (keeps stays_down (rotate_offline ci opt)) as Hk.
  { unfold rotate_offline. apply keeps_bind; [apply _|apply Init_down|intros _]. apply Rotate_down. }
  exact (Hk _ _ _ H eq_refl).
Qed.

(** The report behind an exit of the status command. *)
Definition status_report ci (args : list string) : option Report :=
  match status_args args false false with
  | Ok (true, _) =>
      match Config.Validate (ci_env ci) (cli_cfg ci) with (Ok _, cfg) => Some (Preboot (Some cfg)) | _ => None end
  | Ok (false, jsonOut) =>
      match ci_status ci with
      | Ok (200, _, Ok j) =>
          if jsonOut then match field_sub "readiness" decode_report j with Ok rep => Some rep | _ => None end
          else match decode_status j with Ok o => Some (so_Readiness o) | _ => None end
      | _ => None
      end
  | Err _ => None
  end.

Definition is_done (e : Exit) : bool := match e with Done _ => true | _ => false end.

Lemma exit_report_done rep out : is_done (exit_report rep out) = rp_OK rep.
Proof. unfold exit_report. by destruct (rp_OK rep). Qed.

Lemma status_failed_done e : is_done (status_failed e) = false.
Proof. by destruct e. Qed.

(** The exit code of the status command is the readiness of the node: it
    is zero exactly when a report was obtained (with --preboot from the valid
    configuration, otherwise from a node that answers 200 with a report that
    decodes) and the report is positive, whichever output was asked for. *)
Lemma status_exit_code ci args :
  is_done (runStatusCLI ci args) = match status_report ci args with Some rep => rp_OK rep | None => false end.
Proof.
  unfold runStatusCLI, status_report. destruct (status_args args false false) as [[[] jsonOut]|e].
  - destruct (Config.Validate _ _) as [[[]|e] cfg]; [|apply status_failed_done].
    unfold printStatus. apply exit_report_done.
  - destruct (ci_status ci) as [[[code text] body]|e]; [|apply status_failed_done].
    destruct (Z.eqb_spec code 200) as [->|Hc]; cbn [negb].
    + destruct body as [j|e]; [|by destruct jsonOut; [|apply status_failed_done]]. cbn [mbind result_bind].
      destruct jsonOut; cbn.
      * destruct (field_sub "readiness" decode_report j); [apply exit_report_done|done].
      * destruct (decode_status j); [apply exit_report_done|apply status_failed_done].
    + rewrite status_failed_done. repeat case_match; congruence.
  - apply status_failed_done.
Qed.

(** The subcommands do not see the node's .env file.  When the state
    directory is set only there, the node that starts keeps its database in
    that directory, while the configuration the subcommands work with names
    the default one. *)
Lemma subcommands_ignore_dotenv {srt : Sorting} ci godotenv prog db cfg dir :
  Main ci godotenv [prog] db = (StartNode cfg, db) →
  Getenv (ci_env ci) "LOAD_CONFIG_FILE" = EmptyString → Getenv (ci_env ci) "STATE_DIR" = EmptyString →
  Getenv (godotenv (ci_env ci)) "STATE_DIR" = dir → dir ≠ EmptyString →
  DBPath cfg = dir +:+ "/erebrus.db" ∧ DBPath (cli_cfg ci) = "/var/lib/erebrus/erebrus.db".
Proof.
  intros H Hl Hs Hd Hne. cbn in H. unfold start_node, node_env in H. rewrite Hl in H. cbn in H.
  destruct (Config.Validate _ _) as [[[]|e] cfg'] eqn:E; [|done]. injection H as ->.
  apply Validate_StateDir in E. unfold DBPath, cli_cfg. rewrite E, !Load_StateDir. unfold Config.env, or_else.
  by rewrite Hs, Hd, (proj2 (String.eqb_neq _ _) Hne).
Qed.

(** ** Witnesses *)

Definition cli_example : CliInput :=
  mkCli (mkEnv ∅ None) None 10 "00000000" (wit_inputs "1") (wit_fresh "1") (wit_fresh "0") (Ok ("cert", "key"))
    [Some (EMsg "address in use")] (Ok "abandon") (Err (EMsg "connection refused")).

(** A .env file with the required variables and a state directory. *)
Definition dotenv_example (e : OSEnv) : OSEnv :=
  mkEnv (e_vars e ∪ list_to_map [("STATE_DIR", "/srv/erebrus"); ("MNEMONIC", "abandon");
    ("WG_ENDPOINT_HOST", "node.example")]) (e_hostname e).

Lemma serve_flag_crash_witness :
  Main cli_example dotenv_example ["erebrus"; "serve"; "--name"; "wiki"; "--port"; "8080"; "--type"] empty_db =
    (Crashed "index out of range", empty_db).
Proof.
  apply (serve_flag_crash cli_example dotenv_example "erebrus" ["--name"; "wiki"; "--port"; "8080"] "--type"
    ("wiki", 8080, EmptyString) empty_db); [vm_compute; reflexivity|].
  right. right. left.
Defined.

Lemma rotate_cli_offline_witness :
  fst (rotate_offline cli_example (mkOptions (hours 24) EmptyString) (new_manager empty_db (ci_box cli_example))) = Ok tt ∧
  m_running (snd (rotate_offline cli_example (mkOptions (hours 24) EmptyString)
    (new_manager empty_db (ci_box cli_example)))) = false.
Proof.
  split; [vm_compute; reflexivity|].
  exact (proj1 (rotate_cli_offline cli_example (mkOptions (hours 24) EmptyString) empty_db _ _ (surjective_pairing _))).
Defined.

Example status_unreachable : is_done (runStatusCLI cli_example []) = false.
Proof. reflexivity. Qed.

Definition example_start_cfg : Config :=
  match Main cli_example dotenv_example ["erebrus"] empty_db with (StartNode cfg, _) => cfg | _ => cli_cfg cli_example end.

Lemma subcommands_ignore_dotenv_witness :
  Main cli_example dotenv_example ["erebrus"] empty_db = (StartNode example_start_cfg, empty_db) ∧
  DBPath example_start_cfg = "/srv/erebrus/erebrus.db" ∧
  DBPath (cli_cfg cli_example) = "/var/lib/erebrus/erebrus.db".
Proof.
  assert (Main cli_example dotenv_example ["erebrus"] empty_db = (StartNode example_start_cfg, empty_db)) as E
    by (vm_compute; reflexivity).
  split; [exact E|].
  apply (subcommands_ignore_dotenv cli_example dotenv_example "erebrus" empty_db example_start_cfg "/srv/erebrus" E);
    [reflexivity|reflexivity|vm_compute; reflexivity|discriminate].
Defined.
