(* ===== verification/Lifecycle.v ===== *)
(** * A life of the node process: Run from its start to its end

    [Run] of internal/nodeapp/run.go as a whole: it opens the database file of
    [Schema], brings the components up ([Boot]), assembles the node ([System]),
    serves until a signal or until the HTTP listener fails, and closes what it
    opened in the reverse order.  A host outlives the process: the database file,
    the file system, the device, Kubo's repository and the libp2p network stay,
    while every life starts with new managers and empty keys.

    The theorems: the database keeps its schema and constraints over any
    sequence of lives, however each ends, and the next Open succeeds; a life
    that is not killed leaves nothing open; and a listener that cannot bind makes Run return without an error. *)
From S2P Require Import Prelude GoStrings GoUrl GoDecode StoreDB Store ConfigData Config Wg Sha256 Stealth Dns Wallet DropClient DropService Auth ServiceAgent Readiness Node Bridge Api Transport Sentinel Firewall GatewayClient Provenance ControlChannel P2P Schema Boot Startup System Cli.

(** ** Constructors *)

(** wg.New: a manager without keys, on the store and the host. *)
Definition wg_New (st : DB) (w : World) : World :=
  mkWorld st (w_files w) (w_dev w) (w_os w) EmptyString EmptyString.

(** ** Hosts *)

Record Host (Priv W : Type) := mkHost {
  h_file : DBFile; h_world : World; h_repo : Repo; h_box : list (option error); h_net : Net Priv; h_fw : W }.
Arguments mkHost {Priv W}. Arguments h_file {Priv W}. Arguments h_world {Priv W}. Arguments h_repo {Priv W}.
Arguments h_box {Priv W}. Arguments h_net {Priv W}. Arguments h_fw {Priv W}.

(** How the wait on ctx.Done ends. *)
Inductive Ending := Signalled | ListenFailed (e : error).

(** What a life meets: the inputs of the start, the error of sql.Open, the
    permissions of new files, what happens while it runs, how it ends, and the
    outcome of srv.Shutdown. *)
Record RunInput := mkRun {
  ru_boot : BootInput; ru_sqlOpen : option error; ru_mode : Z;
  ru_events : list SysEvent; ru_end : Ending; ru_shutdown : result unit }.

(** Run returns, or unwinds with a panic of its own; or a panic of another
    goroutine ends the process under it. *)
Inductive RunEnd := Returned (r : result unit) | Killed (panic : string).

(** How Run ended, whether the database handle was open and the carriers ran at
    that moment, and the last log lines. *)
Record RunReport := mkReport {
  rr_end : RunEnd; rr_store : bool; rr_carriers : bool; rr_log : list string }.

(** What is logged until ctx.Done: a listener's error calls stop(). *)
Definition wait_log (e : Ending) : list string :=
  match e with
  | Signalled => ["shutting down"]
  | ListenFailed e => ["http server error: " +:+ error_text e; "shutting down"]
  end.

(** main after Run. *)
Definition main_exit (r : RunEnd) : Exit :=
  match r with
  | Returned (Ok _) => Done []
  | Returned (Err (EPanic s)) | Killed s => Crashed s
  | Returned (Err e) => Failed 1 ("node exited with error: " +:+ error_text e) []
  end.

Section run.
Context {srt : Sorting} {W Account HDKey ECKey Priv : Type}
  (L : WalletLib Account HDKey ECKey) (P : P2PLib Priv).
Context (ParseKey : string → result (list Z)) (Verify : list Z → string → result Claims).
Context (StatusText : Z → string) (KuboDo : Request → result Response) (cid_Decode : string → result unit)
  (boundary : string).
Context (FwDo : FwRequest → M W FwReply) (Unmarshal : string → result json).
Context (gateway : list GwRequest → result GwReply).
Context (AddrInfo : string → result unit) (hostID : Priv → string)
  (config_PeerID : string → result string) (sha3_Sum256 : list Z → list Z).

Notation Hst := (Host Priv W).
Notation exec_sys := (sys_exec ParseKey Verify StatusText KuboDo cid_Decode boundary FwDo Unmarshal gateway).

(** The transport that the start logs as preferred. *)
Definition preferred_transport (cfg : Config) : option ProbeResult :=
  Select (Probe (mkProber (c_EnableStealth cfg) (WGEndpointPortInt cfg) (VLESSPortInt cfg)
                   (Hysteria2PortInt cfg))) (c_EnableStealth cfg).

(** The components of a new process over an opened database. *)
Definition new_machine (cfg : Config) (db : DB) (h : Hst) : Machine Priv :=
  mkMachine (wg_New db (h_world h)) (new_manager db (h_box h)) (NewService cfg (h_repo h)) (h_net h).

Definition error_of (r : result unit) : option error := match r with Ok _ => None | Err e => Some e end.

(** The database file is opened after the state directory and the identity. *)
Definition open_file (cfg : Config) (i : RunInput) (f : DBFile) : result unit * DBFile :=
  match bi_mkdir (ru_boot i), PeerIDFromMnemonic L P (c_Mnemonic cfg) with
  | None, Ok _ => Open (ru_sqlOpen i) (ru_mode i) (DBPath cfg) f
  | _, _ => (Ok tt, f)
  end.

Definition with_open (e : option error) (i : BootInput) : BootInput :=
  mkBoot (bi_mkdir i) e (bi_wgKey i) (bi_wgOut i) (bi_fresh i) (bi_cert i).

Definition set_rows (db : DB) (f : DBFile) : DBFile :=
  mkFile (f_cat f) db (f_modes f) (f_chmod f) (f_open f) (f_pragmas f).

(** What a process leaves on the host when it is gone: the kernel has closed its
    file handles. *)
Definition machine_gone (f : DBFile) (c : Machine Priv) (net : Net Priv) (h : Hst) : Hst :=
  mkHost (set_open false (set_rows (w_db (mc_world c)) f)) (mc_world c) (d_repo (mc_drop c))
    (m_box (mc_stealth c)) net (h_fw h).
Definition system_gone (f : DBFile) (s : System W) (net : Net Priv) (h : Hst) : Hst :=
  let w := n_host (sy_node s) in
  mkHost (set_open false (set_rows (w_db w) f)) w (d_repo (sy_drop s))
    (default (h_box h) (m_box <$> g_stealth (sy_bridge s))) net (fc_world (g_fw (sy_bridge s))).

(** The deferred calls, in the reverse order of their registration: the libp2p
    host, the carriers, the store.  With the carriers disabled there is no
    instance to close. *)
Definition shut_down (b : Booted) (f : DBFile) (carriers : option (Manager DB)) (net : Net Priv)
    : DBFile * option (Manager DB) * Net Priv :=
  let net := if bt_p2p b then (CloseNode net).2 else net in
  let carriers := if bt_stealthOK b then (λ m, (Stealth.Close m).2) <$> carriers else carriers in
  ((Schema.Close f).2, carriers, net).

Definition carriers_run (c : option (Manager DB)) : bool :=
  match c with Some m => m_running m | None => false end.

Definition set_carriers (c : option (Manager DB)) (s : System W) : System W :=
  let g := sy_bridge s in
  set_bridge (mkBridge (g_node g) c (g_fw g) (g_status g) (g_api_status g) (g_lastUsage g)) s.

(** The node serves its events; a panic in one of them ends the process. *)
Fixpoint serve (evs : list SysEvent) (s : System W) : option string * System W :=
  match evs with
  | [] => (None, s)
  | ev :: evs => match exec_sys ev s with
                 | (Err (EPanic p), s) => (Some p, s)
                 | (_, s) => serve evs s
                 end
  end.

Definition Run (cfg : Config) (i : RunInput) (h : Hst) : RunReport * Hst :=
  let '(opened, f) := open_file cfg i (h_file h) in
  let '(r, c) := boot L P AddrInfo hostID config_PeerID sha3_Sum256 cfg (with_open (error_of opened) (ru_boot i))
                   (new_machine cfg (f_db f) h) in
  match r with
  | Err e => (mkReport (Returned (Err e)) (f_open f) (m_running (mc_stealth c)) [], machine_gone f c (mc_net c) h)
  | Ok b =>
      match assemble L FwDo gateway cfg b c (h_fw h) with
      | Err e =>
          let '(f, carriers, net) := shut_down b f (Some (mc_stealth c)) (mc_net c) in
          (mkReport (Returned (Err e)) (f_open f) (carriers_run carriers) [], machine_gone f c net h)
      | Ok s =>
          match serve (ru_events i) s with
          | (Some p, s) =>
              (mkReport (Killed p) (f_open f) (carriers_run (g_stealth (sy_bridge s))) [],
               system_gone f s (mc_net c) h)
          | (None, s) =>
              let '(f, carriers, net) := shut_down b f (g_stealth (sy_bridge s)) (mc_net c) in
              (mkReport (Returned (ru_shutdown i)) (f_open f) (carriers_run carriers) (wait_log (ru_end i)),
               system_gone f (set_carriers carriers s) net h)
          end
      end
  end.

(** ** What the carriers do during a life *)

(** Carriers that do not run are not started by an event. *)
Definition carriers_down (g : Bridge (FwClient W)) : Prop :=
  ∀ m, g_stealth g = Some m → m_running m = false.
Definition keeps_down (s s' : System W) : Prop := carriers_down (sy_bridge s) → carriers_down (sy_bridge s').

#[local] Instance keeps_down_preorder : PreOrder keeps_down.
Proof. unfold keeps_down. split; red; auto. Qed.

Lemma same_stealth_down {A} (m : M (System W) A) :
  (∀ s r s', m s = (r, s') → g_stealth (sy_bridge s') = g_stealth (sy_bridge s)) → keeps keeps_down m.
Proof. intros H s r s' E Hd. unfold carriers_down. rewrite (H _ _ _ E). exact Hd. Qed.

Lemma RotateReality_down cfg short (m m' : Manager DB) r :
  RotateReality cfg short m = (r, m') → m_running m = false → m_running m' = false.
Proof.
  unfold RotateReality. rewrite (bind_Ok _ _ m m m) by done. destruct (m_secrets m) as [x|]; [|by intros [= <- <-]].
  intros [(a & m1 & (t & _ & ->)%zoom_inv & H)|(e & (t & _ & ->)%zoom_inv & ->)]%bind_inv Hr; [|done].
  apply bind_inv in H as [([] & m1 & [= <-] & H)|(e & [=] & _)].
  rewrite (bind_Ok get _ _ _ _ eq_refl) in H. cbn [set_secrets Stealth.set_st m_running] in H. rewrite Hr in H.
  by injection H as <- <-.
Qed.

Lemma command_down shortID cmd : keeps keeps_down (exec_sys (SCommand shortID cmd)).
Proof.
  intros s r s'. cbn [sys_exec]. unfold ignore. intros H Hd.
  assert (∃ x, gateway_command ParseKey FwDo Unmarshal shortID cmd s = (x, s')) as [x E].
  { apply bind_inv in H as [(y & s1 & E & [= <- <-])|(e & E & ->)]; eauto. }
  clear H. unfold gateway_command in E. rewrite (bind_Ok _ _ s s s) in E by done.
  destruct (sy_client s); [|by injection E as _ <-]. apply zoom_inv in E as (g & E & ->). cbn [sy_bridge set_bridge].
  destruct (decide (cmd_Action cmd = ActionRotateReality)) as [Ha|Ha].
  - unfold HandleCommand in E. rewrite Ha in E. cbn in E. rewrite (bind_Ok get _ _ _ _ eq_refl) in E.
    destruct (g_stealth (sy_bridge s)) as [m|] eqn:Em; [|injection E as _ <-; exact Hd].
    unfold try, mbind, M_bind, on_stealth, run in E.
    destruct (RotateReality _ _ _) as [r1 m1] eqn:Er. injection E as _ <-. intros m2 [= <-].
    apply RotateReality_down in Er; [exact Er|]. exact (Hd m Em).
  - destruct (HandleCommand_spec ParseKey (sy_cfg s) (Some (firewall_ops FwDo Unmarshal)) true true shortID cmd
      (sy_bridge s)) as [(res & _ & _ & _ & _ & _ & H2 & _) _]. rewrite E in H2. cbn in H2.
    unfold carriers_down. by rewrite H2.
Qed.

Lemma event_down ev : keeps keeps_down (exec_sys ev).
Proof.
  assert (∀ {A} (m : M (System W) A), keeps (same_at (λ s, g_stealth (sy_bridge s))) m → keeps keeps_down m) as Hk.
  { intros A m H. apply same_stealth_down. intros s r s' E. exact (H _ _ _ E). }
  destruct ev as [d live uptime env rq r|rq id bound|n d live uptime|shortID cmd|d|d| | |connected agent| |op];
    [| | |apply command_down|..]; apply Hk; cbn [sys_exec]; unfold ignore, http_request.
  2: by intros s r s' [->|(req & _ & -> & _)]%put_begin_inv.
  2:{ intros s r s' [[_ ->]|(p & y & _ & _ & _ & _ & _ & _ & E)]%put_finish_inv; [done|exact E]. }
  all: repeat first [ apply get_at | apply keeps_ret, _ | apply keeps_fail, _ | apply keeps_try
    | by intros ? ? ? (? & _ & ->)%zoom_inv
    | apply (zoom_same _ g_stealth); [done|by intros ???|]
    | apply keeps_bind; [apply _| |intros ?] | progress unfold BuildHeartbeat, BuildUsageReport | case_match ].
  intros g x g'. unfold run. destruct (foldl _ _ _). by intros [= <- <-].
Qed.

Lemma serve_down evs s p s' : serve evs s = (p, s') → keeps_down s s'.
Proof.
  revert s. induction evs as [|ev evs IH]; intros s; cbn [serve]; [by intros [= <- <-]|].
  destruct (exec_sys ev s) as [r s1] eqn:E. pose proof (event_down ev _ _ _ E) as H1.
  intros H. transitivity s1; [exact H1|].
  destruct r as [|e]; [by apply IH|]. destruct e; try by apply IH. by injection H as <- <-.
Qed.

(** ** What a life does to the database *)

Lemma serve_via evs s p s' : serve evs s = (p, s') → reaches (λ _, True) (sy_tables s) (sy_tables s').
Proof.
  revert s. induction evs as [|ev evs IH]; intros s; cbn [serve]; [by intros [= <- <-]|].
  destruct (exec_sys ev s) as [r s1] eqn:E.
  pose proof (sys_exec_via _ _ _ _ _ _ _ _ _ ev _ _ _ E) as H1. intros H.
  assert (reaches (λ _, True) (sy_tables s) (sy_tables s1)) as H2 by (eapply reaches_mono; [|exact H1]; done).
  transitivity (sy_tables s1); [exact H2|].
  destruct r as [|e]; [by apply IH|]. destruct e; try by apply IH. by injection H as <- <-.
Qed.

(** The rows of a host, and the catalogue of its file. *)
Definition host_rows (h : Hst) : tables := tbl (f_db (h_file h)).

Lemma open_file_inv cfg i f r f' :
  open_file cfg i f = (r, f') → attempted f → attempted f' ∧ tbl (f_db f') = tbl (f_db f).
Proof.
  unfold open_file. intros H Ha. destruct (bi_mkdir (ru_boot i)); [by injection H as <- <-|].
  destruct (PeerIDFromMnemonic L P (c_Mnemonic cfg)); [|by injection H as <- <-].
  split; [by eapply attempted_open|]. destruct (attempted_stage _ Ha) as (k & H1 & H2).
  by destruct (Open_inv _ _ _ _ _ _ _ H1 H2 H) as (_ & H3 & _).
Qed.

Lemma Run_database cfg i h rep h' :
  Run cfg i h = (rep, h') → attempted (h_file h) → db_wf (host_rows h) →
  attempted (h_file h') ∧ db_wf (host_rows h').
Proof.
  unfold Run. destruct (open_file _ _ _) as [opened f] eqn:Eo. intros H Ha Hwf.
  destruct (open_file_inv _ _ _ _ _ Eo Ha) as [Hf Hrows].
  destruct (boot _ _ _ _ _ _ _ _ _) as [r c] eqn:Eb.
  pose proof (boot_via L P AddrInfo hostID config_PeerID sha3_Sum256 _ _ _ _ _ Eb) as Hb.
  assert (∀ db, attempted (set_open false (set_rows db f))) as Hused by (intros; by eapply attempted_used).
  assert (db_wf (machine_tables c)) as Hc.
  { eapply reaches_wf; [exact Hb|]. unfold machine_tables, wt. cbn. by rewrite Hrows. }
  destruct r as [b|e]; [|injection H as <- <-; split; [apply Hused|exact Hc]].
  destruct (assemble _ _ _ _ _ _ _) as [s|e] eqn:Es; [|injection H as <- <-; split; [apply Hused|exact Hc]].
  assert (db_wf (sy_tables s)) as Hs.
  { eapply reaches_wf; [|exact Hc]. eapply (assemble_via L FwDo gateway); exact Es. }
  destruct (serve _ s) as [p s1] eqn:Ep. pose proof (reaches_wf _ _ _ (serve_via _ _ _ _ Ep) Hs) as Hs1.
  destruct p as [p|]; injection H as <- <-; (split; [apply Hused|exact Hs1]).
Qed.

(** ** How a life ends *)

Lemma boot_new cfg i db h r c :
  boot L P AddrInfo hostID config_PeerID sha3_Sum256 cfg i (new_machine cfg db h) = (r, c) →
  (is_ok r = false → c = new_machine cfg db h) ∧
  ∀ b, r = Ok b → (bt_stealthOK b = true ↔ m_running (mc_stealth c) = true) ∧
    ∃ l, nt_calls (mc_net c) = nt_calls (h_net h) ++ l ∧ (bt_p2p b = false → no_host l).
Proof.
  intros (_ & H1 & H2)%boot_inv; [|done]. split; [done|]. intros b Hb.
  by destruct (H2 b Hb) as (_ & _ & H3 & H4).
Qed.

Lemma assemble_stealth cfg b (c : Machine Priv) w s :
  assemble L FwDo gateway cfg b c w = Ok s → g_stealth (sy_bridge s) = Some (mc_stealth c).
Proof.
  unfold assemble. destruct (check_license _ _). destruct (start_gateway _ _ _ _ _) as [[cl|e] g2]; [|done].
  by intros [= <-].
Qed.

(** The deferred calls close the store and the host, and stop the carriers. *)
Lemma shut_down_closes b f carriers net f' carriers' net' l0 l :
  shut_down b f carriers net = (f', carriers', net') →
  (bt_stealthOK b = false → carriers_run carriers = false) →
  nt_calls net = l0 ++ l → (bt_p2p b = false → no_host l) →
  f_open f' = false ∧ carriers_run carriers' = false ∧ ∃ l', nt_calls net' = l0 ++ l' ∧ no_host l'.
Proof.
  intros [= <- <- <-] Hc Hl Hn. split; [done|].
  split; [destruct (bt_stealthOK b); [by destruct carriers|auto]|].
  destruct (bt_p2p b); [|eauto]. exists (l ++ [CloseDHT; CloseHost]).
  cbn [nt_calls]. rewrite Hl, <- !app_assoc. split; [done|]. right. right. by rewrite last_app.
Qed.

(** Carriers that the start did not bring up are down when it ends. *)
Lemma serve_carriers cfg b (c : Machine Priv) w s evs p s1 :
  assemble L FwDo gateway cfg b c w = Ok s → serve evs s = (p, s1) → m_running (mc_stealth c) = false →
  carriers_run (g_stealth (sy_bridge s1)) = false.
Proof.
  intros Es Ep%serve_down Hb. assert (carriers_down (sy_bridge s)) as Hd.
  { intros m. rewrite (assemble_stealth _ _ _ _ _ Es). by intros [= <-]. }
  specialize (Ep Hd). unfold carriers_down in Ep. unfold carriers_run.
  destruct (g_stealth (sy_bridge s1)); [by apply Ep|done].
Qed.

Lemma open_file_closed cfg i f opened f' :
  open_file cfg i f = (opened, f') → f_open f = false → attempted f → is_ok opened = false → f_open f' = false.
Proof.
  unfold open_file. intros H Hf Ha Ho. destruct (bi_mkdir (ru_boot i)); [by injection H as <- <-|].
  destruct (PeerIDFromMnemonic L P (c_Mnemonic cfg)); [|by injection H as <- <-].
  destruct (attempted_stage _ Ha) as (k & H1 & H2).
  destruct (Open_inv _ _ _ _ _ _ _ H1 H2 H) as (_ & _ & H3 & _).
  destruct (ru_sqlOpen i); [by injection H as <- <-|]. by rewrite H3.
Qed.

(** A start that fails has not opened the database, or Open closed it again. *)
Lemma boot_failed_closed cfg i f opened f' db h r c :
  open_file cfg i f = (opened, f') → f_open f = false → attempted f →
  boot L P AddrInfo hostID config_PeerID sha3_Sum256 cfg (with_open (error_of opened) (ru_boot i))
    (new_machine cfg db h) = (r, c) → is_ok r = false → f_open f' = false.
Proof.
  intros Eo Hf Ha (Hb & _)%boot_inv Hr; [|done]. cbn [with_open bi_mkdir bi_open] in Hb.
  destruct opened as [[]|e] eqn:E; [|by eapply open_file_closed]. revert Eo. unfold open_file.
  destruct (bi_mkdir (ru_boot i)); [by intros [= <-]|].
  destruct (PeerIDFromMnemonic L P (c_Mnemonic cfg)); [|by intros [= <-]].
  assert (is_ok r = true) by (by apply Hb). congruence.
Qed.

Lemma Run_closes cfg i h rep h' r :
  Run cfg i h = (rep, h') → attempted (h_file h) → f_open (h_file h) = false → rr_end rep = Returned r →
  rr_store rep = false ∧ rr_carriers rep = false ∧
  ∃ l, nt_calls (h_net h') = nt_calls (h_net h) ++ l ∧ no_host l.
Proof.
  unfold Run. destruct (open_file _ _ _) as [opened f] eqn:Eo. intros H Ha Hf Hr.
  destruct (boot _ _ _ _ _ _ _ _ _) as [r1 c] eqn:Eb.
  pose proof (boot_failed_closed _ _ _ _ _ _ _ _ _ Eo Hf Ha Eb) as Hfail.
  apply boot_new in Eb as [B1 B2]. destruct r1 as [b|e].
  2:{ injection H as <- <-. rewrite B1 by done. cbn. split; [by apply Hfail|]. split; [done|].
      exists []. rewrite app_nil_r. split; [done|by left]. }
  destruct (B2 b eq_refl) as [Hb (l & Hl & Hn)].
  assert (bt_stealthOK b = false → m_running (mc_stealth c) = false) as Hdown.
  { intros E. apply not_true_iff_false. intros Hm%Hb. congruence. }
  destruct (assemble _ _ _ _ _ _ _) as [s|e] eqn:Es.
  2:{ destruct (shut_down b f _ (mc_net c)) as [[f2 m2] net2] eqn:Ed. injection H as <- <-.
      eapply shut_down_closes; [exact Ed|exact Hdown|exact Hl|exact Hn]. }
  destruct (serve _ s) as [[p|] s1] eqn:Ep; [by injection H as <- <-|].
  destruct (shut_down b f _ (mc_net c)) as [[f2 m2] net2] eqn:Ed. injection H as <- <-.
  eapply shut_down_closes; [exact Ed| |exact Hl|exact Hn].
  intros E. eapply serve_carriers; [exact Es|exact Ep|auto].
Qed.

(** Any number of lives, with any configurations, failures and endings. *)
Inductive lives : Hst → Hst → Prop :=
| lives_none h : lives h h
| lives_one cfg i h rep h1 h2 : Run cfg i h = (rep, h1) → lives h1 h2 → lives h h2.
End run.

(** ** Properties *)

Section properties.
Context {srt : Sorting} {W Account HDKey ECKey Priv : Type}
  (L : WalletLib Account HDKey ECKey) (P : P2PLib Priv).
Context (ParseKey : string → result (list Z)) (Verify : list Z → string → result Claims).
Context (StatusText : Z → string) (KuboDo : Request → result Response) (cid_Decode : string → result unit)
  (boundary : string).
Context (FwDo : FwRequest → M W FwReply) (Unmarshal : string → result json).
Context (gateway : list GwRequest → result GwReply).
Context (AddrInfo : string → result unit) (hostID : Priv → string)
  (config_PeerID : string → result string) (sha3_Sum256 : list Z → list Z).

Notation life := (Run L P ParseKey Verify StatusText KuboDo cid_Decode boundary FwDo Unmarshal gateway
  AddrInfo hostID config_PeerID sha3_Sum256).
Notation all_lives := (lives L P ParseKey Verify StatusText KuboDo cid_Decode boundary FwDo Unmarshal gateway
  AddrInfo hostID config_PeerID sha3_Sum256).

(** C6. The database of a new host survives every restart.  Over any number of
    lives of the node on it, each life with any configuration, with failures of
    any calls (those of a migration included), ended by a signal, by the
    listener or by a panic: the rows keep the constraints, and the next Open
    whose calls of the driver answer, with any path and permissions, succeeds
    from wherever the file was left, completes the schema, changes no row, and
    leaves a connection on which SQLite accepts the rows and enforces exactly
    the constraints. *)
Theorem restarts_keep_database h h' :
  all_lives h h' → f_cat (h_file h) = empty_catalog → host_rows h = empty_tables →
  db_wf (host_rows h') ∧
  ∀ mode path, ∃ f',
    Open None mode path (set_rows (mkDB (host_rows h') []) (h_file h')) = (Ok tt, f') ∧
    f_cat f' = schema ∧ tbl (f_db f') = host_rows h' ∧
    enforces f' (contents (host_rows h')) ∧ ∀ t, enforces f' (contents t) ↔ db_wf t.
Proof.
  intros H Hc Hrows. assert (attempted (h_file h') ∧ db_wf (host_rows h')) as [H1 H2].
  { assert (attempted (h_file h)) as Ha by (by apply attempted_new).
    assert (db_wf (host_rows h)) as Hwf by (rewrite Hrows; apply empty_wf). clear Hc Hrows.
    induction H as [h|cfg i h rep h1 h2 E _ IH]; [done|].
    destruct (Run_database _ _ _ _ _ _ _ _ _ _ _ _ _ _ _ _ _ _ _ _ E Ha Hwf). by apply IH. }
  split; [done|]. intros mode path. set (f := set_rows (mkDB (host_rows h') []) (h_file h')).
  assert (attempted f) as Hf by (by apply (attempted_used (h_file h'))).
  destruct (Open_succeeds mode path f Hf eq_refl) as [f' E]. exists f'.
  destruct (Open_enforces mode path f f' Hf E) as (E1 & E2 & E3).
  split; [done|]. split; [done|]. split; [done|]. split; [by apply E3|done].
Qed.

(** C30. A life that ends leaves nothing open.  Unless a panic of another
    goroutine kills the process, whenever Run ends - with an error of the start,
    a panic of its own, after a signal or a failed listener - the database handle
    is closed, the carriers do not run, and the libp2p host that it started, if
    any, has been closed. *)
Theorem Run_leaves_nothing cfg i h rep h' r :
  life cfg i h = (rep, h') → attempted (h_file h) → f_open (h_file h) = false → rr_end rep = Returned r →
  rr_store rep = false ∧ rr_carriers rep = false ∧
  ∃ l, nt_calls (h_net h') = nt_calls (h_net h) ++ l ∧ no_host l.
Proof. apply Run_closes. Qed.

(** A listener that cannot bind is not an error of Run: the node stops after
    logging it, and Run returns what srv.Shutdown returns, so that main exits
    with status 0. *)
Lemma listen_failure_exits_zero cfg i h e rep h' :
  ru_end i = ListenFailed e → ru_shutdown i = Ok tt → life cfg i h = (rep, h') → rr_log rep ≠ [] →
  rr_log rep = ["http server error: " +:+ error_text e; "shutting down"] ∧ main_exit (rr_end rep) = Done [].
Proof.
  intros He Hs. unfold Run. destruct (open_file _ _ _ _ _) as [opened f].
  destruct (boot _ _ _ _ _ _ _ _ _) as [[b|e'] c]; [|by intros [= <- <-]].
  destruct (assemble _ _ _ _ _ _ _) as [s|e']; [|by intros [= <- <-]].
  destruct (serve _ _ _ _ _ _ _ _ _ _ _) as [[p|] s1]; intros [= <- <-]; [done|]. cbn. by rewrite He, Hs.
Qed.
End properties.

(** ** Witnesses *)

(** A host on which nothing has run; its peer port is taken. *)
Definition host_example : Host (list Z) nat :=
  mkHost (mkFile empty_catalog empty_db ∅ [] false []) (wit_world []) wit_repo []
    (mkNet [] [Some (EMsg "address in use")]) 0%nat.
Definition life_input (e : Ending) : RunInput :=
  mkRun boot_input None 420 [put_event "p9" "k9"; SDropPoll] e (Ok tt).

Local Notation life_example e :=
  (Run lib_example p2p_example wit_ParseKey sys_verify wit_text wit_Do wit_cid "b" do_down no_json gw_example
     addr_refused hex_encode wit_cp (λ b, b) sys_env (life_input e) host_example).

Example life_example_outcome :
  rr_end (life_example Signalled).1 = Returned (Ok tt) ∧
  p_WGPublicKey <$> abs (host_rows (life_example Signalled).2) !! "p9" = Some "k9".
Proof. split; vm_compute; reflexivity. Qed.

Lemma restarts_keep_database_witness :
  ∃ h' : Host (list Z) nat, host_rows h' = host_rows (life_example Signalled).2 ∧ db_wf (host_rows h') ∧
    ∃ f', Open None 420 "/state/node.db" (set_rows (mkDB (host_rows h') []) (h_file h')) = (Ok tt, f') ∧
      enforces f' (contents (host_rows h')).
Proof.
  exists (life_example Signalled).2. split; [reflexivity|].
  destruct (restarts_keep_database lib_example p2p_example wit_ParseKey sys_verify wit_text wit_Do wit_cid "b"
    do_down no_json gw_example addr_refused hex_encode wit_cp (λ b, b) host_example
    (life_example Signalled).2) as [H1 H2].
  - eapply lives_one; [apply surjective_pairing|apply lives_none].
  - reflexivity.
  - reflexivity.
  - split; [exact H1|]. destruct (H2 420 "/state/node.db") as (f' & E & _ & _ & E2 & _). exists f'.
    split; [exact E|exact E2].
Defined.

Lemma Run_leaves_nothing_witness :
  rr_end (life_example Signalled).1 = Returned (Ok tt) ∧
  rr_store (life_example Signalled).1 = false ∧ rr_carriers (life_example Signalled).1 = false.
Proof.
  assert (rr_end (life_example Signalled).1 = Returned (Ok tt)) as E by (vm_compute; reflexivity).
  destruct (Run_leaves_nothing lib_example p2p_example wit_ParseKey sys_verify wit_text wit_Do wit_cid "b" do_down
    no_json gw_example addr_refused hex_encode wit_cp (λ b, b) sys_env (life_input Signalled) host_example
    (life_example Signalled).1 (life_example Signalled).2 (Ok tt) (surjective_pairing _)
    (attempted_new (h_file host_example) eq_refl) eq_refl E) as (H1 & H2 & _).
  split; [exact E|]. split; [exact H1|exact H2].
Defined.

(** The port of the API is taken: the exit status is 0. *)
Example listen_failure_example :
  main_exit (rr_end (life_example (ListenFailed (EMsg "listen tcp :8080: address already in use"))).1) = Done [].
Proof. vm_compute. reflexivity. Qed.
